(* ===== verification/_CoqProject ===== *)
-Q . S2P
Prelude.v
GoStd.v
Data.v
Serde.v
SerdeFormat.v
Interactors.v
NonceV1.v
NonceV2.v
NthV2.v
NonceFlow.v
NthFlow.v
V1Flow.v
TxHeap.v
Worker.v
NonceV3.v
SendFlow.v
SendProgress.v
Crypto.v
Storage.v
Http.v
Auth.v
Builders.v
TxDataBuilder.v
VmQueryBuilder.v
RelayedTx.v
TxBuilder.v
Interactor.v
EndpointProviders.v
Finality.v
Responses.v
BaseProxy.v
AddressGenerator.v
Api.v
Proxy.v
FilterLogs.v
VmQueryGetter.v
Workflows.v
Loops.v
Polling.v
HeaderCheck.v
Wallet.v
Float.v
ParseFloat.v
Aggregator.v
Fetchers.v
Notifee.v
Cli.v
TrackerFlow.v
ProxyClient.v
WalletFlow.v
WalletApp.v
HeaderFactory.v
Oracle.v
WebServer.v
Libbls.v
Balance.v
Examples.v
CliFlags.v
Disabled.v
