(* ===== verification/Prelude.v ===== *)
(** * Verification of the MultiversX SDK for Go

    A model of mx-sdk-go in Rocq, file by file, with the theorems that make its
    parts correct.  Every definition is written after one piece of Go code, whose
    names it keeps; a Go method becomes a function that passes the state of its
    receiver and of the world outside explicitly (the monad [M] of this file) and
    answers a value, an error or a run time panic ([outcome]).

    ** The parts of the program and their files

    Common ground: [Prelude] (errors, outcomes, the state monad, machine
    integers), [GoStd] (what the code uses of Go's standard library: hexadecimal,
    base64 and decimal text, big integers, strings, maps walked in an arbitrary
    order, time), [Data] (data/: transactions, accounts, addresses), [Interactors]
    (interactors/interface.go, the [Proxy] interface and a network for concrete
    runs).

    - serde/: [Serde] (sourceBuffer.go, deserializer.go), [SerdeFormat]
      (the wire format it accepts).
    - interactors/: [NonceV1], [NonceV2] with [NthV2], [NonceV3] with [Worker] and
      [TxHeap] (the nonce handlers; version 3 sends through a worker per address
      with a priority queue), [Interactor] (transaction.go), [Wallet] (wallet.go).
      [NonceFlow] and [NthFlow] run the calls of version 2 concurrently: on one
      handler, and on the map of handlers with its resend goroutine and [Close];
      [V1Flow] has the map of version 1 and its loop.  [SendFlow] and [SendProgress]
      run [SendTransactions] of version 3: calls, their goroutines and the workers.
    - blockchain/: [EndpointProviders], [Finality], [Responses] (the API's answers),
      [BaseProxy], [Proxy], [FilterLogs], [VmQueryGetter], [AddressGenerator];
      cryptoProvider/ is [Crypto].  [ProxyClient] has the proxy as the instance of
      its users' interfaces, down to the requests on the wire.
    - builders/: [Builders], [TxDataBuilder], [VmQueryBuilder], [RelayedTx],
      [TxBuilder] (with txcheck/ as its module [TxCheck]).
    - authentication/: [Auth].  storage/: [Storage].  core/: [Http], [Api], [Polling].
    - workflows/: [Workflows], [TrackerFlow] (the tracker's goroutine beside its
      callers); [Loops] has the termination of the counting loops.
    - aggregator/: [Float] and [ParseFloat] (float64 on SpecFloat, strconv and fmt),
      [Aggregator], [Fetchers], [Notifee], [WebServer] (api/).
    - headerCheck/: [HeaderCheck], [HeaderFactory] (headerCheckFactory.go, factory/).
    - cmd/cli/: [Cli], [CliFlags].  libraries/: [Libbls].
    - data/account.go's [GetBalance], on big floats, is [Balance].
    - examples/: [WalletFlow] (setup and sweep of examplesFlowWalletTracker) and
      [WalletApp] (the running program), [Oracle] (examplesPriceAggregator),
      [Examples]; the header check sample is in [HeaderFactory].
    - disabled/: [Disabled], what the empty implementations answer.

    ** How the parts meet

    Components are joined by classes, as the Go code joins them by interfaces:
    [InteractorProxy], [ProxyHandler], [HttpClientWrapper], [EndpointProvider],
    [FinalityProvider], [Signer], [Cacher], [AddressNonceHandler], [PriceFetcher],
    [PriceNotifee], [TransactionNonceHandler], [UserSigner], [HeaderProxy] and
    others.  Where the repository implements an interface, the instance is the
    model of that implementation: the proxy's routes by the two endpoint providers,
    the cache by the map cacher, the signer by the crypto provider, the price
    fetchers under the aggregator, the nonce handler V2 and the transaction builder
    under the notifee.  [Cli] composes wallet, builders, signer and interactor;
    [ProxyClient] puts the real proxy behind it, [HeaderFactory] behind the header
    verifier, [WalletFlow] behind tracker, interactor and builder, and [Oracle] runs
    aggregator, notifier, notifee and polling handler together.  The main functions of
    the samples start with [ProxyClient.with_proxy]: [NewProxy] over a client, and the
    program over the routes and the finality provider it chose.  Two components are
    joined by a class of steps instead of methods: the owners of the nonce handlers
    ([NthFlow.OwnedHandler], with instances for versions 1 and 2).

    ** What belongs to other libraries

    JSON, protobuf, HTTP, bech32, signatures and hashes, scrypt, AES and HMAC, PEM,
    the file system, randomness and the clock, and the node's own libraries
    (shard coordinator, blockchain hook, nodes coordinator, header verifier, their
    constructors), gin and the argument parser of the command line are class
    parameters; the ...Laws classes state the documented behaviour a theorem
    relies on, and every such theorem has a run with concrete instances in the
    module ...Run at the end of its file.

    ** What the theorems show

    - Round trips: deserialized structs are the encoded ones, authentication tokens,
      data fields of contract calls, relayed transactions, key files, price batches.
    - Functional behaviour on every branch: nonces handed out without gaps, resend
      passes, bunches, hyper block ticks, rounds of the price notifier, the checks of
      finality, the block filter against a search of the chain, the command line.
    - Invariants and safety of the concurrent parts as step relations: the
      transaction worker, the polling handler, the calls of the nonce handler V2 and
      of its owner, the calls of [SendTransactions] (each hash is the network's answer
      for the transaction at its index, nothing is sent twice), the wallet tracker and
      its sweeps (every deposit goes to one), the web server; of the deserializer (no panic,
      and what it accepts is what its format says), of signatures (user and guardian), of medians (an honest majority
      decides), of header verdicts and of key files (the MAC and the address).
    - Progress: the worker never blocks, a call of [SendTransactions] that waits can
      return, the polling loop can end after [Close].
    - Refinement: the steps of the wallet tracker program are steps of its tracker's
      world.  ([NonceFlow] and [NonceV2] translate the same methods, as steps and as
      functions; a lemma says that they agree on a call no other call interrupts.)
    - Compositions: the header verifier built from the genesis answers, the price
      oracle from rounds to transactions, the sweep of the wallet tracker service, the
      options of the command line to the fields of the transaction and to the wire.
    - Termination: the counting loops of a search and of the tracker end below the
      last [uint64], where they do not.

    ** Fuel

    Loops that are no structural recursion take fuel and panic without it; the
    theorems show that it never runs out: [send_bunches] gets the number of the
    transactions, [filterLoop] 501 blocks, the greatest range that is accepted,
    [process_loop] the distance to the latest block, [heap_up] and [heap_down] the
    size of the queue, [sprintf_go] the length of the format.

    Concurrency has no fuel: the step relations allow every interleaving, and the
    executable schedulers ([NonceFlow.exec], [SendFlow.exec]) follow a finite list of
    steps.

    ** Not modelled

    The time a timer or ticker waits (a tick is a step that may come at any moment, or
    one call), log output except where it is a program's result, testsCommon/ and the
    other mocks (test code), the [IsInterfaceNil] methods (nil is [None], or a flag of
    the constructor), the parsing of command line arguments by its library and its help
    text, the text of the block sample's [json.MarshalIndent], and interfaces that no
    modelled code calls.  White space and upper case of texts are those of ASCII.

    The step relations say what can happen, and progress is that the end can be reached
    from every state; that a scheduler or a timer is fair is no part of the model. *)

From Stdlib Require Export ZArith Lia.
From stdpp Require Export base gmap strings list list_numbers fin_maps.

#[global] Open Scope Z_scope.

(** ** Errors

    A Go error is a value. A package level [errors.New] variable is identified
    by its qualified name; a text built on the spot by [errors.New] or
    [fmt.Errorf] has no identity, so only its literal part is kept; [fmt.Errorf]
    with [%w] wraps the inner error. *)

Inductive error :=
  | ErrVar (name : string)
  | ErrText (msg : string)
  | ErrWrap (inner : error) (msg : string).

#[export] Instance error_eq_dec : EqDecision error.
Proof. solve_decision. Defined.

(** [errors.Is]: follow the chain of wrapped errors. *)
Fixpoint errors_Is (e target : error) : bool :=
  bool_decide (e = target) ||
  match e with
  | ErrWrap inner _ => errors_Is inner target
  | _ => false
  end.

(** ** Outcomes

    The result of a Go call that returns [(A, error)]: a value, an error, or a
    run time panic (index out of range, nil dereference). *)

Inductive outcome (A : Type) :=
  | Ok (a : A)
  | Fail (e : error)
  | Panic.
Arguments Ok {A} a.
Arguments Fail {A} e.
Arguments Panic {A}.

#[export] Instance outcome_eq_dec `{EqDecision A} : EqDecision (outcome A).
Proof. solve_decision. Defined.

#[export] Instance outcome_ret : MRet outcome := λ A a, Ok a.
#[export] Instance outcome_bind : MBind outcome := λ A B f m,
  match m with Ok a => f a | Fail e => Fail e | Panic => Panic end.
#[export] Instance outcome_fmap : FMap outcome := λ A B f m,
  match m with Ok a => Ok (f a) | Fail e => Fail e | Panic => Panic end.

(** A guard: [if c { return err }]. *)
Definition guard_err (c : bool) (e : error) : outcome () :=
  if c then Fail e else Ok ().

(** An optional value read with the given error on absence. *)
Definition of_option {A} (e : error) (o : option A) : outcome A :=
  match o with Some a => Ok a | None => Fail e end.

Definition is_ok {A} (o : outcome A) : bool :=
  match o with Ok _ => true | _ => false end.

(** ** State and errors

    A method with a receiver and calls to the outside world passes a state
    explicitly; an error or a panic keeps the state reached so far. *)

Definition M (S A : Type) : Type := S → outcome A * S.

#[export] Instance M_ret S : MRet (M S) := λ A a s, (Ok a, s).
#[export] Instance M_bind S : MBind (M S) := λ A B f m s,
  match m s with
  | (Ok a, s') => f a s'
  | (Fail e, s') => (Fail e, s')
  | (Panic, s') => (Panic, s')
  end.

Definition throw {S A} (e : error) : M S A := λ s, (Fail e, s).
Definition panic {S A} : M S A := λ s, (Panic, s).
Definition gets {S A} (f : S → A) : M S A := λ s, (Ok (f s), s).
Definition modify {S} (f : S → S) : M S () := λ s, (Ok (), f s).
Definition lift {S A} (o : outcome A) : M S A := λ s, (o, s).

(** [*p]: the value behind a pointer that may be nil. *)
Definition deref {S A} (p : option A) : M S A := λ s,
  match p with Some a => (Ok a, s) | None => (Panic, s) end.

(** The error of a call taken as a value: [x, err := f()]. *)
Definition try {S A} (m : M S A) : M S (error + A) := λ s,
  match m s with
  | (Ok a, s') => (Ok (inr a), s')
  | (Fail e, s') => (Ok (inl e), s')
  | (Panic, s') => (Panic, s')
  end.

(** [fmt.Errorf("%w ...", err)] around a failing call. *)
Definition wrapping {S A} (f : error → error) (m : M S A) : M S A := λ s,
  match m s with
  | (Fail e, s') => (Fail (f e), s')
  | r => r
  end.

(** A component that owns [S] inside a world [W], and calls that reach only
    one side of the pair. *)
Definition onfst {S W A} (m : M S A) : M (S * W) A := λ '(s, w),
  let '(r, s') := m s in (r, (s', w)).
Definition onsnd {S W A} (m : M W A) : M (S * W) A := λ '(s, w),
  let '(r, w') := m w in (r, (s, w')).

(** [for _, x := range l { f(x) }] where an error leaves the function. *)
Fixpoint mfor {S A} (l : list A) (f : A → M S ()) : M S () :=
  match l with
  | [] => mret ()
  | x :: l' => f x ;; mfor l' f
  end.

(** [for _, x := range l { r = append(r, f(x)) }]. *)
Fixpoint mcollect {S A B} (l : list A) (f : A → M S B) : M S (list B) :=
  match l with
  | [] => mret []
  | x :: l' => y ← f x; ys ← mcollect l' f; mret (y :: ys)
  end.

(** The results of [n] calls of [m], one after the other. *)
Fixpoint mtimes {S A} (n : nat) (m : M S A) : M S (list A) :=
  match n with
  | O => mret []
  | S n' => y ← m; ys ← mtimes n' m; mret (y :: ys)
  end.

(** ** Computations that never panic *)

Definition no_panic {S A} (m : M S A) : Prop := ∀ s, (m s).1 ≠ Panic.

Lemma no_panic_ret {S A} (a : A) : no_panic (S := S) (mret a).
Proof. by intros s. Qed.

Lemma no_panic_throw {S A} e : no_panic (S := S) (A := A) (throw e).
Proof. by intros s. Qed.

Lemma no_panic_lift {S A} (o : outcome A) : o ≠ Panic → no_panic (S := S) (lift o).
Proof. by intros Ho s. Qed.

Lemma no_panic_bind {S A B} (m : M S A) (f : A → M S B) :
  no_panic m → (∀ a, no_panic (f a)) → no_panic (m ≫= f).
Proof.
  intros Hm Hf s. unfold mbind, M_bind. specialize (Hm s). destruct (m s) as [[a|e|] s']; [apply Hf|done..].
Qed.

(** A pointer that is never nil may be dereferenced. *)
Lemma no_panic_deref {S A B} (m : M S (option A)) (f : A → M S B) :
  no_panic m → (∀ s s', m s ≠ (Ok None, s')) → (∀ a, no_panic (f a)) →
  no_panic (o ← m; a ← deref o; f a).
Proof.
  intros Hm Hn Hf s. unfold mbind, M_bind, deref. specialize (Hm s). specialize (Hn s).
  destruct (m s) as [[[a|]|e|] s']; [apply Hf|by edestruct Hn|done..].
Qed.

Lemma no_panic_if {S A} (b : bool) (m1 m2 : M S A) : no_panic m1 → no_panic m2 → no_panic (if b then m1 else m2).
Proof. by destruct b. Qed.

Create HintDb panic.
#[export] Hint Resolve no_panic_ret no_panic_throw no_panic_lift no_panic_bind no_panic_deref no_panic_if : panic.

(** ** Machine integers

    A machine integer is the [Z] it denotes; every arithmetic operation of the
    source is followed by the reduction to its type's range. *)

Definition u64 (z : Z) : Z := z mod 2 ^ 64.
Definition u32 (z : Z) : Z := z mod 2 ^ 32.
Definition i64 (z : Z) : Z := (z + 2 ^ 63) mod 2 ^ 64 - 2 ^ 63.
Definition i32 (z : Z) : Z := (z + 2 ^ 31) mod 2 ^ 32 - 2 ^ 31.
Definition i16 (z : Z) : Z := (z + 2 ^ 15) mod 2 ^ 16 - 2 ^ 15.
Definition i8 (z : Z) : Z := (z + 2 ^ 7) mod 2 ^ 8 - 2 ^ 7.
Definition MaxUint64 : Z := 2 ^ 64 - 1.

Definition is_u64 (z : Z) : Prop := 0 ≤ z < 2 ^ 64.
Definition is_i64 (z : Z) : Prop := - 2 ^ 63 ≤ z < 2 ^ 63.

Lemma u64_small z : is_u64 z → u64 z = z.
Proof. unfold is_u64, u64. intros. by apply Z.mod_small. Qed.

Lemma u64_range z : is_u64 (u64 z).
Proof. unfold is_u64, u64. by apply Z.mod_pos_bound. Qed.

Lemma i64_small z : is_i64 z → i64 z = z.
Proof. unfold is_i64, i64. intros. rewrite Z.mod_small; lia. Qed.

Lemma i64_range z : is_i64 (i64 z).
Proof.
  unfold is_i64, i64. pose proof (Z.mod_pos_bound (z + 2 ^ 63) (2 ^ 64)). lia.
Qed.

Create HintDb go.
Create Rewrite HintDb go.
#[export] Hint Resolve u64_range i64_range : go.
#[export] Hint Rewrite u64_small i64_small using (auto with go; unfold is_u64, is_i64 in *; lia) : go.

(** ** Iteration order of Go maps

    [range] over a map visits every entry once, in an order the language does
    not specify: every model of a loop over a map is parametric in it. *)

Class MapRange (V : Type) := {
  range : gmap string V → list (string * V);
  range_perm m : range m ≡ₚ map_to_list m }.

Class MapRangeZ (V : Type) := {
  rangeZ : gmap Z V → list (Z * V);
  rangeZ_perm m : rangeZ m ≡ₚ map_to_list m }.

(** The order of [map_to_list], for the concrete runs. *)
Definition map_to_list_range V : MapRange V := {| range := map_to_list; range_perm _ := reflexivity _ |}.
Definition map_to_list_rangeZ V : MapRangeZ V := {| rangeZ := map_to_list; rangeZ_perm _ := reflexivity _ |}.

(** ** Tactics *)

(** Unfold the monad in the goal or in a hypothesis. *)
Ltac mred :=
  cbv [mbind mret fmap M_bind M_ret outcome_bind outcome_ret outcome_fmap throw panic
       gets modify lift try wrapping onfst onsnd guard_err of_option] in *;
  cbn beta iota zeta delta [fst snd] in *.

(** Run a computation: case split on the calls it makes, in order. *)
Ltac mstep :=
  match goal with
  | |- context [match ?x with _ => _ end] => let E := fresh "E" in destruct x eqn:E
  | H : context [match ?x with _ => _ end] |- _ => let E := fresh "E" in destruct x eqn:E
  end; cbn beta iota zeta delta [fst snd] in *; simplify_eq.
Ltac mrun := mred; repeat mstep.

(** Arithmetic with division and remainder made linear. *)
Ltac zdiv := Z.div_mod_to_equations; lia.

(** ** Generic lemmas *)

(** A list read through the monad, when each read succeeds and keeps the state. *)
Lemma mcollect_pure {S A B} (l : list A) (f : A → M S B) (g : A → B) s :
  (∀ x, x ∈ l → f x s = (Ok (g x), s)) → mcollect l f s = (Ok (g <$> l), s).
Proof.
  induction l as [|x l IH]; intros H; [done|].
  cbn [mcollect]. unfold mbind, M_bind, mret, M_ret. rewrite H by set_solver.
  by rewrite IH by set_solver.
Qed.

(** [n] calls whose results count up, from an invariant that each call carries on. *)
Lemma mtimes_seqZ {S} (m : M S Z) (P : Z → S → Prop) n k s :
  (∀ i s, i < n + k → P i s → ∃ s', m s = (Ok i, s') ∧ P (i + 1) s') →
  P n s → 0 ≤ k →
  ∃ s', mtimes (Z.to_nat k) m s = (Ok (seqZ n k), s') ∧ P (n + k) s'.
Proof.
  intros Hm HP Hk. rewrite <-(Z2Nat.id k Hk) in Hm |- *. rewrite Nat2Z.id.
  revert n s HP Hm. clear Hk. induction (Z.to_nat k) as [|j IH]; intros n s HP Hm.
  - exists s. rewrite Z.add_0_r. done.
  - destruct (Hm n s) as (s1 & E1 & P1); [lia|done|].
    destruct (IH (n + 1) s1) as (s2 & E2 & P2); [done|intros; apply Hm; [lia|done]|].
    exists s2. cbn [mtimes]. unfold mbind, M_bind, mret, M_ret. rewrite E1, E2.
    rewrite (seqZ_cons n) by lia. replace (Z.succ n) with (n + 1) by lia.
    replace (Z.pred (Z.of_nat (Datatypes.S j))) with (Z.of_nat j) by lia.
    split; [done|]. by replace (n + Z.of_nat (Datatypes.S j)) with (n + 1 + Z.of_nat j) by lia.
Qed.

Lemma map_range_elem {V} `{MapRange V} m k v : (k, v) ∈ range m ↔ m !! k = Some v.
Proof. rewrite (range_perm m). apply elem_of_map_to_list. Qed.

Lemma map_rangeZ_elem {V} `{MapRangeZ V} m k v : (k, v) ∈ rangeZ m ↔ m !! k = Some v.
Proof. rewrite (rangeZ_perm m). apply elem_of_map_to_list. Qed.

Lemma map_rangeZ_NoDup {V} `{MapRangeZ V} m : NoDup (rangeZ m).*1.
Proof. rewrite (rangeZ_perm m). apply NoDup_fst_map_to_list. Qed.

Lemma map_range_NoDup {V} `{MapRange V} m : NoDup (range m).*1.
Proof. rewrite (range_perm m). apply NoDup_fst_map_to_list. Qed.

#[export] Hint Rewrite @map_range_elem @map_rangeZ_elem : go.

(** A function of the keys that tells them apart has no repetition. *)
Lemma NoDup_fmap_fst_inj {K V B} (f : K → B) (L : list (K * V)) :
  (∀ e1 e2, e1 ∈ L → e2 ∈ L → f e1.1 = f e2.1 → e1.1 = e2.1) →
  NoDup L.*1 → NoDup ((λ e, f e.1) <$> L).
Proof.
  induction L as [|e L IH]; intros Hf Hnd; [constructor|]. apply NoDup_cons in Hnd as [He Hnd].
  cbn. constructor.
  - intros (e2 & E & Hin)%list_elem_of_fmap. apply He. rewrite (Hf e e2); [|by left|by right|done].
    by apply list_elem_of_fmap_2.
  - apply IH; [|done]. intros e1 e2 H1 H2. apply Hf; by right.
Qed.
