(* ===== verification/GoStd.v ===== *)
(** * The parts of Go's standard library the SDK uses

    Executable models of what the sources call of [encoding/hex],
    [encoding/binary], [encoding/base64], [math/big], [strconv] and [strings],
    with the round trip lemmas the components share. A [[]byte] is a
    [list byte], a Go [string] (a sequence of bytes) a Rocq [string].
    [strings.TrimSpace] and [strings.ToUpper] are modelled on ASCII text. *)

From Stdlib Require Export Strings.Byte Ascii String.
From Stdlib Require Import DecimalString DecimalZ Decimal.
From S2P Require Export Prelude.

#[export] Instance byte_eq_dec : EqDecision byte := Byte.byte_eq_dec.
#[global] Open Scope string_scope.
#[global] Open Scope list_scope.
#[global] Open Scope Z_scope.

Abbreviation bytes := (list byte).

(** [string(b)] and [[]byte(s)]. *)
Abbreviation string_of_bytes := String.string_of_list_byte.
Abbreviation bytes_of_string := String.list_byte_of_string.

Lemma string_of_bytes_of_string s : string_of_bytes (bytes_of_string s) = s.
Proof. apply string_of_list_byte_of_string. Qed.
Lemma bytes_of_string_of_bytes b : bytes_of_string (string_of_bytes b) = b.
Proof. apply list_byte_of_string_of_list_byte. Qed.
#[export] Hint Rewrite string_of_bytes_of_string bytes_of_string_of_bytes : go.

#[export] Instance string_of_bytes_inj : Inj eq eq string_of_bytes.
Proof. intros a b E%(f_equal bytes_of_string). by rewrite !bytes_of_string_of_bytes in E. Qed.

(** ** Bytes as numbers *)

Definition byte_Z (b : byte) : Z := Z.of_N (Byte.to_N b).
Definition byte_of_Z (z : Z) : byte := default x00 (Byte.of_N (Z.to_N (z mod 256))).

Lemma byte_Z_range b : 0 ≤ byte_Z b < 256.
Proof. unfold byte_Z. pose proof (Byte.to_N_bounded b). lia. Qed.

Lemma byte_of_Z_of_byte b : byte_of_Z (byte_Z b) = b.
Proof.
  unfold byte_of_Z. rewrite Z.mod_small by apply byte_Z_range.
  unfold byte_Z. by rewrite N2Z.id, Byte.of_to_N.
Qed.

Lemma byte_Z_of_Z z : byte_Z (byte_of_Z z) = z mod 256.
Proof.
  unfold byte_of_Z, byte_Z. pose proof (Z.mod_pos_bound z 256 eq_refl).
  destruct (Byte.of_N (Z.to_N (z mod 256))) eqn:E; simpl.
  - apply Byte.to_of_N in E. lia.
  - apply Byte.of_N_None_iff in E. lia.
Qed.

Lemma byte_Z_inj a b : byte_Z a = byte_Z b → a = b.
Proof. intros E%(f_equal byte_of_Z). by rewrite !byte_of_Z_of_byte in E. Qed.

(** ** [encoding/binary]: big endian words *)

Fixpoint be_to_Z (l : bytes) : Z :=
  match l with
  | [] => 0
  | b :: l' => byte_Z b * 256 ^ Z.of_nat (length l') + be_to_Z l'
  end.

Fixpoint be_of_Z (n : nat) (z : Z) : bytes :=
  match n with
  | O => []
  | S n' => byte_of_Z (z / 256 ^ Z.of_nat n') :: be_of_Z n' z
  end.

Lemma be_of_Z_length n z : length (be_of_Z n z) = n.
Proof. induction n; simpl; congruence. Qed.

Lemma pow256_pos n : 0 < 256 ^ Z.of_nat n.
Proof. apply Z.pow_pos_nonneg; lia. Qed.

Lemma pow256_S n : 256 ^ Z.of_nat (S n) = 256 * 256 ^ Z.of_nat n.
Proof. rewrite Nat2Z.inj_succ, Z.pow_succ_r; lia. Qed.

Lemma be_to_Z_bound l : 0 ≤ be_to_Z l < 256 ^ Z.of_nat (length l).
Proof.
  induction l as [|b l IH]; [simpl; lia|]. cbn [be_to_Z length].
  rewrite pow256_S. pose proof (byte_Z_range b). nia.
Qed.

Lemma be_to_Z_of_Z n z : be_to_Z (be_of_Z n z) = z mod 256 ^ Z.of_nat n.
Proof.
  induction n as [|n IH]; [simpl; by rewrite Z.mod_1_r|].
  cbn [be_of_Z be_to_Z]. rewrite be_of_Z_length, byte_Z_of_Z, IH, pow256_S.
  rewrite (Z.mul_comm 256), Z.rem_mul_r by (pose proof (pow256_pos n); lia). lia.
Qed.

Lemma be_of_Z_to_Z l : be_of_Z (length l) (be_to_Z l) = l.
Proof.
  assert (G : ∀ l z, 0 ≤ z → be_of_Z (length l) (z * 256 ^ Z.of_nat (length l) + be_to_Z l) = l).
  { clear. induction l as [|b l IH]; intros z Hz; [done|]. cbn [length be_of_Z be_to_Z].
    pose proof (be_to_Z_bound l). pose proof (pow256_pos (length l)). f_equal.
    - rewrite pow256_S, Z.add_assoc.
      replace (z * (256 * 256 ^ Z.of_nat (length l)) + byte_Z b * 256 ^ Z.of_nat (length l))
        with ((byte_Z b + z * 256) * 256 ^ Z.of_nat (length l)) by ring.
      rewrite Z.div_add_l, Z.div_small by lia. rewrite Z.add_0_r.
      rewrite <- (byte_of_Z_of_byte b) at 2. unfold byte_of_Z.
      by rewrite Z_mod_plus_full.
    - rewrite pow256_S.
      replace (z * (256 * 256 ^ Z.of_nat (length l)) + (byte_Z b * 256 ^ Z.of_nat (length l) + be_to_Z l))
        with ((z * 256 + byte_Z b) * 256 ^ Z.of_nat (length l) + be_to_Z l) by ring.
      apply IH. pose proof (byte_Z_range b). lia. }
  apply (G l 0). lia.
Qed.

Lemma be_to_Z_app (a b : bytes) :
  be_to_Z (a ++ b) = be_to_Z a * 256 ^ Z.of_nat (length b) + be_to_Z b.
Proof.
  induction a as [|x a IH]; [done|]. simpl. rewrite IH, length_app, Nat2Z.inj_add, Z.pow_add_r by lia. ring.
Qed.

(** ** [math/big] *)

(** [x.Bytes()]: the absolute value as a big endian byte slice with no leading
    zero; [SetBytes] is [be_to_Z]. *)
Definition bigint_Bytes (z : Z) : bytes :=
  if z =? 0 then [] else be_of_Z (Z.to_nat (Z.log2 (Z.abs z) / 8 + 1)) (Z.abs z).

Lemma bigint_Bytes_value z : be_to_Z (bigint_Bytes z) = Z.abs z.
Proof.
  unfold bigint_Bytes. destruct (Z.eqb_spec z 0) as [->|Hz]; [done|].
  rewrite be_to_Z_of_Z. apply Z.mod_small. split; [lia|].
  pose proof (Z.log2_nonneg (Z.abs z)).
  rewrite Z2Nat.id by (pose proof (Z.div_pos (Z.log2 (Z.abs z)) 8); lia).
  destruct (Z.log2_spec (Z.abs z)) as [_ Hlt]; [lia|].
  eapply Z.lt_le_trans; [exact Hlt|].
  change 256 with (2 ^ 8). rewrite <- Z.pow_mul_r by zdiv. apply Z.pow_le_mono_r; zdiv.
Qed.

Lemma bigint_Bytes_nil z : bigint_Bytes z = [] ↔ z = 0.
Proof.
  split; [|by intros ->]. intros E. apply (f_equal be_to_Z) in E.
  rewrite bigint_Bytes_value in E. simpl in E. lia.
Qed.
#[export] Hint Rewrite bigint_Bytes_value be_of_Z_length : go.

(** ** Decimal text: [%d], [big.Int.String], [SetString(s, 10)], [ParseInt] *)

Definition itoa (z : Z) : string := NilZero.string_of_int (Z.to_int z).

Definition digits_of (s : string) : option Z :=
  (λ d, Z.of_int (Pos d)) <$> NilZero.uint_of_string s.

Definition bigint_SetString (s : string) : option Z :=
  match s with
  | String c s' =>
    if Ascii.eqb c "-" then Z.opp <$> digits_of s'
    else if Ascii.eqb c "+" then digits_of s'
    else digits_of s
  | EmptyString => None
  end.

Lemma digits_of_uint d : d ≠ Nil → digits_of (NilZero.string_of_uint d) = Some (Z.of_int (Pos d)).
Proof. intros H. unfold digits_of. by rewrite NilZero.usu. Qed.

Lemma to_int_nonnil z : match Z.to_int z with Pos d | Neg d => d ≠ Nil end.
Proof.
  destruct z as [|p|p]; cbn; [done| |]; unfold Pos.to_uint;
    intros E; apply (f_equal Pos.of_uint) in E.
  all: pose proof (DecimalPos.Unsigned.of_to p) as H; unfold Pos.to_uint in H; rewrite E in H; done.
Qed.

Lemma uint_string_head d :
  d ≠ Nil → ∃ c s, NilZero.string_of_uint d = String c s ∧ c ≠ "-"%char ∧ c ≠ "+"%char.
Proof. intros H. destruct d; try done; cbn; eexists _, _; repeat split; discriminate. Qed.

Lemma bigint_SetString_itoa z : bigint_SetString (itoa z) = Some z.
Proof.
  unfold itoa. pose proof (to_int_nonnil z) as Hn. pose proof (of_to z) as Hz.
  destruct (Z.to_int z) as [d|d] eqn:E; cbn [NilZero.string_of_int].
  - destruct (uint_string_head d Hn) as (c & s & Es & H1 & H2).
    rewrite Es. cbn [bigint_SetString].
    rewrite (proj2 (Ascii.eqb_neq _ _) H1), (proj2 (Ascii.eqb_neq _ _) H2), <- Es.
    rewrite digits_of_uint by done. by rewrite Hz.
  - cbn [bigint_SetString]. change (Ascii.eqb "-" "-") with true. cbv iota.
    rewrite digits_of_uint by done. cbn in *. f_equal. exact Hz.
Qed.

(** [strconv.ParseInt(s, 10, 64)]. *)
Definition errSyntax : error := ErrVar "strconv.ErrSyntax".
Definition errRange : error := ErrVar "strconv.ErrRange".
Definition strconv_ParseInt (s : string) : outcome Z :=
  match bigint_SetString s with
  | None => Fail (ErrWrap errSyntax "strconv.ParseInt")
  | Some z => if (- 2 ^ 63 <=? z) && (z <? 2 ^ 63) then Ok z
              else Fail (ErrWrap errRange "strconv.ParseInt")
  end.

Lemma strconv_ParseInt_itoa z : is_i64 z → strconv_ParseInt (itoa z) = Ok z.
Proof.
  unfold is_i64, strconv_ParseInt. intros H. rewrite bigint_SetString_itoa.
  by rewrite (proj2 (Z.leb_le _ _)), (proj2 (Z.ltb_lt _ _)) by lia.
Qed.

#[export] Instance itoa_inj : Inj eq eq itoa.
Proof. intros a b E%(f_equal bigint_SetString). rewrite !bigint_SetString_itoa in E. congruence. Qed.

(** ** Characters of a string *)

Fixpoint string_forallb (P : ascii → bool) (s : string) : bool :=
  match s with EmptyString => true | String c s' => P c && string_forallb P s' end.

Definition has_char (c : ascii) (s : string) : bool :=
  negb (string_forallb (λ x, negb (Ascii.eqb x c)) s).
Abbreviation lacks c s := (string_forallb (λ x, negb (Ascii.eqb x c)) s = true).

Lemma string_app_assoc (a b c : string) : a +:+ (b +:+ c) = (a +:+ b) +:+ c.
Proof. induction a as [|x a IH]; [done|]. change (String x (a +:+ (b +:+ c)) = String x ((a +:+ b) +:+ c)). by rewrite IH. Qed.

Lemma string_app_nil_r (a : string) : a +:+ "" = a.
Proof. induction a as [|x a IH]; [done|]. change (String x (a +:+ "") = String x a). by rewrite IH. Qed.

Lemma string_forallb_app P a b :
  string_forallb P (a +:+ b) = string_forallb P a && string_forallb P b.
Proof. induction a as [|x a IH]; [done|]. simpl. rewrite IH. by destruct (P x). Qed.

Lemma string_forallb_impl P Q s :
  (∀ c, P c = true → Q c = true) → string_forallb P s = true → string_forallb Q s = true.
Proof.
  intros H. induction s as [|c s IH]; [done|]. simpl.
  intros [H1 H2]%andb_prop. by rewrite (H _ H1), IH.
Qed.

Definition is_digit (c : ascii) : bool :=
  let n := N_of_ascii c in (48 <=? n)%N && (n <=? 57)%N.

Lemma uint_string_digits d : string_forallb is_digit (NilEmpty.string_of_uint d) = true.
Proof. induction d; cbn; auto. Qed.

Lemma itoa_chars z : string_forallb (λ c, is_digit c || Ascii.eqb c "-") (itoa z) = true.
Proof.
  assert (G : ∀ d, string_forallb (λ c, is_digit c || Ascii.eqb c "-") (NilZero.string_of_uint d) = true).
  { intros d. eapply string_forallb_impl; [|instantiate (1 := is_digit)].
    - intros c ->. done.
    - destruct d; [done|apply (uint_string_digits (D0 d))..|]; apply uint_string_digits || done.
      all: try exact (uint_string_digits _). }
  unfold itoa. destruct (Z.to_int z); cbn; [apply G|]. by rewrite G.
Qed.

(** ** [strings] *)

(** [strings.Split(s, c)] for a one character separator. *)
Fixpoint strings_Split (c : ascii) (s : string) : list string :=
  match s with
  | EmptyString => [""]
  | String x s' =>
    if Ascii.eqb x c then "" :: strings_Split c s'
    else match strings_Split c s' with
         | [] => [String x ""]
         | p :: ps => String x p :: ps
         end
  end.

Fixpoint strings_Join (sep : string) (l : list string) : string :=
  match l with
  | [] => ""
  | [s] => s
  | s :: l' => s +:+ sep +:+ strings_Join sep l'
  end.

Lemma strings_Split_not_nil c s : strings_Split c s ≠ [].
Proof. destruct s as [|x s]; [done|]. simpl. destruct (Ascii.eqb x c); [done|]. by destruct (strings_Split c s). Qed.

Lemma strings_Split_lacks c s : lacks c s → strings_Split c s = [s].
Proof.
  induction s as [|x s IH]; [done|]. simpl. intros [H1%negb_true_iff H2]%andb_prop.
  by rewrite H1, IH.
Qed.

Lemma strings_Split_app c a s :
  lacks c a → strings_Split c (a +:+ String c s) = a :: strings_Split c s.
Proof.
  induction a as [|x a IH]; simpl.
  - by rewrite Ascii.eqb_refl.
  - intros [H1%negb_true_iff H2]%andb_prop. by rewrite H1, IH.
Qed.

Lemma strings_Split_sep c a s :
  lacks c a → strings_Split c (a +:+ String c "" +:+ s) = a :: strings_Split c s.
Proof. exact (strings_Split_app c a s). Qed.

Lemma strings_Split_Join c l :
  l ≠ [] → Forall (λ s, lacks c s) l → strings_Split c (strings_Join (String c "") l) = l.
Proof.
  intros Hn Hl. induction Hl as [|s l Hs Hl IH]; [done|]. destruct l as [|s' l].
  - by apply strings_Split_lacks.
  - change (strings_Join (String c "") (s :: s' :: l))
      with (s +:+ String c (strings_Join (String c "") (s' :: l))).
    rewrite strings_Split_app by done. by rewrite IH.
Qed.

Definition is_space (c : ascii) : bool :=
  let n := N_of_ascii c in (n =? 32)%N || ((9 <=? n)%N && (n <=? 13)%N).

Fixpoint trim_left (P : ascii → bool) (s : string) : string :=
  match s with
  | String c s' => if P c then trim_left P s' else s
  | EmptyString => EmptyString
  end.

Fixpoint trim_right (P : ascii → bool) (s : string) : string :=
  match s with
  | String c s' =>
    match trim_right P s' with
    | EmptyString => if P c then EmptyString else String c EmptyString
    | t => String c t
    end
  | EmptyString => EmptyString
  end.

Definition strings_TrimSpace (s : string) : string := trim_right is_space (trim_left is_space s).

Lemma trim_left_id P s : string_forallb (λ c, negb (P c)) s = true → trim_left P s = s.
Proof. destruct s as [|c s]; [done|]. simpl. intros [H1%negb_true_iff H2]%andb_prop. by rewrite H1. Qed.

Lemma trim_right_id P s : string_forallb (λ c, negb (P c)) s = true → trim_right P s = s.
Proof.
  induction s as [|c s IH]; [done|]. simpl. intros [H1%negb_true_iff H2]%andb_prop.
  rewrite IH by done. destruct s; [by rewrite H1|done].
Qed.

Lemma strings_TrimSpace_id s :
  string_forallb (λ c, negb (is_space c)) s = true → strings_TrimSpace s = s.
Proof. intros H. unfold strings_TrimSpace. rewrite trim_left_id by done. by apply trim_right_id. Qed.

Lemma strings_TrimSpace_space s : strings_TrimSpace (String " " s) = strings_TrimSpace s.
Proof. done. Qed.

Fixpoint string_map (f : ascii → ascii) (s : string) : string :=
  match s with String c s' => String (f c) (string_map f s') | EmptyString => EmptyString end.

(** [strings.ReplaceAll(s, a, b)] for one character [a] and [b]. *)
Definition strings_ReplaceAll (a b : ascii) : string → string :=
  string_map (λ c, if Ascii.eqb c a then b else c).

(** [strings.TrimRight(s, c)]. *)
Definition strings_TrimRight (c : ascii) : string → string := trim_right (λ x, Ascii.eqb x c).

Definition to_upper (c : ascii) : ascii :=
  let n := N_of_ascii c in
  if ((97 <=? n) && (n <=? 122))%N then ascii_of_N (n - 32) else c.
Definition to_lower (c : ascii) : ascii :=
  let n := N_of_ascii c in
  if ((65 <=? n) && (n <=? 90))%N then ascii_of_N (n + 32) else c.
Definition strings_ToUpper : string → string := string_map to_upper.
Definition strings_ToLower : string → string := string_map to_lower.

Fixpoint strings_HasPrefix (p s : string) : bool :=
  match p, s with
  | EmptyString, _ => true
  | String a p', String b s' => Ascii.eqb a b && strings_HasPrefix p' s'
  | _, EmptyString => false
  end.

Fixpoint strings_Contains (s p : string) : bool :=
  strings_HasPrefix p s ||
  match s with String _ s' => strings_Contains s' p | EmptyString => false end.

(** ** [encoding/hex] *)

Definition hex_digit (z : Z) : ascii :=
  ascii_of_N (Z.to_N (if z <? 10 then 48 + z else 87 + z)).

Definition hex_value (c : ascii) : option Z :=
  let n := Z.of_N (N_of_ascii c) in
  if (48 <=? n) && (n <=? 57) then Some (n - 48)
  else if (97 <=? n) && (n <=? 102) then Some (n - 87)
  else if (65 <=? n) && (n <=? 70) then Some (n - 55)
  else None.

Fixpoint hex_EncodeToString (b : bytes) : string :=
  match b with
  | [] => ""
  | x :: b' =>
    String (hex_digit (byte_Z x / 16)) (String (hex_digit (byte_Z x mod 16)) (hex_EncodeToString b'))
  end.

(** The error of a failed decoding: an odd length or a byte that is no digit. *)
Definition errHex : error := ErrVar "encoding/hex".

Fixpoint hex_DecodeString (s : string) : outcome bytes :=
  match s with
  | EmptyString => Ok []
  | String a (String b s') =>
    match hex_value a, hex_value b with
    | Some x, Some y => l ← hex_DecodeString s'; Ok (byte_of_Z (x * 16 + y) :: l)
    | _, _ => Fail errHex
    end
  | _ => Fail errHex
  end.

Lemma hex_value_digit z : 0 ≤ z < 16 → hex_value (hex_digit z) = Some z.
Proof.
  intros H. assert (Hf : forallb (λ n, bool_decide (hex_value (hex_digit (Z.of_nat n)) = Some (Z.of_nat n)))
                           (seq 0 16) = true) by by vm_compute.
  rewrite forallb_forall in Hf. specialize (Hf (Z.to_nat z)). rewrite Z2Nat.id in Hf by lia.
  apply bool_decide_eq_true in Hf; [done|]. apply in_seq. lia.
Qed.

Lemma hex_Decode_Encode b : hex_DecodeString (hex_EncodeToString b) = Ok b.
Proof.
  induction b as [|x b IH]; [done|]. cbn [hex_EncodeToString hex_DecodeString].
  pose proof (byte_Z_range x). rewrite !hex_value_digit, IH by zdiv. cbn. do 2 f_equal.
  rewrite <- (byte_of_Z_of_byte x) at 3. f_equal. zdiv.
Qed.

#[export] Instance hex_EncodeToString_inj : Inj eq eq hex_EncodeToString.
Proof. intros a b E%(f_equal hex_DecodeString). rewrite !hex_Decode_Encode in E. congruence. Qed.

Definition is_hex_char (c : ascii) : bool := match hex_value c with Some _ => true | None => false end.

Lemma hex_Encode_chars b : string_forallb is_hex_char (hex_EncodeToString b) = true.
Proof.
  induction b as [|x b IH]; [done|]. cbn [hex_EncodeToString string_forallb].
  pose proof (byte_Z_range x). unfold is_hex_char at 1 2.
  rewrite !hex_value_digit by zdiv. done.
Qed.

Lemma hex_Decode_chars s l : hex_DecodeString s = Ok l → string_forallb is_hex_char s = true.
Proof.
  revert l. induction s as [s IH] using (induction_ltof1 _ String.length); unfold ltof in IH.
  destruct s as [|a [|b s]]; cbn; [done..|]. intros l. unfold is_hex_char at 1 2.
  destruct (hex_value a), (hex_value b); try done.
  destruct (hex_DecodeString s) eqn:E; cbn; [|done..]. intros _.
  eapply IH; [|done]. cbn. lia.
Qed.

Lemma hex_chars_lack c s :
  is_hex_char c = false → string_forallb is_hex_char s = true → lacks c s.
Proof.
  intros Hc. apply string_forallb_impl. intros x Hx. destruct (Ascii.eqb_spec x c) as [->|]; [congruence|done].
Qed.

(** ** [encoding/base64]

    [StdEncoding.EncodeToString] with padding and [RawStdEncoding.DecodeString],
    which wants none, skips line breaks and ignores trailing bits. *)

Definition b64_alphabet : string :=
  "ABCDEFGHIJKLMNOPQRSTUVWXYZabcdefghijklmnopqrstuvwxyz0123456789+/".

Definition b64_char (z : Z) : ascii := default "A"%char (String.get (Z.to_nat z) b64_alphabet).

Fixpoint string_index (c : ascii) (s : string) : option Z :=
  match s with
  | EmptyString => None
  | String x s' => if Ascii.eqb x c then Some 0 else Z.succ <$> string_index c s'
  end.
Definition b64_value (c : ascii) : option Z := string_index c b64_alphabet.

Fixpoint base64_StdEncode (b : bytes) : string :=
  match b with
  | [] => ""
  | [x] =>
    let x := byte_Z x in
    String (b64_char (x / 4)) (String (b64_char (x mod 4 * 16)) "==")
  | [x; y] =>
    let x := byte_Z x in let y := byte_Z y in
    String (b64_char (x / 4)) (String (b64_char (x mod 4 * 16 + y / 16))
      (String (b64_char (y mod 16 * 4)) "="))
  | x :: y :: z :: b' =>
    let x := byte_Z x in let y := byte_Z y in let z := byte_Z z in
    String (b64_char (x / 4)) (String (b64_char (x mod 4 * 16 + y / 16))
      (String (b64_char (y mod 16 * 4 + z / 64)) (String (b64_char (z mod 64))
        (base64_StdEncode b'))))
  end.

Definition errBase64 : error := ErrText "illegal base64 data".

Fixpoint base64_groups (s : string) : outcome bytes :=
  match s with
  | EmptyString => Ok []
  | String a (String b EmptyString) =>
    match b64_value a, b64_value b with
    | Some a, Some b => Ok [byte_of_Z (a * 4 + b / 16)]
    | _, _ => Fail errBase64
    end
  | String a (String b (String c EmptyString)) =>
    match b64_value a, b64_value b, b64_value c with
    | Some a, Some b, Some c =>
      Ok [byte_of_Z (a * 4 + b / 16); byte_of_Z (b mod 16 * 16 + c / 4)]
    | _, _, _ => Fail errBase64
    end
  | String a (String b (String c (String d s'))) =>
    match b64_value a, b64_value b, b64_value c, b64_value d with
    | Some a, Some b, Some c, Some d =>
      l ← base64_groups s';
      Ok (byte_of_Z (a * 4 + b / 16) :: byte_of_Z (b mod 16 * 16 + c / 4)
          :: byte_of_Z (c mod 4 * 64 + d) :: l)
    | _, _, _, _ => Fail errBase64
    end
  | String _ EmptyString => Fail errBase64
  end.

Fixpoint string_filter (P : ascii → bool) (s : string) : string :=
  match s with
  | EmptyString => EmptyString
  | String c s' => if P c then String c (string_filter P s') else string_filter P s'
  end.
Definition is_newline (c : ascii) : bool := Ascii.eqb c "010" || Ascii.eqb c "013".
Definition base64_RawStdDecode (s : string) : outcome bytes :=
  base64_groups (string_filter (λ c, negb (is_newline c)) s).

Definition is_b64 (c : ascii) : bool := match b64_value c with Some _ => true | None => false end.

Lemma b64_value_char z : 0 ≤ z < 64 → b64_value (b64_char z) = Some z.
Proof.
  intros H. assert (Hf : forallb (λ n, bool_decide (b64_value (b64_char (Z.of_nat n)) = Some (Z.of_nat n)))
                           (seq 0 64) = true) by by vm_compute.
  rewrite forallb_forall in Hf. specialize (Hf (Z.to_nat z)). rewrite Z2Nat.id in Hf by lia.
  apply bool_decide_eq_true in Hf; [done|]. apply in_seq. lia.
Qed.

Lemma is_b64_char z : 0 ≤ z < 64 → is_b64 (b64_char z) = true.
Proof. intros H. unfold is_b64. by rewrite b64_value_char. Qed.

(** The text of an encoding: its alphabet part, before the padding. *)
Fixpoint base64_body (b : bytes) : string :=
  match b with
  | [] => ""
  | [x] =>
    let x := byte_Z x in String (b64_char (x / 4)) (String (b64_char (x mod 4 * 16)) "")
  | [x; y] =>
    let x := byte_Z x in let y := byte_Z y in
    String (b64_char (x / 4)) (String (b64_char (x mod 4 * 16 + y / 16))
      (String (b64_char (y mod 16 * 4)) ""))
  | x :: y :: z :: b' =>
    let x := byte_Z x in let y := byte_Z y in let z := byte_Z z in
    String (b64_char (x / 4)) (String (b64_char (x mod 4 * 16 + y / 16))
      (String (b64_char (y mod 16 * 4 + z / 64)) (String (b64_char (z mod 64))
        (base64_body b'))))
  end.

(** Induction by groups of three bytes. *)
Lemma bytes_ind3 (P : bytes → Prop) :
  P [] → (∀ x, P [x]) → (∀ x y, P [x; y]) →
  (∀ x y z b, P b → P (x :: y :: z :: b)) → ∀ b, P b.
Proof.
  intros H0 H1 H2 H3 b. induction b as [b IH] using (induction_ltof1 _ (@length byte)).
  unfold ltof in IH. destruct b as [|x [|y [|z b]]]; auto.
  apply H3, IH. simpl. lia.
Qed.

Lemma base64_body_chars b : string_forallb is_b64 (base64_body b) = true.
Proof.
  induction b as [|x|x y|x y z b IH] using bytes_ind3; [done|..]; cbn [base64_body string_forallb];
    repeat match goal with |- context [byte_Z ?b] =>
      lazymatch goal with
      | _ : 0 ≤ byte_Z b < 256 |- _ => fail
      | _ => pose proof (byte_Z_range b) end end;
    rewrite !is_b64_char by zdiv; done.
Qed.

Lemma is_b64_not_pad c : is_b64 c = true → negb (Ascii.eqb c "=") = true.
Proof. by destruct (Ascii.eqb_spec c "=") as [->|]. Qed.
Lemma is_b64_not_newline c : is_b64 c = true → negb (is_newline c) = true.
Proof.
  intros H. apply negb_true_iff, orb_false_iff. split; apply Ascii.eqb_neq; by intros ->.
Qed.

Lemma trim_right_cons P c s : trim_right P s ≠ "" → trim_right P (String c s) = String c (trim_right P s).
Proof. simpl. by destruct (trim_right P s). Qed.

Lemma trim_right_keep P c s :
  P c = false → trim_right P (String c s) = String c (trim_right P s).
Proof. simpl. intros ->. by destruct (trim_right P s). Qed.

Lemma base64_StdEncode_trim b : strings_TrimRight "=" (base64_StdEncode b) = base64_body b.
Proof.
  unfold strings_TrimRight.
  induction b as [|x|x y|x y z b IH] using bytes_ind3; [done|..]; cbn [base64_StdEncode base64_body];
    repeat match goal with |- context [byte_Z ?b] =>
      lazymatch goal with
      | _ : 0 ≤ byte_Z b < 256 |- _ => fail
      | _ => pose proof (byte_Z_range b) end end;
    rewrite !trim_right_keep by (apply negb_true_iff, is_b64_not_pad, is_b64_char; zdiv);
    [done..|by rewrite IH].
Qed.

Lemma base64_groups_body b : base64_groups (base64_body b) = Ok b.
Proof.
  induction b as [|x|x y|x y z b IH] using bytes_ind3; [done|..]; cbn [base64_body base64_groups];
    repeat match goal with |- context [byte_Z ?b] =>
      lazymatch goal with
      | _ : 0 ≤ byte_Z b < 256 |- _ => fail
      | _ => pose proof (byte_Z_range b) end end;
    rewrite !b64_value_char by zdiv; rewrite ?IH; cbn;
    repeat f_equal; apply byte_Z_inj; rewrite byte_Z_of_Z; zdiv.
Qed.

Lemma string_filter_id P s : string_forallb P s = true → string_filter P s = s.
Proof. induction s as [|c s IH]; [done|]. simpl. intros [-> H]%andb_prop. by rewrite IH. Qed.

Lemma base64_Decode_body b : base64_RawStdDecode (base64_body b) = Ok b.
Proof.
  unfold base64_RawStdDecode. rewrite string_filter_id; [apply base64_groups_body|].
  eapply string_forallb_impl; [apply is_b64_not_newline|apply base64_body_chars].
Qed.

(** ** [string_map] *)

Lemma string_map_map f g s : string_map f (string_map g s) = string_map (λ c, f (g c)) s.
Proof. induction s; simpl; congruence. Qed.

Lemma string_map_ext f g s : (∀ c, f c = g c) → string_map f s = string_map g s.
Proof. intros H. induction s; simpl; congruence. Qed.

Lemma string_map_id f P s :
  (∀ c, P c = true → f c = c) → string_forallb P s = true → string_map f s = s.
Proof.
  intros H. induction s as [|c s IH]; [done|]. simpl. intros [H1 H2]%andb_prop. by rewrite H, IH.
Qed.

Lemma string_forallb_map P f s : string_forallb P (string_map f s) = string_forallb (λ c, P (f c)) s.
Proof. induction s; simpl; congruence. Qed.

Lemma trim_right_map P f s :
  (∀ c, P (f c) = P c) → trim_right P (string_map f s) = string_map f (trim_right P s).
Proof.
  intros H. induction s as [|c s IH]; [done|]. simpl. rewrite IH, H.
  destruct (trim_right P s); simpl; [by destruct (P c)|done].
Qed.

(** ** Times

    [time.Time] as the seconds since year 1, an int64, and the nanoseconds. *)

Record gtime := mkTime { t_sec : Z; t_nsec : Z }.

Definition unixToInternal : Z := 62135596800.
Definition time_Unix (sec : Z) : gtime := mkTime (i64 (sec + unixToInternal)) 0.
Definition time_After (t u : gtime) : bool :=
  (t_sec u <? t_sec t) || ((t_sec t =? t_sec u) && (t_nsec u <? t_nsec t)).
Definition time_IsZero (t : gtime) : bool := (t_sec t =? 0) && (t_nsec t =? 0).

(** [t.Add(d)], for a duration in nanoseconds and within the years a Time holds. *)
Definition time_Add (t : gtime) (d : Z) : gtime :=
  let n := t_nsec t + d in mkTime (t_sec t + n / 10 ^ 9) (n mod 10 ^ 9).

(** [t.Sub(u)]: the difference in nanoseconds, at the ends of an int64 when it
    is out of range. *)
Definition time_Sub (t u : gtime) : Z :=
  Z.max (- 2 ^ 63) (Z.min (2 ^ 63 - 1) ((t_sec t - t_sec u) * 10 ^ 9 + (t_nsec t - t_nsec u))).

(** The clock is part of the world: [time.Now()] reads it. *)
Class Clock (W : Type) := { time_Now : W → gtime }.
