(* ===== verification/Data.v ===== *)
(** * Data types ([data/], [core/])

    The transfer objects the components exchange, as records with the fields of
    the Go structs, and the address type of [data/address.go] with its methods.
    [transaction.FrontendTransaction] belongs to [mx-chain-core-go]: its record
    has the fields the SDK reads or writes. *)

From S2P Require Export GoStd.

(** ** Constants of [core/constants.go] *)

Definition AddressBytesLen : nat := 32.
Definition MinAllowedDeltaToFinal : Z := 1.
Definition WebServerOffString : string := "off".
(** [core.MetachainShardId] of [mx-chain-core-go]: the largest [uint32]. *)
Definition MetachainShardId : Z := 2 ^ 32 - 1.

Inductive RestAPIEntityType := ObserverNode | Proxy | OtherEntity (name : string).
#[export] Instance RestAPIEntityType_eq_dec : EqDecision RestAPIEntityType.
Proof. solve_decision. Defined.

(** ** Transactions *)

Record FrontendTransaction := mkTx {
  tx_Nonce : Z;
  tx_Value : string;
  tx_Receiver : string;
  tx_Sender : string;
  tx_GasPrice : Z;
  tx_GasLimit : Z;
  tx_Data : bytes;
  tx_Signature : string;
  tx_ChainID : string;
  tx_Version : Z;
  tx_Options : Z;
  tx_GuardianAddr : string;
  tx_GuardianSignature : string }.

#[export] Instance FrontendTransaction_eq_dec : EqDecision FrontendTransaction.
Proof. solve_decision. Defined.

(** The zero value of the struct. *)
Definition emptyTx : FrontendTransaction := mkTx 0 "" "" "" 0 0 [] "" "" 0 0 "" "".

Definition tx_setNonce (n : Z) (t : FrontendTransaction) : FrontendTransaction :=
  mkTx n (tx_Value t) (tx_Receiver t) (tx_Sender t) (tx_GasPrice t) (tx_GasLimit t) (tx_Data t)
    (tx_Signature t) (tx_ChainID t) (tx_Version t) (tx_Options t) (tx_GuardianAddr t) (tx_GuardianSignature t).
Definition tx_setValue (v : string) (t : FrontendTransaction) : FrontendTransaction :=
  mkTx (tx_Nonce t) v (tx_Receiver t) (tx_Sender t) (tx_GasPrice t) (tx_GasLimit t) (tx_Data t)
    (tx_Signature t) (tx_ChainID t) (tx_Version t) (tx_Options t) (tx_GuardianAddr t) (tx_GuardianSignature t).
Definition tx_setReceiver (r : string) (t : FrontendTransaction) : FrontendTransaction :=
  mkTx (tx_Nonce t) (tx_Value t) r (tx_Sender t) (tx_GasPrice t) (tx_GasLimit t) (tx_Data t)
    (tx_Signature t) (tx_ChainID t) (tx_Version t) (tx_Options t) (tx_GuardianAddr t) (tx_GuardianSignature t).
Definition tx_setSender (s : string) (t : FrontendTransaction) : FrontendTransaction :=
  mkTx (tx_Nonce t) (tx_Value t) (tx_Receiver t) s (tx_GasPrice t) (tx_GasLimit t) (tx_Data t)
    (tx_Signature t) (tx_ChainID t) (tx_Version t) (tx_Options t) (tx_GuardianAddr t) (tx_GuardianSignature t).
Definition tx_setGasPrice (p : Z) (t : FrontendTransaction) : FrontendTransaction :=
  mkTx (tx_Nonce t) (tx_Value t) (tx_Receiver t) (tx_Sender t) p (tx_GasLimit t) (tx_Data t)
    (tx_Signature t) (tx_ChainID t) (tx_Version t) (tx_Options t) (tx_GuardianAddr t) (tx_GuardianSignature t).
Definition tx_setData (d : bytes) (t : FrontendTransaction) : FrontendTransaction :=
  mkTx (tx_Nonce t) (tx_Value t) (tx_Receiver t) (tx_Sender t) (tx_GasPrice t) (tx_GasLimit t) d
    (tx_Signature t) (tx_ChainID t) (tx_Version t) (tx_Options t) (tx_GuardianAddr t) (tx_GuardianSignature t).
Definition tx_setSignature (s : string) (t : FrontendTransaction) : FrontendTransaction :=
  mkTx (tx_Nonce t) (tx_Value t) (tx_Receiver t) (tx_Sender t) (tx_GasPrice t) (tx_GasLimit t) (tx_Data t)
    s (tx_ChainID t) (tx_Version t) (tx_Options t) (tx_GuardianAddr t) (tx_GuardianSignature t).
Definition tx_setGuardianSignature (s : string) (t : FrontendTransaction) : FrontendTransaction :=
  mkTx (tx_Nonce t) (tx_Value t) (tx_Receiver t) (tx_Sender t) (tx_GasPrice t) (tx_GasLimit t) (tx_Data t)
    (tx_Signature t) (tx_ChainID t) (tx_Version t) (tx_Options t) (tx_GuardianAddr t) s.

(** [transaction.Transaction] of mx-chain-core-go: the fields the SDK sets. *)
Record Transaction := mkNodeTx {
  ntx_Nonce : Z;
  ntx_Value : Z;
  ntx_RcvAddr : bytes;
  ntx_SndAddr : bytes;
  ntx_GasPrice : Z;
  ntx_GasLimit : Z;
  ntx_Data : bytes;
  ntx_ChainID : bytes;
  ntx_Version : Z;
  ntx_Signature : bytes;
  ntx_Options : Z;
  ntx_GuardianAddr : bytes;
  ntx_GuardianSignature : bytes }.

(** ** Accounts and network descriptions *)

Record Account := mkAccount {
  acc_Address : string;
  acc_Nonce : Z;
  acc_Balance : string;
  acc_Code : string;
  acc_CodeHash : bytes;
  acc_RootHash : bytes;
  acc_CodeMetadata : bytes;
  acc_Username : string;
  acc_DeveloperReward : string;
  acc_OwnerAddress : string }.

(** An account of which only the nonce and the balance matter. *)
Definition simpleAccount (nonce : Z) (balance : string) : Account :=
  mkAccount "" nonce balance "" [] [] [] "" "" "".

Record NetworkConfig := mkNetworkConfig {
  nc_ChainID : string;
  nc_Denomination : Z;
  nc_GasPerDataByte : Z;
  nc_LatestTagSoftwareVersion : string;
  nc_MetaConsensusGroup : Z;
  nc_MinGasLimit : Z;
  nc_MinGasPrice : Z;
  nc_MinTransactionVersion : Z;
  nc_NumMetachainNodes : Z;
  nc_NumNodesInShard : Z;
  nc_NumShardsWithoutMeta : Z;
  nc_RoundDuration : Z;
  nc_ShardConsensusGroupSize : Z;
  nc_StartTime : Z;
  nc_Adaptivity : bool;
  nc_Hysteresys : Z;  (* the bits of the float32 *)
  nc_RoundsPerEpoch : Z;
  nc_ExtraGasLimitGuardedTx : Z }.

(** A network configuration of which the fee parameters matter. *)
Definition simpleConfig (chain : string) (perByte minLimit minPrice version shards : Z) : NetworkConfig :=
  mkNetworkConfig chain 18 perByte "" 0 minLimit minPrice version 0 0 shards 0 0 0 false 0 0 0.

Record NetworkStatus := mkNetworkStatus {
  ns_CurrentRound : Z;
  ns_EpochNumber : Z;
  ns_Nonce : Z;
  ns_NonceAtEpochStart : Z;
  ns_NoncesPassedInCurrentEpoch : Z;
  ns_RoundAtEpochStart : Z;
  ns_RoundsPassedInCurrentEpoch : Z;
  ns_RoundsPerEpoch : Z;
  ns_CrossCheckBlockHeight : string;
  ns_HighestNonce : Z;
  ns_ProbableHighestNonce : Z;
  ns_ShardID : Z }.

(** A status of which the nonces, the cross check text and the shard matter. *)
Definition simpleStatus (nonce highest probable : Z) (cross : string) (shard : Z) : NetworkStatus :=
  mkNetworkStatus 0 0 nonce 0 0 0 0 0 cross highest probable shard.

(** ** Hyper blocks ([data/hyperblock.go], [data/transaction.go])

    The smart contract results and the logs of a transaction, pointers to types
    of mx-chain-core-go, are not read by the SDK and are left out. *)

Record TransactionOnNetwork := mkTon {
  ton_Type : string;
  ton_ProcessingTypeOnSource : string;
  ton_ProcessingTypeOnDestination : string;
  ton_Hash : string;
  ton_Nonce : Z;
  ton_Value : string;
  ton_Receiver : string;
  ton_Sender : string;
  ton_GasPrice : Z;
  ton_GasLimit : Z;
  ton_Data : bytes;
  ton_Signature : string;
  ton_SourceShard : Z;
  ton_DestinationShard : Z;
  ton_BlockNonce : Z;
  ton_BlockHash : string;
  ton_MiniblockType : string;
  ton_MiniblockHash : string;
  ton_Timestamp : Z;
  ton_Status : string;
  ton_HyperBlockNonce : Z;
  ton_HyperBlockHash : string;
  ton_NotarizedAtSourceInMetaNonce : Z;
  ton_NotarizedAtSourceInMetaHash : string;
  ton_NotarizedAtDestinationInMetaNonce : Z;
  ton_NotarizedAtDestinationInMetaHash : string }.

(** A transfer of which the hash, the value and the parties matter. *)
Definition simpleTon (hash value sender receiver : string) : TransactionOnNetwork :=
  mkTon "" "" "" hash 0 value receiver sender 0 0 [] "" 0 0 0 "" "" "" 0 "" 0 "" 0 "" 0 "".

Record HyperBlock := mkHyperBlock {
  hb_Nonce : Z;
  hb_Round : Z;
  hb_Hash : string;
  hb_PrevBlockHash : string;
  hb_Epoch : Z;
  hb_NumTxs : Z;
  hb_ShardBlocks : list (string * Z * Z);
  hb_Timestamp : Z;
  hb_Transactions : list TransactionOnNetwork }.

Definition simpleHyperBlock (nonce : Z) (hash : string) (txs : list TransactionOnNetwork) : HyperBlock :=
  mkHyperBlock nonce 0 hash "" 0 (Z.of_nat (length txs)) [] 0 txs.

(** ** Addresses ([data/address.go])

    [core.AddressPublicKeyConverter] is the bech32 converter of
    [mx-chain-core-go], an interface of the model. An [AddressHandler] that may
    be nil is an [option address]. *)

Class PubkeyConverter := {
  pkc_Encode : bytes → outcome string;
  pkc_Decode : string → outcome bytes }.

(** What the bech32 converter of length 32 documents. *)
Class PubkeyConverterLaws `{PubkeyConverter} := {
  pkc_Encode_total b : length b = AddressBytesLen → ∃ s, pkc_Encode b = Ok s;
  pkc_Decode_Encode b s : pkc_Encode b = Ok s → pkc_Decode s = Ok b;
  pkc_Decode_length s b : pkc_Decode s = Ok b → length b = AddressBytesLen }.

Record address := mkAddress { addr_bytes : bytes }.
#[export] Instance address_eq_dec : EqDecision address.
Proof. solve_decision. Defined.

Definition offsetPretty : nat := 8.

Definition NewAddressFromBytes (b : bytes) : address := mkAddress b.

Definition AddressBytes (a : address) : bytes := addr_bytes a.

(** [copy(result[:], a.bytes)] into 32 zero bytes. *)
Definition AddressSlice (a : address) : bytes :=
  take 32 (addr_bytes a) ++ replicate (32 - length (addr_bytes a)) x00.

Definition IsValid (a : address) : bool := Nat.eqb (length (addr_bytes a)) AddressBytesLen.

Section Address.
Context `{PubkeyConverter}.

Definition NewAddressFromBech32String (bech32 : string) : outcome address :=
  buff ← pkc_Decode bech32; Ok (mkAddress buff).

Definition AddressAsBech32String (a : address) : outcome string := pkc_Encode (addr_bytes a).

(** A failed conversion yields the empty string, which is returned as it is. *)
Definition Pretty (a : address) : string :=
  let bech32Addr := match AddressAsBech32String a with Ok s => s | _ => "" end in
  if Nat.leb (String.length bech32Addr) (offsetPretty * 2) then bech32Addr
  else String.substring 0 offsetPretty bech32Addr +:+ "..." +:+
       String.substring (String.length bech32Addr - offsetPretty) offsetPretty bech32Addr.

Lemma address_bech32_roundtrip `{!PubkeyConverterLaws} a :
  IsValid a = true →
  ∃ s, AddressAsBech32String a = Ok s ∧ NewAddressFromBech32String s = Ok a.
Proof.
  intros Hv%Nat.eqb_eq. destruct (pkc_Encode_total _ Hv) as [s Hs]. exists s. split; [done|].
  unfold NewAddressFromBech32String. rewrite (pkc_Decode_Encode _ _ Hs). by destruct a.
Qed.

Lemma NewAddressFromBech32String_valid `{!PubkeyConverterLaws} s a :
  NewAddressFromBech32String s = Ok a → IsValid a = true.
Proof.
  unfold NewAddressFromBech32String. destruct (pkc_Decode s) as [b| |] eqn:E; cbn; [|done..].
  intros [= <-]. apply Nat.eqb_eq. by eapply pkc_Decode_length.
Qed.
End Address.

(** A converter with the documented behaviour, for concrete runs: hexadecimal
    text of 32 bytes. *)
Definition hexConverter : PubkeyConverter := {|
  pkc_Encode b := if Nat.eqb (length b) AddressBytesLen then Ok (hex_EncodeToString b)
                  else Fail (ErrText "wrong size");
  pkc_Decode s := b ← hex_DecodeString s;
                  if Nat.eqb (length b) AddressBytesLen then Ok b else Fail (ErrText "wrong size") |}.

Lemma hexConverter_laws : @PubkeyConverterLaws hexConverter.
Proof.
  split; cbn.
  - intros b ->%Nat.eqb_eq. eauto.
  - intros b s. destruct (Nat.eqb (length b) AddressBytesLen) eqn:E; [|done]. intros [= <-].
    rewrite hex_Decode_Encode. cbn. by rewrite E.
  - intros s b. destruct (hex_DecodeString s) as [b'| |]; cbn; [|done..].
    destruct (Nat.eqb (length b') AddressBytesLen) eqn:E; [|done].
    intros [= <-]. by apply Nat.eqb_eq.
Qed.

(** ** Mnemonics ([data/mnemonic.go]) *)

Definition ToSplitMnemonicWords (m : string) : list string := strings_Split " " m.
