(* ===== verification/Serde.v ===== *)
(** * Binary deserialization ([serde/])

    [SourceBuffer] is the reading cursor of [serde/sourceBuffer.go]; its methods
    are state passing functions that panic where Go's slicing would.  The
    deserializer of [serde/deserializer.go] walks a value by reflection: [gval]
    is a Go value of one of the kinds it switches on ([GOther] for the others),
    a struct being its fields with their "exported" flags. *)

From S2P Require Export GoStd.
Set Warnings "-register-all".

(** ** [sourceBuffer.go] *)

Record SourceBuffer := mkSB { sb_s : bytes; sb_off : Z }.

Definition uint16Size : Z := 2.
Definition uint32Size : Z := 4.
Definition uint64Size : Z := 8.
Definition uint256Size : Z := 32.

Definition zlen {A} (l : list A) : Z := Z.of_nat (length l).

(** [s[a:b]] *)
Definition slice (s : bytes) (a b : Z) : outcome bytes :=
  if (0 <=? a) && (a <=? b) && (b <=? zlen s)
  then Ok (take (Z.to_nat (b - a)) (drop (Z.to_nat a) s)) else Panic.

Definition NewSourceBuffer (b : bytes) : SourceBuffer := mkSB b 0.

Definition sb_setOff (off : Z) (sb : SourceBuffer) : SourceBuffer := mkSB (sb_s sb) off.

Definition Len (sb : SourceBuffer) : Z :=
  if zlen (sb_s sb) <=? sb_off sb then 0 else u64 (zlen (sb_s sb) - sb_off sb).
Definition Bytes (sb : SourceBuffer) : bytes := sb_s sb.
Definition OffBytes : M SourceBuffer bytes := λ sb,
  (slice (sb_s sb) (sb_off sb) (zlen (sb_s sb)), sb).
Definition Pos (sb : SourceBuffer) : Z := sb_off sb.
Definition Size (sb : SourceBuffer) : Z := zlen (sb_s sb).

Definition safeAdd (x y : Z) : Z * bool := (u64 (x + y), MaxUint64 - x <? y).

Definition NextBytes (n : Z) : M SourceBuffer (bytes * bool) := λ sb,
  let m := zlen (sb_s sb) in
  let '(end_, overflow) := safeAdd (sb_off sb) n in
  let eof := overflow || (m <? end_) in
  let end_ := if eof then m else end_ in
  match slice (sb_s sb) (sb_off sb) end_ with
  | Ok data => (Ok (data, eof), sb_setOff end_ sb)
  | Fail e => (Fail e, sb)
  | Panic => (Panic, sb)
  end.

Definition Skip (n : Z) : M SourceBuffer bool := λ sb,
  let m := zlen (sb_s sb) in
  let '(end_, overflow) := safeAdd (sb_off sb) n in
  let eof := overflow || (m <? end_) in
  (Ok eof, sb_setOff (if eof then m else end_) sb).

Definition NextByte : M SourceBuffer (byte * bool) := λ sb,
  if zlen (sb_s sb) <=? sb_off sb then (Ok (x00, true), sb)
  else match sb_s sb !! Z.to_nat (sb_off sb) with
       | Some data => (Ok (data, false), sb_setOff (u64 (sb_off sb + 1)) sb)
       | None => (Panic, sb)
       end.

Definition NextUint8 : M SourceBuffer (Z * bool) :=
  '(val, eof) ← NextByte; mret (byte_Z val, eof).

Definition NextBool : M SourceBuffer (bool * bool) :=
  '(val, eof) ← NextByte;
  if byte_Z val =? 0 then mret (false, eof)
  else if byte_Z val =? 1 then mret (true, eof)
  else mret (false, true).

Definition BackUp (n : Z) : M SourceBuffer () :=
  modify (λ sb, sb_setOff (u64 (sb_off sb - n)) sb).

Definition NextUint16 : M SourceBuffer (Z * bool) :=
  '(buf, eof) ← NextBytes uint16Size;
  if eof : bool then mret (0, eof) else mret (be_to_Z buf, eof).
Definition NextUint32 : M SourceBuffer (Z * bool) :=
  '(buf, eof) ← NextBytes uint32Size;
  if eof : bool then mret (0, eof) else mret (be_to_Z buf, eof).
Definition NextUint64 : M SourceBuffer (Z * bool) :=
  '(buf, eof) ← NextBytes uint64Size;
  if eof : bool then mret (0, eof) else mret (be_to_Z buf, eof).

Definition NextInt32 : M SourceBuffer (Z * bool) := '(val, eof) ← NextUint32; mret (i32 val, eof).
Definition NextInt64 : M SourceBuffer (Z * bool) := '(val, eof) ← NextUint64; mret (i64 val, eof).
Definition NextInt16 : M SourceBuffer (Z * bool) := '(val, eof) ← NextUint16; mret (i16 val, eof).

Definition NextVarBytes : M SourceBuffer (bytes * bool) :=
  '(count, eof) ← NextUint32;
  if eof : bool then mret ([], eof) else NextBytes count.

(** [copy(data[:], buf)] into a zero [Uint256]. *)
Definition NextHash : M SourceBuffer (bytes * bool) :=
  '(buf, eof) ← NextBytes uint256Size;
  if eof : bool then mret (replicate 32 x00, eof)
  else mret (take 32 buf ++ replicate (32 - length buf) x00, eof).

Definition NextString : M SourceBuffer (string * bool) :=
  '(val, eof) ← NextVarBytes; mret (string_of_bytes val, eof).

(** ** [deserializer.go] *)

Inductive gval :=
  | GInt8 (z : Z) | GInt16 (z : Z) | GInt32 (z : Z) | GInt64 (z : Z)
  | GUint8 (z : Z) | GUint16 (z : Z) | GUint32 (z : Z) | GUint64 (z : Z)
  | GBool (b : bool)
  | GString (s : string)
  | GBigInt (z : Z)
  | GStruct (fields : list (bool * gval))
  | GPtr (elem : option gval)
  | GOther.

(** What [getNextValueFromBuffer] returns as an [interface{}]. *)
Inductive bufval := BVal (v : gval) | BBytes (b : bytes) | BNil.

Definition errInvalidType : error := ErrText "invalid type".
Definition errEmptyBuffer : error := ErrText "empty buffer".
Definition errSetField : error := ErrText "can't set value for field".
Definition errCannotSet : error := ErrText "cannot set field value".
Definition errInvalidObject : error := ErrText "invalid object".
Definition errTypeMismatch : error := ErrText "provided value type didn't match obj field type".

Definition getNextValueFromBuffer (v : gval) : M SourceBuffer (bufval * bool) :=
  match v with
  | GInt8 _ => '(x, eof) ← NextUint8; mret (BVal (GInt8 (i8 x)), eof)
  | GInt16 _ => '(x, eof) ← NextInt16; mret (BVal (GInt16 x), eof)
  | GInt32 _ => '(x, eof) ← NextInt32; mret (BVal (GInt32 x), eof)
  | GInt64 _ => '(x, eof) ← NextInt64; mret (BVal (GInt64 x), eof)
  | GUint16 _ => '(x, eof) ← NextUint16; mret (BVal (GUint16 x), eof)
  | GUint32 _ => '(x, eof) ← NextUint32; mret (BVal (GUint32 x), eof)
  | GUint64 _ => '(x, eof) ← NextUint64; mret (BVal (GUint64 x), eof)
  | GUint8 _ => '(x, eof) ← NextUint8; mret (BVal (GUint8 x), eof)
  | GBool _ => '(x, eof) ← NextBool; mret (BVal (GBool x), eof)
  | GString _ => '(x, eof) ← NextVarBytes; mret (BVal (GString (string_of_bytes x)), eof)
  | GBigInt _ => '(x, eof) ← NextVarBytes; mret (BVal (GBigInt (be_to_Z x)), eof)
  | GStruct _ | GPtr _ => b ← OffBytes; mret (BBytes b, false)
  | GOther => mret (BNil, true)
  end.

(** [structFieldType != valType], for the values the buffer gives. *)
Definition same_type (o v : gval) : bool :=
  match o, v with
  | GInt8 _, GInt8 _ | GInt16 _, GInt16 _ | GInt32 _, GInt32 _ | GInt64 _, GInt64 _
  | GUint8 _, GUint8 _ | GUint16 _, GUint16 _ | GUint32 _, GUint32 _ | GUint64 _, GUint64 _
  | GBool _, GBool _ | GString _, GString _ | GBigInt _, GBigInt _ => true
  | _, _ => false
  end.

(** [setValue] on an object that is valid and, or not, settable. *)
Definition setValue (settable : bool) (o : gval) (value : bufval) : outcome gval :=
  if negb settable then Fail errCannotSet
  else match value with
       | BVal v => if same_type o v then Ok v else Fail errTypeMismatch
       | BBytes _ => Fail errTypeMismatch
       | BNil => Panic
       end.

Definition setField (exported : bool) (o : gval) (value : bufval) : outcome gval :=
  setValue exported o value.

(** The result of [CreateStruct]: the number returned, the object as it was
    left, the error. *)
Definition created : Type := Z * gval * option error.

Section SetFields.
Variable CreateStruct : bool → gval → bytes → outcome created.

(** The loop of [setFields]: the fields as they are left, and the returned
    position and error when it stops early. *)
Fixpoint setFields (fs : list (bool * gval)) :
    M SourceBuffer (list (bool * gval) * option (Z * error)) :=
  match fs with
  | [] => mret ([], None)
  | (ex, f) :: rest =>
    '(value, eof) ← getNextValueFromBuffer f;
    if eof : bool then pos ← gets Pos; mret (fs, Some (pos, errEmptyBuffer))
    else match f, value with
         | GStruct _, BBytes b | GPtr _, BBytes b =>
           '(used, f', err) ← lift (CreateStruct ex f b);
           match err with
           | Some e => mret ((ex, f') :: rest, Some (used, e))
           | None => Skip used ;;
               '(rest', r) ← setFields rest; mret ((ex, f') :: rest', r)
           end
         | _, _ =>
           match setField ex f value with
           | Ok f' => '(rest', r) ← setFields rest; mret ((ex, f') :: rest', r)
           | Fail _ => pos ← gets Pos; mret (fs, Some (pos, errSetField))
           | Panic => panic
           end
         end
  end.

Definition structBody (settable : bool) (fs : list (bool * gval)) (buff : bytes) : outcome created :=
  if negb settable then Ok (0, GStruct fs, Some errInvalidType)
  else match setFields fs (NewSourceBuffer buff) with
       | (Ok (fs', Some (used, e)), _) => Ok (used, GStruct fs', Some e)
       | (Ok (fs', None), sb) => Ok (Pos sb, GStruct fs', None)
       | (Fail e, _) => Fail e
       | (Panic, _) => Panic
       end.
End SetFields.

(** [settable] is [CanSet] of the value itself, or for a pointer of its
    element: a field of a settable struct is settable when it is exported; of the
    objects of a caller, the target of a pointer is and a plain value is not. *)
Fixpoint CreateStruct (settable : bool) (o : gval) (buff : bytes) : outcome created :=
  match o with
  | GStruct fs => structBody CreateStruct settable fs buff
  | GPtr (Some (GStruct fs)) =>
    '(used, o', err) ← structBody CreateStruct settable fs buff; Ok (used, GPtr (Some o'), err)
  | _ => Ok (0, o, Some errInvalidType)
  end.

(** [CreatePrimitiveDataType(&o, buff)]. *)
Definition CreatePrimitiveDataType (settable : bool) (o : gval) (buff : bytes) : outcome gval :=
  if negb settable then Fail errInvalidType
  else
    let buff := match o with
                | GString _ | GBigInt _ => be_of_Z 4 (u32 (zlen buff)) ++ buff
                | _ => buff
                end in
    match getNextValueFromBuffer o (NewSourceBuffer buff) with
    | (Ok (_, true), _) => Fail errEmptyBuffer
    | (Ok (value, false), _) => setValue true o value
    | (Fail e, _) => Fail e
    | (Panic, _) => Panic
    end.

(** ** Reading never leaves the buffer

    [sb_ok] is the invariant of a cursor; [reads m] says that from any cursor
    that satisfies it [m] returns without a panic, moves forward only, and keeps
    the bytes and the invariant. Go bounds the length of a slice by [2^63 - 1]. *)

Definition sb_ok (sb : SourceBuffer) : Prop :=
  0 ≤ sb_off sb ≤ zlen (sb_s sb) ∧ zlen (sb_s sb) < 2 ^ 63.

Definition reads {A} (m : M SourceBuffer A) : Prop := ∀ sb, sb_ok sb →
  ∃ a sb', m sb = (Ok a, sb') ∧ sb_ok sb' ∧ sb_s sb' = sb_s sb ∧ sb_off sb ≤ sb_off sb'.

Lemma zlen_nonneg {A} (l : list A) : 0 ≤ zlen l.
Proof. unfold zlen. lia. Qed.
Lemma zlen_app {A} (a b : list A) : zlen (a ++ b) = zlen a + zlen b.
Proof. unfold zlen. rewrite length_app. lia. Qed.
#[export] Hint Resolve zlen_nonneg : go.
#[export] Hint Rewrite @zlen_app : go.

Lemma slice_ok s a b : 0 ≤ a ≤ b → b ≤ zlen s →
  slice s a b = Ok (take (Z.to_nat (b - a)) (drop (Z.to_nat a) s)).
Proof.
  intros. unfold slice. by rewrite !(proj2 (Z.leb_le _ _)) by lia.
Qed.

Lemma reads_ret {A} (a : A) : reads (mret a).
Proof. intros sb Hsb. exists a, sb. repeat split; try done; apply Hsb || lia. Qed.

Lemma reads_bind {A B} (m : M SourceBuffer A) (f : A → M SourceBuffer B) :
  reads m → (∀ a, reads (f a)) → reads (m ≫= f).
Proof.
  intros Hm Hf sb Hsb. destruct (Hm sb Hsb) as (a & s1 & E1 & H1 & S1 & O1).
  destruct (Hf a s1 H1) as (b & s2 & E2 & H2 & S2 & O2).
  exists b, s2. unfold mbind, M_bind. rewrite E1, E2. repeat split; try apply H2; try congruence; lia.
Qed.

Lemma reads_gets {A} (f : SourceBuffer → A) : reads (gets f).
Proof. intros sb Hsb. eexists _, sb. repeat split; try done; apply Hsb || lia. Qed.

(** The end position of [NextBytes] and [Skip]. *)
Lemma next_end sb n : sb_ok sb → 0 ≤ n < 2 ^ 64 →
  let '(end_, overflow) := safeAdd (sb_off sb) n in
  let eof := overflow || (zlen (sb_s sb) <? end_) in
  (eof = true ∧ zlen (sb_s sb) < sb_off sb + n) ∨
  (eof = false ∧ end_ = sb_off sb + n ∧ end_ ≤ zlen (sb_s sb)).
Proof.
  intros [[H1 H2] H3] Hn. cbn. unfold MaxUint64, u64.
  destruct (Z.ltb_spec (2 ^ 64 - 1 - sb_off sb) n); cbn; [left; split; [done|lia]|].
  rewrite Z.mod_small by lia. destruct (Z.ltb_spec (zlen (sb_s sb)) (sb_off sb + n)); auto.
Qed.

Lemma NextBytes_spec sb n : sb_ok sb → 0 ≤ n < 2 ^ 64 →
  NextBytes n sb =
    if zlen (sb_s sb) <? sb_off sb + n
    then (Ok (drop (Z.to_nat (sb_off sb)) (sb_s sb), true), sb_setOff (zlen (sb_s sb)) sb)
    else (Ok (take (Z.to_nat n) (drop (Z.to_nat (sb_off sb)) (sb_s sb)), false),
          sb_setOff (sb_off sb + n) sb).
Proof.
  intros Hsb Hn. pose proof (next_end sb n Hsb Hn) as H. unfold NextBytes. cbn zeta.
  destruct (safeAdd (sb_off sb) n) as [e o]. destruct Hsb as [[H1 H2] H3].
  destruct H as [[-> H]|(-> & -> & H)].
  - rewrite (proj2 (Z.ltb_lt _ _)) by lia. rewrite slice_ok by lia.
    rewrite take_ge; [done|]. rewrite length_drop. unfold zlen in *. lia.
  - rewrite (proj2 (Z.ltb_ge _ _)) by lia. rewrite slice_ok by lia.
    by replace (sb_off sb + n - sb_off sb) with n by lia.
Qed.

Lemma reads_NextBytes n : 0 ≤ n < 2 ^ 64 → reads (NextBytes n).
Proof.
  intros Hn sb Hsb. rewrite NextBytes_spec by done.
  destruct (Z.ltb_spec (zlen (sb_s sb)) (sb_off sb + n)); eexists _, _; split; try done;
    destruct Hsb as [[H1 H2] H3]; repeat split; cbn; lia.
Qed.

Lemma Skip_spec sb n : sb_ok sb → 0 ≤ n < 2 ^ 64 →
  Skip n sb = if zlen (sb_s sb) <? sb_off sb + n
              then (Ok true, sb_setOff (zlen (sb_s sb)) sb)
              else (Ok false, sb_setOff (sb_off sb + n) sb).
Proof.
  intros Hsb Hn. pose proof (next_end sb n Hsb Hn) as H. unfold Skip. cbn zeta.
  destruct (safeAdd (sb_off sb) n) as [e o]. destruct H as [[-> H]|(-> & -> & H)].
  - by rewrite (proj2 (Z.ltb_lt _ _)) by lia.
  - by rewrite (proj2 (Z.ltb_ge _ _)) by lia.
Qed.

Lemma reads_Skip n : 0 ≤ n < 2 ^ 64 → reads (Skip n).
Proof.
  intros Hn sb Hsb. rewrite Skip_spec by done.
  destruct (Z.ltb_spec (zlen (sb_s sb)) (sb_off sb + n)); eexists _, _; split; try done;
    destruct Hsb as [[H1 H2] H3]; repeat split; cbn; lia.
Qed.

Lemma NextByte_spec sb : sb_ok sb →
  NextByte sb = match sb_s sb !! Z.to_nat (sb_off sb) with
                | Some b => (Ok (b, false), sb_setOff (sb_off sb + 1) sb)
                | None => (Ok (x00, true), sb)
                end.
Proof.
  intros [[H1 H2] H3]. unfold NextByte, zlen in *.
  destruct (Z.leb_spec (Z.of_nat (length (sb_s sb))) (sb_off sb)).
  - rewrite lookup_ge_None_2 by lia. done.
  - destruct (lookup_lt_is_Some_2 (sb_s sb) (Z.to_nat (sb_off sb))) as [b ->]; [lia|].
    by rewrite u64_small by (unfold is_u64; lia).
Qed.

Lemma reads_NextByte : reads NextByte.
Proof.
  intros sb Hsb. rewrite NextByte_spec by done. destruct (sb_s sb !! _) eqn:E.
  - apply lookup_lt_Some in E. eexists _, _. split; [done|].
    destruct Hsb as [[H1 H2] H3]. unfold sb_ok, zlen in *. cbn. repeat split; lia.
  - eexists _, sb. repeat split; try done; apply Hsb || lia.
Qed.

(** [NextVarBytes] reads a count that is a [uint32]. *)
Lemma be_to_Z_take n l : 0 ≤ be_to_Z (take n l) < 256 ^ Z.of_nat n.
Proof.
  pose proof (be_to_Z_bound (take n l)) as [? H]. split; [done|].
  eapply Z.lt_le_trans; [exact H|]. apply Z.pow_le_mono_r; [lia|]. rewrite length_take. lia.
Qed.

Lemma reads_NextVarBytes : reads NextVarBytes.
Proof.
  intros sb Hsb. destruct (reads_NextBytes 4 ltac:(lia) sb Hsb) as ([buf eof] & s1 & E1 & H1 & S1 & O1).
  pose proof E1 as E1'. rewrite NextBytes_spec in E1' by (done || lia).
  unfold NextVarBytes, NextUint32, mbind, M_bind, mret, M_ret, uint32Size. rewrite E1.
  destruct eof; [exists ([], true), s1; auto|].
  destruct (reads_NextBytes (be_to_Z buf)) with (sb := s1) as (r & s2 & E2 & H2 & S2 & O2); [|done|].
  - destruct (zlen (sb_s sb) <? sb_off sb + 4); [done|]. injection E1' as <- _.
    pose proof (be_to_Z_take 4 (drop (Z.to_nat (sb_off sb)) (sb_s sb))) as Hb. change (256 ^ Z.of_nat 4) with 4294967296 in Hb. change (Z.to_nat 4) with 4%nat. lia.
  - exists r, s2. rewrite E2. repeat split; try apply H2; try congruence; lia.
Qed.

Lemma reads_OffBytes : reads OffBytes.
Proof.
  intros sb [[H1 H2] H3]. unfold OffBytes. rewrite slice_ok by lia.
  eexists _, sb. repeat split; try done; lia.
Qed.

#[export] Hint Resolve reads_ret reads_bind reads_gets reads_NextByte reads_NextVarBytes reads_OffBytes : go.
#[export] Hint Extern 1 (reads (NextBytes _)) => (apply reads_NextBytes; done) : go.

Ltac reads_tac :=
  repeat match goal with
  | |- reads (_ ≫= _) => apply reads_bind
  | |- ∀ _, _ => intros ?
  | |- reads (match ?x with _ => _ end) => destruct x
  | |- reads (if ?x then _ else _) => destruct x
  | |- reads (let '(_, _) := ?x in _) => destruct x
  | |- _ => solve [auto with go]
  end.

Lemma reads_getNextValue v : reads (getNextValueFromBuffer v).
Proof.
  destruct v; cbn [getNextValueFromBuffer];
    unfold NextInt16, NextInt32, NextInt64, NextUint16, NextUint32, NextUint64, NextUint8, NextBool;
    reads_tac.
Qed.
#[export] Hint Resolve reads_getNextValue : go.

(** ** Induction on nested values *)

Section gval_ind.
Variable P : gval → Prop.
Variable Hscalar : ∀ v, match v with GStruct _ | GPtr (Some _) => False | _ => True end → P v.
Variable Hstruct : ∀ fs, Forall (λ f : bool * gval, P f.2) fs → P (GStruct fs).
Variable Hptr : ∀ v, P v → P (GPtr (Some v)).

Fixpoint gval_nested_ind (v : gval) : P v :=
  match v with
  | GStruct fs => Hstruct fs ((fix go fs : Forall (λ f : bool * gval, P f.2) fs :=
      match fs with
      | [] => Forall_nil_2 _
      | f :: fs' => Forall_cons_2 _ f fs'
          (let '(e, x) as f := f return P f.2 in gval_nested_ind x) (go fs')
      end) fs)
  | GPtr (Some x) => Hptr x (gval_nested_ind x)
  | v => Hscalar v I
  end.
End gval_ind.

(** ** The deserializer is total *)

(** What [CreateStruct] guarantees on a buffer: no panic, and a number of used
    bytes within the buffer. *)
Definition create_total (c : bool → gval → bytes → outcome created) (o : gval) : Prop :=
  ∀ settable buff, zlen buff < 2 ^ 63 →
  ∃ used o' err, c settable o buff = Ok (used, o', err) ∧ 0 ≤ used ≤ zlen buff.

Lemma NewSourceBuffer_ok buff : zlen buff < 2 ^ 63 → sb_ok (NewSourceBuffer buff).
Proof. intros H. pose proof (zlen_nonneg buff). unfold sb_ok. cbn. lia. Qed.

(** The value read for a field is of the field's type, or the tail of the buffer
    for a struct or a pointer. *)
Lemma getNextValue_type f sb value eof sb' :
  getNextValueFromBuffer f sb = (Ok (value, eof), sb') →
  match f with
  | GStruct _ | GPtr _ => sb' = sb ∧ ∃ b, value = BBytes b ∧ OffBytes sb = (Ok b, sb)
  | GOther => eof = true
  | _ => ∃ v, value = BVal v ∧ same_type f v = true
  end.
Proof.
  destruct f; cbn [getNextValueFromBuffer]; unfold mbind, M_bind, mret, M_ret;
    try (intros [= <- <- <-]; done).
  all: unfold OffBytes;
    match goal with
    | |- context [slice ?a ?b ?c] => destruct (slice a b c) as [b'| |]
    | |- context [match ?x with _ => _ end] => destruct x as [[[? ?]| |] ?]
    end; intros; simplify_eq; eauto.
Qed.

Lemma setFields_total c fs :
  Forall (λ f : bool * gval, create_total c f.2) fs →
  ∀ sb, sb_ok sb → ∃ fs' r sb', setFields c fs sb = (Ok (fs', r), sb') ∧ sb_ok sb' ∧
    sb_s sb' = sb_s sb ∧ match r with Some (used, _) => 0 ≤ used ≤ zlen (sb_s sb) | None => True end.
Proof.
  induction 1 as [|[ex f] fs Hf Hfs IH]; intros sb Hsb; [by eexists [], None, sb|].
  cbn [setFields]. cbn in Hf. unfold mbind, M_bind, mret, M_ret, gets, lift.
  destruct (reads_getNextValue f sb Hsb) as ([value eof] & s1 & E1 & H1 & S1 & O1). rewrite E1.
  assert (Hpos : 0 ≤ Pos s1 ≤ zlen (sb_s sb)) by (rewrite <- S1; apply H1).
  pose proof (getNextValue_type _ _ _ _ _ E1) as Ht.
  destruct eof; [eexists _, (Some _), s1; by repeat split; try apply H1; try apply Hpos|].
  assert (Hrest : ∀ sb2 f', sb_ok sb2 → sb_s sb2 = sb_s sb → ∃ fs' r sb',
    ('(rest', r) ← setFields c fs; mret ((ex, f') :: rest', r)) sb2 = (Ok (fs', r), sb') ∧ sb_ok sb' ∧
    sb_s sb' = sb_s sb ∧ match r with Some (used, _) => 0 ≤ used ≤ zlen (sb_s sb) | None => True end).
  { intros sb2 f' Hsb2 S2. destruct (IH sb2 Hsb2) as (fs' & r & s3 & E3 & H3 & S3 & B3).
    unfold mbind, M_bind, mret, M_ret. rewrite E3.
    eexists _, r, s3. split; [done|]. rewrite S3, <- S2. by split_and!; try apply H3. }
  unfold mbind, M_bind, mret, M_ret in Hrest.
  assert (Hnested : ∀ b, value = BBytes b → OffBytes sb = (Ok b, sb) → zlen b ≤ zlen (sb_s sb)).
  { intros b _. unfold OffBytes. destruct Hsb as [[? ?] ?]. rewrite slice_ok by lia. intros [= <-].
    unfold zlen. rewrite length_take, length_drop. lia. }
  destruct f; try (destruct Ht as (v & -> & Hs); unfold setField, setValue; destruct ex; cbn [negb];
    [rewrite Hs; by apply Hrest | eexists _, (Some _), s1; by repeat split; try apply H1; try apply Hpos]);
    [..|done].
  all: destruct Ht as (-> & b & -> & Hoff); specialize (Hnested b eq_refl Hoff).
  all: destruct (Hf ex b) as (used & o' & err & -> & Hused); [destruct Hsb; lia|].
  all: destruct err as [e|]; [eexists _, (Some _), sb; repeat split; try done; try apply Hsb; lia|].
  all: destruct (reads_Skip used) with (sb := sb) as (a & s2 & -> & H2 & S2 & _);
         [destruct Hsb; lia|done|by apply Hrest].
Qed.

Lemma structBody_total c fs settable buff :
  Forall (λ f : bool * gval, create_total c f.2) fs → zlen buff < 2 ^ 63 →
  ∃ used o' err, structBody c settable fs buff = Ok (used, o', err) ∧ 0 ≤ used ≤ zlen buff.
Proof.
  intros Hfs Hb. unfold structBody. destruct settable; cbn.
  - destruct (setFields_total c fs Hfs _ (NewSourceBuffer_ok _ Hb)) as (fs' & r & sb' & -> & H & S & B).
    destruct r as [[used e]|]; eexists _, _, _; (split; [done|]); [done|].
    cbn in S. rewrite <- S. apply H.
  - eexists _, _, _. split; [done|]. pose proof (zlen_nonneg buff). lia.
Qed.

Lemma CreateStruct_total_all o : create_total CreateStruct o.
Proof.
  assert (G : create_total CreateStruct o ∧
              match o with GStruct fs => Forall (λ f, create_total CreateStruct f.2) fs | _ => True end).
  { induction o as [o Ho|fs Hfs|o [IH IH']] using gval_nested_ind.
    - split; [|by destruct o as [| | | | | | | | | | |fs|[?|]|]].
      intros st buff Hb. exists 0, o, (Some errInvalidType). pose proof (zlen_nonneg buff).
      split; [|lia]. by destruct o as [| | | | | | | | | | |fs|[?|]|].
    - assert (Hfs' : Forall (λ f : bool * gval, create_total CreateStruct f.2) fs)
        by (eapply Forall_impl; [exact Hfs|]; by intros ? [? ?]).
      split; [|done]. intros st buff Hb. by apply structBody_total.
    - split; [|done]. intros st buff Hb. pose proof (zlen_nonneg buff).
      destruct o; try (eexists _, _, _; split; [reflexivity|lia]).
      destruct (structBody_total CreateStruct fields st buff IH' Hb) as (u & o' & e & E & Hu).
      exists u, (GPtr (Some o')), e. cbn. by rewrite E. }
  apply G.
Qed.

(** ** The wire format

    [encode] is the specification the deserializer inverts: big endian two's
    complement integers, one byte for a boolean, a [uint32] length before the
    bytes of a string or the magnitude of a big integer, and the fields of a
    struct in order.  [encodable] are the values that have an encoding. *)

Definition encode_var (b : bytes) : bytes := be_of_Z 4 (zlen b) ++ b.

Fixpoint encode (v : gval) : bytes :=
  match v with
  | GInt8 z | GUint8 z => be_of_Z 1 z
  | GInt16 z | GUint16 z => be_of_Z 2 z
  | GInt32 z | GUint32 z => be_of_Z 4 z
  | GInt64 z | GUint64 z => be_of_Z 8 z
  | GBool b => [if b then x01 else x00]
  | GString s => encode_var (bytes_of_string s)
  | GBigInt z => encode_var (bigint_Bytes z)
  | GStruct fs => (fix go (fs : list (bool * gval)) : bytes :=
      match fs with [] => [] | (_, f) :: fs' => encode f ++ go fs' end) fs
  | GPtr (Some v) => encode v
  | GPtr None | GOther => []
  end.

Fixpoint encode_fields (fs : list (bool * gval)) : bytes :=
  match fs with [] => [] | (_, f) :: fs' => encode f ++ encode_fields fs' end.

Definition in_range (lo hi z : Z) : bool := (lo <=? z) && (z <? hi).

Fixpoint encodable (v : gval) : bool :=
  match v with
  | GInt8 z => in_range (- 2 ^ 7) (2 ^ 7) z
  | GInt16 z => in_range (- 2 ^ 15) (2 ^ 15) z
  | GInt32 z => in_range (- 2 ^ 31) (2 ^ 31) z
  | GInt64 z => in_range (- 2 ^ 63) (2 ^ 63) z
  | GUint8 z => in_range 0 (2 ^ 8) z
  | GUint16 z => in_range 0 (2 ^ 16) z
  | GUint32 z => in_range 0 (2 ^ 32) z
  | GUint64 z => in_range 0 (2 ^ 64) z
  | GBool _ => true
  | GString s => zlen (bytes_of_string s) <? 2 ^ 32
  | GBigInt z => (0 <=? z) && (zlen (bigint_Bytes z) <? 2 ^ 32)
  | GStruct fs => (fix go (fs : list (bool * gval)) : bool :=
      match fs with [] => true | (ex, f) :: fs' => ex && encodable f && go fs' end) fs
  | GPtr (Some (GStruct fs as v)) => encodable v
  | GPtr _ | GOther => false
  end.

(** [o] is an object of the type of [v]: what the caller passes to be filled. *)
Fixpoint same_shape (o v : gval) : bool :=
  match o, v with
  | GStruct fo, GStruct fv => (fix go (fo fv : list (bool * gval)) : bool :=
      match fo, fv with
      | [], [] => true
      | (eo, o) :: fo', (ev, v) :: fv' => Bool.eqb eo ev && same_shape o v && go fo' fv'
      | _, _ => false
      end) fo fv
  | GPtr (Some o), GPtr (Some v) => same_shape o v
  | o, v => same_type o v
  end.

Lemma encode_struct fs : encode (GStruct fs) = encode_fields fs.
Proof. induction fs as [|[e f] fs IH]; [done|]. cbn in *. by rewrite IH. Qed.

Lemma in_range_true lo hi z : in_range lo hi z = true → lo ≤ z < hi.
Proof. unfold in_range. intros [H1%Z.leb_le H2%Z.ltb_lt]%andb_prop. done. Qed.

(** Reading a block that lies at the cursor. *)
Lemma NextBytes_at pre d post n :
  n = zlen d → zlen (pre ++ d ++ post) < 2 ^ 63 →
  NextBytes n (mkSB (pre ++ d ++ post) (zlen pre)) =
    (Ok (d, false), mkSB (pre ++ d ++ post) (zlen pre + zlen d)).
Proof.
  intros -> H. pose proof H as H'. rewrite !zlen_app in H'.
  pose proof (zlen_nonneg pre). pose proof (zlen_nonneg d). pose proof (zlen_nonneg post).
  rewrite NextBytes_spec by (unfold sb_ok; cbn; rewrite ?zlen_app; lia). cbn [sb_s sb_off].
  rewrite (proj2 (Z.ltb_ge _ _)) by (rewrite !zlen_app; lia).
  unfold zlen. by rewrite !Nat2Z.id, drop_app_length, take_app_length.
Qed.

Lemma NextByte_at pre b post :
  zlen (pre ++ b :: post) < 2 ^ 63 →
  NextByte (mkSB (pre ++ b :: post) (zlen pre)) = (Ok (b, false), mkSB (pre ++ b :: post) (zlen pre + 1)).
Proof.
  intros H. pose proof (zlen_nonneg pre). rewrite NextByte_spec.
  - cbn [sb_s sb_off]. unfold zlen. by rewrite Nat2Z.id, list_lookup_middle.
  - revert H. unfold sb_ok. cbn [sb_s sb_off]. rewrite zlen_app. pose proof (zlen_nonneg (b :: post)). lia.
Qed.

Lemma NextVarBytes_at pre d post :
  zlen d < 2 ^ 32 → zlen (pre ++ encode_var d ++ post) < 2 ^ 63 →
  NextVarBytes (mkSB (pre ++ encode_var d ++ post) (zlen pre)) =
    (Ok (d, false), mkSB (pre ++ encode_var d ++ post) (zlen pre + zlen (encode_var d))).
Proof.
  intros Hd H. unfold NextVarBytes, NextUint32, mbind, M_bind, mret, M_ret, encode_var in *.
  rewrite <- !(app_assoc (be_of_Z 4 (zlen d))) in *.
  rewrite NextBytes_at by (done || by unfold zlen; rewrite be_of_Z_length).
  rewrite be_to_Z_of_Z, Z.mod_small by (pose proof (zlen_nonneg d); change (256 ^ Z.of_nat 4) with (2 ^ 32); lia).
  replace (zlen pre + zlen (be_of_Z 4 (zlen d))) with (zlen (pre ++ be_of_Z 4 (zlen d))) by apply zlen_app.
  rewrite (app_assoc pre) in *. rewrite NextBytes_at by done. by rewrite !zlen_app, Z.add_assoc.
Qed.

Lemma OffBytes_at pre post :
  OffBytes (mkSB (pre ++ post) (zlen pre)) = (Ok post, mkSB (pre ++ post) (zlen pre)).
Proof.
  unfold OffBytes. cbn [sb_s sb_off]. pose proof (zlen_nonneg pre). pose proof (zlen_nonneg post).
  rewrite slice_ok by (rewrite ?zlen_app; lia). do 2 f_equal.
  replace (Z.to_nat (zlen (pre ++ post) - zlen pre)) with (length post)
    by (rewrite zlen_app; unfold zlen; lia).
  unfold zlen. rewrite Nat2Z.id, drop_app_length. f_equal. by apply firstn_all.
Qed.

Lemma Skip_at pre d post :
  zlen (pre ++ d ++ post) < 2 ^ 63 →
  Skip (zlen d) (mkSB (pre ++ d ++ post) (zlen pre)) =
    (Ok false, mkSB (pre ++ d ++ post) (zlen pre + zlen d)).
Proof.
  intros H. pose proof H as H'. rewrite !zlen_app in H'.
  pose proof (zlen_nonneg pre). pose proof (zlen_nonneg d). pose proof (zlen_nonneg post).
  rewrite Skip_spec by (unfold sb_ok; cbn; rewrite ?zlen_app; lia). cbn [sb_s sb_off].
  by rewrite (proj2 (Z.ltb_ge _ _)) by (rewrite !zlen_app; lia).
Qed.


Lemma NextBytes_word k n pre z post :
  k = Z.of_nat n → zlen (pre ++ be_of_Z n z ++ post) < 2 ^ 63 →
  NextBytes k (mkSB (pre ++ be_of_Z n z ++ post) (zlen pre)) =
    (Ok (be_of_Z n z, false), mkSB (pre ++ be_of_Z n z ++ post) (zlen pre + zlen (be_of_Z n z))).
Proof. intros -> H. apply NextBytes_at; [|done]. unfold zlen. by rewrite be_of_Z_length. Qed.

Lemma NextByte_word pre z post :
  zlen (pre ++ be_of_Z 1 z ++ post) < 2 ^ 63 →
  NextByte (mkSB (pre ++ be_of_Z 1 z ++ post) (zlen pre)) =
    (Ok (byte_of_Z z, false), mkSB (pre ++ be_of_Z 1 z ++ post) (zlen pre + zlen (be_of_Z 1 z))).
Proof.
  cbn [be_of_Z]. change (256 ^ Z.of_nat 0) with 1. rewrite Z.div_1_r. apply NextByte_at.
Qed.

(** A word read back and converted to the field's type. *)
Lemma signed_word w z :
  0 < w → - 2 ^ (w - 1) ≤ z < 2 ^ (w - 1) → (z mod 2 ^ w + 2 ^ (w - 1)) mod 2 ^ w - 2 ^ (w - 1) = z.
Proof.
  intros Hw H. rewrite Zplus_mod_idemp_l. rewrite Z.mod_small; [lia|].
  replace (2 ^ w) with (2 * 2 ^ (w - 1)) by (rewrite <- Z.pow_succ_r by lia; f_equal; lia). lia.
Qed.

(** A scalar field is read back whatever surrounds it. *)
Lemma getNextValue_at o v pre post :
  same_type o v = true → encodable v = true → zlen (pre ++ encode v ++ post) < 2 ^ 63 →
  getNextValueFromBuffer o (mkSB (pre ++ encode v ++ post) (zlen pre)) =
    (Ok (BVal v, false), mkSB (pre ++ encode v ++ post) (zlen pre + zlen (encode v))).
Proof.
  intros Hs He H. destruct o, v; try discriminate Hs; cbn [getNextValueFromBuffer encode encodable] in *;
    try apply in_range_true in He;
    unfold NextInt16, NextInt32, NextInt64, NextUint16, NextUint32, NextUint64, NextUint8, NextBool,
      uint16Size, uint32Size, uint64Size, mbind, M_bind, mret, M_ret.
  1, 5: rewrite NextByte_word by done; rewrite byte_Z_of_Z.
  3-8: erewrite NextBytes_word by (done || reflexivity); rewrite be_to_Z_of_Z.
  - change 256 with (2 ^ 8). unfold i8. by rewrite (signed_word 8) by lia.
  - by rewrite Z.mod_small by lia.
  - change (256 ^ Z.of_nat 2) with (2 ^ 16). unfold i16. by rewrite (signed_word 16) by lia.
  - change (256 ^ Z.of_nat 4) with (2 ^ 32). unfold i32. by rewrite (signed_word 32) by lia.
  - change (256 ^ Z.of_nat 8) with (2 ^ 64). unfold i64. by rewrite (signed_word 64) by lia.
  - change (256 ^ Z.of_nat 2) with (2 ^ 16). by rewrite Z.mod_small by lia.
  - change (256 ^ Z.of_nat 4) with (2 ^ 32). by rewrite Z.mod_small by lia.
  - change (256 ^ Z.of_nat 8) with (2 ^ 64). by rewrite Z.mod_small by lia.
  - cbn [app] in *. rewrite NextByte_at by done. by destruct b0.
  - apply Z.ltb_lt in He. rewrite NextVarBytes_at by done. by rewrite string_of_bytes_of_string.
  - apply andb_prop in He as [He1%Z.leb_le He2%Z.ltb_lt]. rewrite NextVarBytes_at by done.
    by rewrite bigint_Bytes_value, Z.abs_eq.
Qed.

(** ** Round trip *)

Definition struct_roundtrip (o v : gval) : Prop := ∀ post,
  zlen (encode v ++ post) < 2 ^ 63 →
  CreateStruct true o (encode v ++ post) = Ok (zlen (encode v), v, None).

(** The element of a value that is a struct or a pointer. *)
Definition is_nested (v : gval) : bool := match v with GStruct _ | GPtr _ => true | _ => false end.

Lemma setFields_at fo fv pre post :
  Forall2 (λ o v : bool * gval, o.1 = true ∧ v.1 = true ∧ encodable v.2 = true ∧
    if is_nested v.2 then is_nested o.2 = true ∧ struct_roundtrip o.2 v.2
    else same_type o.2 v.2 = true) fo fv →
  zlen (pre ++ encode_fields fv ++ post) < 2 ^ 63 →
  setFields CreateStruct fo (mkSB (pre ++ encode_fields fv ++ post) (zlen pre)) =
    (Ok (fv, None), mkSB (pre ++ encode_fields fv ++ post) (zlen pre + zlen (encode_fields fv))).
Proof.
  intros Hf. revert pre. induction Hf as [|[eo o] [ev v] fo fv (Ho & Hv & He & Hn) Hf IH]; intros pre H.
  { cbn. by rewrite Z.add_0_r. }
  cbn [fst snd] in *. subst eo ev. cbn [encode_fields setFields] in *.
  rewrite <- app_assoc in H |- *.
  specialize (IH (pre ++ encode v)). rewrite !zlen_app, <- !app_assoc in IH.
  specialize (IH ltac:(rewrite !zlen_app in H; lia)). rewrite zlen_app, !Z.add_assoc.
  unfold mbind, M_bind, mret, M_ret, gets, lift in *. destruct (is_nested v) eqn:En.
  - destruct Hn as [Ho Hrt]. specialize (Hrt (encode_fields fv ++ post)
      ltac:(rewrite !zlen_app in *; pose proof (zlen_nonneg pre); lia)).
    assert (Hget : getNextValueFromBuffer o (mkSB (pre ++ encode v ++ encode_fields fv ++ post) (zlen pre)) =
      (Ok (BBytes (encode v ++ encode_fields fv ++ post), false),
       mkSB (pre ++ encode v ++ encode_fields fv ++ post) (zlen pre))).
    { destruct o; try discriminate Ho; cbn [getNextValueFromBuffer]; unfold mbind, M_bind, mret, M_ret;
        by rewrite OffBytes_at. }
    rewrite Hget. destruct o; try discriminate Ho; rewrite Hrt, Skip_at by done; by rewrite IH.
  - rewrite getNextValue_at by done. destruct o, v; try discriminate Hn; cbn [setField setValue negb same_type];
      by rewrite IH.
Qed.

Lemma encodable_struct fs :
  encodable (GStruct fs) = true ↔ Forall (λ f : bool * gval, f.1 = true ∧ encodable f.2 = true) fs.
Proof.
  induction fs as [|[e f] fs IH]; [by split|]. cbn in *. rewrite !andb_true_iff, Forall_cons. cbn. tauto.
Qed.

Lemma same_shape_struct fo fv :
  same_shape (GStruct fo) (GStruct fv) = true →
  Forall2 (λ o v : bool * gval, o.1 = v.1 ∧ same_shape o.2 v.2 = true) fo fv.
Proof.
  revert fv. induction fo as [|[eo o] fo IH]; intros [|[ev v] fv]; cbn in *; try done.
  rewrite !andb_true_iff. intros [[E%Bool.eqb_prop Hs] Hr]. constructor; auto.
Qed.

Lemma same_shape_scalar o v : is_nested v = false → same_shape o v = same_type o v.
Proof. by destruct o as [| | | | | | | | | | |?|[?|]|], v as [| | | | | | | | | | |?|[?|]|]. Qed.
Lemma same_shape_nested o v : is_nested v = true → same_shape o v = true → is_nested o = true.
Proof. by destruct o as [| | | | | | | | | | |?|[?|]|], v as [| | | | | | | | | | |?|[?|]|]. Qed.

Lemma structBody_roundtrip fo fv post :
  Forall2 (λ o v : bool * gval, o.1 = true ∧ v.1 = true ∧ encodable v.2 = true ∧
    if is_nested v.2 then is_nested o.2 = true ∧ struct_roundtrip o.2 v.2
    else same_type o.2 v.2 = true) fo fv →
  zlen (encode_fields fv ++ post) < 2 ^ 63 →
  structBody CreateStruct true fo (encode_fields fv ++ post) = Ok (zlen (encode_fields fv), GStruct fv, None).
Proof.
  intros Hf H. unfold structBody, NewSourceBuffer. cbn [negb].
  pose proof (setFields_at fo fv [] post Hf H) as E. change (zlen (A:=byte) []) with 0 in E.
  cbn [app Z.add] in E. by rewrite E.
Qed.

Lemma CreateStruct_roundtrip_all v : ∀ o,
  is_nested v = true → encodable v = true → same_shape o v = true → struct_roundtrip o v.
Proof.
  induction v as [v Hv|fv IH|v IH] using gval_nested_ind; intros o Hn He Hs.
  - by destruct v as [| | | | | | | | | | |?|[?|]|].
  - destruct o as [| | | | | | | | | | |fo|[?|]|]; try discriminate Hs. intros post.
    rewrite encode_struct. cbn [CreateStruct]. apply structBody_roundtrip.
    apply encodable_struct in He. apply same_shape_struct in Hs.
    clear Hn. induction Hs as [|[eo o] [ev v] fo fv [Ho Hs] Hss IHs]; [done|].
    apply Forall_cons in IH as [IHv IHr]. apply Forall_cons in He as [[Hev Hen] Her].
    cbn [fst snd] in *. constructor; [|by apply IHs]. cbn [fst snd]. split_and!; try congruence.
    destruct (is_nested v) eqn:En; [split; [by eapply same_shape_nested|by apply IHv]|].
    by rewrite <- same_shape_scalar.
  - destruct o as [| | | | | | | | | | |?|[o|]|]; try discriminate Hs. cbn [same_shape encode] in *.
    destruct v; try discriminate He.
    destruct o as [| | | | | | | | | | |fo|[?|]|]; try discriminate Hs. intros post Hl.
    specialize (IH (GStruct fo) eq_refl He Hs post Hl). cbn [CreateStruct] in *.
    cbn [encode] in IH |- *. by rewrite IH.
Qed.

(** ** Properties *)

(** C1: deserializing the encoding of a struct, followed by any bytes, into an
    object of its type fills the object with exactly that struct, reports no
    error and returns the length of the encoding as the number of used bytes. *)
Theorem CreateStruct_roundtrip (o v : gval) (post : bytes) :
  is_nested v = true → encodable v = true → same_shape o v = true →
  zlen (encode v ++ post) < 2 ^ 63 →
  CreateStruct true o (encode v ++ post) = Ok (zlen (encode v), v, None).
Proof. intros Hn He Hs. by apply CreateStruct_roundtrip_all. Qed.

Definition blank_nesting : gval :=
  GStruct [(true, GString ""); (true, GBool false); (true, GInt64 0); (true, GBigInt 0);
           (true, GStruct [(true, GString ""); (true, GBool false)]); (true, GUint16 0)].
Definition some_nesting : gval :=
  GStruct [(true, GString "ALC-6258d2"); (true, GBool true); (true, GInt64 (-2)); (true, GBigInt 1000);
           (true, GStruct [(true, GString "x"); (true, GBool true)]); (true, GUint16 515)].

Lemma CreateStruct_roundtrip_witness :
  CreateStruct true blank_nesting (encode some_nesting ++ [x01]) =
    Ok (zlen (encode some_nesting), some_nesting, None).
Proof. apply CreateStruct_roundtrip; vm_compute; reflexivity. Defined.

(** C38: on any object and any bytes the deserializer returns: it never indexes
    or slices outside the buffer, and the count it returns, with or without an
    error, is between zero and the length of the buffer. *)
Theorem CreateStruct_never_panics (settable : bool) (o : gval) (buff : bytes) :
  zlen buff < 2 ^ 63 →
  ∃ used o' err, CreateStruct settable o buff = Ok (used, o', err) ∧ 0 ≤ used ≤ zlen buff.
Proof. apply CreateStruct_total_all. Qed.

Lemma CreateStruct_never_panics_witness :
  ∃ used o' err, CreateStruct true blank_nesting [x00; x00; x00; xff; x01] = Ok (used, o', err) ∧
    0 ≤ used ≤ zlen [x00; x00; x00; xff; x01].
Proof. apply (CreateStruct_never_panics true blank_nesting [x00; x00; x00; xff; x01]). vm_compute. reflexivity. Defined.
