(* ===== verification/SerdeFormat.v ===== *)
(** * The format of the deserializer ([serde/deserializer.go])

    What bytes an object can be filled from, and with what: [denotes o v d] says
    that the bytes [d] are the value [v] of the type of [o].  The deserializer is
    shown to accept exactly these bytes.  The methods of the cursor that return a
    value and an end-of-buffer flag are described by [yields], and composed. *)

From S2P Require Export Serde.

Definition is_bigint (v : gval) : bool := match v with GBigInt _ => true | _ => false end.

(** Big-endian words in two's complement, a byte 0 or 1 for a bool, a 32-bit
    length and as many bytes for a string; for a big integer too, but there any
    big-endian bytes of the integer, leading zeros included; the fields of a
    struct in order, all of them exported; the struct a pointer points to. *)
Inductive denotes : gval → gval → bytes → Prop :=
  | denotes_scalar o v :
      same_type o v = true → is_bigint v = false → encodable v = true → denotes o v (encode v)
  | denotes_bigint z b :
      zlen b < 2 ^ 32 → denotes (GBigInt z) (GBigInt (be_to_Z b)) (encode_var b)
  | denotes_no_field :
      denotes (GStruct []) (GStruct []) []
  | denotes_field o v d fs vs ds :
      denotes o v d → denotes (GStruct fs) (GStruct vs) ds →
      denotes (GStruct ((true, o) :: fs)) (GStruct ((true, v) :: vs)) (d ++ ds)
  | denotes_ptr fs v d :
      denotes (GStruct fs) v d → denotes (GPtr (Some (GStruct fs))) (GPtr (Some v)) d.

Create HintDb serde.
#[export] Hint Constructors denotes : serde.

(** ** Reading one value *)

(** From a cursor before [rest], [m] returns [a] without the end-of-buffer flag
    iff [rest] starts with bytes that mean [a]; it moves over just those. *)
Definition yields {A} (m : M SourceBuffer (A * bool)) (P : A → bytes → Prop) : Prop :=
  ∀ pre rest a sb', zlen (pre ++ rest) < 2 ^ 63 →
  m (mkSB (pre ++ rest) (zlen pre)) = (Ok (a, false), sb') ↔
  ∃ d post, rest = d ++ post ∧ sb' = mkSB (pre ++ rest) (zlen pre + zlen d) ∧ P a d.

Lemma yields_ext {A} (m : M SourceBuffer (A * bool)) (P Q : A → bytes → Prop) :
  (∀ a d, P a d ↔ Q a d) → yields m P → yields m Q.
Proof. intros H Hm pre rest a sb' Hl. rewrite (Hm pre rest a sb' Hl). by setoid_rewrite H. Qed.

Lemma yields_ret {A} (a : A) : yields (mret (a, false)) (λ a' d, a' = a ∧ d = []).
Proof.
  intros pre rest a' sb' _. unfold mret, M_ret. split.
  - intros [= <- <-]. exists [], rest. by rewrite Z.add_0_r.
  - intros (d & post & -> & -> & -> & ->). by rewrite Z.add_0_r.
Qed.

(** A conversion of the value read. *)
Lemma yields_map {A B} (m : M SourceBuffer (A * bool)) (f : A → B) (P : A → bytes → Prop) :
  yields m P → yields ('(x, eof) ← m; mret (f x, eof)) (λ y d, ∃ x, y = f x ∧ P x d).
Proof.
  intros Hm pre rest y sb' Hl. unfold mbind, M_bind, mret, M_ret. split.
  - destruct (m _) as [[[x e]|e|] s] eqn:E; [|done..]. intros [= <- -> ->].
    apply Hm in E as (d & post & ? & ? & ?); [|done]. eauto 10.
  - intros (d & post & -> & -> & x & -> & Hx). by rewrite (proj2 (Hm _ _ x _ Hl)) by eauto.
Qed.

(** A read that goes on when the first part was there. *)
Lemma yields_bind {A B} (m : M SourceBuffer (A * bool)) (z : B)
    (k : A → bool → M SourceBuffer (B * bool)) (P : A → bytes → Prop) (Q : A → B → bytes → Prop) :
  yields m P → (∀ x d, P x d → yields (k x false) (Q x)) →
  yields ('(x, eof) ← m; if eof : bool then mret (z, eof) else k x eof)
    (λ y d, ∃ x d1 d2, d = d1 ++ d2 ∧ P x d1 ∧ Q x y d2).
Proof.
  intros Hm Hk pre rest y sb' Hl. unfold mbind, M_bind. split.
  - destruct (m _) as [[[x [|]]|e|] s] eqn:E; [done| |done..]. intros Ek.
    apply Hm in E as (d & post & -> & -> & HP); [|done]. rewrite app_assoc, <- zlen_app in Ek.
    apply (Hk x d HP) in Ek as (d2 & post2 & -> & -> & HQ); [|by rewrite <- app_assoc].
    exists (d ++ d2), post2. rewrite !zlen_app, Z.add_assoc, <- !app_assoc. eauto 10.
  - intros (d & post & -> & -> & x & d1 & d2 & -> & HP & HQ).
    rewrite <- app_assoc in Hl |- *. rewrite (proj2 (Hm pre (d1 ++ d2 ++ post) x _ Hl)) by eauto.
    rewrite !app_assoc, <- (app_assoc _ d2), <- zlen_app in *.
    apply (Hk x d1 HP); [done|]. exists d2, post. by rewrite !zlen_app, Z.add_assoc.
Qed.

Lemma yields_NextBytes n : 0 ≤ n < 2 ^ 64 → yields (NextBytes n) (λ b d, b = d ∧ zlen d = n).
Proof.
  intros Hn pre rest b sb' Hl. split.
  - pose proof (zlen_nonneg pre). pose proof (zlen_nonneg rest). pose proof Hl as Hl'. rewrite zlen_app in Hl'.
    rewrite NextBytes_spec by (done || unfold sb_ok; cbn; rewrite zlen_app; lia). cbn [sb_s sb_off].
    rewrite zlen_app. destruct (Z.ltb_spec (zlen pre + zlen rest) (zlen pre + n)); [done|].
    unfold zlen at 1. rewrite Nat2Z.id, drop_app_length. intros [= <- <-].
    assert (zlen (take (Z.to_nat n) rest) = n) by (unfold zlen in *; rewrite length_take; lia).
    exists (take (Z.to_nat n) rest), (drop (Z.to_nat n) rest). rewrite take_drop. unfold sb_setOff. cbn. split_and!; congruence.
  - intros (d & post & -> & -> & -> & Hd). by apply NextBytes_at.
Qed.

Lemma yields_NextByte : yields NextByte (λ b d, d = [b]).
Proof.
  intros pre rest b sb' Hl. pose proof (zlen_nonneg pre). pose proof (zlen_nonneg rest).
  split.
  - rewrite NextByte_spec by (unfold sb_ok; cbn; rewrite zlen_app in *; lia). cbn [sb_s sb_off].
    unfold zlen at 1. rewrite Nat2Z.id, lookup_app_r, Nat.sub_diag by lia.
    destruct rest as [|b' rest]; [done|]. intros [= <- <-]. by exists [b'], rest.
  - intros (d & post & -> & -> & ->). by apply NextByte_at.
Qed.

(** ** Words *)

Definition word_of (n : nat) (x : Z) (d : bytes) : Prop := length d = n ∧ x = be_to_Z d.

Lemma yields_NextUint8 : yields NextUint8 (word_of 1).
Proof.
  eapply yields_ext; [|apply (yields_map _ byte_Z), yields_NextByte]. intros x d. unfold word_of. split.
  - intros (b & -> & ->). split; [done|]. cbn. lia.
  - intros [Hd ->]. destruct d as [|b [|? ?]]; [done| |done]. exists b. split; [cbn; lia|done].
Qed.

Lemma yields_word (n : nat) k :
  k = Z.of_nat n → k < 2 ^ 64 →
  yields ('(buf, eof) ← NextBytes k; if eof : bool then mret (0, eof) else mret (be_to_Z buf, eof)) (word_of n).
Proof.
  intros -> Hn. eapply yields_ext; [|apply yields_bind; [apply yields_NextBytes; lia|]].
  2: intros x d _; apply yields_ret.
  intros x d. unfold word_of, zlen. split.
  - intros (b & d1 & d2 & -> & [-> Hd] & -> & ->). rewrite app_nil_r. split; [lia|done].
  - intros [Hd ->]. exists d, d, []. rewrite app_nil_r. split_and!; try done. lia.
Qed.

Lemma yields_NextUint16 : yields NextUint16 (word_of 2).
Proof. by apply (yields_word 2). Qed.
Lemma yields_NextUint32 : yields NextUint32 (word_of 4).
Proof. by apply (yields_word 4). Qed.
Lemma yields_NextUint64 : yields NextUint64 (word_of 8).
Proof. by apply (yields_word 8). Qed.

Lemma be_of_Z_mod n z : be_of_Z n (z mod 256 ^ Z.of_nat n) = be_of_Z n z.
Proof.
  rewrite <- be_to_Z_of_Z. pose proof (be_of_Z_to_Z (be_of_Z n z)) as E. by rewrite be_of_Z_length in E.
Qed.

Lemma word_unsigned n z d : word_of n z d ↔ in_range 0 (256 ^ Z.of_nat n) z = true ∧ d = be_of_Z n z.
Proof.
  unfold word_of, in_range. rewrite andb_true_iff, Z.leb_le, Z.ltb_lt. split.
  - intros [<- ->]. rewrite be_of_Z_to_Z. split; [apply be_to_Z_bound|done].
  - intros [Hz ->]. by rewrite be_of_Z_length, be_to_Z_of_Z, Z.mod_small.
Qed.

Definition signed_of (n : nat) (w z : Z) (d : bytes) : Prop :=
  in_range (- 2 ^ (w - 1)) (2 ^ (w - 1)) z = true ∧ d = be_of_Z n z.

(** The conversion of an unsigned to a signed [w]-bit integer. *)
Lemma word_signed n w z d : w = 8 * Z.of_nat n → 0 < w →
  (∃ x, z = (x + 2 ^ (w - 1)) mod 2 ^ w - 2 ^ (w - 1) ∧ word_of n x d) ↔ signed_of n w z d.
Proof.
  intros Hw H0. assert (Hp : 2 ^ w = 2 * 2 ^ (w - 1)) by (rewrite <- Z.pow_succ_r by lia; f_equal; lia).
  assert (H256 : 256 ^ Z.of_nat n = 2 ^ w) by (change 256 with (2 ^ 8); rewrite <- Z.pow_mul_r by lia; by subst w).
  setoid_rewrite word_unsigned. unfold signed_of, in_range. setoid_rewrite andb_true_iff. setoid_rewrite Z.leb_le. setoid_rewrite Z.ltb_lt.
  rewrite H256. pose proof (Z.pow_pos_nonneg 2 (w - 1)). split.
  - intros (x & -> & Hx & ->). pose proof (Z.mod_pos_bound (x + 2 ^ (w - 1)) (2 ^ w)).
    split; [lia|]. rewrite <- (be_of_Z_mod n (_ - _)), H256. rewrite Zminus_mod_idemp_l.
    replace (x + 2 ^ (w - 1) - 2 ^ (w - 1)) with x by lia. by rewrite Z.mod_small.
  - intros (Hz & ->). exists (z mod 2 ^ w). split; [by rewrite signed_word by lia|].
    split; [apply Z.mod_pos_bound; lia|]. by rewrite <- H256, be_of_Z_mod.
Qed.

Lemma yields_NextInt16 : yields NextInt16 (signed_of 2 16).
Proof. eapply yields_ext; [|apply (yields_map _ i16), yields_NextUint16]. intros z d. by apply (word_signed 2 16). Qed.
Lemma yields_NextInt32 : yields NextInt32 (signed_of 4 32).
Proof. eapply yields_ext; [|apply (yields_map _ i32), yields_NextUint32]. intros z d. by apply (word_signed 4 32). Qed.
Lemma yields_NextInt64 : yields NextInt64 (signed_of 8 64).
Proof. eapply yields_ext; [|apply (yields_map _ i64), yields_NextUint64]. intros z d. by apply (word_signed 8 64). Qed.

Definition var_of (b d : bytes) : Prop := zlen b < 2 ^ 32 ∧ d = encode_var b.

Lemma yields_NextVarBytes : yields NextVarBytes var_of.
Proof.
  eapply yields_ext; [|apply (yields_bind NextUint32 [] (λ count _, NextBytes count) (word_of 4)
    (λ count b d, b = d ∧ zlen d = count)); [apply yields_NextUint32|]].
  - intros b d. setoid_rewrite word_unsigned. unfold var_of, encode_var, in_range.
    setoid_rewrite andb_true_iff. setoid_rewrite Z.ltb_lt. change (256 ^ Z.of_nat 4) with (2 ^ 32). split.
    + intros (x & d1 & d2 & -> & [[_ Hx] ->] & -> & <-). done.
    + intros [Hb ->]. eexists _, _, b. split; [done|]. split_and!; try done. apply Z.leb_le, zlen_nonneg.
  - intros x d [Hd ->]. apply yields_NextBytes. pose proof (be_to_Z_bound d) as Hb. rewrite Hd in Hb.
    change (256 ^ Z.of_nat 4) with (2 ^ 32) in Hb. lia.
Qed.

Lemma yields_NextBool : yields NextBool (λ b d, d = [if b then x01 else x00]).
Proof.
  intros pre rest b sb' Hl. unfold NextBool, mbind, M_bind, mret, M_ret. split.
  - destruct (NextByte _) as [[[x eof]|e|] s] eqn:E; [|done..].
    intros H. assert (eof = false ∧ sb' = s ∧ x = if b then x01 else x00) as (-> & -> & ->).
    { destruct x; try discriminate H; cbn in H; by simplify_eq. }
    apply yields_NextByte in E as (d & post & -> & -> & ->); [|done]. eauto.
  - intros (d & post & -> & -> & ->). cbn [app] in *. rewrite NextByte_at by done. by destruct b.
Qed.

(** ** Fields *)

Lemma denotes_scalar_iff o v d : is_nested o = false → is_bigint o = false →
  denotes o v d ↔ same_type o v = true ∧ encodable v = true ∧ d = encode v.
Proof.
  intros Hn Hb. split.
  - inversion 1; subst; done.
  - intros (Ht & He & ->). apply denotes_scalar; try done. by destruct o, v.
Qed.

Lemma denotes_bigint_iff z v d :
  denotes (GBigInt z) v d ↔ ∃ b, v = GBigInt (be_to_Z b) ∧ var_of b d.
Proof.
  split.
  - inversion 1 as [? v' Ht Hb| | | |]; subst; [by destruct v|]. unfold var_of. eauto.
  - intros (b & -> & Hb & ->). by apply denotes_bigint.
Qed.

Lemma yields_field (f : gval) {A} (m : M SourceBuffer (A * bool)) (F : A → gval) (P : A → bytes → Prop) :
  (∀ v d, denotes f v d ↔ ∃ x, v = F x ∧ P x d) → yields m P →
  yields ('(x, eof) ← m; mret (BVal (F x), eof)) (λ y d, ∃ v, y = BVal v ∧ denotes f v d).
Proof.
  intros H Hm. eapply yields_ext; [|by apply (yields_map m (λ x, BVal (F x)))]. intros y d.
  setoid_rewrite H. naive_solver.
Qed.


Ltac scalar_field :=
  let v := fresh "v" in let d := fresh "d" in let Ht := fresh in let He := fresh in
  intros v d; rewrite denotes_scalar_iff by done; split;
  [intros (Ht & He & ->); destruct v; try discriminate Ht; eexists; split; [reflexivity|]
  |intros (? & -> & ?)].

(** A scalar field takes the bytes that denote it, and no others. *)
Lemma yields_getNextValue f : is_nested f = false →
  yields (getNextValueFromBuffer f) (λ y d, ∃ v, y = BVal v ∧ denotes f v d).
Proof.
  destruct f; try discriminate; intros _; cbn [getNextValueFromBuffer].
  - eapply (yields_field _ _ (λ x, GInt8 (i8 x))); [|apply yields_NextUint8]. intros v d.
    rewrite denotes_scalar_iff by done. pose proof (λ z, word_signed 1 8 z d eq_refl eq_refl) as H.
    split.
    + intros (Ht & He & ->). destruct v; try discriminate Ht. destruct (proj2 (H z0) (conj He eq_refl)) as (x & -> & ?).
      eauto.
    + intros (x & -> & Hx). destruct (proj1 (H (i8 x))) as [? ?]; eauto.
  - apply yields_field with (2 := yields_NextInt16). scalar_field; [by split|by destruct H].
  - apply yields_field with (2 := yields_NextInt32). scalar_field; [by split|by destruct H].
  - apply yields_field with (2 := yields_NextInt64). scalar_field; [by split|by destruct H].
  - apply yields_field with (2 := yields_NextUint8). setoid_rewrite word_unsigned. scalar_field; [by split|by destruct H].
  - apply yields_field with (2 := yields_NextUint16). setoid_rewrite word_unsigned. scalar_field; [by split|by destruct H].
  - apply yields_field with (2 := yields_NextUint32). setoid_rewrite word_unsigned. scalar_field; [by split|by destruct H].
  - apply yields_field with (2 := yields_NextUint64). setoid_rewrite word_unsigned. scalar_field; [by split|by destruct H].
  - apply yields_field with (2 := yields_NextBool). scalar_field; done.
  - apply (yields_field _ _ (λ x, GString (string_of_bytes x))) with (2 := yields_NextVarBytes).
    intros v d. rewrite denotes_scalar_iff by done. unfold var_of. split.
    + intros (Ht & He & ->). destruct v as [| | | | | | | | |s'| | | |]; try discriminate Ht. apply Z.ltb_lt in He.
      exists (bytes_of_string s'). by rewrite string_of_bytes_of_string.
    + intros (x & -> & Hx & ->). cbn. rewrite bytes_of_string_of_bytes. by rewrite (proj2 (Z.ltb_lt _ _) Hx).
  - apply (yields_field _ _ (λ x, GBigInt (be_to_Z x))) with (2 := yields_NextVarBytes). apply denotes_bigint_iff.
  - intros pre rest a sb' _. split; [done|]. intros (d & post & _ & _ & v & _ & H). inversion H; by destruct v.
Qed.

(** ** Structs *)

Lemma not_settable o data used v : CreateStruct false o data ≠ Ok (used, v, None).
Proof. by destruct o as [| | | | | | | | | | |?|[[]|]|]. Qed.

Definition decodes (o : gval) : Prop := ∀ data used v, zlen data < 2 ^ 63 →
  CreateStruct true o data = Ok (used, v, None) ↔
  ∃ d post, data = d ++ post ∧ used = zlen d ∧ denotes o v d.

(** A field, as one step of the loop: the object it leaves and the cursor it
    goes on from. *)
Definition field_step (ex : bool) (f : gval) : M SourceBuffer (gval * bool) :=
  '(value, eof) ← getNextValueFromBuffer f;
  if eof : bool then mret (f, true)
  else match f, value with
       | GStruct _, BBytes b | GPtr _, BBytes b =>
         '(used, f', err) ← lift (CreateStruct ex f b);
         match err with Some _ => mret (f', true) | None => Skip used ;; mret (f', false) end
       | _, _ => match setField ex f value with
                 | Ok f' => mret (f', false) | Fail _ => mret (f, true) | Panic => panic
                 end
       end.

Lemma setFields_cons ex f fs sb vs sb' :
  setFields CreateStruct ((ex, f) :: fs) sb = (Ok (vs, None), sb') ↔
  ∃ v vs' s1, vs = (ex, v) :: vs' ∧ field_step ex f sb = (Ok (v, false), s1) ∧
    setFields CreateStruct fs s1 = (Ok (vs', None), sb').
Proof.
  cbn [setFields]. unfold field_step, mbind, M_bind, mret, M_ret, gets, lift, panic.
  split.
  - intros H. repeat (case_match; simplify_eq; try discriminate); eauto 10.
  - intros (v & vs' & s1 & -> & H & H2).
    repeat (case_match; simplify_eq; try discriminate); try by rewrite ?H2.
Qed.

(** A struct or a pointer to one is given the tail of the buffer, and the loop
    goes on after the bytes it used. *)
Lemma field_step_nested ex f pre rest : is_nested f = true →
  field_step ex f (mkSB (pre ++ rest) (zlen pre)) =
    match CreateStruct ex f rest with
    | Ok (used, f', None) => (Skip used ;; mret (f', false)) (mkSB (pre ++ rest) (zlen pre))
    | Ok (_, f', Some _) => (Ok (f', true), mkSB (pre ++ rest) (zlen pre))
    | Fail e => (Fail e, mkSB (pre ++ rest) (zlen pre))
    | Panic => (Panic, mkSB (pre ++ rest) (zlen pre))
    end.
Proof.
  intros Hn. unfold field_step, mbind, M_bind, mret, M_ret, lift.
  destruct f; try discriminate Hn; cbn [getNextValueFromBuffer]; unfold mbind, M_bind, mret, M_ret;
    rewrite OffBytes_at; by destruct (CreateStruct ex _ rest) as [[[? ?] [?|]]|?|].
Qed.

Lemma yields_nested ex f :
  is_nested f = true → decodes f → yields (field_step ex f) (λ v d, ex = true ∧ denotes f v d).
Proof.
  intros Hn Hf pre rest v sb' Hl. rewrite field_step_nested by done.
  assert (Hr : zlen rest < 2 ^ 63) by (rewrite zlen_app in Hl; pose proof (zlen_nonneg pre); lia).
  unfold mbind, M_bind, mret, M_ret. split.
  - destruct (CreateStruct ex f rest) as [[[used f'] [e|]]|e|] eqn:Ec; [done| |done..].
    destruct ex; [|by apply not_settable in Ec].
    apply Hf in Ec as (d & post & -> & -> & Hd); [|done].
    rewrite Skip_at by done. intros [= <- <-]. eauto 10.
  - intros (d & post & -> & -> & -> & Hd). rewrite (proj2 (Hf (d ++ post) (zlen d) v Hr)) by eauto.
    by rewrite Skip_at.
Qed.

Lemma yields_scalar ex f :
  is_nested f = false → yields (field_step ex f) (λ v d, ex = true ∧ denotes f v d).
Proof.
  intros Hn. pose proof (yields_getNextValue f Hn) as Hm. intros pre rest v sb' Hl.
  unfold field_step, setField, setValue, mbind, M_bind, mret, M_ret, panic. split.
  - destruct (getNextValueFromBuffer f _) as [[[value [|]]|e|] s] eqn:E; [done| |done..].
    apply Hm in E as (d & post & -> & -> & v' & -> & Hd); [|done].
    destruct f; try discriminate Hn; (destruct ex; [|done]); cbn [negb];
      (destruct (same_type _ v') eqn:Ht; [|done]); intros [= <- <-]; eauto 10.
  - intros (d & post & -> & -> & -> & Hd). rewrite (proj2 (Hm pre (d ++ post) (BVal v) _ Hl)) by eauto 10.
    assert (Ht : same_type f v = true) by (by inversion Hd; subst).
    cbn [negb]. rewrite Ht. by destruct f.
Qed.

Lemma yields_field_step ex f :
  (is_nested f = true → decodes f) → yields (field_step ex f) (λ v d, ex = true ∧ denotes f v d).
Proof. intros Hf. destruct (is_nested f) eqn:En; [by apply yields_nested; auto|by apply yields_scalar]. Qed.

Lemma setFields_denotes fs : Forall (λ f : bool * gval, is_nested f.2 = true → decodes f.2) fs →
  ∀ pre rest vs sb', zlen (pre ++ rest) < 2 ^ 63 →
  setFields CreateStruct fs (mkSB (pre ++ rest) (zlen pre)) = (Ok (vs, None), sb') ↔
  ∃ d post, rest = d ++ post ∧ sb' = mkSB (pre ++ rest) (zlen pre + zlen d) ∧
    denotes (GStruct fs) (GStruct vs) d.
Proof.
  induction 1 as [|[ex f] fs Hf _ IH]; intros pre rest vs sb' Hl.
  - cbn. split.
    + intros [= <- <-]. exists [], rest. rewrite Z.add_0_r. auto with serde.
    + intros (d & post & -> & -> & Hd). inversion Hd; subst; [done|]. cbn. by rewrite Z.add_0_r.
  - rewrite setFields_cons. pose proof (yields_field_step ex f Hf) as Hm. split.
    + intros (v & vs' & s1 & -> & E & E2).
      apply Hm in E as (d & post & -> & -> & -> & Hd); [|done].
      rewrite app_assoc, <- zlen_app in E2. apply IH in E2 as (d2 & post2 & -> & -> & Hd2); [|by rewrite <- app_assoc].
      exists (d ++ d2), post2. rewrite !zlen_app, Z.add_assoc, <- !app_assoc. auto with serde.
    + intros (d & post & -> & -> & Hd). inversion Hd as [| | |? v d1 ? vs' d2 H1 H2|]; subst; [done|].
      rewrite <- app_assoc in Hl |- *. exists v, vs'. eexists. split; [done|].
      split; [apply (Hm pre (d1 ++ d2 ++ post)); [done|]; eauto 10|].
      rewrite app_assoc, <- zlen_app. apply IH; [by rewrite <- app_assoc|].
      exists d2, post. by rewrite !zlen_app, Z.add_assoc.
Qed.

Lemma structBody_denotes fs data used v :
  Forall (λ f : bool * gval, is_nested f.2 = true → decodes f.2) fs → zlen data < 2 ^ 63 →
  structBody CreateStruct true fs data = Ok (used, v, None) ↔
  ∃ d post, data = d ++ post ∧ used = zlen d ∧ denotes (GStruct fs) v d.
Proof.
  intros Hfs Hl. pose proof (λ vs sb', setFields_denotes fs Hfs [] data vs sb' Hl) as H.
  change (zlen (A:=byte) []) with 0 in H. cbn [app Z.add] in H. unfold structBody, NewSourceBuffer. cbn [negb]. split.
  - destruct (setFields _ _ _) as [[[vs [[? ?]|]]|e|] sb'] eqn:E; [done| |done..].
    destruct (proj1 (H _ _) eq_refl) as (d & post & -> & -> & Hd). intros [= <- <-]. cbn. eauto.
  - intros (d & post & -> & -> & Hd). assert (∃ vs, v = GStruct vs) as [vs ->].
    { inversion Hd as [? v' Ht| | | |]; subst; eauto. by destruct v. }
    rewrite (proj2 (H vs _)) by eauto. done.
Qed.

Lemma CreateStruct_decodes o : is_nested o = true → decodes o.
Proof.
  assert (G : (is_nested o = true → decodes o) ∧
    match o with GStruct fs => Forall (λ f, is_nested f.2 = true → decodes f.2) fs | _ => True end).
  2: apply G.
  induction o as [o Ho|fs Hfs|o [IH IH']] using gval_nested_ind.
  - destruct o as [| | | | | | | | | | |fs|[?|]|]; try done. split; [|done]. intros _ data used v _.
    split; [done|]. intros (d & post & _ & _ & Hd). inversion Hd as [? ? Ht| | | |]. done.
  - assert (Hfs' : Forall (λ f : bool * gval, is_nested f.2 = true → decodes f.2) fs)
      by (eapply Forall_impl; [exact Hfs|]; by intros ? [? ?]).
    split; [|done]. intros _ data used v Hl. by apply structBody_denotes.
  - split; [|done]. intros _ data used v Hl. destruct o; try (split; [done|];
      intros (d & post & _ & _ & Hd); inversion Hd as [? ? Ht| | | |]; done).
    pose proof (λ v, structBody_denotes fields data used v IH' Hl) as H. cbn [CreateStruct]. split.
    + destruct (structBody _ _ _ _) as [[[u o2] [e|]]|e|]; [done| |done..]. intros [= -> <-].
      destruct (proj1 (H o2) eq_refl) as (d & post & -> & -> & Hd). eauto 10 with serde.
    + intros (d & post & -> & -> & Hd). inversion Hd as [? ? Ht| | | |? v' ? Hv]; subst; [done|].
      by rewrite (proj2 (H v')) by eauto.
Qed.

(** ** Property *)

(** C39: The deserializer fills an object, without an error, exactly from the
    bytes that denote a value of its type, followed by any others; it then leaves
    that value in the object and returns the length of the bytes that denote it.
    So a struct that was filled is what the bytes it used say, in the wire format
    of [denotes], and bytes that say nothing in that format (too short, a bool
    other than 0 and 1, a field that is not exported or of a kind without an
    encoding, a nil pointer or one to no struct) are refused. *)
Theorem CreateStruct_denotes (o v : gval) (data : bytes) (used : Z) :
  is_nested o = true → zlen data < 2 ^ 63 →
  CreateStruct true o data = Ok (used, v, None) ↔
  ∃ d post, data = d ++ post ∧ used = zlen d ∧ denotes o v d.
Proof. intros Hn Hl. by apply CreateStruct_decodes. Qed.

(** A negative [int16], a big integer 5 with a leading zero and a pointer to a
    bool are read from ten bytes; a bool that is 2 is refused. *)
Lemma CreateStruct_denotes_witness :
  (∃ d post, [xff; xfe; x00; x00; x00; x02; x00; x05; x01; x09] = d ++ post ∧ 9 = zlen d ∧
     denotes (GStruct [(true, GInt16 0); (true, GBigInt 0); (true, GPtr (Some (GStruct [(true, GBool false)])))])
       (GStruct [(true, GInt16 (-2)); (true, GBigInt 5); (true, GPtr (Some (GStruct [(true, GBool true)])))]) d) ∧
  ∀ used v, ¬ (∃ d post, [x02] = d ++ post ∧ used = zlen d ∧ denotes (GStruct [(true, GBool false)]) v d).
Proof.
  split; [apply CreateStruct_denotes; vm_compute; reflexivity|]. intros used v H.
  apply (CreateStruct_denotes (GStruct [(true, GBool false)]) v [x02] used eq_refl eq_refl) in H.
  vm_compute in H. discriminate H.
Defined.
