(* ===== verification/Interactors.v ===== *)
(** * Interfaces and errors of the interactors ([interactors/])

    The [Proxy] interface the interactors call, the error values of
    [interactors/errors.go], and the laws of the maps that keep one handler per
    address. *)

From S2P Require Export Data.

(** ** [interactors/errors.go] *)

Definition ErrNilProxy : error := ErrVar "interactors.ErrNilProxy".
Definition ErrNilTxBuilder : error := ErrVar "interactors.ErrNilTxBuilder".
Definition ErrInvalidValue : error := ErrVar "interactors.ErrInvalidValue".
Definition ErrWrongPassword : error := ErrVar "interactors.ErrWrongPassword".
Definition ErrDifferentAccountRecovered : error := ErrVar "interactors.ErrDifferentAccountRecovered".
Definition ErrInvalidPemFile : error := ErrVar "interactors.ErrInvalidPemFile".
Definition ErrNilAddress : error := ErrVar "interactors.ErrNilAddress".
Definition ErrNilTransaction : error := ErrVar "interactors.ErrNilTransaction".
Definition ErrTxAlreadySent : error := ErrVar "interactors.ErrTxAlreadySent".
Definition ErrTxWithSameNonceAndGasPriceAlreadySent : error :=
  ErrVar "interactors.ErrTxWithSameNonceAndGasPriceAlreadySent".
Definition ErrGapNonce : error := ErrVar "interactors.ErrGapNonce".
Definition ErrWorkerClosed : error := ErrVar "interactors.ErrWorkerClosed".

(** ** The [Proxy] interface of [interactors/interface.go]

    A call goes to the network: it may change the world [W], fail, and return a
    nil pointer ([None]) without an error, which the code dereferences. *)

Class InteractorProxy (W : Type) := {
  px_GetNetworkConfig : M W (option NetworkConfig);
  px_GetAccount : address → M W (option Account);
  px_SendTransaction : FrontendTransaction → M W string;
  px_SendTransactions : list FrontendTransaction → M W (list string) }.

(** Transactions in memory, for the methods that keep or write through the
    pointers they are given. *)
Abbreviation ptr := positive.
Abbreviation txheap := (gmap positive FrontendTransaction).
Definition heap_tx (hp : txheap) (p : ptr) : FrontendTransaction := default emptyTx (hp !! p).

(** A network whose account nonces are those of [n], whatever is called. *)
Class ConstantNonce (W : Type) `{InteractorProxy W} (addr : address) (n : Z) := {
  constant_nonce w : ∃ acc w', px_GetAccount addr w = (Ok (Some acc), w') ∧ acc_Nonce acc = n }.

(** [core.MaxUint64] and [core.MinUint64] of [mx-chain-core-go]. *)
Definition core_MaxUint64 (a b : Z) : Z := if b <? a then a else b.
Definition core_MinUint64 (a b : Z) : Z := if a <? b then a else b.

Lemma core_MaxUint64_max a b : core_MaxUint64 a b = Z.max a b.
Proof. unfold core_MaxUint64. destruct (Z.ltb_spec b a); lia. Qed.
Lemma core_MinUint64_min a b : core_MinUint64 a b = Z.min a b.
Proof. unfold core_MinUint64. destruct (Z.ltb_spec a b); lia. Qed.
#[export] Hint Rewrite core_MaxUint64_max core_MinUint64_min : go.

(** ** A world for concrete runs

    A network with an account nonce, a configuration, and a log of what was
    sent; the hash of a transaction is its decimal nonce. *)

Record net := mkNet { net_nonce : Z; net_config : option NetworkConfig; net_sent : list FrontendTransaction }.

Definition net_send (txs : list FrontendTransaction) (w : net) : net :=
  mkNet (net_nonce w) (net_config w) (net_sent w ++ txs).

#[export] Instance net_proxy : InteractorProxy net := {|
  px_GetNetworkConfig := gets net_config;
  px_GetAccount _ := gets (λ w, Some (simpleAccount (net_nonce w) "0"));
  px_SendTransaction tx := modify (net_send [tx]) ;; mret (itoa (tx_Nonce tx));
  px_SendTransactions txs := modify (net_send txs) ;; mret (map (λ tx, itoa (tx_Nonce tx)) txs) |}.

Definition emptyNet : net := mkNet 0 None [].

(** The same network with the account nonce frozen at [n], the gas price too. *)
Definition frozen_gas : Z := 1000.
Definition frozen_proxy (n : Z) : InteractorProxy net := {|
  px_GetNetworkConfig := gets (λ _, Some (simpleConfig "T" 1500 50000 frozen_gas 1 3));
  px_GetAccount _ := gets (λ w, Some (simpleAccount n "0"));
  px_SendTransaction tx := modify (net_send [tx]) ;; mret (itoa (tx_Nonce tx));
  px_SendTransactions txs := modify (net_send txs) ;; mret (map (λ tx, itoa (tx_Nonce tx)) txs) |}.

Lemma frozen_constant n a : @ConstantNonce net (frozen_proxy n) a n.
Proof. split. intros w. by exists (simpleAccount n "0"), w. Qed.

(** ** The owner of a map of handlers

    [with_handler k new m]: look up the handler of key [k], create it with [new]
    when there is none, run the method [m] on it. *)

Definition with_handler {H W A} (k : string) (new : H) (m : M (H * W) A) : M (gmap string H * W) A :=
  λ '(hs, w), let '(r, (h', w')) := m (default new (hs !! k), w) in (r, (<[k := h']> hs, w')).

(** A method that runs on one handler leaves the others as they are. *)
Lemma with_handler_other {H W A} k k' new (m : M (H * W) A) hs w r hs' w' :
  with_handler k new m (hs, w) = (r, (hs', w')) → k ≠ k' → hs' !! k' = hs !! k'.
Proof.
  unfold with_handler. destruct (m _) as [r' [h' w'']]. intros [= <- <- <-] Hk.
  by apply lookup_insert_ne.
Qed.

Lemma with_handler_same {H W A} k new (m : M (H * W) A) hs w r h' w' :
  m (default new (hs !! k), w) = (r, (h', w')) →
  with_handler k new m (hs, w) = (r, (<[k := h']> hs, w')).
Proof. intros E. unfold with_handler. by rewrite E. Qed.

(** ** The sweep over the stored transactions

    The loop of the resend functions deletes the entries that are [stale] for
    the account nonce and collects the others; together the two halves are the
    map restricted to the nonces above it. *)

Definition stale {V} (nonce : Z) (e : Z * V) : bool := e.1 <=? nonce.

Definition above {V} (nonce : Z) (m : gmap Z V) : gmap Z V := filter (λ e, nonce < e.1) m.

Section Sweep.
Context {V : Type} `{MapRangeZ V}.

Lemma sweep_keep (nonce : Z) (m : gmap Z V) :
  filter (λ e, stale nonce e = false) (rangeZ m) ≡ₚ map_to_list (above nonce m).
Proof.
  apply NoDup_Permutation.
  - apply NoDup_filter. eapply NoDup_fmap_1, map_rangeZ_NoDup.
  - apply NoDup_map_to_list.
  - intros [k v]. rewrite list_elem_of_filter, map_rangeZ_elem, elem_of_map_to_list.
    unfold above. rewrite map_lookup_filter_Some. unfold stale. cbn. rewrite Z.leb_gt. tauto.
Qed.

Lemma foldr_delete_lookup (l : list (Z * V)) (m : gmap Z V) k :
  foldr (λ e m, delete e.1 m) m l !! k = if decide (k ∈ l.*1) then None else m !! k.
Proof.
  induction l as [|[j v] l IH]; [done|]. rewrite fmap_cons. cbn [foldr fst].
  destruct (decide (j = k)) as [->|Hjk].
  - rewrite lookup_delete_eq. rewrite decide_True; [done|]. by left.
  - rewrite lookup_delete_ne, IH by done. destruct (decide (k ∈ l.*1)) as [Hin|Hin].
    + rewrite decide_True; [done|]. by right.
    + rewrite decide_False; [done|]. by intros [->|?]%elem_of_cons.
Qed.

Lemma sweep_delete (nonce : Z) (m : gmap Z V) :
  foldr (λ e m, delete e.1 m) m (filter (λ e, stale nonce e = true) (rangeZ m)) = above nonce m.
Proof.
  apply map_eq. intros k. rewrite foldr_delete_lookup. apply option_eq. intros v.
  unfold above. rewrite map_lookup_filter_Some. cbn. case_decide as Hk.
  - split; [done|]. intros [_ Hlt]. apply list_elem_of_fmap in Hk as ([j u] & -> & He).
    apply list_elem_of_filter in He as [He _]. unfold stale in He. cbn in *. lia.
  - split; [|tauto]. intros E. split; [done|]. apply Z.nle_gt. intros Hle. apply Hk.
    apply list_elem_of_fmap. exists (k, v). split; [done|]. apply list_elem_of_filter.
    rewrite map_rangeZ_elem. unfold stale. cbn. split; [lia|done].
Qed.

Lemma above_lookup (nonce : Z) (m : gmap Z V) k :
  above nonce m !! k = if decide (nonce < k) then m !! k else None.
Proof.
  apply option_eq. intros v. unfold above. rewrite map_lookup_filter_Some. cbn.
  case_decide; [tauto|]. split; [tauto|done].
Qed.
End Sweep.

(** The smallest nonce to send again, from the stored nonce [c]. *)
Lemma foldl_min {V} (l : list (Z * V)) c :
  let m := foldl (λ m e, core_MinUint64 e.1 m) c l in
  m ≤ c ∧ (∀ e, e ∈ l → m ≤ e.1) ∧ (m = c ∨ ∃ e, e ∈ l ∧ m = e.1).
Proof.
  revert c. induction l as [|[k v] l IH]; intros c; cbn; [split; [lia|split; [by intros e ?%not_elem_of_nil|by left]]|].
  rewrite core_MinUint64_min. destruct (IH (Z.min k c)) as (H1 & H2 & H3). repeat split.
  - lia.
  - intros e [->|He]%elem_of_cons; cbn; [lia|by apply H2].
  - destruct H3 as [E|(e & He & E)].
    + destruct (Z.min_spec k c) as [[_ Em]|[_ Em]]; [right|left; lia].
      exists (k, v). split; [by apply elem_of_cons; left|cbn; lia].
    + right. exists e. split; [by apply elem_of_cons; right|done].
Qed.

(** A network whose minimum gas price is [g], whatever is called. *)
Class ConstantGasPrice (W : Type) `{InteractorProxy W} (g : Z) := {
  constant_gas w : ∃ cfg w', px_GetNetworkConfig w = (Ok (Some cfg), w') ∧ nc_MinGasPrice cfg = g }.

Lemma frozen_gas_constant n : @ConstantGasPrice net (frozen_proxy n) frozen_gas.
Proof. split. intros w. by exists (simpleConfig "T" 1500 50000 frozen_gas 1 3), w. Qed.
