(* ===== verification/NonceV1.v ===== *)
(** * Nonce handler, version 1 ([interactors/nonceHandlerV1/])

    [addressNonceHandler] keeps the nonce and the sent transactions of one
    address, [nonceTransactionsHandlerV1] one such handler per address.  The
    handlers store the {e pointers} they are given, so the transactions live in a
    store of the model ([txheap]) the caller shares: a handler's method runs on
    the state [anh * (txheap * W)].  Each method body that the Go code runs
    under the handler's mutex, network calls apart, is one step of the model. *)

From S2P Require Export Interactors.

Record addressNonceHandler := mkAnh {
  address_ : address;
  computedNonceWasSet : bool;
  computedNonce : Z;
  transactions : gmap Z ptr }.

Definition newAddressNonceHandler (a : address) : addressNonceHandler := mkAnh a false 0 ∅.

Definition setNonce (b : bool) (n : Z) (h : addressNonceHandler) : addressNonceHandler :=
  mkAnh (address_ h) b n (transactions h).
Definition setTransactions (t : gmap Z ptr) (h : addressNonceHandler) : addressNonceHandler :=
  mkAnh (address_ h) (computedNonceWasSet h) (computedNonce h) t.

Section V1.
Context {W : Type} `{InteractorProxy W} `{!MapRangeZ ptr}.

(** The state of a method: the handler, the transactions in memory, the world. *)
Abbreviation St := (addressNonceHandler * (txheap * W))%type.

Definition net_call {A} (m : M W A) : M St A := onsnd (onsnd m).
Definition load (p : ptr) : M St FrontendTransaction :=
  t ← gets (λ s : St, s.2.1 !! p); deref t.

Definition getNonceUpdatingCurrent : M St Z :=
  a ← gets (λ s : St, address_ s.1);
  account ← net_call (px_GetAccount a);
  account ← deref account;
  h ← gets fst;
  if negb (computedNonceWasSet h) then
    onfst (modify (setNonce true (acc_Nonce account))) ;;
    mret (acc_Nonce account)
  else
    let n := u64 (computedNonce h + 1) in
    onfst (modify (setNonce true n)) ;;
    mret (core_MaxUint64 n (acc_Nonce account)).

Definition reSendTransactionsIfRequired `{PubkeyConverter} : M St () :=
  a ← gets (λ s : St, address_ s.1);
  account ← net_call (px_GetAccount a);
  account ← deref account;
  h ← gets fst;
  if acc_Nonce account =? computedNonce h then onfst (modify (setTransactions ∅))
  else
    let entries := rangeZ (transactions h) in
    let dropped := filter (λ e, stale (acc_Nonce account) e = true) entries in
    let resendableTxs := filter (λ e, stale (acc_Nonce account) e = false) entries in
    onfst (modify (setTransactions (foldr (λ e m, delete e.1 m) (transactions h) dropped))) ;;
    match resendableTxs with
    | [] => mret ()
    | _ =>
      txs ← mcollect resendableTxs.*2 load;
      _ ← net_call (px_SendTransactions txs);
      _ ← lift (AddressAsBech32String a);
      mret ()
    end.

Definition sendTransaction (p : ptr) : M St string :=
  tx ← load p;
  onfst (modify (λ h, setTransactions (<[tx_Nonce tx := p]> (transactions h)) h)) ;;
  net_call (px_SendTransaction tx).

Definition isTheSameReceiverDataValue (oldTx tx : FrontendTransaction) : bool :=
  bool_decide (tx_Receiver oldTx = tx_Receiver tx) &&
  bool_decide (tx_Data oldTx = tx_Data tx) && bool_decide (tx_Value oldTx = tx_Value tx).

Definition isTxAlreadySent (p : ptr) : M St bool :=
  tx ← load p;
  h ← gets fst;
  olds ← mcollect (rangeZ (transactions h)).*2 load;
  mret (existsb (λ old, isTheSameReceiverDataValue old tx) olds).

Definition decrementComputedNonce : M St () :=
  onfst (modify (λ h, if 0 <? computedNonce h
                      then setNonce (computedNonceWasSet h) (computedNonce h - 1) h else h)).

Definition markReFetchNonce : M St () :=
  onfst (modify (λ h, setNonce false (computedNonce h) h)).

(** ** [nonceTransactionsHandlerV1] *)

Definition minimumIntervalToResend : Z := 1000000000.

Record nonceTransactionsHandlerV1 := mkNth {
  handlers : gmap string addressNonceHandler;
  checkForDuplicates : bool;
  intervalToResend : Z;
  cancelled : bool }.

(** [proxyIsNil] is the test of the proxy argument, which is otherwise the
    class of the section. *)
Definition NewNonceTransactionHandlerV1 (proxyIsNil : bool) (interval : Z) (checkDup : bool) :
    outcome nonceTransactionsHandlerV1 :=
  if proxyIsNil then Fail ErrNilProxy
  else if interval <? minimumIntervalToResend
  then Fail (ErrWrap ErrInvalidValue "for intervalToResend in NewNonceTransactionHandlerV1")
  else Ok (mkNth ∅ checkDup interval false).

Abbreviation NthSt := (nonceTransactionsHandlerV1 * (txheap * W))%type.

Definition handlerKey (a : address) : string := string_of_bytes (AddressBytes a).

(** [getOrCreateAddressNonceHandler] followed by a method of the handler. *)
Definition getOrCreateAddressNonceHandler {A} (a : address) (m : M St A) : M NthSt A := λ '(nth, w),
  let '(r, (hs, w')) := with_handler (handlerKey a) (newAddressNonceHandler a) m (handlers nth, w) in
  (r, (mkNth hs (checkForDuplicates nth) (intervalToResend nth) (cancelled nth), w')).

Definition GetNonce (a : option address) : M NthSt Z :=
  match a with
  | None => throw ErrNilAddress
  | Some a => getOrCreateAddressNonceHandler a getNonceUpdatingCurrent
  end.

Definition SendTransaction `{PubkeyConverter} (p : option ptr) : M NthSt string :=
  match p with
  | None => throw ErrNilTransaction
  | Some p =>
    tx ← gets (λ s : NthSt, s.2.1 !! p);
    tx ← deref tx;
    a ← wrapping (λ e, ErrWrap e "while creating address handler for string")
          (lift (NewAddressFromBech32String (tx_Sender tx)));
    checkDup ← gets (λ s : NthSt, checkForDuplicates s.1);
    getOrCreateAddressNonceHandler a (
      alreadySent ← (if checkDup : bool then isTxAlreadySent p else mret false);
      if alreadySent : bool then decrementComputedNonce ;; throw ErrTxAlreadySent
      else wrapping (λ e, ErrWrap e "while sending transaction for address") (sendTransaction p))
  end.

(** The sweep over the handlers; the errors are logged. [order] are the keys in
    the order the map is visited, as long as the context is not done. *)
Fixpoint resendAll `{PubkeyConverter} (order : list string) : M (gmap string addressNonceHandler * (txheap * W)) () :=
  match order with
  | [] => mret ()
  | k :: order' => λ '(hs, w),
    match hs !! k with
    | None => resendAll order' (hs, w)
    | Some h =>
      match try reSendTransactionsIfRequired (h, w) with
      | (Panic, (h', w')) => (Panic, (<[k := h']> hs, w'))
      | (_, (h', w')) => resendAll order' (<[k := h']> hs, w')
      end
    end
  end.

Definition resendTransactions `{PubkeyConverter} (order : list string) : M NthSt () := λ '(nth, w),
  if cancelled nth then (Ok (), (nth, w))
  else let '(r, (hs, w')) := resendAll order (handlers nth, w) in
       (r, (mkNth hs (checkForDuplicates nth) (intervalToResend nth) (cancelled nth), w')).

Definition ForceNonceReFetch (a : option address) : M NthSt () :=
  match a with
  | None => throw ErrNilAddress
  | Some a => getOrCreateAddressNonceHandler a markReFetchNonce
  end.

Definition Close : M NthSt () :=
  onfst (modify (λ nth, mkNth (handlers nth) (checkForDuplicates nth) (intervalToResend nth) true)).
End V1.

(** ** The nonces a handler gives out

    [next_nonce n h] is what a call of [getNonceUpdatingCurrent] answers, and
    the handler it leaves, when the account nonce is [n]. *)

Definition next_nonce (n : Z) (h : addressNonceHandler) : Z * addressNonceHandler :=
  if negb (computedNonceWasSet h) then (n, setNonce true n h)
  else let c := u64 (computedNonce h + 1) in (core_MaxUint64 c n, setNonce true c h).

Definition setHandlers (hs : gmap string addressNonceHandler) (nth : nonceTransactionsHandlerV1) :=
  mkNth hs (checkForDuplicates nth) (intervalToResend nth) (cancelled nth).

(** The handler a method of [a] runs on. *)
Definition handlerOf (a : address) (nth : nonceTransactionsHandlerV1) : addressNonceHandler :=
  default (newAddressNonceHandler a) (handlers nth !! handlerKey a).

Section V1_theorems.
Context {W : Type} `{InteractorProxy W} `{!MapRangeZ ptr}.

Lemma getOrCreate_run {A} a (m : M (addressNonceHandler * (txheap * W)) A) nth w r h' w' :
  m (handlerOf a nth, w) = (r, (h', w')) →
  getOrCreateAddressNonceHandler a m (nth, w)
  = (r, (setHandlers (<[handlerKey a := h']> (handlers nth)) nth, w')).
Proof. intros E. cbn. unfold handlerOf in E. by rewrite E. Qed.

Lemma GetNonce_run a n nth hp w :
  ConstantNonce W a n → address_ (handlerOf a nth) = a →
  ∃ w', GetNonce (Some a) (nth, (hp, w))
        = (Ok (next_nonce n (handlerOf a nth)).1,
           (setHandlers (<[handlerKey a := (next_nonce n (handlerOf a nth)).2]> (handlers nth)) nth, (hp, w'))).
Proof.
  intros Hc Ha. destruct (constant_nonce w) as (acc & w' & Ew & Hn). exists w'.
  apply getOrCreate_run. unfold getNonceUpdatingCurrent, net_call, gets, mbind, M_bind, onsnd.
  cbn [fst snd]. rewrite Ha, Ew. cbn. unfold next_nonce. rewrite Hn.
  by destruct (computedNonceWasSet (handlerOf a nth)).
Qed.

(** The handler of [a] was last asked for a nonce when it stood at [c]. *)
Definition stands_at (a : address) (c : Z) (s : nonceTransactionsHandlerV1 * (txheap * W)) : Prop :=
  ∃ h, handlers s.1 !! handlerKey a = Some h ∧
       address_ h = a ∧ computedNonceWasSet h = true ∧ computedNonce h = c.

Lemma GetNonce_stands a n c s :
  ConstantNonce W a n → 0 ≤ c < 2 ^ 64 - 1 → stands_at a c s →
  ∃ s', GetNonce (Some a) s = (Ok (Z.max (c + 1) n), s') ∧ stands_at a (c + 1) s'.
Proof.
  intros Hc Hr (h & Hh & Ha & Hset & Hcn). destruct s as [nth [hp w]]. cbn in Hh.
  destruct (GetNonce_run a n nth hp w Hc) as [w' E]; [unfold handlerOf; by rewrite Hh|].
  unfold handlerOf, next_nonce in E. rewrite Hh in E. cbn [default from_option id] in E.
  rewrite Hset, Hcn in E. cbn [negb fst snd] in E.
  rewrite u64_small in E by (unfold is_u64; lia). rewrite core_MaxUint64_max in E.
  eexists. split; [exact E|]. unfold stands_at. cbn. rewrite lookup_insert_eq. eauto.
Qed.

(** A sequence of GetNonce calls of one address, started on an address the
    handler does not know yet (or that was marked for a re-fetch), while the
    account nonce stays at n, gives n, n+1, n+2, ... without a gap or a repetition. *)
Theorem GetNonce_consecutive (a : address) (n k : Z)
    (s : nonceTransactionsHandlerV1 * (txheap * W)) :
  ConstantNonce W a n → 0 ≤ n → 0 ≤ k → n + k ≤ 2 ^ 64 →
  computedNonceWasSet (handlerOf a s.1) = false → address_ (handlerOf a s.1) = a →
  (mtimes (Z.to_nat k) (GetNonce (Some a)) s).1 = Ok (seqZ n k).
Proof.
  intros Hc Hn Hk Hr Hset Ha. destruct (decide (k = 0)) as [->|Hk0]; [done|].
  replace (Z.to_nat k) with (Datatypes.S (Z.to_nat (k - 1))) by lia.
  cbn [mtimes]. unfold mbind, M_bind, mret, M_ret. destruct s as [nth [hp w]]. cbn [fst] in Hset, Ha.
  destruct (GetNonce_run a n nth hp w Hc Ha) as [w' ->].
  unfold next_nonce. rewrite Hset. cbn [negb fst snd].
  edestruct (mtimes_seqZ (GetNonce (Some a)) (λ i s, 0 ≤ i - 1 ∧ n ≤ i ∧ stands_at a (i - 1) s ∨ i = n ∧ False)
    (n + 1) (k - 1)) as (s' & -> & _); cycle 3.
  - cbn. rewrite (seqZ_cons n) by lia.
    by replace (Z.succ n) with (n + 1) by lia; replace (Z.pred k) with (k - 1) by lia.
  - intros i s1 Hi [(Hi0 & Hni & Hs)|[_ []]].
    destruct (GetNonce_stands a n (i - 1) s1 Hc) as (s2 & E & Hs2); [lia|done|].
    exists s2. replace (i - 1 + 1) with i in * by lia. rewrite E. split; [f_equal; f_equal; lia|].
    left. replace (i + 1 - 1) with i by lia. repeat split; [lia..|done].
  - left. replace (n + 1 - 1) with n by lia. repeat split; [lia..|].
    unfold stands_at. cbn. rewrite lookup_insert_eq. eauto.
  - lia.
Qed.

(** The handler does not raise its stored nonce to the account nonce: once
    the account is ahead of the stored nonce c (transactions of the address were
    sent elsewhere), every one of the next n - c calls gives the same nonce n. *)
Theorem GetNonce_repeats_behind_account (a : address) (n c : Z)
    (s : nonceTransactionsHandlerV1 * (txheap * W)) :
  ConstantNonce W a n → 0 ≤ c → c ≤ n → n < 2 ^ 64 → stands_at a c s →
  (mtimes (Z.to_nat (n - c)) (GetNonce (Some a)) s).1 = Ok (replicate (Z.to_nat (n - c)) n).
Proof.
  intros Hc H0 Hcn Hn Hs.
  cut (∀ k c s, 0 ≤ c → c + Z.of_nat k ≤ n → stands_at a c s →
    ∃ s', mtimes k (GetNonce (Some a)) s = (Ok (replicate k n), s')).
  { intros Hk. destruct (Hk (Z.to_nat (n - c)) c s H0) as [s' E]; [lia|done|by rewrite E]. }
  clear s c H0 Hcn Hs. induction k as [|k IH]; intros c s H0 Hck Hs; [by exists s|].
  destruct (GetNonce_stands a n c s Hc) as (s1 & E1 & Hs1); [lia|done|].
  destruct (IH (c + 1) s1) as [s2 E2]; [lia|lia|done|]. exists s2.
  cbn [mtimes replicate]. unfold mbind, M_bind, mret, M_ret. rewrite E1, E2.
  by replace (Z.max (c + 1) n) with n by lia.
Qed.

(** ** Sending again, and the refusal of duplicates *)

Definition ptrs_ok (hp : txheap) (h : addressNonceHandler) : Prop :=
  ∀ k p, transactions h !! k = Some p → is_Some (hp !! p).

Lemma load_run p h hp w :
  is_Some (hp !! p) → load p (h, (hp, w)) = (Ok (heap_tx hp p), ((h, (hp, w)) : _ * (txheap * W))).
Proof.
  intros [t Ht]. unfold load, gets, mbind, M_bind, deref, heap_tx. cbn [fst snd]. by rewrite Ht.
Qed.

(** A resend, when the account nonce n differs from the stored one, forgets
    exactly the transactions with nonce at most n, sends again exactly the others,
    each once and as it is in memory at that moment (in the order the map is
    visited), and sends nothing when none is left. *)
Theorem reSend_sends_remaining `{PubkeyConverter} (h : addressNonceHandler) (hp : txheap) (w w1 : W) (acc : Account) :
  px_GetAccount (address_ h) w = (Ok (Some acc), w1) →
  acc_Nonce acc ≠ computedNonce h → ptrs_ok hp h →
  let kept := above (acc_Nonce acc) (transactions h) in
  ∃ entries, entries ≡ₚ map_to_list kept ∧
    (reSendTransactionsIfRequired (h, (hp, w))).2
    = (setTransactions kept h,
       (hp, match entries with
            | [] => w1
            | _ => (px_SendTransactions (heap_tx hp <$> entries.*2) w1).2
            end)).
Proof.
  intros Ew Hn Hp kept. exists (filter (λ e, stale (acc_Nonce acc) e = false) (rangeZ (transactions h))).
  split; [apply sweep_keep|].
  set (entries := filter _ _).
  assert (Hload : ∀ s : addressNonceHandler, mcollect entries.*2 load (s, (hp, w1))
                  = (Ok (heap_tx hp <$> entries.*2), (s, (hp, w1)))).
  { intros s. apply mcollect_pure. intros p ([k q] & -> & Hin)%list_elem_of_fmap. apply load_run.
    apply list_elem_of_filter in Hin as [_ Hin]. rewrite map_rangeZ_elem in Hin. eapply Hp, Hin. }
  unfold reSendTransactionsIfRequired, net_call, gets, mbind, M_bind, onsnd, onfst, modify.
  cbn [fst snd]. rewrite Ew. cbn [deref fst snd]. rewrite (proj2 (Z.eqb_neq _ _) Hn).
  rewrite sweep_delete. fold kept. fold entries.
  destruct entries as [|e es] eqn:Ee; [done|]. rewrite Hload.
  destruct (px_SendTransactions _ w1) as [[hs|e'|] w2]; cbn; [|done..].
  unfold lift. by destruct (AddressAsBech32String (address_ h)).
Qed.

(** With the duplicate check on, a transaction whose receiver, data and value
    are those of a stored one is refused: nothing goes to the network, the
    stored transactions stay, and the nonce it took is given back. *)
Theorem SendTransaction_refuses_duplicate `{PubkeyConverter} (nth : nonceTransactionsHandlerV1) (hp : txheap) (w : W)
    (p q : ptr) (tx old : FrontendTransaction) (a : address) (k : Z) :
  hp !! p = Some tx → hp !! q = Some old →
  NewAddressFromBech32String (tx_Sender tx) = Ok a →
  checkForDuplicates nth = true → transactions (handlerOf a nth) !! k = Some q →
  ptrs_ok hp (handlerOf a nth) → isTheSameReceiverDataValue old tx = true →
  0 < computedNonce (handlerOf a nth) →
  SendTransaction (Some p) (nth, (hp, w))
  = (Fail ErrTxAlreadySent,
     (setHandlers (<[handlerKey a := setNonce (computedNonceWasSet (handlerOf a nth))
                       (computedNonce (handlerOf a nth) - 1) (handlerOf a nth)]> (handlers nth)) nth, (hp, w))).
Proof.
  intros Hpt Hq Ha Hchk Hk Hok Hsame Hpos.
  unfold SendTransaction, gets, mbind, M_bind, wrapping, lift. cbn [fst snd].
  rewrite Hpt. cbn [deref]. rewrite Ha. cbn [fst snd]. rewrite Hchk.
  assert (Hdup : isTxAlreadySent p (handlerOf a nth, (hp, w)) = (Ok true, (handlerOf a nth, (hp, w)))).
  { unfold isTxAlreadySent, mbind, M_bind, gets, mret, M_ret. rewrite load_run by (by rewrite Hpt). cbn [fst].
    rewrite (mcollect_pure _ _ (heap_tx hp)).
    2:{ intros r ([k' r'] & -> & Hin)%list_elem_of_fmap. apply load_run.
        rewrite map_rangeZ_elem in Hin. eapply Hok, Hin. }
    f_equal. f_equal. apply existsb_exists. exists old. split.
    - apply list_elem_of_In, list_elem_of_fmap. exists q. split; [unfold heap_tx; by rewrite Hq|].
      apply list_elem_of_fmap. exists (k, q). by rewrite map_rangeZ_elem.
    - unfold heap_tx. by rewrite Hpt. }
  erewrite getOrCreate_run; [reflexivity|]. unfold mbind, M_bind. rewrite Hdup.
  unfold decrementComputedNonce, onfst, modify, throw. cbn [fst snd].
  by rewrite (proj2 (Z.ltb_lt _ _) Hpos).
Qed.

Lemma handlerOf_insert a h nth : handlerOf a (setHandlers (<[handlerKey a := h]> (handlers nth)) nth) = h.
Proof. unfold handlerOf. cbn. by rewrite lookup_insert_eq. Qed.

Lemma next_nonce_counts n c h :
  computedNonceWasSet h = true → computedNonce h = c → 0 ≤ c < 2 ^ 64 - 1 → n ≤ c + 1 →
  next_nonce n h = (c + 1, setNonce true (c + 1) h).
Proof.
  intros Hs Hc Hr Hn. unfold next_nonce. rewrite Hs, Hc. cbn [negb].
  rewrite u64_small by (unfold is_u64; lia). rewrite core_MaxUint64_max. by replace (Z.max (c + 1) n) with (c + 1) by lia.
Qed.

(** C19: A refusal gives back the wrong nonce: of two transactions that got the nonces c + 1
    and c + 2, the first is refused as a duplicate; the next transaction gets c + 2 once
    more, which the second one carries, and nobody has c + 1. *)
Theorem refusal_gives_back_anothers_nonce `{PubkeyConverter} (nth : nonceTransactionsHandlerV1) (hp : txheap) (w : W)
    (p q : ptr) (tx old : FrontendTransaction) (a : address) (h : addressNonceHandler) (n c k : Z) :
  ConstantNonce W a n → n ≤ c + 1 → 0 ≤ c → c + 2 < 2 ^ 64 →
  handlers nth !! handlerKey a = Some h → address_ h = a → computedNonceWasSet h = true → computedNonce h = c →
  hp !! p = Some tx → hp !! q = Some old → NewAddressFromBech32String (tx_Sender tx) = Ok a →
  checkForDuplicates nth = true → transactions h !! k = Some q → ptrs_ok hp h → isTheSameReceiverDataValue old tx = true →
  ∃ s1 s2 s3 s4,
    GetNonce (Some a) (nth, (hp, w)) = (Ok (c + 1), s1) ∧ GetNonce (Some a) s1 = (Ok (c + 2), s2) ∧
    SendTransaction (Some p) s2 = (Fail ErrTxAlreadySent, s3) ∧ GetNonce (Some a) s3 = (Ok (c + 2), s4).
Proof.
  intros Hcn Hn Hpos Hr Eh Ea Hset Hc Hp Hq Hs Hdup Hk Hok Hsame.
  assert (Ho : handlerOf a nth = h) by (unfold handlerOf; by rewrite Eh).
  destruct (GetNonce_run a n nth hp w Hcn) as [w1 E1]; [by rewrite Ho|].
  rewrite Ho, (next_nonce_counts n c h) in E1 by (done || lia). cbn [fst snd] in E1.
  set (nth1 := setHandlers _ nth) in E1.
  destruct (GetNonce_run a n nth1 hp w1 Hcn) as [w2 E2]; [by unfold nth1; rewrite handlerOf_insert|].
  unfold nth1 in E2 at 2 3 4. rewrite !handlerOf_insert in E2.
  rewrite (next_nonce_counts n (c + 1)) in E2 by (done || lia). cbn [fst snd] in E2. set (nth2 := setHandlers _ nth1) in E2.
  set (h2 := setNonce true (c + 1 + 1) _) in nth2.
  assert (Ho2 : handlerOf a nth2 = h2) by apply handlerOf_insert.
  assert (E3 := SendTransaction_refuses_duplicate nth2 hp w2 p q tx old a k Hp Hq Hs Hdup).
  rewrite Ho2 in E3. specialize (E3 Hk Hok Hsame ltac:(cbn; lia)). set (nth3 := setHandlers _ nth2) in E3.
  destruct (GetNonce_run a n nth3 hp w2 Hcn) as [w4 E4]; [by unfold nth3; rewrite handlerOf_insert|].
  unfold nth3 in E4 at 2 3 4. rewrite !handlerOf_insert in E4.
  rewrite (next_nonce_counts n (c + 1)) in E4 by (done || (cbn; lia)). cbn [fst snd] in E4.
  replace (c + 1 + 1) with (c + 2) in * by lia. by eexists _, _, _, _.
Qed.
End V1_theorems.

Definition witness_addr : address := mkAddress [x01; x02].
Definition witness_nth : nonceTransactionsHandlerV1 := mkNth ∅ false 1000000000 false.

Lemma GetNonce_consecutive_witness :
  (mtimes 3 (GetNonce (Some witness_addr) (H := frozen_proxy 7))
     (witness_nth, (∅ : txheap, emptyNet))).1 = Ok [7; 8; 9].
Proof.
  apply (@GetNonce_consecutive net (frozen_proxy 7) witness_addr 7 3
    (witness_nth, (∅, emptyNet)) (frozen_constant _ _)); [lia..|reflexivity|reflexivity].
Defined.

Definition behind_nth : nonceTransactionsHandlerV1 :=
  setHandlers {[handlerKey witness_addr := mkAnh witness_addr true 4 ∅]} witness_nth.

Lemma GetNonce_repeats_behind_account_witness :
  (mtimes 3 (GetNonce (Some witness_addr) (H := frozen_proxy 7))
     (behind_nth, (∅ : txheap, emptyNet))).1 = Ok [7; 7; 7].
Proof.
  apply (@GetNonce_repeats_behind_account net (frozen_proxy 7) witness_addr 7 4
    (behind_nth, (∅, emptyNet)) (frozen_constant _ _)); [lia..|].
  exists (mkAnh witness_addr true 4 ∅). split; [vm_compute; reflexivity|done].
Defined.

(** Three stored transactions, of nonces 5, 7 and 9, at account nonce 7. *)
Definition witness_tx (n : Z) : FrontendTransaction :=
  tx_setSender (hex_EncodeToString (replicate 32 x01)) (tx_setNonce n emptyTx).
Definition witness_heap : txheap :=
  {[1%positive := witness_tx 5; 2%positive := witness_tx 9; 3%positive := witness_tx 7]}.
Definition witness_anh : addressNonceHandler :=
  mkAnh (mkAddress (replicate 32 x01)) true 10 {[5 := 1%positive; 9 := 2%positive; 7 := 3%positive]}.
Definition witness_dup : nonceTransactionsHandlerV1 :=
  mkNth {[handlerKey (address_ witness_anh) := witness_anh]} true 1000000000 false.

Lemma witness_ptrs_ok : ptrs_ok witness_heap witness_anh.
Proof.
  intros k p Hk. cbn in Hk. rewrite !lookup_insert_Some, lookup_singleton_Some in Hk.
  destruct Hk as [[_ <-]|[_ [[_ <-]|[_ [_ <-]]]]]; vm_compute; eauto.
Qed.

Lemma reSend_sends_remaining_witness :
  let kept := above 7 (transactions witness_anh) in
  kept = {[9 := 2%positive]} ∧
  ∃ entries, entries ≡ₚ map_to_list kept ∧
    (@reSendTransactionsIfRequired net (frozen_proxy 7) (map_to_list_rangeZ _) hexConverter
       (witness_anh, (witness_heap, emptyNet))).2
    = (setTransactions kept witness_anh,
       (witness_heap, match entries with
            | [] => emptyNet
            | _ => (@px_SendTransactions net (frozen_proxy 7) (heap_tx witness_heap <$> entries.*2) emptyNet).2
            end)).
Proof.
  split; [vm_compute; reflexivity|].
  apply (@reSend_sends_remaining net (frozen_proxy 7) (map_to_list_rangeZ _) hexConverter witness_anh
    witness_heap emptyNet emptyNet (simpleAccount 7 "0")); [reflexivity|discriminate|apply witness_ptrs_ok].
Defined.

Lemma SendTransaction_refuses_duplicate_witness :
  (@SendTransaction net net_proxy (map_to_list_rangeZ _) hexConverter (@Some ptr 1%positive)
     (witness_dup, (witness_heap, emptyNet))).1 = Fail ErrTxAlreadySent.
Proof.
  rewrite (@SendTransaction_refuses_duplicate net net_proxy (map_to_list_rangeZ _) hexConverter
    witness_dup witness_heap emptyNet 1%positive 2%positive (witness_tx 5) (witness_tx 9)
    (mkAddress (replicate 32 x01)) 9); try (vm_compute; reflexivity).
  exact witness_ptrs_ok.
Defined.

Lemma refusal_gives_back_anothers_nonce_witness :
  ∃ s1 s2 s3 s4 : nonceTransactionsHandlerV1 * (txheap * net),
    @GetNonce net (frozen_proxy 7) (Some (address_ witness_anh)) (witness_dup, (witness_heap, emptyNet)) = (Ok 11, s1) ∧
    @GetNonce net (frozen_proxy 7) (Some (address_ witness_anh)) s1 = (Ok 12, s2) ∧
    @SendTransaction net (frozen_proxy 7) (map_to_list_rangeZ _) hexConverter (@Some ptr 1%positive) s2 = (Fail ErrTxAlreadySent, s3) ∧
    @GetNonce net (frozen_proxy 7) (Some (address_ witness_anh)) s3 = (Ok 12, s4).
Proof.
  apply (@refusal_gives_back_anothers_nonce net (frozen_proxy 7) (map_to_list_rangeZ _) hexConverter witness_dup witness_heap emptyNet
    1%positive 2%positive (witness_tx 5) (witness_tx 9) (address_ witness_anh) witness_anh 7 10 9 (frozen_constant _ _));
    try lia; try (vm_compute; reflexivity).
  exact witness_ptrs_ok.
Defined.
