(* ===== verification/NonceV2.v ===== *)
(** * Nonce handler, version 2 ([interactors/nonceHandlerV2/])

    [addressNonceHandler] applies nonces and gas prices to the transactions of
    one address and keeps the ones it sent; [nonceTransactionsHandlerV2] keeps one
    handler per address and uses it through the interface
    [interactors.AddressNonceHandler], here a class.  The owner copies each
    transaction before it hands it to a handler, so the stored transactions are
    values.  [ApplyNonceAndGasPrice] writes into the caller's transaction, which
    is a part of its state: [H * (FrontendTransaction * W)]. *)

From S2P Require Export Interactors.

Record addressNonceHandler := mkAnh {
  address_ : address;
  computedNonceWasSet : bool;
  computedNonce : Z;
  lowestNonce : Z;
  gasPrice : Z;
  nonceUntilGasIncreased : Z;
  transactions : gmap Z FrontendTransaction }.

Definition setNonce (b : bool) (n : Z) (h : addressNonceHandler) : addressNonceHandler :=
  mkAnh (address_ h) b n (lowestNonce h) (gasPrice h) (nonceUntilGasIncreased h) (transactions h).
Definition setGasPrice (g : Z) (h : addressNonceHandler) : addressNonceHandler :=
  mkAnh (address_ h) (computedNonceWasSet h) (computedNonce h) (lowestNonce h) g
    (nonceUntilGasIncreased h) (transactions h).
Definition setTransactions (lowest : Z) (t : gmap Z FrontendTransaction) (h : addressNonceHandler) :=
  mkAnh (address_ h) (computedNonceWasSet h) (computedNonce h) lowest (gasPrice h)
    (nonceUntilGasIncreased h) t.

(** [NewAddressNonceHandler]; the flag is the test of the proxy argument. *)
Definition NewAddressNonceHandler (proxyIsNil : bool) (a : option address) : outcome addressNonceHandler :=
  if proxyIsNil then Fail ErrNilProxy
  else match a with
       | None => Fail ErrNilAddress
       | Some a => Ok (mkAnh a false 0 0 0 0 ∅)
       end.

Section Handler.
Context {W : Type} `{InteractorProxy W} `{!MapRangeZ FrontendTransaction}.

Abbreviation St := (addressNonceHandler * W)%type.
Abbreviation TxSt := (addressNonceHandler * (FrontendTransaction * W))%type.

(** A call to the network from a method that also has the caller's transaction. *)
Definition with_tx {A} (m : M St A) : M TxSt A := λ '(h, (tx, w)),
  let '(r, (h', w')) := m (h, w) in (r, (h', (tx, w'))).

Definition handleTxWithSameNonce (oldTx tx : FrontendTransaction) (h : addressNonceHandler) : outcome () :=
  if tx_GasPrice oldTx <? tx_GasPrice tx then Ok ()
  else if (tx_GasPrice oldTx =? tx_GasPrice tx) && (tx_GasPrice oldTx <? gasPrice h) then Ok ()
  else Fail ErrTxWithSameNonceAndGasPriceAlreadySent.

Definition fetchGasPriceIfRequired (nonce : Z) : M St () :=
  h ← gets fst;
  if (nonce =? u64 (nonceUntilGasIncreased h + 1)) || (gasPrice h =? 0) then
    r ← try (onsnd px_GetNetworkConfig);
    match r with
    | inl _ => onfst (modify (setGasPrice 0))
    | inr cfg => cfg ← deref cfg; onfst (modify (setGasPrice (nc_MinGasPrice cfg)))
    end
  else mret ().

(** The nonce returned next to an error is the first component. *)
Definition getNonceUpdatingCurrent : M St (Z * option error) :=
  a ← gets (λ s : St, address_ s.1);
  r ← try (onsnd (px_GetAccount a));
  match r with
  | inl e => mret (0, Some e)
  | inr account =>
    account ← deref account;
    h ← gets fst;
    if acc_Nonce account <? lowestNonce h then mret (acc_Nonce account, Some ErrGapNonce)
    else if negb (computedNonceWasSet h) then
      onfst (modify (setNonce true (acc_Nonce account))) ;;
      mret (acc_Nonce account, None)
    else
      let n := u64 (computedNonce h + 1) in
      onfst (modify (setNonce true n)) ;;
      mret (core_MaxUint64 n (acc_Nonce account), None)
  end.

Definition getOlderTxWithSameNonce (tx : FrontendTransaction) (h : addressNonceHandler) :
    option FrontendTransaction := transactions h !! tx_Nonce tx.

Definition ApplyNonceAndGasPrice : M TxSt () :=
  tx ← gets (λ s : TxSt, s.2.1);
  h ← gets fst;
  match getOlderTxWithSameNonce tx h with
  | Some oldTx => lift (handleTxWithSameNonce oldTx tx h)
  | None => mret ()
  end ;;
  '(nonce, err) ← with_tx getNonceUpdatingCurrent;
  onsnd (onfst (modify (tx_setNonce nonce))) ;;
  match err with
  | Some e => throw e
  | None =>
    with_tx (fetchGasPriceIfRequired nonce) ;;
    h ← gets fst;
    onsnd (onfst (modify (λ tx, tx_setGasPrice (core_MaxUint64 (gasPrice h) (tx_GasPrice tx)) tx)))
  end.

Definition ReSendTransactionsIfRequired `{PubkeyConverter} : M St () :=
  a ← gets (λ s : St, address_ s.1);
  account ← onsnd (px_GetAccount a);
  account ← deref account;
  h ← gets fst;
  if acc_Nonce account =? computedNonce h then onfst (modify (setTransactions (computedNonce h) ∅))
  else
    let entries := rangeZ (transactions h) in
    let dropped := filter (λ e, stale (acc_Nonce account) e = true) entries in
    let resendable := filter (λ e, stale (acc_Nonce account) e = false) entries in
    let minNonce := foldl (λ m e, core_MinUint64 e.1 m) (computedNonce h) resendable in
    onfst (modify (setTransactions minNonce (foldr (λ e m, delete e.1 m) (transactions h) dropped))) ;;
    match resendable with
    | [] => mret ()
    | _ =>
      _ ← onsnd (px_SendTransactions resendable.*2);
      _ ← lift (AddressAsBech32String a);
      mret ()
    end.

Definition SendTransaction (tx : FrontendTransaction) : M St string :=
  onfst (modify (λ h, setTransactions (lowestNonce h) (<[tx_Nonce tx := tx]> (transactions h)) h)) ;;
  onsnd (px_SendTransaction tx).

Definition DropTransactions (h : addressNonceHandler) : addressNonceHandler :=
  mkAnh (address_ h) false (computedNonce h) (lowestNonce h) (u64 (gasPrice h + 1)) (computedNonce h) ∅.
End Handler.

(** ** What a call of [ApplyNonceAndGasPrice] does

    [next_nonce n h] and [next_gas g nonce h] are the nonce and the gas price a
    call settles on when the account nonce is [n] and the network's gas price [g]. *)

Definition next_nonce (n : Z) (h : addressNonceHandler) : Z * addressNonceHandler :=
  if negb (computedNonceWasSet h) then (n, setNonce true n h)
  else let c := u64 (computedNonce h + 1) in (core_MaxUint64 c n, setNonce true c h).

Definition next_gas (g nonce : Z) (h : addressNonceHandler) : addressNonceHandler :=
  if (nonce =? u64 (nonceUntilGasIncreased h + 1)) || (gasPrice h =? 0) then setGasPrice g h else h.

Section Handler_theorems.
Context {W : Type} `{InteractorProxy W} `{!MapRangeZ FrontendTransaction}.

Lemma getNonce_run n h w :
  ConstantNonce W (address_ h) n → lowestNonce h ≤ n →
  ∃ w', getNonceUpdatingCurrent (h, w) = (Ok ((next_nonce n h).1, None), ((next_nonce n h).2, w')).
Proof.
  intros Hc Hl. destruct (constant_nonce (addr := address_ h) w) as (acc & w' & Ew & Hn). exists w'.
  unfold getNonceUpdatingCurrent, gets, mbind, M_bind, onsnd, try, next_nonce. cbn [fst snd].
  rewrite Ew. cbn. rewrite Hn, (proj2 (Z.ltb_ge _ _) Hl). by destruct (computedNonceWasSet h).
Qed.

Lemma fetchGas_run g nonce h w :
  ConstantGasPrice W g →
  ∃ w', fetchGasPriceIfRequired nonce (h, w) = (Ok (), (next_gas g nonce h, w')).
Proof.
  intros Hc. unfold fetchGasPriceIfRequired, next_gas, gets, mbind, M_bind. cbn [fst].
  destruct (_ || _); [|by exists w].
  destruct (constant_gas w) as (cfg & w' & Ew & Hg). exists w'.
  unfold onsnd, try. rewrite Ew. cbn. by rewrite Hg.
Qed.

Lemma next_nonce_address n h : address_ (next_nonce n h).2 = address_ h.
Proof. unfold next_nonce. by destruct (negb _). Qed.

Lemma Apply_tx_run n g h tx w :
  ConstantNonce W (address_ h) n → ConstantGasPrice W g → lowestNonce h ≤ n →
  transactions h !! tx_Nonce tx = None →
  let '(nonce, h1) := next_nonce n h in
  let h2 := next_gas g nonce h1 in
  ∃ w', ApplyNonceAndGasPrice (h, (tx, w))
        = (Ok (), (h2, (tx_setGasPrice (Z.max (gasPrice h2) (tx_GasPrice tx)) (tx_setNonce nonce tx), w'))).
Proof.
  intros Hc Hg Hl Ht. destruct (getNonce_run n h w Hc Hl) as [w1 E1].
  destruct (next_nonce n h) as [nonce h1]. cbn [fst snd] in E1.
  destruct (fetchGas_run g nonce h1 w1 Hg) as [w2 E2]. exists w2.
  unfold ApplyNonceAndGasPrice, gets, mbind, M_bind. cbn [fst snd].
  unfold getOlderTxWithSameNonce. rewrite Ht. cbn [mret M_ret]. unfold mret, M_ret.
  unfold with_tx at 1. rewrite E1. cbn. rewrite E2. cbn. by rewrite core_MaxUint64_max.
Qed.

Lemma next_gas_keeps g nonce h :
  let h' := next_gas g nonce h in
  address_ h' = address_ h ∧ lowestNonce h' = lowestNonce h ∧
  computedNonceWasSet h' = computedNonceWasSet h ∧ computedNonce h' = computedNonce h ∧
  transactions h' = transactions h.
Proof. unfold next_gas. by destruct (_ || _). Qed.

(** The caller applies the handler to transactions of its own, one by one. *)
Fixpoint applyAll (txs : list FrontendTransaction) : M (addressNonceHandler * W) (list FrontendTransaction) :=
  match txs with
  | [] => mret []
  | tx :: rest => λ '(h, w),
    match ApplyNonceAndGasPrice (h, (tx, w)) with
    | (Ok _, (h', (tx', w'))) => (rest' ← applyAll rest; mret (tx' :: rest')) (h', w')
    | (Fail e, (h', (_, w'))) => (Fail e, (h', w'))
    | (Panic, (h', (_, w'))) => (Panic, (h', w'))
    end
  end.

(** The transactions with the nonces [n], [n + 1], ... and at least the gas
    prices [price n], [price (n + 1)], ... *)
Fixpoint numbered (price : Z → Z) (n : Z) (txs : list FrontendTransaction) : list FrontendTransaction :=
  match txs with
  | [] => []
  | tx :: rest => tx_setGasPrice (Z.max (price n) (tx_GasPrice tx)) (tx_setNonce n tx)
                  :: numbered price (n + 1) rest
  end.

(** A handler about to give out nonce [i], with account nonce [n]. *)
Definition about_to_give (n i : Z) (h : addressNonceHandler) : Prop :=
  (computedNonceWasSet h = false ∧ i = n) ∨ (computedNonceWasSet h = true ∧ computedNonce h = i - 1 ∧ n < i).

(** What [next_nonce] keeps. *)
Lemma next_nonce_gives n i h :
  0 ≤ n → i < 2 ^ 64 → about_to_give n i h →
  ∃ h', next_nonce n h = (i, h') ∧ about_to_give n (i + 1) h' ∧ address_ h' = address_ h ∧
    lowestNonce h' = lowestNonce h ∧ gasPrice h' = gasPrice h ∧
    nonceUntilGasIncreased h' = nonceUntilGasIncreased h ∧ transactions h' = transactions h.
Proof.
  intros Hn Hi Hg. unfold next_nonce. destruct Hg as [[-> ->]|(-> & -> & Hlt)]; cbn [negb].
  - eexists. split; [reflexivity|]. split; [|done]. right. cbn. repeat split; lia.
  - rewrite u64_small by (unfold is_u64; lia). rewrite core_MaxUint64_max. eexists.
    split; [f_equal; lia|]. split; [|done]. right. cbn. repeat split; lia.
Qed.

(** The gas price of a handler follows [price]: [gas_inv i h] holds before nonce [i]. *)
Lemma applyAll_numbered (price : Z → Z) (gas_inv : Z → addressNonceHandler → Prop) (a : address) n g :
  ConstantNonce W a n → ConstantGasPrice W g → 0 ≤ n →
  (∀ i h h', gasPrice h' = gasPrice h → nonceUntilGasIncreased h' = nonceUntilGasIncreased h →
             gas_inv i h → gas_inv i h') →
  (∀ i h, n ≤ i < 2 ^ 64 → gas_inv i h →
          gasPrice (next_gas g i h) = price i ∧ gas_inv (i + 1) (next_gas g i h)) →
  ∀ txs i h w, about_to_give n i h → n ≤ i → i + Z.of_nat (length txs) ≤ 2 ^ 64 → address_ h = a →
    lowestNonce h ≤ n → transactions h = ∅ → gas_inv i h →
    (applyAll txs (h, w)).1 = Ok (numbered price i txs).
Proof.
  intros Hc Hg Hn0 Hext Hstep. induction txs as [|tx txs IH]; intros i h w Hgive Hi Hlen Ha Hl Ht Hinv; [done|].
  cbn [length] in Hlen. cbn [applyAll numbered].
  destruct (next_nonce_gives n i h Hn0 ltac:(lia) Hgive) as (h1 & E & Hgive1 & Ha1 & Hl1 & Hgp & Hu & Ht1).
  assert (Hinv1 : gas_inv i h1) by (by eapply Hext).
  destruct (Hstep i h1 ltac:(lia) Hinv1) as [Hp Hinv2].
  pose proof (Apply_tx_run n g h tx w) as Hrun. rewrite E, Ha in Hrun.
  destruct Hrun as [w' ->]; [done|done|done|by rewrite Ht|]. rewrite Hp.
  unfold mbind, M_bind, mret, M_ret.
  destruct (next_gas_keeps g i h1) as (Ea & El & Es & Ec & Et).
  specialize (IH (i + 1) (next_gas g i h1) w').
  destruct (applyAll txs (next_gas g i h1, w')) as [r s]. cbn [fst] in IH |- *.
  rewrite IH; [done|..]; try (congruence || lia).
  unfold about_to_give in *. by rewrite Es, Ec.
Qed.

(** A new handler gives the transactions it is applied to, one after the
    other, the nonces n, n+1, n+2, ... from the account nonce n, and raises each
    gas price to the network's minimum, without lowering a higher one. *)
Theorem Apply_consecutive (a : address) (n g : Z) (txs : list FrontendTransaction) (h : addressNonceHandler) (w : W) :
  ConstantNonce W a n → ConstantGasPrice W g → 0 ≤ n → n + Z.of_nat (length txs) ≤ 2 ^ 64 →
  NewAddressNonceHandler false (Some a) = Ok h →
  (applyAll txs (h, w)).1 = Ok (numbered (λ _, g) n txs).
Proof.
  intros Hc Hg Hn Hlen [= <-].
  apply (applyAll_numbered (λ _, g) (λ _ h, gasPrice h = 0 ∨ gasPrice h = g) a n g); try done.
  - by intros i h h' -> _.
  - intros i h _ Hi. unfold next_gas. destruct (_ || _) eqn:E; cbn; [by auto|].
    apply orb_false_iff in E as [_ E%Z.eqb_neq]. destruct Hi; [lia|by auto].
  - by left.
  - by left.
Qed.

(** After DropTransactions the replacements of the dropped transactions cost
    more: with the account nonce n, the stored nonce c and the gas price p at the
    time of the drop, the nonces n .. c are given again with a gas price of at
    least p + 1, and from nonce c + 1 on the network's gas price g is back. *)
Theorem Apply_after_drop (a : address) (n g : Z) (txs : list FrontendTransaction) (h : addressNonceHandler) (w : W) :
  ConstantNonce W a n → ConstantGasPrice W g → 0 ≤ n → n + Z.of_nat (length txs) ≤ 2 ^ 64 →
  address_ h = a → lowestNonce h ≤ n ≤ computedNonce h → computedNonce h < 2 ^ 64 - 1 →
  0 ≤ gasPrice h < 2 ^ 64 - 1 →
  (applyAll txs (DropTransactions h, w)).1
  = Ok (numbered (λ i, if i <=? computedNonce h then gasPrice h + 1 else g) n txs).
Proof.
  intros Hc Hg Hn Hlen Ha Hl Hcn Hgp. set (c := computedNonce h). set (p := gasPrice h + 1).
  apply (applyAll_numbered _ (λ i h, nonceUntilGasIncreased h = c ∧
    gasPrice h = if i <=? c + 1 then p else g) a n g); try done.
  - by intros i h1 h2 -> ->.
  - intros i h1 Hi [Hu Hp]. unfold next_gas. rewrite Hu, u64_small by (unfold is_u64; subst c; lia).
    destruct (Z.eqb_spec i (c + 1)) as [->|Hne]; cbn [orb].
    + cbn. rewrite Hu. destruct (Z.leb_spec (c + 1) c); [lia|]. by destruct (Z.leb_spec (c + 1 + 1) (c + 1)); [lia|].
    + rewrite Hp. destruct (Z.leb_spec i (c + 1)), (Z.leb_spec i c); try lia.
      * destruct (Z.eqb_spec p 0); [subst p; lia|]. rewrite Hu, Hp.
        destruct (Z.leb_spec (i + 1) (c + 1)); [|lia]. by destruct (Z.leb_spec i (c + 1)); [|lia].
      * destruct (g =? 0) eqn:Eg; cbn; rewrite ?Hu, ?Hp; destruct (Z.leb_spec (i + 1) (c + 1)); try lia; try done.
  - by left.
  - cbn. lia.
  - cbn. fold c p. rewrite u64_small by (unfold is_u64; subst p; lia).
    by destruct (Z.leb_spec n (c + 1)); [|subst c; lia].
Qed.

(** A transaction whose nonce is already taken by a stored transaction gets
    a new nonce only when it pays more, or pays the same but less than the
    handler's raised price; otherwise it is refused, untouched, before the network is asked. *)
Theorem Apply_same_nonce_refused (h : addressNonceHandler) (tx old : FrontendTransaction) (w : W) :
  transactions h !! tx_Nonce tx = Some old →
  tx_GasPrice tx < tx_GasPrice old ∨ (tx_GasPrice tx = tx_GasPrice old ∧ gasPrice h ≤ tx_GasPrice old) →
  ApplyNonceAndGasPrice (h, (tx, w)) = (Fail ErrTxWithSameNonceAndGasPriceAlreadySent, (h, (tx, w))).
Proof.
  intros Ht Hp. unfold ApplyNonceAndGasPrice, gets, mbind, M_bind, getOlderTxWithSameNonce. cbn [fst snd].
  rewrite Ht. unfold lift, handleTxWithSameNonce.
  destruct (Z.ltb_spec (tx_GasPrice old) (tx_GasPrice tx)); [lia|].
  destruct (Z.eqb_spec (tx_GasPrice old) (tx_GasPrice tx)); cbn [andb]; [|done].
  by destruct (Z.ltb_spec (tx_GasPrice old) (gasPrice h)); [lia|].
Qed.

(** ** Sending again *)

Lemma reSend_run `{PubkeyConverter} (h : addressNonceHandler) (w w1 : W) (acc : Account) :
  px_GetAccount (address_ h) w = (Ok (Some acc), w1) → acc_Nonce acc ≠ computedNonce h →
  let entries := filter (λ e, stale (acc_Nonce acc) e = false) (rangeZ (transactions h)) in
  let lowest := foldl (λ m e, core_MinUint64 e.1 m) (computedNonce h) entries in
  (ReSendTransactionsIfRequired (h, w)).2
  = (setTransactions lowest (above (acc_Nonce acc) (transactions h)) h,
     match entries with [] => w1 | _ => (px_SendTransactions entries.*2 w1).2 end).
Proof.
  intros Ew Hn entries lowest.
  unfold ReSendTransactionsIfRequired, gets, mbind, M_bind, onsnd, onfst, modify.
  cbn [fst snd]. rewrite Ew. cbn [deref fst snd]. rewrite (proj2 (Z.eqb_neq _ _) Hn).
  rewrite sweep_delete. fold entries. fold lowest.
  destruct entries as [|e es] eqn:Ee; [done|].
  destruct (px_SendTransactions _ w1) as [[hs|e'|] w2]; cbn; [|done..].
  unfold lift. by destruct (AddressAsBech32String (address_ h)).
Qed.

(** C18: A resend, when the account nonce n differs from the stored nonce,
    forgets exactly the transactions with nonce at most n, sends again exactly
    the others, each once, and sets lowestNonce to the smallest of the stored
    nonce and the nonces of the transactions it kept. *)
Theorem reSend_spec `{PubkeyConverter} (h : addressNonceHandler) (w w1 : W) (acc : Account) :
  px_GetAccount (address_ h) w = (Ok (Some acc), w1) → acc_Nonce acc ≠ computedNonce h →
  let kept := above (acc_Nonce acc) (transactions h) in
  ∃ entries lowest, entries ≡ₚ map_to_list kept ∧
    (ReSendTransactionsIfRequired (h, w)).2
    = (setTransactions lowest kept h,
       match entries with [] => w1 | _ => (px_SendTransactions entries.*2 w1).2 end) ∧
    lowest ≤ computedNonce h ∧ (∀ k tx, kept !! k = Some tx → lowest ≤ k) ∧
    (lowest = computedNonce h ∨ is_Some (kept !! lowest)).
Proof.
  intros Ew Hn kept.
  pose proof (sweep_keep (acc_Nonce acc) (transactions h)) as Hperm. fold kept in Hperm.
  eexists _, _. split; [exact Hperm|]. split; [by apply reSend_run|].
  destruct (foldl_min (filter (λ e, stale (acc_Nonce acc) e = false) (rangeZ (transactions h)))
    (computedNonce h)) as (H1 & H2 & H3). split; [done|]. split.
  - intros k tx Hk. apply (H2 (k, tx)). rewrite Hperm. by apply elem_of_map_to_list.
  - destruct H3 as [H3|([k tx] & Hin & H3)]; [by left|right]. rewrite H3. cbn. exists tx.
    rewrite Hperm in Hin. by apply elem_of_map_to_list in Hin.
Qed.

(** A resend at an account nonce n below the stored nonce leaves lowestNonce
    above n, so until the account nonce moves every ApplyNonceAndGasPrice is
    refused with ErrGapNonce (and writes n into the transaction), although no nonce was lost: the
    transaction of nonce n itself is the next the chain expects, and was forgotten. *)
Theorem reSend_blocks_apply `{PubkeyConverter} (h : addressNonceHandler) (w : W) (n : Z) (tx : FrontendTransaction) :
  ConstantNonce W (address_ h) n → n < computedNonce h →
  let s := (ReSendTransactionsIfRequired (h, w)).2 in
  transactions s.1 !! tx_Nonce tx = None →
  transactions s.1 !! n = None ∧
  ∃ w', ApplyNonceAndGasPrice (s.1, (tx, s.2)) = (Fail ErrGapNonce, (s.1, (tx_setNonce n tx, w'))).
Proof.
  intros Hc Hn s. destruct (constant_nonce (addr := address_ h) w) as (acc & w1 & Ew & Ha).
  subst s. rewrite (reSend_run h w w1 acc Ew) by lia. rewrite Ha. cbn [fst snd].
  set (entries := filter _ _). set (w' := match entries with [] => _ | _ => _ end).
  intros Ht. split; [cbn; rewrite above_lookup, decide_False; [done|lia]|].
  destruct (constant_nonce (addr := address_ h) w') as (acc' & w2 & Ew2 & Ha2). exists w2.
  unfold ApplyNonceAndGasPrice, gets, mbind, M_bind, getOlderTxWithSameNonce. cbn [fst snd].
  rewrite Ht. unfold mret, M_ret, with_tx, getNonceUpdatingCurrent, try, onsnd, gets, mbind, M_bind.
  cbn [fst snd]. cbn [address_ setTransactions]. rewrite Ew2. cbn [deref fst snd]. rewrite Ha2.
  cbn [lowestNonce setTransactions].
  destruct (foldl_min entries (computedNonce h)) as (_ & _ & H3).
  rewrite (proj2 (Z.ltb_lt _ _)); [done|].
  destruct H3 as [->|(e & He & ->)]; [done|]. subst entries.
  apply list_elem_of_filter in He as [He _]. unfold stale in He. lia.
Qed.
End Handler_theorems.

(** ** The interface of a handler, as its owner uses it *)

Class AddressNonceHandler (H W : Type) := {
  anh_New : address → outcome H;
  anh_ApplyNonceAndGasPrice : M (H * (FrontendTransaction * W)) ();
  anh_ReSendTransactionsIfRequired : M (H * W) ();
  anh_SendTransaction : FrontendTransaction → M (H * W) string;
  anh_DropTransactions : H → H }.

#[export] Instance addressNonceHandlerV2 {W} `{InteractorProxy W} `{!MapRangeZ FrontendTransaction}
    `{PubkeyConverter} : AddressNonceHandler addressNonceHandler W := {|
  anh_New a := NewAddressNonceHandler false (Some a);
  anh_ApplyNonceAndGasPrice := ApplyNonceAndGasPrice;
  anh_ReSendTransactionsIfRequired := ReSendTransactionsIfRequired;
  anh_SendTransaction := SendTransaction;
  anh_DropTransactions := DropTransactions |}.

(** What the owner relies on: a handler is for one address, for ever. *)
Class AddressNonceHandlerLaws (H W : Type) `{AddressNonceHandler H W} := {
  anh_address : H → address;
  anh_New_address a h : anh_New a = Ok h → anh_address h = a;
  anh_Apply_address h s : anh_address (anh_ApplyNonceAndGasPrice (h, s)).2.1 = anh_address h;
  anh_ReSend_address h w : anh_address (anh_ReSendTransactionsIfRequired (h, w)).2.1 = anh_address h;
  anh_Send_address tx h w : anh_address (anh_SendTransaction tx (h, w)).2.1 = anh_address h;
  anh_Drop_address h : anh_address (anh_DropTransactions h) = anh_address h }.

(** The methods of the handler keep its address: by cases on what they call. *)
Section Handler_laws.
Context {W : Type} `{InteractorProxy W} `{!MapRangeZ FrontendTransaction} `{PubkeyConverter}.

Lemma getNonce_address h w : address_ (getNonceUpdatingCurrent (h, w)).2.1 = address_ h.
Proof.
  unfold getNonceUpdatingCurrent. mred. destruct (px_GetAccount _ w) as [[[acc|]|e|] w1]; cbn; try done.
  destruct (_ <? _); [done|]. by destruct (negb _).
Qed.

Lemma fetchGas_address nonce h w : address_ (fetchGasPriceIfRequired nonce (h, w)).2.1 = address_ h.
Proof.
  unfold fetchGasPriceIfRequired. mred. destruct (_ || _); [|done].
  by destruct (px_GetNetworkConfig w) as [[[cfg|]|e|] w1].
Qed.

Lemma Apply_address h s : address_ (ApplyNonceAndGasPrice (h, s)).2.1 = address_ h.
Proof.
  destruct s as [tx w]. unfold ApplyNonceAndGasPrice, gets, mbind, M_bind. cbn [fst snd].
  assert (Hpre : ∀ m : M (addressNonceHandler * (FrontendTransaction * W)) (),
    (∃ o, m = lift o) → ∀ s, (m s).2 = s) by (intros m [o ->] s; done).
  set (pre := match getOlderTxWithSameNonce tx h with Some _ => _ | None => _ end).
  assert (Hp : (pre (h, (tx, w))).2 = (h, (tx, w))) by (apply Hpre; subst pre; destruct (getOlderTxWithSameNonce tx h); eauto; by exists (Ok ())).
  destruct (pre (h, (tx, w))) as [[u|e|] s1]; cbn in Hp; subst s1; try done.
  unfold with_tx at 1. pose proof (getNonce_address h w) as Ha.
  destruct (getNonceUpdatingCurrent (h, w)) as [[[nonce [err|]]|e|] [h1 w1]]; cbn in Ha |- *; try done.
  unfold with_tx. pose proof (fetchGas_address nonce h1 w1) as Ha1.
  destruct (fetchGasPriceIfRequired nonce (h1, w1)) as [[u2|e|] [h2 w2]]; cbn in *; congruence.
Qed.

Lemma ReSend_address h w : address_ (ReSendTransactionsIfRequired (h, w)).2.1 = address_ h.
Proof.
  unfold ReSendTransactionsIfRequired. mred. destruct (px_GetAccount _ w) as [[[acc|]|e|] w1]; cbn; try done.
  destruct (_ =? _); [done|]. destruct (filter (λ e, stale _ e = false) _); [done|].
  destruct (px_SendTransactions _ w1) as [[hs|e'|] w2]; cbn; [|done..]. by destruct (AddressAsBech32String _).
Qed.

Lemma Send_address tx h w : address_ (SendTransaction tx (h, w)).2.1 = address_ h.
Proof. unfold SendTransaction. mred. by destruct (px_SendTransaction tx w) as [[a|e|] w1]. Qed.

Lemma New_address a h : NewAddressNonceHandler false (Some a) = Ok h → address_ h = a.
Proof. by intros [= <-]. Qed.
End Handler_laws.

#[export] Instance addressNonceHandlerV2_laws {W} `{InteractorProxy W} `{!MapRangeZ FrontendTransaction}
    `{PubkeyConverter} : AddressNonceHandlerLaws addressNonceHandler W := {|
  anh_address := address_;
  anh_New_address := New_address;
  anh_Apply_address := Apply_address;
  anh_ReSend_address := ReSend_address;
  anh_Send_address := Send_address;
  anh_Drop_address _ := eq_refl |}.

(** ** Concrete runs *)

Definition witness_addr : address := mkAddress (replicate 32 x01).
Definition paying (n price : Z) : FrontendTransaction :=
  tx_setSender (hex_EncodeToString (replicate 32 x01)) (tx_setGasPrice price (tx_setNonce n emptyTx)).
Definition witness_anh : addressNonceHandler :=
  mkAnh witness_addr true 9 0 1000 0 {[5 := paying 5 1000; 9 := paying 9 1000; 8 := paying 8 1000; 7 := paying 7 1000]}.

Lemma Apply_consecutive_witness :
  (@applyAll net (frozen_proxy 7) [paying 0 10; paying 0 3000]
     (mkAnh witness_addr false 0 0 0 0 ∅, emptyNet)).1
  = Ok [paying 7 1000; paying 8 3000].
Proof.
  apply (@Apply_consecutive net (frozen_proxy 7) witness_addr 7 frozen_gas
    [paying 0 10; paying 0 3000] (mkAnh witness_addr false 0 0 0 0 ∅) emptyNet
    (frozen_constant _ _) (frozen_gas_constant _)); [lia|cbn; lia|reflexivity].
Defined.

Lemma Apply_after_drop_witness :
  (@applyAll net (frozen_proxy 8) [paying 0 10; paying 0 10; paying 0 10]
     (DropTransactions witness_anh, emptyNet)).1
  = Ok [paying 8 1001; paying 9 1001; paying 10 1000].
Proof.
  apply (@Apply_after_drop net (frozen_proxy 8) witness_addr 8 frozen_gas
    [paying 0 10; paying 0 10; paying 0 10] witness_anh emptyNet
    (frozen_constant _ _) (frozen_gas_constant _)); cbn; lia || reflexivity.
Defined.

Lemma Apply_same_nonce_refused_witness :
  @ApplyNonceAndGasPrice net net_proxy (witness_anh, (paying 7 1000, emptyNet))
  = (Fail ErrTxWithSameNonceAndGasPriceAlreadySent, (witness_anh, (paying 7 1000, emptyNet))).
Proof.
  apply (@Apply_same_nonce_refused net net_proxy witness_anh (paying 7 1000) (paying 7 1000));
    [vm_compute; reflexivity|right; cbn; lia].
Defined.

Lemma reSend_spec_witness :
  let kept := above 7 (transactions witness_anh) in
  kept = {[9 := paying 9 1000; 8 := paying 8 1000]} ∧
  ∃ entries lowest, entries ≡ₚ map_to_list kept ∧
    (@ReSendTransactionsIfRequired net (frozen_proxy 7) (map_to_list_rangeZ _) hexConverter (witness_anh, emptyNet)).2
    = (setTransactions lowest kept witness_anh,
       match entries with [] => emptyNet | _ => (@px_SendTransactions net (frozen_proxy 7) entries.*2 emptyNet).2 end) ∧
    lowest ≤ computedNonce witness_anh ∧ (∀ k tx, kept !! k = Some tx → lowest ≤ k) ∧
    (lowest = computedNonce witness_anh ∨ is_Some (kept !! lowest)).
Proof.
  split; [vm_compute; reflexivity|].
  apply (@reSend_spec net (frozen_proxy 7) (map_to_list_rangeZ _) hexConverter witness_anh emptyNet emptyNet
    (simpleAccount 7 "0")); [reflexivity|discriminate].
Defined.

Lemma reSend_blocks_apply_witness :
  let s := (@ReSendTransactionsIfRequired net (frozen_proxy 7) (map_to_list_rangeZ _) hexConverter
              (witness_anh, emptyNet)).2 in
  transactions s.1 !! 7 = None ∧
  ∃ w', @ApplyNonceAndGasPrice net (frozen_proxy 7) (s.1, (paying 0 10, s.2))
        = (Fail ErrGapNonce, (s.1, (paying 7 10, w'))).
Proof.
  apply (@reSend_blocks_apply net (frozen_proxy 7) (map_to_list_rangeZ _) hexConverter witness_anh emptyNet 7
    (paying 0 10) (frozen_constant _ _)); [cbn; lia|vm_compute; reflexivity].
Defined.
