(* ===== verification/NthV2.v ===== *)
(** * The owner of the version 2 handlers
    ([interactors/nonceHandlerV2/nonceTransactionsHandler.go])

    [nonceTransactionsHandlerV2] keeps one handler per address and passes the
    calls on.  It is written for any implementation of the interface
    [AddressNonceHandler] and proved from its laws; [NonceV2] has the implementation. *)

From S2P Require Export NonceV2.

Definition minimumIntervalToResend : Z := 1000000000.

Record nonceTransactionsHandlerV2 (H : Type) := mkNth {
  handlers : gmap string H;
  intervalToResend : Z;
  cancelled : bool }.
Arguments mkNth {H} _ _ _.
Arguments handlers {H} _.
Arguments intervalToResend {H} _.
Arguments cancelled {H} _.

Section Owner.
Context {H W : Type} `{AddressNonceHandler H W}.

Abbreviation NthSt := (nonceTransactionsHandlerV2 H * W)%type.

Definition NewNonceTransactionHandlerV2 (proxyIsNil : bool) (interval : Z) :
    outcome (nonceTransactionsHandlerV2 H) :=
  if proxyIsNil then Fail ErrNilProxy
  else if interval <? minimumIntervalToResend
  then Fail (ErrWrap ErrInvalidValue "for intervalToResend in NewNonceTransactionHandlerV2")
  else Ok (mkNth ∅ interval false).

Definition handlerKey (a : address) : string := string_of_bytes (AddressBytes a).
Definition setHandlers (hs : gmap string H) (nth : nonceTransactionsHandlerV2 H) :=
  mkNth hs (intervalToResend nth) (cancelled nth).

Definition getAddressNonceHandler (a : address) (nth : nonceTransactionsHandlerV2 H) : option H :=
  handlers nth !! handlerKey a.

(** Looks the handler up once more under the write lock. *)
Definition createAddressNonceHandler {X} (a : address) : M (nonceTransactionsHandlerV2 H * X) H := λ '(nth, w),
  match handlers nth !! handlerKey a with
  | Some anh => (Ok anh, (nth, w))
  | None =>
    match anh_New a with
    | Ok anh => (Ok anh, (setHandlers (<[handlerKey a := anh]> (handlers nth)) nth, w))
    | Fail e => (Fail e, (nth, w))
    | Panic => (Panic, (nth, w))
    end
  end.

Definition getOrCreateAddressNonceHandler {X} (a : address) : M (nonceTransactionsHandlerV2 H * X) H :=
  anh ← gets (λ s, getAddressNonceHandler a s.1);
  match anh with
  | Some anh => mret anh
  | None => createAddressNonceHandler a
  end.

(** A method of the handler of [a], which the map holds by reference. *)
Definition on_handler {A X} (a : address) (m : M (H * X) A) : M (nonceTransactionsHandlerV2 H * X) A := 
  anh ← getOrCreateAddressNonceHandler a;
  λ '(nth, w), let '(r, (anh', w')) := m (anh, w) in
               (r, (setHandlers (<[handlerKey a := anh']> (handlers nth)) nth, w')).

(** A nil transaction is [None]; the transaction is part of the state. *)
Definition ApplyNonceAndGasPrice (a : option address) :
    M (nonceTransactionsHandlerV2 H * (option FrontendTransaction * W)) () := λ '(nth, (tx, w)),
  match a, tx with
  | None, _ => (Fail ErrNilAddress, (nth, (tx, w)))
  | _, None => (Fail ErrNilTransaction, (nth, (tx, w)))
  | Some a, Some tx =>
    let '(r, (nth', (tx', w'))) := on_handler a anh_ApplyNonceAndGasPrice (nth, (tx, w)) in
    (r, (nth', (Some tx', w')))
  end.

Definition SendTransaction `{PubkeyConverter} (tx : option FrontendTransaction) : M NthSt string :=
  match tx with
  | None => throw ErrNilTransaction
  | Some txCopy =>
    a ← wrapping (λ e, ErrWrap e "while creating address handler for string")
          (lift (NewAddressFromBech32String (tx_Sender txCopy)));
    _ ← getOrCreateAddressNonceHandler a;
    wrapping (λ e, ErrWrap e "while sending transaction for address")
      (on_handler a (anh_SendTransaction txCopy))
  end.

(** [order]: the keys in the order the map is visited until the context is done. *)
Fixpoint resendAll (order : list string) : M (gmap string H * W) () :=
  match order with
  | [] => mret ()
  | k :: order' => λ '(hs, w),
    match hs !! k with
    | None => resendAll order' (hs, w)
    | Some h =>
      match anh_ReSendTransactionsIfRequired (h, w) with
      | (Panic, (h', w')) => (Panic, (<[k := h']> hs, w'))
      | (_, (h', w')) => resendAll order' (<[k := h']> hs, w')
      end
    end
  end.

Definition resendTransactions (order : list string) : M NthSt () := λ '(nth, w),
  if cancelled nth then (Ok (), (nth, w))
  else let '(r, (hs, w')) := resendAll order (handlers nth, w) in (r, (setHandlers hs nth, w')).

Definition DropTransactions (a : option address) : M NthSt () :=
  match a with
  | None => throw ErrNilAddress
  | Some a => on_handler a (onfst (modify anh_DropTransactions))
  end.

Definition Close : M NthSt () :=
  onfst (modify (λ nth, mkNth (handlers nth) (intervalToResend nth) true)).

(** One call of the public methods, or a change of the world around them. *)
Inductive nth_step `{PubkeyConverter} : NthSt → NthSt → Prop :=
  | step_apply nth w a tx r nth' tx' w' :
      ApplyNonceAndGasPrice a (nth, (tx, w)) = (r, (nth', (tx', w'))) → nth_step (nth, w) (nth', w')
  | step_send s tx r s' : SendTransaction tx s = (r, s') → nth_step s s'
  | step_resend s order r s' : resendTransactions order s = (r, s') → nth_step s s'
  | step_drop s a r s' : DropTransactions a s = (r, s') → nth_step s s'
  | step_close s r s' : Close s = (r, s') → nth_step s s'
  | step_world nth w w' : nth_step (nth, w) (nth, w').

(** Every handler is filed under the bytes of its own address. *)
Definition filed `{!AddressNonceHandlerLaws H W} (hs : gmap string H) : Prop :=
  ∀ k h, hs !! k = Some h → handlerKey (anh_address h) = k.

Context `{!AddressNonceHandlerLaws H W}.

Lemma filed_insert hs k h : filed hs → handlerKey (anh_address h) = k → filed (<[k := h]> hs).
Proof. intros Hf Hk j h' [[<- <-]|[Hne Hj]]%lookup_insert_Some; [done|by apply Hf]. Qed.

Lemma getOrCreate_filed {X} a nth (w : X) r nth' w' :
  filed (handlers nth) → getOrCreateAddressNonceHandler a (nth, w) = (r, (nth', w')) →
  filed (handlers nth') ∧ (∀ h, r = Ok h → handlerKey (anh_address h) = handlerKey a).
Proof.
  intros Hf. unfold getOrCreateAddressNonceHandler, getAddressNonceHandler, createAddressNonceHandler. mred.
  destruct (handlers nth !! handlerKey a) as [h|] eqn:Eh.
  { intros [= <- <- <-]. split; [done|]. intros h' [= <-]. by apply Hf. }
  cbn. rewrite ?Eh. destruct (anh_New a) as [h|e|] eqn:En; intros [= <- <- <-]; [|by split..].
  pose proof (anh_New_address a h En) as Ha. split; [|by intros h' [= <-]; rewrite Ha].
  apply filed_insert; [done|by rewrite Ha].
Qed.

Lemma on_handler_filed {A X} a (m : M (H * X) A) nth w r nth' w' :
  (∀ h x, anh_address (m (h, x)).2.1 = anh_address h) →
  filed (handlers nth) → on_handler a m (nth, w) = (r, (nth', w')) → filed (handlers nth').
Proof.
  intros Hm Hf. unfold on_handler, mbind, M_bind.
  destruct (getOrCreateAddressNonceHandler a (nth, w)) as [[h|e|] [nth1 w1]] eqn:E;
    destruct (getOrCreate_filed _ _ _ _ _ _ Hf E) as [Hf1 Hr]; [|by intros [= <- <- <-]..].
  pose proof (Hm h w1) as Ha. destruct (m (h, w1)) as [r2 [h2 w2]]. intros [= <- <- <-].
  apply filed_insert; [done|]. cbn in Ha. rewrite Ha. by apply Hr.
Qed.

Lemma resendAll_filed order hs w : filed hs → filed (resendAll order (hs, w)).2.1.
Proof.
  revert hs w. induction order as [|k order IH]; intros hs w Hf; [done|]. cbn [resendAll].
  destruct (hs !! k) as [h|] eqn:Eh; [|by apply IH].
  pose proof (anh_ReSend_address h w) as Ha.
  assert (Hk : handlerKey (anh_address h) = k) by by apply Hf.
  destruct (anh_ReSendTransactionsIfRequired (h, w)) as [[u|e|] [h' w']]; cbn in Ha;
    [apply IH|apply IH|cbn]; (apply filed_insert; [done|congruence]).
Qed.

Lemma nth_step_filed `{PubkeyConverter} s s' :
  nth_step s s' → filed (handlers s.1) → filed (handlers s'.1).
Proof.
  intros Hs Hf. destruct Hs as [nth w a tx r nth' tx' w' E|[nth w] tx r s' E|[nth w] order r s' E
    |[nth w] a r s' E|[nth w] r s' E|nth w w']; cbn in Hf |- *; [| | | | |done].
  - revert E. unfold ApplyNonceAndGasPrice. destruct a as [a|], tx as [tx|]; try by intros [= <- <- <- <-].
    destruct (on_handler a _ _) as [r1 [nth1 [tx1 w1]]] eqn:E1. intros [= <- <- <- <-].
    eapply on_handler_filed; [intros; apply anh_Apply_address|exact Hf|exact E1].
  - revert E. unfold SendTransaction. destruct tx as [tx|]; [|by intros [= <- <-]].
    unfold mbind, M_bind, wrapping, lift.
    destruct (NewAddressFromBech32String (tx_Sender tx)) as [a|e|]; [|by intros [= <- <-]..].
    destruct (getOrCreateAddressNonceHandler a (nth, w)) as [[h|e|] [nth1 w1]] eqn:E1;
      destruct (getOrCreate_filed _ _ _ _ _ _ Hf E1) as [Hf1 _]; [|by intros [= <- <-]..].
    destruct (on_handler a _ (nth1, w1)) as [r2 [nth2 w2]] eqn:E2.
    assert (filed (handlers nth2)) by (eapply on_handler_filed; [intros; apply anh_Send_address|exact Hf1|exact E2]).
    destruct r2; by intros [= <- <-].
  - revert E. unfold resendTransactions. destruct (cancelled nth); [by intros [= <- <-]|].
    pose proof (resendAll_filed order (handlers nth) w Hf) as Hr.
    destruct (resendAll order (handlers nth, w)) as [r1 [hs1 w1]]. by intros [= <- <-].
  - revert E. unfold DropTransactions. destruct a as [a|]; [|by intros [= <- <-]].
    intros E. destruct s' as [nth' w']. eapply on_handler_filed; [|exact Hf|exact E].
    intros. apply anh_Drop_address.
  - revert E. unfold Close. mred. by intros [= <- <-].
Qed.

(** Whatever sequence of calls reaches it, every handler of the map is for
    the address it is filed under, so the nonces, gas prices and stored
    transactions of an address are never mixed with those of another. *)
Theorem handlers_filed `{PubkeyConverter} (interval : Z) (nth : nonceTransactionsHandlerV2 H) (w : W) (s : NthSt) :
  NewNonceTransactionHandlerV2 false interval = Ok nth →
  rtc nth_step (nth, w) s →
  ∀ k h, handlers s.1 !! k = Some h → handlerKey (anh_address h) = k.
Proof.
  unfold NewNonceTransactionHandlerV2. destruct (_ <? _); [done|]. intros [= <-] Hrtc.
  assert (Hinit : filed (handlers (@mkNth H ∅ interval false, w).1)) by (intros k h; cbn; rewrite lookup_empty; done).
  revert Hinit. induction Hrtc as [s|s1 s2 s3 Hs _ IH]; intros Hf; [exact Hf|].
  apply IH. by eapply nth_step_filed.
Qed.
End Owner.

(** The handlers of the concrete network. *)
#[local] Instance net_handler : AddressNonceHandler addressNonceHandler net :=
  @addressNonceHandlerV2 net net_proxy (map_to_list_rangeZ _) hexConverter.
#[local] Instance net_handler_laws : AddressNonceHandlerLaws addressNonceHandler net :=
  @addressNonceHandlerV2_laws net net_proxy (map_to_list_rangeZ _) hexConverter.

Definition witness_run : nonceTransactionsHandlerV2 addressNonceHandler * net :=
  (DropTransactions (Some witness_addr) (mkNth ∅ 1000000000 false, emptyNet)).2.

Lemma handlers_filed_witness :
  (handlers witness_run.1 !! handlerKey witness_addr) = Some (NonceV2.DropTransactions (mkAnh witness_addr false 0 0 0 0 ∅)) ∧
  handlerKey (address_ (NonceV2.DropTransactions (mkAnh witness_addr false 0 0 0 0 ∅))) = handlerKey witness_addr.
Proof.
  split; [vm_compute; reflexivity|].
  apply (@handlers_filed _ _ net_handler net_handler_laws hexConverter 1000000000 (mkNth ∅ 1000000000 false)
    emptyNet witness_run).
  - reflexivity.
  - eapply rtc_l; [|apply rtc_refl]. apply (step_drop _ (Some witness_addr) (Ok ())).
    vm_compute. reflexivity.
  - vm_compute. reflexivity.
Defined.
