(* ===== verification/NonceFlow.v ===== *)
(** * Concurrent calls of a version 2 handler
    ([interactors/nonceHandlerV2/addressNonceHandler.go])

    [NonceV2] has each method as one function.  Here the methods run in goroutines
    of their own on one handler: a step is what happens between two points where
    another goroutine may run - one critical section of [mut], one call to the
    network, one read without the lock - and the steps of any number of calls
    interleave.  A call that runs alone computes what [NonceV2] says.
    [DropTransactions], after which the nonces start over, is not among the calls. *)

From S2P Require Export NonceV2.

(** Where a call is, with its local variables. *)
Inductive call :=
  | ApplyStart (tx : FrontendTransaction)
  | ApplyOlder (oldTx tx : FrontendTransaction)
  | ApplyAccount (tx : FrontendTransaction)
  | ApplyGap (accountNonce : Z) (tx : FrontendTransaction)
  | ApplyLock (accountNonce : Z) (tx : FrontendTransaction)
  | ApplyGas (tx : FrontendTransaction)
  | ApplyFetch (tx : FrontendTransaction)
  | ApplyStore (networkConfig : error + option NetworkConfig) (tx : FrontendTransaction)
  | ApplyPrice (tx : FrontendTransaction)
  | Applied (tx : FrontendTransaction) (err : option error)
  | SendStart (tx : FrontendTransaction)
  | SendPost (tx : FrontendTransaction)
  | Sent (result : error + string)
  | ResendStart
  | ResendLock (accountNonce : Z)
  | ResendPost (resendableTxs : list FrontendTransaction)
  | Resent (err : option error).

Section Steps.
Context {W : Type} `{InteractorProxy W} `{!MapRangeZ FrontendTransaction} `{PubkeyConverter}.

Abbreviation St := (addressNonceHandler * W)%type.

(** The steps of a call; a call that has returned stays. *)
Definition step_call (c : call) : M St call :=
  match c with
  | ApplyStart tx =>
    h ← gets fst;
    mret match getOlderTxWithSameNonce tx h with Some oldTx => ApplyOlder oldTx tx | None => ApplyAccount tx end
  | ApplyOlder oldTx tx =>
    h ← gets fst;
    err ← try (lift (handleTxWithSameNonce oldTx tx h));
    mret match err with inl e => Applied tx (Some e) | inr _ => ApplyAccount tx end
  | ApplyAccount tx =>
    a ← gets (λ s : St, address_ s.1);
    r ← try (onsnd (px_GetAccount a));
    match r with
    | inl e => mret (Applied (tx_setNonce 0 tx) (Some e))
    | inr account => account ← deref account; mret (ApplyGap (acc_Nonce account) tx)
    end
  | ApplyGap n tx =>
    h ← gets fst;
    mret (if n <? lowestNonce h then Applied (tx_setNonce n tx) (Some ErrGapNonce) else ApplyLock n tx)
  | ApplyLock n tx =>
    h ← gets fst;
    if negb (computedNonceWasSet h) then onfst (modify (setNonce true n)) ;; mret (ApplyGas (tx_setNonce n tx))
    else
      let c := u64 (computedNonce h + 1) in
      onfst (modify (setNonce true c)) ;;
      mret (ApplyGas (tx_setNonce (core_MaxUint64 c n) tx))
  | ApplyGas tx =>
    h ← gets fst;
    mret (if (tx_Nonce tx =? u64 (nonceUntilGasIncreased h + 1)) || (gasPrice h =? 0) then ApplyFetch tx else ApplyPrice tx)
  | ApplyFetch tx => r ← try (onsnd px_GetNetworkConfig); mret (ApplyStore r tx)
  | ApplyStore (inl _) tx => onfst (modify (setGasPrice 0)) ;; mret (ApplyPrice tx)
  | ApplyStore (inr cfg) tx => cfg ← deref cfg; onfst (modify (setGasPrice (nc_MinGasPrice cfg))) ;; mret (ApplyPrice tx)
  | ApplyPrice tx =>
    h ← gets fst;
    mret (Applied (tx_setGasPrice (core_MaxUint64 (gasPrice h) (tx_GasPrice tx)) tx) None)
  | SendStart tx =>
    onfst (modify (λ h, setTransactions (lowestNonce h) (<[tx_Nonce tx := tx]> (transactions h)) h)) ;;
    mret (SendPost tx)
  | SendPost tx => r ← try (onsnd (px_SendTransaction tx)); mret (Sent r)
  | ResendStart =>
    a ← gets (λ s : St, address_ s.1);
    r ← try (onsnd (px_GetAccount a));
    match r with
    | inl e => mret (Resent (Some e))
    | inr account => account ← deref account; mret (ResendLock (acc_Nonce account))
    end
  | ResendLock n =>
    h ← gets fst;
    if n =? computedNonce h then onfst (modify (setTransactions (computedNonce h) ∅)) ;; mret (Resent None)
    else
      let entries := rangeZ (transactions h) in
      let dropped := filter (λ e, stale n e = true) entries in
      let resendable := filter (λ e, stale n e = false) entries in
      let minNonce := foldl (λ m e, core_MinUint64 e.1 m) (computedNonce h) resendable in
      onfst (modify (setTransactions minNonce (foldr (λ e m, delete e.1 m) (transactions h) dropped))) ;;
      mret match resendable with [] => Resent None | _ => ResendPost resendable.*2 end
  | ResendPost txs =>
    a ← gets (λ s : St, address_ s.1);
    r ← try (_ ← onsnd (px_SendTransactions txs); lift (AddressAsBech32String a));
    mret (Resent match r with inl e => Some e | inr _ => None end)
  | Applied _ _ | Sent _ | Resent _ => mret c
  end.

Definition returned (c : call) : bool :=
  match c with Applied _ _ | Sent _ | Resent _ => true | _ => false end.

(** One call on its own. *)
Inductive call_step : call * St → call * St → Prop :=
  | cs_step c s c' s' : returned c = false → step_call c s = (Ok c', s') → call_step (c, s) (c', s').

(** *** A call that runs alone is the method *)

Lemma gas_alone tx h w h1 w1 :
  fetchGasPriceIfRequired (tx_Nonce tx) (h, w) = (Ok (), (h1, w1)) →
  rtc call_step (ApplyGas tx, (h, w)) (ApplyPrice tx, (h1, w1)).
Proof.
  unfold fetchGasPriceIfRequired. intros E. eapply rtc_l; [by apply cs_step|].
  mred. destruct (_ || _); [|by injection E as <- <-].
  destruct (px_GetNetworkConfig w) as [[cfg|e|] w'] eqn:En; [| |done].
  - eapply rtc_l; [apply cs_step; [done|]; cbn; mred; by rewrite En|].
    destruct cfg as [cfg|]; [|done]. injection E as <- <-. by apply rtc_once, cs_step.
  - eapply rtc_l; [apply cs_step; [done|]; cbn; mred; by rewrite En|].
    injection E as <- <-. by apply rtc_once, cs_step.
Qed.

Lemma nonce_alone tx h w n err h1 w1 :
  getNonceUpdatingCurrent (h, w) = (Ok (n, err), (h1, w1)) →
  rtc call_step (ApplyAccount tx, (h, w))
    (match err with Some e => Applied (tx_setNonce n tx) (Some e) | None => ApplyGas (tx_setNonce n tx) end, (h1, w1)).
Proof.
  unfold getNonceUpdatingCurrent. intros E.
  destruct (px_GetAccount (address_ h) w) as [[acc|e|] w'] eqn:Ea; mred; rewrite Ea in E; [| |done].
  - destruct acc as [acc|]; [|done]. cbn in E.
    eapply rtc_l; [apply cs_step; [done|]; cbn; mred; by rewrite Ea|].
    eapply rtc_l; [by apply cs_step|]. mred.
    destruct (acc_Nonce acc <? lowestNonce h); [by injection E as <- <- <- <-|].
    eapply rtc_l; [|by apply rtc_refl]. apply cs_step; [done|]. cbn. mred.
    destruct (negb (computedNonceWasSet h)); by injection E as <- <- <- <-.
  - injection E as <- <- <- <-. apply rtc_once, cs_step; [done|]. cbn. mred. by rewrite Ea.
Qed.

Lemma getNonce_answers s e : (getNonceUpdatingCurrent s).1 ≠ Fail e.
Proof. unfold getNonceUpdatingCurrent, deref. destruct s as [h w]. intros E. mrun. Qed.

Lemma fetchGas_answers n s e : (fetchGasPriceIfRequired n s).1 ≠ Fail e.
Proof. unfold fetchGasPriceIfRequired, deref. destruct s as [h w]. intros E. mrun. Qed.

(** [ApplyNonceAndGasPrice] after the look for an older transaction. *)
Definition apply_from_account : M (addressNonceHandler * (FrontendTransaction * W)) () :=
  '(nonce, err) ← with_tx getNonceUpdatingCurrent;
  onsnd (onfst (modify (tx_setNonce nonce))) ;;
  match err with
  | Some e => throw e
  | None =>
    with_tx (fetchGasPriceIfRequired nonce) ;;
    h ← gets fst;
    onsnd (onfst (modify (λ tx, tx_setGasPrice (core_MaxUint64 (gasPrice h) (tx_GasPrice tx)) tx)))
  end.

Lemma apply_split h tx w :
  NonceV2.ApplyNonceAndGasPrice (h, (tx, w)) =
  match (match getOlderTxWithSameNonce tx h with Some oldTx => handleTxWithSameNonce oldTx tx h | None => Ok () end) with
  | Ok _ => apply_from_account (h, (tx, w))
  | Fail e => (Fail e, (h, (tx, w)))
  | Panic => (Panic, (h, (tx, w)))
  end.
Proof.
  unfold NonceV2.ApplyNonceAndGasPrice, apply_from_account, mbind at 1 2 3, M_bind at 1 2 3, gets at 1 2. cbn [fst snd].
  destruct (getOlderTxWithSameNonce tx h) as [oldTx|]; [|done]. unfold lift.
  by destruct (handleTxWithSameNonce oldTx tx h).
Qed.

Lemma account_alone tx h w r h' tx' w' :
  apply_from_account (h, (tx, w)) = (r, (h', (tx', w'))) → r ≠ Panic →
  rtc call_step (ApplyAccount tx, (h, w)) (Applied tx' (match r with Fail e => Some e | _ => None end), (h', w')).
Proof.
  unfold apply_from_account.
  pose proof (getNonce_answers (h, w)) as Hn. pose proof (nonce_alone tx h w) as Ha.
  unfold with_tx. mred. destruct (getNonceUpdatingCurrent (h, w)) as [[[n err]|e|] [h1 w1]]; cbn in Hn |- *;
    [|by destruct (Hn e)|by intros [= <-]].
  specialize (Ha n err h1 w1 eq_refl). destruct err as [e|]; [by intros [= <- <- <- <-] _|].
  pose proof (fetchGas_answers n (h1, w1)) as Hf. pose proof (gas_alone (tx_setNonce n tx) h1 w1) as Hg.
  change (tx_Nonce (tx_setNonce n tx)) with n in Hg.
  destruct (fetchGasPriceIfRequired n (h1, w1)) as [[[]|e|] [h2 w2]]; cbn in Hf |- *;
    [|by destruct (Hf e)|by intros [= <-]].
  intros [= <- <- <- <-] _. etrans; [exact Ha|]. etrans; [by apply Hg|]. by apply rtc_once, cs_step.
Qed.

(** The two models of the methods agree: a call of [ApplyNonceAndGasPrice],
    [SendTransaction] or [ReSendTransactionsIfRequired] that no other call interrupts
    goes through its steps to the result, the transaction and the handler that the
    function of [NonceV2] computes. *)
Lemma calls_alone_are_the_methods h w :
  (∀ tx r h' tx' w', NonceV2.ApplyNonceAndGasPrice (h, (tx, w)) = (r, (h', (tx', w'))) → r ≠ Panic →
    rtc call_step (ApplyStart tx, (h, w))
      (Applied tx' (match r with Fail e => Some e | _ => None end), (h', w'))) ∧
  (∀ tx r h' w', NonceV2.SendTransaction tx (h, w) = (r, (h', w')) → r ≠ Panic →
    ∃ res, rtc call_step (SendStart tx, (h, w)) (Sent res, (h', w')) ∧
           r = match res with inl e => Fail e | inr s => Ok s end) ∧
  (∀ r h' w', NonceV2.ReSendTransactionsIfRequired (h, w) = (r, (h', w')) → r ≠ Panic →
    rtc call_step (ResendStart, (h, w)) (Resent (match r with Fail e => Some e | _ => None end), (h', w'))).
Proof.
  split_and!.
  - intros tx r h' tx' w'. rewrite apply_split. intros E Hp. eapply rtc_l; [apply cs_step; reflexivity|].
    unfold gets, mbind, M_bind, mret, M_ret. cbn [fst].
    destruct (getOlderTxWithSameNonce tx h) as [oldTx|]; [|by apply account_alone].
    destruct (handleTxWithSameNonce oldTx tx h) as [[]|e|] eqn:Eh; [| |by injection E as <-];
      (eapply rtc_l; [apply cs_step; [done|]; cbn; mred; rewrite Eh; reflexivity|]).
    + by apply account_alone.
    + by injection E as <- <- <- <-.
  - intros tx r h' w' E Hp. unfold NonceV2.SendTransaction in E. mred.
    destruct (px_SendTransaction tx w) as [[s|e|] w1] eqn:Es; injection E as <- <- <-; [exists (inr s)|exists (inl e)|done];
      (split; [|done]); (eapply rtc_l; [by apply cs_step|]); apply rtc_once, cs_step; [done| |done|]; cbn; mred; by rewrite Es.
  - intros r h' w' E Hp. unfold NonceV2.ReSendTransactionsIfRequired in E. mred.
    destruct (px_GetAccount (address_ h) w) as [[[acc|]|e|] w1] eqn:Ea; [|by injection E as <-| |by injection E as <-].
    2:{ injection E as <- <- <-. apply rtc_once, cs_step; [done|]. cbn. mred. by rewrite Ea. }
    eapply rtc_l; [apply cs_step; [done|]; cbn; mred; by rewrite Ea|]. cbn in E.
    destruct (acc_Nonce acc =? computedNonce h) eqn:Ec.
    { injection E as <- <- <-. apply rtc_once, cs_step; [done|]. cbn. mred. by rewrite Ec. }
    destruct (filter (λ e, stale (acc_Nonce acc) e = false) _) as [|e es] eqn:Ef.
    { injection E as <- <- <-. apply rtc_once, cs_step; [done|]. cbn. mred. by rewrite Ec, Ef. }
    eapply rtc_l; [apply cs_step; [done|]; cbn; mred; rewrite Ec, Ef; reflexivity|].
    eapply rtc_l; [|done]. apply cs_step; [done|]. cbn. mred.
    destruct (px_SendTransactions _ w1) as [[hs|e'|] w2]; [|by injection E as <- <- <-|by injection E as <-].
    cbn [address_ setTransactions].
    destruct (AddressAsBech32String (address_ h)); [by injection E as <- <- <-..|by injection E as <-].
Qed.
End Steps.

(** ** Any number of calls *)

(** The network answers the account nonce of [addr] that its state has; calls do not
    change it, only the network itself does. *)
Class NonceNetwork (W : Type) `{InteractorProxy W} (addr : address) := {
  account_nonce : W → Z;
  account_read w r w' : px_GetAccount addr w = (r, w') →
    account_nonce w' = account_nonce w ∧ ∀ acc, r = Ok (Some acc) → acc_Nonce acc = account_nonce w;
  config_keeps w r w' : px_GetNetworkConfig w = (r, w') → account_nonce w' = account_nonce w;
  send_keeps tx w r w' : px_SendTransaction tx w = (r, w') → account_nonce w' = account_nonce w;
  sends_keeps txs w r w' : px_SendTransactions txs w = (r, w') → account_nonce w' = account_nonce w }.

(** The handler, the network, the calls by the goroutine that makes them, and the
    nonces given so far, in the order in which the lock was held, with the goroutine
    that got each. *)
Record flow (W : Type) := mkFlow {
  f_handler : addressNonceHandler;
  f_world : W;
  f_calls : gmap nat call;
  f_given : list (nat * Z) }.
Arguments mkFlow {W}. Arguments f_handler {W}. Arguments f_world {W}. Arguments f_calls {W}. Arguments f_given {W}.

Section Flow.
Context {W : Type} `{InteractorProxy W} `{!MapRangeZ FrontendTransaction} `{PubkeyConverter}.
Context (addr : address) `{!NonceNetwork W addr} (n0 : Z).

Definition start (c : call) : bool :=
  match c with ApplyStart _ | SendStart _ | ResendStart => true | _ => false end.

Definition gives (i : nat) (c c' : call) : list (nat * Z) :=
  match c, c' with ApplyLock _ _, ApplyGas tx => [(i, tx_Nonce tx)] | _, _ => [] end.

(** The network executes transactions of the account meanwhile, but only with nonces
    that were given out: the account is used by this handler alone. *)
Inductive flow_step : flow W → flow W → Prop :=
  | fl_start h w cs given i c :
      cs !! i = None → start c = true → flow_step (mkFlow h w cs given) (mkFlow h w (<[i := c]> cs) given)
  | fl_call h w cs given i c c' h' w' :
      cs !! i = Some c → call_step (c, (h, w)) (c', (h', w')) →
      flow_step (mkFlow h w cs given) (mkFlow h' w' (<[i := c']> cs) (given ++ gives i c c'))
  | fl_network h w cs given w' :
      account_nonce w ≤ account_nonce w' ≤ n0 + Z.of_nat (length given) →
      flow_step (mkFlow h w cs given) (mkFlow h w' cs given).

Definition started (w : W) : flow W := mkFlow (mkAnh addr false 0 0 0 0 ∅) w ∅ [].

(** The account nonce a call goes by, and the nonce it was given. *)
Definition reading (c : call) : option Z :=
  match c with ApplyGap n _ | ApplyLock n _ => Some n | _ => None end.
Definition holds (c : call) : option Z :=
  match c with
  | ApplyGas tx | ApplyFetch tx | ApplyStore _ tx | ApplyPrice tx | Applied tx None => Some (tx_Nonce tx)
  | _ => None
  end.

(** A step that is not the one under the lock of [getNonceUpdatingCurrent] leaves
    the nonces alone. *)
Record quiet (c c' : call) (h h' : addressNonceHandler) (w : W) : Prop := {
  q_gives i : gives i c c' = [];
  q_set : computedNonceWasSet h' = computedNonceWasSet h;
  q_nonce : computedNonce h' = computedNonce h;
  q_holds z : holds c' = Some z → holds c = Some z;
  q_reading n : reading c' = Some n → reading c = Some n ∨ n = account_nonce w }.

Lemma call_step_cases c h w c' h' w' :
  address_ h = addr → call_step (c, (h, w)) (c', (h', w')) →
  account_nonce w' = account_nonce w ∧ address_ h' = addr ∧
  (quiet c c' h h' w ∨
   ∃ n tx, c = ApplyLock n tx ∧ c' = ApplyGas (tx_setNonce (next_nonce n h).1 tx) ∧ h' = (next_nonce n h).2).
Proof.
  intros Ha Hs. inversion Hs as [? ? ? ? Hr Es]; subst. clear Hs. destruct c as [| | | |n tx| | |[?|?] ?| | | | | | | | |]; try done.
  5:{ cbn in Es. unfold next_nonce in *. mred. destruct (negb (computedNonceWasSet h)); simplify_eq; eauto 10. }
  all: cbn in Es; unfold deref in Es; mred; rewrite ?Ha in Es; repeat mstep; simplify_eq/=.
  all: repeat match goal with
         | E : px_GetAccount _ _ = _ |- _ => apply account_read in E as [? ?]
         | E : px_GetNetworkConfig _ = _ |- _ => apply config_keeps in E
         | E : px_SendTransaction _ _ = _ |- _ => apply send_keeps in E
         | E : px_SendTransactions _ _ = _ |- _ => apply sends_keeps in E
         end.
  all: split_and!; [by rewrite ?Ha in *|by rewrite ?Ha|left].
  all: split; cbn; intros; simplify_eq; eauto.
Qed.

(** What holds of the nonces while they fit in a [uint64]. *)
Record nonces_ok (s : flow W) : Prop := {
  no_address : address_ (f_handler s) = addr;
  no_set : computedNonceWasSet (f_handler s) = negb (Nat.eqb (length (f_given s)) 0);
  no_computed : f_given s ≠ [] → computedNonce (f_handler s) = n0 + Z.of_nat (length (f_given s)) - 1;
  no_given : (f_given s).*2 = seqZ n0 (Z.of_nat (length (f_given s)));
  no_account : n0 ≤ account_nonce (f_world s) ≤ n0 + Z.of_nat (length (f_given s));
  no_reading i c n : f_calls s !! i = Some c → reading c = Some n → n0 ≤ n ≤ n0 + Z.of_nat (length (f_given s));
  no_holds i c z : f_calls s !! i = Some c → holds c = Some z → (i, z) ∈ f_given s }.

Lemma nonces_ok_start h w cs given i c :
  nonces_ok (mkFlow h w cs given) → start c = true → nonces_ok (mkFlow h w (<[i := c]> cs) given).
Proof.
  intros [Ha Hs Hc Hg Hn Hr Hh] Hst. split; cbn in *; try done;
    intros j c' z [[<- <-]|[_ E]]%lookup_insert_Some Ez; [by destruct c|by eapply Hr|by destruct c|by eapply Hh].
Qed.

(** The nonce given under the lock is the next one. *)
Lemma given_is_next h w cs given n :
  nonces_ok (mkFlow h w cs given) → 0 ≤ n0 → n0 + Z.of_nat (length given) < 2 ^ 64 →
  n0 ≤ n ≤ n0 + Z.of_nat (length given) →
  (next_nonce n h).1 = n0 + Z.of_nat (length given) ∧
  computedNonceWasSet (next_nonce n h).2 = true ∧ computedNonce (next_nonce n h).2 = n0 + Z.of_nat (length given) ∧
  address_ (next_nonce n h).2 = addr.
Proof.
  intros [Ha Hs Hc _ _ _ _] Hpos Hb Hn. cbn in *. unfold next_nonce. rewrite Hs.
  destruct given as [|g given]; cbn -[u64 Z.of_nat] in *; [split_and!; try done; lia|].
  rewrite Hc, core_MaxUint64_max by done. replace (u64 _) with (n0 + Z.of_nat (S (length given))).
  - split_and!; [lia|done|lia|done].
  - unfold u64. rewrite Z.mod_small; lia.
Qed.

Lemma nonces_ok_call h w cs given i c c' h' w' :
  nonces_ok (mkFlow h w cs given) → cs !! i = Some c → call_step (c, (h, w)) (c', (h', w')) →
  0 ≤ n0 → n0 + Z.of_nat (length (given ++ gives i c c')) ≤ 2 ^ 64 →
  nonces_ok (mkFlow h' w' (<[i := c']> cs) (given ++ gives i c c')).
Proof.
  intros Hok Ei Hs Hpos Hb. pose proof Hok as [Ha Hset Hc Hg Hn Hr Hh]. cbn in *.
  destruct (call_step_cases _ _ _ _ _ _ Ha Hs) as (Hw & Ha' & [Hq|(n & tx & -> & -> & ->)]).
  - destruct Hq as [Qg Qs Qn Qh Qr]. rewrite Qg, app_nil_r. split; cbn; rewrite ?Qs, ?Qn, ?Hw; try done;
      intros j d z [[<- <-]|[_ E]]%lookup_insert_Some Ez; eauto.
    destruct (Qr z Ez) as [Er| ->]; [by eapply Hr|done].
  - cbn [gives] in *. rewrite length_app in Hb. cbn in Hb.
    destruct (given_is_next h w cs given n) as (En & Es & Ec & _); try done; [lia|by eapply Hr|].
    change (tx_Nonce (tx_setNonce ?z tx)) with z in *.
    split; cbn; rewrite ?length_app, ?fmap_app, ?Hw; cbn; try done.
    + rewrite Es. by destruct given.
    + intros _. rewrite Ec. lia.
    + rewrite Hg, En. replace (Z.of_nat (length given + 1)) with (Z.of_nat (length given) + 1) by lia.
      rewrite seqZ_app by lia. by cbn.
    + lia.
    + intros j d z [[<- <-]|[_ E]]%lookup_insert_Some Ez; [done|]. pose proof (Hr _ _ _ E Ez). lia.
    + intros j d z [[<- <-]|[_ E]]%lookup_insert_Some Ez; apply elem_of_app; [|left; by eapply Hh].
      cbn in Ez. injection Ez as <-. right. by apply list_elem_of_singleton.
Qed.

Lemma nonces_ok_step s s' :
  flow_step s s' → 0 ≤ n0 →
  (n0 + Z.of_nat (length (f_given s)) ≤ 2 ^ 64 → nonces_ok s) →
  n0 + Z.of_nat (length (f_given s')) ≤ 2 ^ 64 → nonces_ok s'.
Proof.
  intros Hs Hpos Hok Hb. destruct Hs as [h w cs given i c Ei Hst|h w cs given i c c' h' w' Ei Hc|h w cs given w' Hw]; cbn in *.
  - apply nonces_ok_start; auto.
  - apply (nonces_ok_call h w); auto. apply Hok. rewrite length_app in Hb. lia.
  - destruct (Hok Hb) as [Ha Hset Hcn Hg Hn Hr Hh]. cbn in *. split; cbn; try done. lia.
Qed.

Lemma nonces_ok_reachable w s :
  account_nonce w = n0 → 0 ≤ n0 → rtc flow_step (started w) s →
  n0 + Z.of_nat (length (f_given s)) ≤ 2 ^ 64 → nonces_ok s.
Proof.
  intros Hw Hpos. revert s.
  refine (rtc_ind_r (λ s, n0 + Z.of_nat (length (f_given s)) ≤ 2 ^ 64 → nonces_ok s) _ _ _).
  - intros _. split; cbn; try done; lia.
  - intros s s' _ Hstep IH. by apply (nonces_ok_step s s').
Qed.

(** C4: concurrent calls share the nonces: from a fresh handler, whatever the
    interleaving of applying, sending and resending calls, and whatever the network
    executes meanwhile of what was given out, the nonces come out of the lock as the
    account nonce and its successors without a gap, and no two calls of
    [ApplyNonceAndGasPrice] that succeeded have the same nonce. *)
Theorem concurrent_nonces w s :
  account_nonce w = n0 → 0 ≤ n0 → rtc flow_step (started w) s →
  n0 + Z.of_nat (length (f_given s)) ≤ 2 ^ 64 →
  (f_given s).*2 = seqZ n0 (Z.of_nat (length (f_given s))) ∧
  (∀ i j tx tx', f_calls s !! i = Some (Applied tx None) → f_calls s !! j = Some (Applied tx' None) →
     tx_Nonce tx = tx_Nonce tx' → i = j).
Proof.
  intros Hw Hpos Hs Hb. destruct (nonces_ok_reachable w s Hw Hpos Hs Hb) as [_ _ _ Hg _ _ Hh]. split; [done|].
  intros i j tx tx' Ei Ej E. pose proof (Hh _ _ _ Ei eq_refl) as Hi. pose proof (Hh _ _ _ Ej eq_refl) as Hj.
  rewrite <-E in Hj. apply list_elem_of_lookup in Hi as [a Ea]. apply list_elem_of_lookup in Hj as [b Eb].
  assert (Hnd : NoDup (f_given s).*2) by (rewrite Hg; apply NoDup_seqZ).
  assert (a = b) as ->; [|congruence]. eapply NoDup_lookup; [done|..]; rewrite list_lookup_fmap;
    [rewrite Ea|rewrite Eb]; done.
Qed.

(** *** Schedules that run *)

Inductive event := EStart (i : nat) (c : call) | EStep (i : nat) | ENetwork (w : W).

Definition exec_event (e : event) (s : flow W) : option (flow W) :=
  let '(mkFlow h w cs given) := s in
  match e with
  | EStart i c =>
    match cs !! i with
    | None => if start c then Some (mkFlow h w (<[i := c]> cs) given) else None
    | Some _ => None
    end
  | EStep i =>
    c ← cs !! i;
    if returned c then None
    else match step_call c (h, w) with
         | (Ok c', (h', w')) => Some (mkFlow h' w' (<[i := c']> cs) (given ++ gives i c c'))
         | _ => None
         end
  | ENetwork w' =>
    if (account_nonce w <=? account_nonce w') && (account_nonce w' <=? n0 + Z.of_nat (length given))
    then Some (mkFlow h w' cs given) else None
  end.

Fixpoint exec (es : list event) (s : flow W) : option (flow W) :=
  match es with [] => Some s | e :: es => s ← exec_event e s; exec es s end.

Lemma exec_event_sound e s s' : exec_event e s = Some s' → flow_step s s'.
Proof.
  destruct s as [h w cs given]. destruct e as [i c|i|w']; cbn.
  - destruct (cs !! i) eqn:Ei; [done|]. destruct (start c) eqn:Es; [|done]. intros [= <-]. by apply fl_start.
  - destruct (cs !! i) as [c|] eqn:Ei; cbn; [|done]. destruct (returned c) eqn:Er; [done|].
    destruct (step_call c (h, w)) as [[c'| |] [h' w']] eqn:Es; [|done..]. intros [= <-].
    apply fl_call; [done|]. by apply cs_step.
  - destruct (_ && _) eqn:Eb; [|done]. intros [= <-]. apply andb_prop in Eb as [?%Z.leb_le ?%Z.leb_le].
    by apply fl_network.
Qed.

Lemma exec_sound es s s' : exec es s = Some s' → rtc flow_step s s'.
Proof.
  revert s. induction es as [|e es IH]; intros s; cbn; [by intros [= <-]|].
  destruct (exec_event e s) as [s1|] eqn:E; cbn; [|done]. intros Er.
  eapply rtc_l; [by eapply exec_event_sound|by apply IH].
Qed.
End Flow.

(** ** Runs *)

Module NonceFlowRun.
(** A network that has answered the gas price a number of times, and a limit on how
    often it can; the account nonce. *)
Record limited := mkLimited { left_answers : nat; account : Z }.

#[local] Instance limited_proxy : InteractorProxy limited := {|
  px_GetNetworkConfig w := match left_answers w with
                           | O => (Fail (ErrText "timeout"), w)
                           | S n => (Ok (Some (simpleConfig "T" 1000 50000 1000 1 3)), mkLimited n (account w))
                           end;
  px_GetAccount _ w := (Ok (Some (simpleAccount (account w) "0")), w);
  px_SendTransaction tx w := (Ok (itoa (tx_Nonce tx)), w);
  px_SendTransactions txs w := (Ok (map (λ tx, itoa (tx_Nonce tx)) txs), w) |}.

#[local] Instance limited_network a : NonceNetwork limited a.
Proof.
  refine (Build_NonceNetwork _ _ _ account _ _ _ _).
  - intros w r w' [= <- <-]. split; [done|]. by intros acc [= <-].
  - intros [[|n] z] r w' [= <- <-]; done.
  - by intros tx w r w' [= <- <-].
  - by intros txs w r w' [= <- <-].
Defined.

#[local] Existing Instances map_to_list_rangeZ hexConverter.
Definition addr : address := mkAddress [].

(** Both calls see that there is no gas price yet; both have their nonces; the first
    asks and stores 1000, the second asks in vain and stores 0; then the first reads. *)
Definition race : list (event (W := limited)) :=
  [EStart 0 (ApplyStart emptyTx); EStart 1 (ApplyStart emptyTx)] ++
  replicate 5 (EStep 0) ++ replicate 5 (EStep 1) ++ [EStep 0; EStep 0; EStep 1; EStep 1; EStep 0; EStep 1].

Definition w0 : limited := mkLimited 1 7.
Definition raced : flow limited := default (started addr w0) (exec addr 7 race (started addr w0)).

Lemma raced_runs : exec addr 7 race (started addr w0) = Some raced.
Proof. vm_compute. reflexivity. Qed.

(** the gas price is read and written without holding the lock over a call: of two
    concurrent first calls, the one whose own question for the gas price was answered
    with 1000 returns a transaction with the gas price 0, because the other call failed
    to get the price and reset it in between; alone it gives the price 1000. *)
Theorem gas_price_race :
  rtc (flow_step addr 7) (started addr w0) raced ∧
  f_calls raced !! 0%nat = Some (Applied (tx_setNonce 7 emptyTx) None) ∧ tx_GasPrice (tx_setNonce 7 emptyTx) = 0 ∧
  (NonceV2.ApplyNonceAndGasPrice (f_handler (started addr w0), (emptyTx, w0))).2.2.1
  = tx_setGasPrice 1000 (tx_setNonce 7 emptyTx).
Proof.
  split; [apply (exec_sound addr 7 race), raced_runs|]. split_and!; vm_compute; reflexivity.
Qed.

Lemma calls_alone_are_the_methods_witness :
  rtc call_step (ApplyStart emptyTx, (f_handler (started addr w0), w0))
    (Applied (tx_setGasPrice 1000 (tx_setNonce 7 emptyTx)) None,
     (mkAnh addr true 7 0 1000 0 ∅, mkLimited 0 7)).
Proof.
  apply (proj1 (calls_alone_are_the_methods (f_handler (started addr w0)) w0) emptyTx (Ok ())); [reflexivity|done].
Defined.

(** Three calls that apply; the network executes the first nonce before the third reads
    the account, and the calls take the lock in another order than they began in. *)
Definition busy : list (event (W := limited)) :=
  [EStart 0 (ApplyStart emptyTx); EStart 1 (ApplyStart emptyTx)] ++ replicate 4 (EStep 1) ++ replicate 4 (EStep 0) ++
  [ENetwork (mkLimited 5 8); EStart 2 (ApplyStart emptyTx)] ++ replicate 8 (EStep 2) ++
  replicate 2 (EStep 0) ++ replicate 2 (EStep 1).
Definition busied : flow limited := default (started addr (mkLimited 5 7)) (exec addr 7 busy (started addr (mkLimited 5 7))).

Lemma busied_runs : exec addr 7 busy (started addr (mkLimited 5 7)) = Some busied.
Proof. vm_compute. reflexivity. Qed.

Lemma concurrent_nonces_witness :
  (f_given busied).*2 = seqZ 7 (Z.of_nat (length (f_given busied))) ∧
  (∀ i j tx tx', f_calls busied !! i = Some (Applied tx None) → f_calls busied !! j = Some (Applied tx' None) →
     tx_Nonce tx = tx_Nonce tx' → i = j).
Proof.
  apply (concurrent_nonces addr 7 (mkLimited 5 7)); [done|done|apply (exec_sound addr 7 busy), busied_runs|].
  vm_compute. by intros.
Defined.

Example busied_given : f_given busied = [(1%nat, 7); (0%nat, 8); (2%nat, 9)].
Proof. vm_compute. reflexivity. Qed.
End NonceFlowRun.
