(* ===== verification/NthFlow.v ===== *)
(** * Concurrent callers of the owner of the handlers, versions 1 and 2
    ([interactors/nonceHandlerV2/nonceTransactionsHandler.go], and that of version 1)

    [NthV2] and [NonceV1] have the owner's methods as functions.  Here any number of goroutines
    look handlers up and create them, under the two critical sections of
    [mutHandlers], while the goroutine of [resendTransactionsLoop] sweeps over the
    map under the write lock and [Close] may come at any time.  The map holds
    pointers; the handlers are the objects they point to.  The methods of one
    handler are single steps here: [NonceFlow] interleaves those.  Version 3 looks
    up and creates its handlers in the same two sections; version 1 does both in one,
    under the lock that its sweep holds.  The steps are written over the class
    [OwnedHandler]; the instance of version 2 is in this file, that of version 1 in
    [V1Flow]. *)

From S2P Require Export NthV2.

(** A goroutine in [getOrCreateAddressNonceHandler], and after it. *)
Inductive goroutine :=
  | Looking (a : address)
  | Creating (a : address)
  | Holding (a : address) (p : positive)
  | Refused (a : address) (e : error).

(** The goroutine of [resendTransactionsLoop]: in its [select]; in the loop of
    [resendTransactions], with the keys still to visit and the write lock; returned. *)
Inductive loop_pc := Waiting | Sweeping (rest : list string) | LoopReturned.

Record owner (H W : Type) := mkOwner {
  o_handlers : gmap string positive;
  o_objects : gmap positive H;
  o_world : W;
  o_goroutines : gmap nat goroutine;
  o_loop : loop_pc;
  o_cancelled : bool;
  o_swept : list string;  (* the keys visited by the sweep in progress, or the last one *)
  o_resent : nat }.       (* how often a handler was asked to resend *)
Arguments mkOwner {H W}. Arguments o_handlers {H W}. Arguments o_objects {H W}. Arguments o_world {H W}.
Arguments o_goroutines {H W}. Arguments o_loop {H W}. Arguments o_cancelled {H W}. Arguments o_swept {H W}.
Arguments o_resent {H W}.

(** The lock is free: only the sweep holds it over more than one step. *)
Definition unlocked (l : loop_pc) : bool := match l with Sweeping _ => false | _ => true end.

(** What the owner makes of a handler: [oh_method] is what its holders do with it, and
    [oh_one_section] whether a handler is looked up and created under one lock. *)
Class OwnedHandler (H W : Type) := {
  oh_address : H → address;
  oh_new : address → outcome H;
  oh_resend : M (H * W) ();
  oh_method : H * W → H * W → Prop;
  oh_one_section : bool }.

Class OwnedHandlerLaws (H W : Type) `{OwnedHandler H W} := {
  oh_new_address a h : oh_new a = Ok h → oh_address h = a;
  oh_resend_address h w : oh_address (oh_resend (h, w)).2.1 = oh_address h;
  oh_method_address h w h' w' : oh_method (h, w) (h', w') → oh_address h' = oh_address h }.

Section Owner.
Context {H W : Type} `{OwnedHandler H W}.

Inductive owner_step : owner H W → owner H W → Prop :=
  | os_call hs os w gs l c sw n i a :
      gs !! i = None → owner_step (mkOwner hs os w gs l c sw n) (mkOwner hs os w (<[i := Looking a]> gs) l c sw n)
  | os_found hs os w gs l c sw n i a p :
      gs !! i = Some (Looking a) → unlocked l = true → hs !! handlerKey a = Some p →
      owner_step (mkOwner hs os w gs l c sw n) (mkOwner hs os w (<[i := Holding a p]> gs) l c sw n)
  | os_missed hs os w gs l c sw n i a :
      gs !! i = Some (Looking a) → unlocked l = true → hs !! handlerKey a = None → oh_one_section = false →
      owner_step (mkOwner hs os w gs l c sw n) (mkOwner hs os w (<[i := Creating a]> gs) l c sw n)
  | os_found_after_all hs os w gs l c sw n i a p :
      gs !! i = Some (Creating a) → unlocked l = true → hs !! handlerKey a = Some p →
      owner_step (mkOwner hs os w gs l c sw n) (mkOwner hs os w (<[i := Holding a p]> gs) l c sw n)
  | os_created hs os w gs l c sw n i a h p :
      gs !! i = Some (if oh_one_section then Looking a else Creating a) → unlocked l = true → hs !! handlerKey a = None →
      oh_new a = Ok h → os !! p = None →
      owner_step (mkOwner hs os w gs l c sw n)
        (mkOwner (<[handlerKey a := p]> hs) (<[p := h]> os) w (<[i := Holding a p]> gs) l c sw n)
  | os_refused hs os w gs l c sw n i a e :
      gs !! i = Some (Creating a) → unlocked l = true → hs !! handlerKey a = None → oh_new a = Fail e →
      owner_step (mkOwner hs os w gs l c sw n) (mkOwner hs os w (<[i := Refused a e]> gs) l c sw n)
  | os_method hs os w gs l c sw n i a p h h' w' :
      gs !! i = Some (Holding a p) → os !! p = Some h → oh_method (h, w) (h', w') →
      owner_step (mkOwner hs os w gs l c sw n) (mkOwner hs (<[p := h']> os) w' gs l c sw n)
  | os_tick hs os w gs c sw n order :
      order ≡ₚ (map_to_list hs).*1 →
      owner_step (mkOwner hs os w gs Waiting c sw n) (mkOwner hs os w gs (Sweeping order) c [] n)
  | os_resend hs os w gs sw n k rest p h r h' w' :
      hs !! k = Some p → os !! p = Some h → oh_resend (h, w) = (r, (h', w')) → r ≠ Panic →
      owner_step (mkOwner hs os w gs (Sweeping (k :: rest)) false sw n)
        (mkOwner hs (<[p := h']> os) w' gs (Sweeping rest) false (sw ++ [k]) (S n))
  | os_sweep_cancelled hs os w gs sw n k rest :
      owner_step (mkOwner hs os w gs (Sweeping (k :: rest)) true sw n) (mkOwner hs os w gs Waiting true sw n)
  | os_sweep_end hs os w gs c sw n :
      owner_step (mkOwner hs os w gs (Sweeping []) c sw n) (mkOwner hs os w gs Waiting c sw n)
  | os_return hs os w gs sw n :
      owner_step (mkOwner hs os w gs Waiting true sw n) (mkOwner hs os w gs LoopReturned true sw n)
  | os_close hs os w gs l c sw n :
      owner_step (mkOwner hs os w gs l c sw n) (mkOwner hs os w gs l true sw n)
  | os_world hs os w gs l c sw n w' :
      owner_step (mkOwner hs os w gs l c sw n) (mkOwner hs os w' gs l c sw n).

(** After the owner's constructor. *)
Definition new_owner (w : W) : owner H W := mkOwner ∅ ∅ w ∅ Waiting false [] 0.

Context `{!OwnedHandlerLaws H W}.

Record owner_ok (s : owner H W) : Prop := {
  oo_filed k p : o_handlers s !! k = Some p →
    ∃ h, o_objects s !! p = Some h ∧ handlerKey (oh_address h) = k;
  oo_held i a p : o_goroutines s !! i = Some (Holding a p) → o_handlers s !! handlerKey a = Some p;
  oo_sweep rest : o_loop s = Sweeping rest → o_swept s ++ rest ≡ₚ (map_to_list (o_handlers s)).*1 }.

(** Changing a handler without changing its address keeps the map in order. *)
Lemma filed_update (hs : gmap string positive) (os : gmap positive H) p h h' :
  (∀ k q, hs !! k = Some q → ∃ h, os !! q = Some h ∧ handlerKey (oh_address h) = k) →
  os !! p = Some h → oh_address h' = oh_address h →
  ∀ k q, hs !! k = Some q → ∃ h, <[p := h']> os !! q = Some h ∧ handlerKey (oh_address h) = k.
Proof.
  intros Hf Ep Ha k q Hq. destruct (Hf k q Hq) as (h1 & E1 & Hk).
  destruct (decide (q = p)) as [->|Hne]; [|exists h1; by rewrite lookup_insert_ne].
  exists h'. rewrite lookup_insert_eq. split; [done|]. rewrite Ep in E1. injection E1 as <-. by rewrite Ha.
Qed.

Lemma owner_step_ok s s' : owner_step s s' → owner_ok s → owner_ok s'.
Proof.
  intros Hs [Hf Hh Hsw].
  destruct Hs as [hs os w gs l c sw n i a|hs os w gs l c sw n i a p|hs os w gs l c sw n i a|hs os w gs l c sw n i a p
    |hs os w gs l c sw n i a h p Ei Hl Ek En Ep|hs os w gs l c sw n i a e|hs os w gs l c sw n i a p h h' w' Ei Ep Hm
    |hs os w gs c sw n order Ho|hs os w gs sw n k rest p h r h' w' Ek Ep Er Hr| | | | |]; cbn in *;
    try (split; cbn; [exact Hf| |exact Hsw]; intros j b q [[<- ?]|[_ ?]]%lookup_insert_Some; simplify_eq; by eauto);
    try (split; cbn; by eauto).
  - split; cbn.
    + intros k q [[<- <-]|[Hne Hq]]%lookup_insert_Some.
      * exists h. rewrite lookup_insert_eq. split; [done|]. by rewrite (oh_new_address _ _ En).
      * destruct (Hf k q Hq) as (h1 & E1 & Hk). exists h1. split; [|done]. rewrite lookup_insert_ne; congruence.
    + intros j b q [[<- [= <- <-]]|[_ Hj]]%lookup_insert_Some; [by rewrite lookup_insert_eq|].
      pose proof (Hh _ _ _ Hj) as Eb. rewrite lookup_insert_ne; congruence.
    + intros rest ->. done.
  - split; cbn; [|exact Hh|exact Hsw]. eapply filed_update; [exact Hf|exact Ep|by eapply oh_method_address].
  - split; cbn; [exact Hf|exact Hh|]. by intros rest [= <-].
  - pose proof (oh_resend_address h w) as Ha. rewrite Er in Ha.
    split; cbn; [|exact Hh|]; [eapply filed_update; [exact Hf|exact Ep|exact Ha]|].
    intros rest' [= <-]. rewrite <-app_assoc. by apply Hsw.
Qed.

Lemma owner_reachable w s : rtc owner_step (new_owner w) s → owner_ok s.
Proof.
  revert s. refine (rtc_ind_r owner_ok _ _ _); [split; cbn; by intros|].
  intros s s' _ Hs Hok. by eapply owner_step_ok.
Qed.

(** C14: however the callers interleave, and although each of them looks first and
    creates later, all the goroutines that ask for the handler of one address get the
    same handler, which is the one in the map and a handler of that address; handlers
    of different addresses are different. *)
Theorem one_handler_per_address w s i j a b p q :
  rtc owner_step (new_owner w) s →
  o_goroutines s !! i = Some (Holding a p) → o_goroutines s !! j = Some (Holding b q) →
  (handlerKey a = handlerKey b ↔ p = q) ∧
  o_handlers s !! handlerKey a = Some p ∧ ∃ h, o_objects s !! p = Some h ∧ handlerKey (oh_address h) = handlerKey a.
Proof.
  intros [Hf Hh _]%owner_reachable Ei Ej. pose proof (Hh _ _ _ Ei) as Ea. pose proof (Hh _ _ _ Ej) as Eb.
  destruct (Hf _ _ Ea) as (h & Ep & Hk). split_and!; [|done|by exists h].
  split; [intros E; rewrite E in Ea; congruence|].
  intros <-. destruct (Hf _ _ Eb) as (h' & Ep' & Hk'). congruence.
Qed.

(** a sweep that is not cut short by [Close] asks every handler of the map exactly
    once, whatever is called meanwhile: nothing is added to the map while it runs. *)
Theorem sweep_asks_everyone w s :
  rtc owner_step (new_owner w) s → o_loop s = Sweeping [] →
  o_swept s ≡ₚ (map_to_list (o_handlers s)).*1 ∧ NoDup (o_swept s).
Proof.
  intros [_ _ Hsw]%owner_reachable Hl. specialize (Hsw [] Hl). rewrite app_nil_r in Hsw.
  split; [done|]. rewrite Hsw. apply NoDup_fst_map_to_list.
Qed.

Lemma closed_step s s' :
  owner_step s s' → o_cancelled s = true → o_cancelled s' = true ∧ o_resent s' = o_resent s.
Proof. by intros [] ?; cbn in *. Qed.

(** after [Close] no handler is asked to resend any more, and the resend goroutine
    returns within two steps of its own, whatever it is doing. *)
Theorem Close_stops_resending s s' :
  o_cancelled s = true → rtc owner_step s s' →
  o_resent s' = o_resent s ∧
  ∃ n s'', (n ≤ 2)%nat ∧ nsteps owner_step n s' s'' ∧ o_loop s'' = LoopReturned ∧
           o_handlers s'' = o_handlers s' ∧ o_objects s'' = o_objects s' ∧ o_world s'' = o_world s'.
Proof.
  intros Hc Hs. assert (o_cancelled s' = true ∧ o_resent s' = o_resent s) as [Hc' ->].
  { revert Hc. induction Hs as [s|s s1 s' H1 _ IH]; intros Hc; [done|].
    destruct (closed_step _ _ H1 Hc) as [Hc1 <-]. by apply IH. }
  split; [done|]. clear Hs Hc s. destruct s' as [hs os w gs l c sw n]. cbn in Hc'. subst c.
  assert (Hret : nsteps owner_step 1 (mkOwner hs os w gs Waiting true sw n) (mkOwner hs os w gs LoopReturned true sw n))
    by apply nsteps_once, os_return.
  destruct l as [|[|k rest]|].
  - eexists 1%nat, _. split; [lia|]. split; [exact Hret|done].
  - eexists 2%nat, _. split; [lia|]. split; [eapply nsteps_l; [apply os_sweep_end|exact Hret]|done].
  - eexists 2%nat, _. split; [lia|]. split; [eapply nsteps_l; [apply os_sweep_cancelled|exact Hret]|done].
  - eexists 0%nat, _. split; [lia|]. split; [apply nsteps_O|done].
Qed.
End Owner.

(** ** Version 2 *)

Section Version2.
Context {H W : Type} `{AddressNonceHandler H W} `{!AddressNonceHandlerLaws H W}.

(** What the holder of a handler does with it. *)
Inductive handler_method : H * W → H * W → Prop :=
  | hm_apply tx h w r h' tx' w' :
      anh_ApplyNonceAndGasPrice (h, (tx, w)) = (r, (h', (tx', w'))) → handler_method (h, w) (h', w')
  | hm_send tx h w r h' w' : anh_SendTransaction tx (h, w) = (r, (h', w')) → handler_method (h, w) (h', w')
  | hm_drop h w : handler_method (h, w) (anh_DropTransactions h, w).

Lemma handler_method_address h w h' w' :
  handler_method (h, w) (h', w') → anh_address h' = anh_address h.
Proof.
  intros Hm. inversion Hm as [tx ? ? r ? tx' ? E|tx ? ? r ? ? E|]; subst.
  - pose proof (anh_Apply_address h (tx, w)) as Ha. by rewrite E in Ha.
  - pose proof (anh_Send_address tx h w) as Ha. by rewrite E in Ha.
  - apply anh_Drop_address.
Qed.

#[export] Instance owned_V2 : OwnedHandler H W := {|
  oh_address := anh_address;
  oh_new := anh_New;
  oh_resend := anh_ReSendTransactionsIfRequired;
  oh_method := handler_method;
  oh_one_section := false |}.

#[export] Instance owned_V2_laws : OwnedHandlerLaws H W := {|
  oh_new_address := anh_New_address;
  oh_resend_address := anh_ReSend_address;
  oh_method_address := handler_method_address |}.
End Version2.

(** ** A run: two callers of one address, then a sweep *)

Module NthFlowRun.
#[local] Instance net_handler : AddressNonceHandler addressNonceHandler net :=
  @addressNonceHandlerV2 net net_proxy (map_to_list_rangeZ _) hexConverter.
#[local] Instance net_handler_laws : AddressNonceHandlerLaws addressNonceHandler net :=
  @addressNonceHandlerV2_laws net net_proxy (map_to_list_rangeZ _) hexConverter.

Abbreviation state := (owner addressNonceHandler net).

Definition addr : address := mkAddress [x01].
Definition fresh : addressNonceHandler := mkAnh addr false 0 0 0 0 ∅.
Definition held (gs : gmap nat goroutine) (l : loop_pc) (swept : list string) (n : nat) : state :=
  mkOwner {[ handlerKey addr := 1%positive ]} {[ 1%positive := fresh ]} emptyNet gs l false swept n.
Definition both : gmap nat goroutine := <[1%nat := Holding addr 1]> {[ 0%nat := Holding addr 1 ]}.

(** Both miss the handler before either creates it. *)
Lemma two_callers : rtc owner_step (new_owner emptyNet : state) (held both Waiting [] 0).
Proof.
  eapply rtc_l; [by apply (os_call _ _ _ _ _ _ _ _ 0%nat addr)|].
  eapply rtc_l; [by apply (os_call _ _ _ _ _ _ _ _ 1%nat addr)|].
  eapply rtc_l; [by apply (os_missed _ _ _ _ _ _ _ _ 0%nat addr)|].
  eapply rtc_l; [by apply (os_missed _ _ _ _ _ _ _ _ 1%nat addr)|].
  eapply rtc_l; [by apply (os_created _ _ _ _ _ _ _ _ 0%nat addr fresh 1%positive)|].
  eapply rtc_l; [by apply (os_found_after_all _ _ _ _ _ _ _ _ 1%nat addr 1%positive)|].
  match goal with |- rtc _ ?a ?b => assert (a = b) as -> by (vm_compute; reflexivity) end. done.
Qed.

Lemma one_handler_per_address_witness :
  (handlerKey addr = handlerKey addr ↔ 1%positive = 1%positive) ∧
  o_handlers (held both Waiting [] 0) !! handlerKey addr = Some 1%positive ∧
  ∃ h, o_objects (held both Waiting [] 0) !! 1%positive = Some h ∧ handlerKey (oh_address h) = handlerKey addr.
Proof. by apply (one_handler_per_address emptyNet _ 0 1 addr addr 1 1 two_callers). Defined.

(** Nothing is stored and the computed nonce is that of the account. *)
Lemma then_a_sweep : rtc owner_step (new_owner emptyNet : state) (held both (Sweeping []) [handlerKey addr] 1).
Proof.
  etrans; [apply two_callers|].
  eapply rtc_l; [apply (os_tick _ _ _ _ _ _ _ [handlerKey addr]); vm_compute; reflexivity|].
  eapply rtc_l; [eapply (os_resend _ _ _ _ [] _ (handlerKey addr) [] 1%positive fresh);
                 [reflexivity|reflexivity|vm_compute; reflexivity|done]|].
  match goal with |- rtc _ ?a ?b => assert (a = b) as -> by (vm_compute; reflexivity) end. done.
Qed.

Lemma sweep_asks_everyone_witness :
  [handlerKey addr] ≡ₚ (map_to_list (o_handlers (held both (Sweeping []) [handlerKey addr] 1))).*1 ∧
  NoDup [handlerKey addr].
Proof. by apply (sweep_asks_everyone emptyNet _ then_a_sweep). Defined.

Definition closing : state := mkOwner {[ handlerKey addr := 1%positive ]} {[ 1%positive := fresh ]} emptyNet both
  (Sweeping [handlerKey addr]) true [] 0.

Lemma Close_stops_resending_witness :
  o_resent closing = o_resent closing ∧
  ∃ n s'', (n ≤ 2)%nat ∧ nsteps owner_step n closing s'' ∧ o_loop s'' = LoopReturned ∧
           o_handlers s'' = o_handlers closing ∧ o_objects s'' = o_objects closing ∧ o_world s'' = o_world closing.
Proof. by apply (Close_stops_resending closing closing). Defined.
End NthFlowRun.
