(* ===== verification/V1Flow.v ===== *)
(** * Concurrent callers of the owner of the version 1 handlers
    ([interactors/nonceHandlerV1/nonceTransactionsHandler.go])

    The steps of [NthFlow] for the handlers of [NonceV1]: they are looked up and created
    in one critical section of [mutHandlers], the lock that [resendTransactions] holds
    over its whole sweep, and the transactions they point to live in the memory the
    callers share. *)

From S2P Require Export NthFlow.
From S2P Require Export NonceV1.

Section V1.
Context {W : Type} `{InteractorProxy W} `{!MapRangeZ ptr} `{PubkeyConverter}.

Abbreviation mem := (txheap * W)%type.

(** What the callers do with a handler; the callers of [SendTransaction] ask for a
    duplicate, and then take the nonce back or send. *)
Inductive v1_method : addressNonceHandler * mem → addressNonceHandler * mem → Prop :=
  | m_nonce s r s' : getNonceUpdatingCurrent s = (r, s') → v1_method s s'
  | m_duplicate p s r s' : isTxAlreadySent p s = (r, s') → v1_method s s'
  | m_decrement s r s' : decrementComputedNonce s = (r, s') → v1_method s s'
  | m_send p s r s' : sendTransaction p s = (r, s') → v1_method s s'
  | m_refetch s r s' : markReFetchNonce s = (r, s') → v1_method s s'.

#[export] Instance owned_V1 : OwnedHandler addressNonceHandler mem := {|
  oh_address := address_;
  oh_new a := Ok (newAddressNonceHandler a);
  oh_resend := reSendTransactionsIfRequired;
  oh_method := v1_method;
  oh_one_section := true |}.

(** [load] reads. *)
Lemma load_keeps p (s : addressNonceHandler * mem) : (load p s).2 = s.
Proof. unfold load, gets, mbind, M_bind, deref. cbn. by destruct (s.2.1 !! p). Qed.

Lemma collect_keeps ps (s : addressNonceHandler * mem) : (mcollect ps load s).2 = s.
Proof.
  induction ps as [|p ps IH]; [done|]. cbn [mcollect]. unfold mbind at 1, M_bind at 1.
  pose proof (load_keeps p s) as Hl. destruct (load p s) as [[tx|e|] s1]; cbn in Hl; subst s1; [|done..].
  unfold mbind, M_bind. destruct (mcollect ps load s) as [[txs|e|] s1]; exact IH.
Qed.

Lemma net_call_handler {A} (m : M W A) (s : addressNonceHandler * mem) : (net_call m s).2.1 = s.1.
Proof. destruct s as [h [hp w]]. unfold net_call, onsnd. by destruct (m w). Qed.

Lemma resend_address (h : addressNonceHandler) (x : mem) : address_ (reSendTransactionsIfRequired (h, x)).2.1 = address_ h.
Proof.
  destruct x as [hp w]. unfold reSendTransactionsIfRequired, net_call, onsnd, onfst, gets, modify, mbind, M_bind, deref, lift. cbn [fst snd].
  destruct (px_GetAccount (address_ h) w) as [[[acc|]|e|] w1]; [|done..]. destruct (_ =? _); [done|].
  destruct (filter _ _) as [|e es]; [done|]. cbn [fst snd].
  match goal with |- context [mcollect ?l ?f ?s] => pose proof (collect_keeps l s) as Hk; destruct (mcollect l f s) as [[txs|er|] s1] end;
    cbn [snd] in Hk; subst s1; [|done..]. cbn [fst snd].
  destruct (px_SendTransactions txs w1) as [[hs|er|] w2]; [|done..]. cbn [fst snd].
  by destruct (AddressAsBech32String _).
Qed.

Lemma v1_method_address (h : addressNonceHandler) (x : mem) h' x' : v1_method (h, x) (h', x') → address_ h' = address_ h.
Proof.
  destruct x as [hp w]. intros Hm. inversion Hm as [? r ? E|p ? r ? E|? r ? E|p ? r ? E|? r ? E]; subst; clear Hm.
  - revert E. unfold getNonceUpdatingCurrent, net_call, onsnd, onfst, gets, modify, mbind, M_bind, deref, mret, M_ret. cbn [fst snd].
    destruct (px_GetAccount (address_ h) w) as [[[acc|]|e|] w1]; [|by intros [= _ <- _]..].
    by destruct (negb _); intros [= _ <- _].
  - revert E. unfold isTxAlreadySent, mbind, M_bind, gets, mret, M_ret.
    pose proof (load_keeps p (h, (hp, w))) as Hl. destruct (load p _) as [[tx|e|] s1]; cbn [snd] in Hl; subst s1; [|by intros [= _ <- _]..].
    cbn [fst]. match goal with |- context [mcollect ?l ?f ?s] => pose proof (collect_keeps l s) as Hk; destruct (mcollect l f s) as [[txs|er|] s1] end;
      cbn [snd] in Hk; subst s1; by intros [= _ <- _].
  - revert E. unfold decrementComputedNonce, onfst, modify. intros [= _ <- _]. by destruct (0 <? _).
  - revert E. unfold sendTransaction, mbind, M_bind, onfst, modify. pose proof (load_keeps p (h, (hp, w))) as Hl.
    destruct (load p _) as [[tx|e|] s1]; cbn [snd] in Hl; subst s1; [|by intros [= _ <- _]..].
    cbn [fst snd]. match goal with |- net_call ?m ?s = _ → _ => pose proof (net_call_handler m s) as Hn end.
    intros E. rewrite E in Hn. cbn in Hn. by subst h'.
  - revert E. unfold markReFetchNonce, onfst, modify. by intros [= _ <- _].
Qed.

#[export] Instance owned_V1_laws : OwnedHandlerLaws addressNonceHandler mem.
Proof. split; [by intros a h [= <-]|apply resend_address|apply v1_method_address]. Qed.

(** ** The loop of the resend goroutine

    What each round of its [select] received: a tick, after which the map is walked in
    some order, or the end of the context; the list is what came so far. *)
Inductive selected := TickerC (order : list string) | CtxDone.

Fixpoint resendTransactionsLoop (received : list selected) : M (nonceTransactionsHandlerV1 * mem) () :=
  match received with
  | [] => mret ()
  | CtxDone :: _ => mret ()
  | TickerC order :: received => resendTransactions order ;; resendTransactionsLoop received
  end.

(** After [Close] the loop changes nothing and asks the network nothing, whatever ticks
    the select takes before it takes the end of the context. *)
Theorem v1_loop_after_Close (received : list selected) (s : nonceTransactionsHandlerV1 * mem) :
  NonceV1.cancelled s.1 = true → resendTransactionsLoop received s = (Ok (), s).
Proof.
  destruct s as [nth x]. cbn. intros Hc. induction received as [|[order|] received IH]; [done| |done].
  cbn [resendTransactionsLoop]. unfold mbind, M_bind, resendTransactions. by rewrite Hc.
Qed.

(** ** The callers *)

(** two callers of one address that both hold a handler hold the same one, also when a
    sweep ran in between. *)
Lemma v1_callers_share (w : mem) s i j a p q :
  rtc owner_step (new_owner (H := addressNonceHandler) w) s →
  o_goroutines s !! i = Some (Holding a p) → o_goroutines s !! j = Some (Holding a q) → p = q.
Proof.
  intros [_ Hh _]%owner_reachable Ei Ej. pose proof (Hh _ _ _ Ei). pose proof (Hh _ _ _ Ej). congruence.
Qed.

(** While the sweep is at work no caller gets a handler: whoever looks for one waits until
    it has ended, the calls to the network of all handlers included. *)
Theorem v1_callers_wait_for_the_sweep (s s' : owner addressNonceHandler mem) i a k rest :
  owner_step s s' → o_loop s = Sweeping (k :: rest) → o_goroutines s !! i = Some (Looking a) →
  o_goroutines s' !! i = Some (Looking a) ∧ (∃ rest', o_loop s' = Sweeping rest') ∨ o_cancelled s = true.
Proof.
  intros Hs Hl Hi. destruct Hs; cbn in *; subst; cbn in *; try done; try (by right); left; split; try done; try (by eexists).
  by rewrite lookup_insert_ne by congruence.
Qed.
End V1.
