(* ===== verification/TxHeap.v ===== *)
(** * The priority queue of the transaction worker
    ([interactors/nonceHandlerV3/workers/transactionWorker.go])

    [transactionQueue] is the slice of queue items, with the five methods of
    [heap.Interface]; [up], [down], [Push], [Pop] and [Init] are those of Go's
    [container/heap].  An index out of range panics.  The loops of [up] and
    [down] have fuel: the length of the slice is enough, and the theorems on
    [Push] and [Pop] show that they always return. *)

From Stdlib Require Export Sorting.Sorted.
From S2P Require Export Interactors.
Open Scope nat_scope.

Record TransactionQueueItem := mkItem { it_tx : FrontendTransaction; it_index : Z }.

Abbreviation transactionQueue := (list TransactionQueueItem).

Definition setIndex (i : Z) (it : TransactionQueueItem) : TransactionQueueItem := mkItem (it_tx it) i.

Definition tq_Push (item : TransactionQueueItem) (tq : transactionQueue) : transactionQueue :=
  tq ++ [setIndex (Z.of_nat (length tq)) item].

(** [old[n-1]] panics on an empty queue. *)
Definition tq_Pop (tq : transactionQueue) : outcome (TransactionQueueItem * transactionQueue) :=
  match last tq with
  | Some item => Ok (setIndex (-1) item, take (length tq - 1) tq)
  | None => Panic
  end.

Definition tq_Len (tq : transactionQueue) : nat := length tq.

Definition tq_Swap (a b : nat) (tq : transactionQueue) : outcome transactionQueue :=
  match tq !! a, tq !! b with
  | Some x, Some y =>
    Ok (<[b := setIndex (Z.of_nat b) x]> (<[a := setIndex (Z.of_nat a) y]> tq))
  | _, _ => Panic
  end.

Definition tq_Less (a b : nat) (tq : transactionQueue) : outcome bool :=
  match tq !! a, tq !! b with
  | Some x, Some y => Ok (tx_Nonce (it_tx x) <? tx_Nonce (it_tx y))%Z
  | _, _ => Panic
  end.

(** ** [container/heap] *)

Fixpoint heap_up (fuel j : nat) (tq : transactionQueue) : outcome transactionQueue :=
  match fuel with
  | O => Panic
  | S fuel =>
    let i := (j - 1) / 2 in
    if i =? j then Ok tq
    else less ← tq_Less j i tq;
         if negb less then Ok tq else tq' ← tq_Swap i j tq; heap_up fuel i tq'
  end.

Fixpoint heap_down (fuel i n : nat) (tq : transactionQueue) : outcome transactionQueue :=
  match fuel with
  | O => Panic
  | S fuel =>
    let j1 := 2 * i + 1 in
    if n <=? j1 then Ok tq
    else
      let j2 := j1 + 1 in
      right ← (if j2 <? n then tq_Less j2 j1 tq else Ok false);
      let j := if right : bool then j2 else j1 in
      less ← tq_Less j i tq;
      if negb less then Ok tq else tq' ← tq_Swap i j tq; heap_down fuel j n tq'
  end.

Definition heap_Push (item : TransactionQueueItem) (tq : transactionQueue) : outcome transactionQueue :=
  let tq := tq_Push item tq in heap_up (length tq) (tq_Len tq - 1) tq.

Definition heap_Pop (tq : transactionQueue) : outcome (TransactionQueueItem * transactionQueue) :=
  let n := tq_Len tq - 1 in
  tq ← tq_Swap 0 n tq;
  tq ← heap_down (length tq) 0 n tq;
  tq_Pop tq.

(** The loop of [Init], from position [i - 1] down to 0. *)
Fixpoint heap_heapify (i : nat) (tq : transactionQueue) : outcome transactionQueue :=
  match i with
  | O => Ok tq
  | S i => tq ← heap_down (length tq) i (tq_Len tq) tq; heap_heapify i tq
  end.
Definition heap_Init (tq : transactionQueue) : outcome transactionQueue :=
  heap_heapify (tq_Len tq / 2) tq.

(** ** The heap order

    [key tq i] is the nonce at position [i]; the slots below [n] are a heap when
    a parent is never above its children. *)

Definition key (tq : transactionQueue) (i : nat) : Z :=
  match tq !! i with Some it => tx_Nonce (it_tx it) | None => 0%Z end.

Definition child (p c : nat) : Prop := c = 2 * p + 1 ∨ c = 2 * p + 2.

Definition heap_ordered (n : nat) (tq : transactionQueue) : Prop :=
  ∀ p c, child p c → c < n → (key tq p ≤ key tq c)%Z.

(** The order but for position [j], which may be below its parent. *)
Definition ordered_up (j n : nat) (tq : transactionQueue) : Prop :=
  (∀ p c, child p c → c < n → c ≠ j → (key tq p ≤ key tq c)%Z) ∧
  (∀ p c, child p j → child j c → c < n → (key tq p ≤ key tq c)%Z).

(** The order but for position [i], which may be above its children. *)
Definition ordered_down (i n : nat) (tq : transactionQueue) : Prop :=
  (∀ p c, child p c → c < n → p ≠ i → (key tq p ≤ key tq c)%Z) ∧
  (∀ p c, child p i → child i c → c < n → (key tq p ≤ key tq c)%Z).

Definition indexed (tq : transactionQueue) : Prop :=
  ∀ i it, tq !! i = Some it → it_index it = Z.of_nat i.

(** What every reordering keeps: the transactions and the index fields. *)
Definition rearranged (tq tq' : transactionQueue) : Prop :=
  (it_tx <$> tq') ≡ₚ (it_tx <$> tq) ∧ length tq' = length tq ∧ (indexed tq → indexed tq').

#[export] Instance rearranged_po : PreOrder rearranged.
Proof.
  split; [by intros tq|]. intros a b c (H1 & H2 & H3) (H4 & H5 & H6).
  split; [by etransitivity|]. split; [congruence|auto].
Qed.

Lemma insert_head_perm {A} (l : list A) i x y :
  l !! i = Some y → y :: <[i := x]> l ≡ₚ x :: l.
Proof.
  revert i. induction l as [|z l IH]; intros [|i]; cbn; try done.
  - intros [= ->]. apply Permutation_swap.
  - intros Hi. rewrite Permutation_swap, (IH _ Hi). apply Permutation_swap.
Qed.

Lemma insert_swap_perm {A} (l : list A) a b x y :
  l !! a = Some x → l !! b = Some y → <[b := x]> (<[a := y]> l) ≡ₚ l.
Proof.
  revert a b. induction l as [|z l IH]; intros [|a] [|b]; cbn; try done.
  - by intros [= ->] [= ->].
  - intros [= ->] Hb. by apply insert_head_perm.
  - intros Ha [= ->]. by apply insert_head_perm.
  - intros Ha Hb. by rewrite IH.
Qed.

(** The keys after [tq_Swap i j]. *)
Definition swapped (i j : nat) (tq tq' : transactionQueue) : Prop :=
  key tq' j = key tq i ∧ key tq' i = key tq j ∧ ∀ x, x ≠ i → x ≠ j → key tq' x = key tq x.

Lemma Swap_run a b tq :
  a < length tq → b < length tq →
  ∃ tq', tq_Swap a b tq = Ok tq' ∧ rearranged tq tq' ∧ swapped a b tq tq' ∧
    (∀ i, i ≠ a → i ≠ b → tq' !! i = tq !! i) ∧ tq' !! b = setIndex (Z.of_nat b) <$> tq !! a.
Proof.
  intros [x Hx]%lookup_lt_is_Some_2 [y Hy]%lookup_lt_is_Some_2. unfold tq_Swap. rewrite Hx, Hy.
  set (tq' := <[b:=_]> _). exists tq'.
  assert (Hb : tq' !! b = Some (setIndex (Z.of_nat b) x)).
  { apply list_lookup_insert_eq. rewrite length_insert. by eapply lookup_lt_Some. }
  assert (Ha : a ≠ b → tq' !! a = Some (setIndex (Z.of_nat a) y)).
  { intros Hab. unfold tq'. rewrite list_lookup_insert_ne by done.
    apply list_lookup_insert_eq. by eapply lookup_lt_Some. }
  assert (Ho : ∀ i, i ≠ a → i ≠ b → tq' !! i = tq !! i).
  { intros i Hia Hib. unfold tq'. by rewrite !list_lookup_insert_ne. }
  split; [done|]. split; [split; [|split]|split; [split; [|split]|done]].
  - unfold tq'. rewrite !list_fmap_insert.
    apply insert_swap_perm; rewrite list_lookup_fmap; [by rewrite Hx|by rewrite Hy].
  - unfold tq'. by rewrite !length_insert.
  - intros Hidx i it. destruct (decide (i = b)) as [->|Hib]; [rewrite Hb; by intros [= <-]|].
    destruct (decide (i = a)) as [->|Hia]; [rewrite Ha by done; by intros [= <-]|].
    rewrite Ho by done. apply Hidx.
  - unfold key. by rewrite Hb, Hx.
  - unfold key. destruct (decide (a = b)) as [->|Hab]; [simplify_eq; by rewrite Hb, Hx|]. by rewrite Ha, Hy.
  - intros i Hia Hib. unfold key. by rewrite Ho.
Qed.

Lemma Less_run a b tq :
  a < length tq → b < length tq → tq_Less a b tq = Ok (key tq a <? key tq b)%Z.
Proof.
  intros [x Hx]%lookup_lt_is_Some_2 [y Hy]%lookup_lt_is_Some_2. unfold tq_Less, key. by rewrite Hx, Hy.
Qed.

Lemma child_parent j : 0 < j → child ((j - 1) / 2) j ∧ (j - 1) / 2 < j.
Proof.
  intros Hj. unfold child. pose proof (Nat.div_mod_eq (j - 1) 2).
  pose proof (Nat.mod_upper_bound (j - 1) 2). lia.
Qed.

Lemma child_inj p q c : child p c → child q c → p = q.
Proof. unfold child. lia. Qed.

Lemma child_lt p c : child p c → p < c.
Proof. unfold child. lia. Qed.

Lemma ordered_up_swap i j n tq tq' :
  swapped i j tq tq' → child i j → j < n → (key tq j < key tq i)%Z →
  ordered_up j n tq → ordered_up i n tq'.
Proof.
  intros (Kj & Ki & Ko) Hij Hj Hless [H1 H2]. pose proof (child_lt _ _ Hij). split.
  - intros p c Hpc Hc Hci. pose proof (child_lt _ _ Hpc). destruct (decide (c = j)) as [->|Hcj].
    { rewrite (child_inj _ _ _ Hpc Hij), Kj, Ki. lia. }
    rewrite (Ko c) by done. destruct (decide (p = i)) as [->|Hpi].
    { rewrite Ki. pose proof (H1 i c Hpc Hc Hcj). lia. }
    destruct (decide (p = j)) as [->|Hpj]; [rewrite Kj; by apply H2|].
    rewrite Ko by done. by apply H1.
  - intros p c Hpi Hic Hc. pose proof (child_lt _ _ Hpi). pose proof (child_lt _ _ Hic).
    pose proof (H1 p i Hpi ltac:(lia) ltac:(lia)). rewrite (Ko p) by lia.
    destruct (decide (c = j)) as [->|Hcj]; [by rewrite Kj|].
    rewrite Ko by lia. pose proof (H1 i c Hic Hc Hcj). lia.
Qed.

Lemma ordered_down_swap i j n tq tq' :
  swapped i j tq tq' → child i j → j < n → (key tq j < key tq i)%Z →
  (∀ c, child i c → c < n → (key tq j ≤ key tq c)%Z) →
  ordered_down i n tq → ordered_down j n tq'.
Proof.
  intros (Kj & Ki & Ko) Hij Hj Hless Hmin [H1 H2]. pose proof (child_lt _ _ Hij). split.
  - intros p c Hpc Hc Hpj. pose proof (child_lt _ _ Hpc). destruct (decide (p = i)) as [->|Hpi].
    + rewrite Ki. destruct (decide (c = j)) as [->|Hcj]; [rewrite Kj; lia|].
      rewrite Ko by lia. by apply Hmin.
    + rewrite (Ko p) by done. destruct (decide (c = i)) as [->|Hci]; [rewrite Ki; by apply H2|].
      destruct (decide (c = j)) as [->|Hcj]; [by destruct Hpi; eapply child_inj|].
      rewrite Ko by done. by apply H1.
  - intros p c Hpj Hjc Hc. pose proof (child_lt _ _ Hjc).
    rewrite (child_inj _ _ _ Hpj Hij), Ki, Ko by lia. apply H1; [done..|lia].
Qed.

Lemma heap_up_run fuel j tq :
  j < length tq → j < fuel → ordered_up j (length tq) tq →
  ∃ tq', heap_up fuel j tq = Ok tq' ∧ rearranged tq tq' ∧ heap_ordered (length tq) tq'.
Proof.
  revert j tq. induction fuel as [|fuel IH]; intros j tq Hj Hf Hup; [lia|]. cbn [heap_up].
  destruct (Nat.eqb_spec ((j - 1) / 2) j) as [E|Hne].
  - exists tq. split; [done|]. split; [done|]. assert (j = 0) as ->.
    { destruct (decide (j = 0)) as [|Hj0]; [done|]. destruct (child_parent j); lia. }
    intros p c Hpc Hc. apply (proj1 Hup); [done..|]. pose proof (child_lt _ _ Hpc). lia.
  - destruct (child_parent j) as [Hch Hlt].
    { destruct j; [by cbn in Hne|lia]. }
    set (i := (j - 1) / 2) in *. rewrite Less_run by lia.
    unfold mbind, outcome_bind. destruct (Z.ltb_spec (key tq j) (key tq i)) as [Hless|Hge]; cbn [negb].
    + destruct (Swap_run i j tq) as (tq1 & -> & Hr1 & Hk1 & _); [lia|lia|].
      destruct (IH i tq1) as (tq2 & -> & Hr2 & Ho2); rewrite ?(proj1 (proj2 Hr1)) in *; [lia|lia| |].
      * by apply (ordered_up_swap i j _ tq).
      * exists tq2. split; [done|]. split; [by etransitivity|done].
    + exists tq. split; [done|]. split; [done|]. intros p c Hpc Hc.
      destruct (decide (c = j)) as [->|Hcj]; [|apply (proj1 Hup); done].
      rewrite (child_inj _ _ _ Hpc Hch). lia.
Qed.

Lemma heap_down_run fuel i n tq :
  n ≤ length tq → n ≤ fuel + i → 0 < fuel → ordered_down i n tq →
  ∃ tq', heap_down fuel i n tq = Ok tq' ∧ rearranged tq tq' ∧ heap_ordered n tq' ∧
    ∀ x, n ≤ x → tq' !! x = tq !! x.
Proof.
  revert i tq. induction fuel as [|fuel IH]; intros i tq Hn Hf Hpos Hd; [lia|]. cbn [heap_down].
  destruct (Nat.leb_spec n (2 * i + 1)) as [Hle|Hlt].
  { exists tq. split; [done|]. split; [done|]. split; [|done]. intros p c Hpc Hc.
    apply (proj1 Hd); [done..|]. intros ->. unfold child in Hpc. lia. }
  set (j1 := 2 * i + 1) in *.
  assert (Hright : (if j1 + 1 <? n then tq_Less (j1 + 1) j1 tq else Ok false)
    = Ok ((j1 + 1 <? n) && (key tq (j1 + 1) <? key tq j1)%Z)).
  { destruct (Nat.ltb_spec (j1 + 1) n); [|done]. by rewrite Less_run by lia. }
  rewrite Hright. unfold mbind, outcome_bind.
  set (j := if (j1 + 1 <? n) && (key tq (j1 + 1) <? key tq j1)%Z then j1 + 1 else j1).
  assert (Hj : child i j ∧ j < n ∧ ∀ c, child i c → c < n → (key tq j ≤ key tq c)%Z).
  { subst j. unfold child. destruct (Nat.ltb_spec (j1 + 1) n), (Z.ltb_spec (key tq (j1 + 1)) (key tq j1));
      cbn [andb]; (split; [lia|split; [lia|]]); intros c [->| ->] Hc;
      fold j1; replace (2 * i + 2) with (j1 + 1) in * by lia; lia. }
  destruct Hj as (Hch & Hjn & Hmin). clearbody j. pose proof (child_lt _ _ Hch).
  rewrite Less_run by lia. destruct (Z.ltb_spec (key tq j) (key tq i)) as [Hless|Hge]; cbn [negb].
  - destruct (Swap_run i j tq) as (tq1 & -> & Hr1 & Hk1 & Ho1); [lia|lia|].
    destruct (IH j tq1) as (tq2 & -> & Hr2 & Hh & Hx); rewrite ?(proj1 (proj2 Hr1)); [lia..| |].
    + apply (ordered_down_swap i j n tq); auto.
    + exists tq2. split; [done|]. split; [by etransitivity|]. split; [done|].
      intros x Hnx. rewrite Hx by done. apply Ho1; lia.
  - exists tq. split; [done|]. split; [done|]. split; [|done]. intros p c Hpc Hc.
    destruct (decide (p = i)) as [->|Hpi]; [|by apply (proj1 Hd)].
    pose proof (Hmin c Hpc Hc). lia.
Qed.

Lemma key_app_l (tq : transactionQueue) l i : i < length tq → key (tq ++ l) i = key tq i.
Proof. intros Hi. unfold key. by rewrite lookup_app_l. Qed.

Lemma root_minimal n (tq : transactionQueue) i :
  heap_ordered n tq → i < n → (key tq 0 ≤ key tq i)%Z.
Proof.
  intros Ho. induction (lt_wf i) as [i _ IH]. intros Hi. destruct (decide (i = 0)) as [->|Hi0]; [done|].
  destruct (child_parent i) as [Hc Hlt]; [lia|]. pose proof (IH _ Hlt ltac:(lia)).
  pose proof (Ho _ _ Hc Hi). lia.
Qed.

Lemma heap_Push_run item (tq : transactionQueue) :
  heap_ordered (length tq) tq → indexed tq →
  ∃ tq', heap_Push item tq = Ok tq' ∧ (it_tx <$> tq') ≡ₚ it_tx item :: (it_tx <$> tq) ∧
    heap_ordered (length tq') tq' ∧ indexed tq'.
Proof.
  intros Ho Hi. unfold heap_Push, tq_Len.
  set (tq1 := tq_Push item tq). assert (Hl : length tq1 = length tq + 1) by (unfold tq1, tq_Push; by rewrite length_app).
  destruct (heap_up_run (length tq1) (length tq1 - 1) tq1) as (tq2 & -> & (Hp & Hlen & Hidx) & Hh); [lia|lia| |].
  - split.
    + intros p c Hpc Hc Hcj. pose proof (child_lt _ _ Hpc). unfold tq1, tq_Push.
      rewrite !key_app_l by lia. apply Ho; [done|lia].
    + intros p c _ Hjc Hc. pose proof (child_lt _ _ Hjc). lia.
  - exists tq2. split; [done|]. split; [|split].
    + rewrite Hp. unfold tq1, tq_Push. rewrite fmap_app. cbn. apply Permutation_app_comm.
    + by rewrite Hlen.
    + apply Hidx. intros i it. unfold tq1, tq_Push. intros [Hit|[Hge Hit]]%lookup_app_Some; [by apply Hi|].
      apply list_lookup_singleton_Some in Hit as [E <-]. cbn. lia.
Qed.

Lemma heap_Pop_run (tq : transactionQueue) :
  heap_ordered (length tq) tq → indexed tq → tq ≠ [] →
  ∃ item tq', heap_Pop tq = Ok (item, tq') ∧ it_index item = (-1)%Z ∧
    (it_tx <$> tq) ≡ₚ it_tx item :: (it_tx <$> tq') ∧
    Forall (λ t, (tx_Nonce (it_tx item) ≤ tx_Nonce t)%Z) (it_tx <$> tq') ∧
    heap_ordered (length tq') tq' ∧ indexed tq'.
Proof.
  intros Ho Hi Hne. assert (Hpos : 0 < length tq) by (destruct tq; [done|cbn; lia]).
  unfold heap_Pop, tq_Len. set (n := length tq - 1).
  destruct (Swap_run 0 n tq) as (tq1 & -> & (Hp1 & Hl1 & Hi1) & (Kn & K0 & Ko) & Hx1 & Hn1); [lia|lia|].
  unfold mbind at 1, outcome_bind at 1.
  destruct (heap_down_run (length tq1) 0 n tq1) as (tq2 & -> & (Hp2 & Hl2 & Hi2) & Hh2 & Hx2); [lia|lia|lia| |].
  { split.
    - intros p c Hpc Hc Hp0. pose proof (child_lt _ _ Hpc). rewrite !Ko by lia. apply Ho; [done|lia].
    - intros p c Hp0. pose proof (child_lt _ _ Hp0). lia. }
  destruct (lookup_lt_is_Some_2 tq 0 Hpos) as [root Hroot].
  assert (Hlast : tq2 !! n = Some (setIndex (Z.of_nat n) root)) by (rewrite Hx2, Hn1, Hroot by lia; done).
  assert (Hsplit : tq2 = take n tq2 ++ [setIndex (Z.of_nat n) root]).
  { rewrite <-(take_drop n tq2) at 1. f_equal. rewrite (drop_S _ _ _ Hlast), drop_ge; [done|lia]. }
  exists (setIndex (-1) root), (take n tq2). unfold mbind, outcome_bind, tq_Pop.
  rewrite last_lookup. replace (Nat.pred (length tq2)) with n by lia. rewrite Hlast.
  replace (length tq2 - 1) with n by lia. split; [done|]. split; [done|].
  assert (Hperm : it_tx <$> tq ≡ₚ it_tx root :: (it_tx <$> take n tq2)).
  { rewrite <-Hp1, <-Hp2. rewrite Hsplit at 1. rewrite fmap_app. cbn. apply Permutation_app_comm. }
  split; [done|]. split; [|split].
  - rewrite Forall_forall. intros t Ht. cbn.
    assert (Htq : t ∈ it_tx <$> tq) by (rewrite Hperm; by right).
    apply list_elem_of_fmap in Htq as (it & -> & Hit). apply list_elem_of_lookup in Hit as [x Hx].
    pose proof (root_minimal (length tq) tq x Ho (lookup_lt_Some _ _ _ Hx)) as Hmin.
    unfold key in Hmin. by rewrite Hroot, Hx in Hmin.
  - intros p c Hpc Hc. rewrite length_take in Hc. pose proof (child_lt _ _ Hpc).
    unfold key. rewrite !lookup_take_lt by lia. apply Hh2; [done|lia].
  - intros i it. intros [Hit Hlt]%lookup_take_Some. apply (Hi2 (Hi1 Hi)). done.
Qed.

(** ** A queue filled and drained *)

Fixpoint push_all (txs : list FrontendTransaction) (tq : transactionQueue) : outcome transactionQueue :=
  match txs with
  | [] => Ok tq
  | tx :: txs => tq ← heap_Push (mkItem tx 0) tq; push_all txs tq
  end.

Fixpoint pop_all (n : nat) (tq : transactionQueue) : outcome (list FrontendTransaction) :=
  match n with
  | O => Ok []
  | S n => '(it, tq) ← heap_Pop tq; txs ← pop_all n tq; Ok (it_tx it :: txs)
  end.

Lemma push_all_run txs (tq : transactionQueue) :
  heap_ordered (length tq) tq → indexed tq →
  ∃ tq', push_all txs tq = Ok tq' ∧ (it_tx <$> tq') ≡ₚ txs ++ (it_tx <$> tq) ∧
    heap_ordered (length tq') tq' ∧ indexed tq'.
Proof.
  revert tq. induction txs as [|tx txs IH]; intros tq Ho Hi; [by exists tq|]. cbn [push_all].
  destruct (heap_Push_run (mkItem tx 0) tq Ho Hi) as (tq1 & -> & Hp & Ho1 & Hi1).
  destruct (IH tq1 Ho1 Hi1) as (tq2 & E & Hp2 & Ho2 & Hi2). exists tq2. split; [done|].
  split; [|done]. rewrite Hp2, Hp. cbn. by rewrite Permutation_middle.
Qed.

Lemma pop_all_run n (tq : transactionQueue) :
  length tq = n → heap_ordered (length tq) tq → indexed tq →
  ∃ txs, pop_all n tq = Ok txs ∧ txs ≡ₚ (it_tx <$> tq) ∧ StronglySorted Z.le (tx_Nonce <$> txs).
Proof.
  revert tq. induction n as [|n IH]; intros tq Hl Ho Hi.
  { destruct tq; [|done]. exists []. repeat split; constructor. }
  destruct (heap_Pop_run tq Ho Hi) as (it & tq1 & E & _ & Hp & Hmin & Ho1 & Hi1); [by intros ->|].
  destruct (IH tq1) as (txs & E1 & Hp1 & Hs1); [|done|done|].
  { apply Permutation_length in Hp. cbn in Hp. rewrite !length_fmap in Hp. lia. }
  exists (it_tx it :: txs). cbn [pop_all]. rewrite E. cbn. rewrite E1. split; [done|].
  split; [by rewrite Hp, Hp1|]. cbn. constructor; [done|]. rewrite Forall_fmap.
  by rewrite Hp1.
Qed.

(** C2: The queue is a priority queue: whatever transactions are pushed, popping
    them all never panics and gives back exactly those transactions, in
    increasing order of nonce. *)
Theorem queue_sorts_by_nonce (txs : list FrontendTransaction) :
  ∃ tq out, push_all txs [] = Ok tq ∧ pop_all (length txs) tq = Ok out ∧
    out ≡ₚ txs ∧ StronglySorted Z.le (tx_Nonce <$> out).
Proof.
  destruct (push_all_run txs []) as (tq & E & Hp & Ho & Hi).
  { intros p c _ Hc. cbn in Hc. lia. }
  { intros i it. by rewrite lookup_nil. }
  rewrite app_nil_r in Hp.
  destruct (pop_all_run (length txs) tq) as (out & E2 & Hp2 & Hs); [|done|done|].
  { apply Permutation_length in Hp. by rewrite length_fmap in Hp. }
  exists tq, out. split; [done|]. split; [done|]. split; [by rewrite Hp2|done].
Qed.
