(* ===== verification/Worker.v ===== *)
(** * The transaction worker ([interactors/nonceHandlerV3/workers/])

    A [TransactionWorker] takes transactions into a priority queue, hands out a
    channel of capacity one for each, and sends them from a goroutine of its own.
    The methods that run under the worker's mutex are functions on its state and
    the channels; the goroutine is a step relation whose steps are these critical
    sections, the network call, and the channel operations, interleaved with the
    callers' [AddTransaction] and receives in any order.  A send on a full channel
    or on a nil channel has no step: it blocks. *)

From S2P Require Export TxHeap.
Open Scope Z_scope.

Record TransactionResponse := mkResponse { TxHash : string; ResponseError : option error }.

(** ** Channels of capacity one *)

Definition chan := positive.

(** The contents of each channel, the next name to make, and for the statements
    the log of everything that was ever sent. *)
Record channels := mkChannels {
  ch_buffer : gmap chan (list TransactionResponse);
  ch_next : chan;
  ch_log : list (chan * TransactionResponse) }.

Definition ch_contents (c : chan) (chs : channels) : list TransactionResponse :=
  default [] (ch_buffer chs !! c).

(** [make(chan *TransactionResponse, 1)] *)
Definition ch_make (chs : channels) : chan * channels :=
  (ch_next chs, mkChannels (ch_buffer chs) (Pos.succ (ch_next chs)) (ch_log chs)).

(** [c <- r]: [None] when the buffer is full. *)
Definition ch_send (c : chan) (r : TransactionResponse) (chs : channels) : option channels :=
  match ch_contents c chs with
  | [] => Some (mkChannels (<[c := [r]]> (ch_buffer chs)) (ch_next chs) (ch_log chs ++ [(c, r)]))
  | _ => None
  end.

(** [<-c]: [None] when there is nothing to receive. *)
Definition ch_receive (c : chan) (chs : channels) : option (TransactionResponse * channels) :=
  match ch_contents c chs with
  | r :: rest => Some (r, mkChannels (<[c := rest]> (ch_buffer chs)) (ch_next chs) (ch_log chs))
  | [] => None
  end.

(** ** The worker *)

Record TransactionWorker := mkWorker {
  tw_tq : transactionQueue;
  tw_workerClosed : bool;
  tw_responsesChannels : gmap Z chan }.

Definition NewTransactionWorker : outcome TransactionWorker :=
  tq ← heap_Init []; Ok (mkWorker tq false ∅).

(** The text of the error has no identity. *)
Definition errAlreadyScheduled : error := ErrText "transaction with nonce has already been scheduled to send".

(** The state of a call: the worker and the channels. [None] is a call that
    blocks, which only a send can. *)
Definition AddTransaction (tx : FrontendTransaction) (tw : TransactionWorker) (chs : channels) :
    outcome (option (chan * (TransactionWorker * channels))) :=
  let '(r, chs) := ch_make chs in
  if tw_workerClosed tw then
    Ok (chs ← ch_send r (mkResponse "" (Some ErrWorkerClosed)) chs; Some (r, (tw, chs)))
  else
    match tw_responsesChannels tw !! tx_Nonce tx with
    | Some _ => Ok (chs ← ch_send r (mkResponse "" (Some errAlreadyScheduled)) chs; Some (r, (tw, chs)))
    | None =>
      tq ← heap_Push (mkItem tx 0) (tw_tq tw);
      Ok (Some (r, (mkWorker tq (tw_workerClosed tw) (<[tx_Nonce tx := r]> (tw_responsesChannels tw)), chs)))
    end.

Definition nextTransaction (tw : TransactionWorker) : outcome (option FrontendTransaction * TransactionWorker) :=
  if Nat.eqb (tq_Len (tw_tq tw)) 0 then Ok (None, tw)
  else '(it, tq) ← heap_Pop (tw_tq tw);
       Ok (Some (it_tx it), mkWorker tq (tw_workerClosed tw) (tw_responsesChannels tw)).

(** A missing entry is the nil channel. *)
Definition retrieveChannel (nonce : Z) (tw : TransactionWorker) : option chan * TransactionWorker :=
  (tw_responsesChannels tw !! nonce,
   mkWorker (tw_tq tw) (tw_workerClosed tw) (delete nonce (tw_responsesChannels tw))).

Fixpoint send_to_all (cs : list chan) (r : TransactionResponse) (chs : channels) : option channels :=
  match cs with
  | [] => Some chs
  | c :: cs => chs ← ch_send c r chs; send_to_all cs r chs
  end.

Definition closeAllChannels `{MapRangeZ chan} (ctxErr : error) (tw : TransactionWorker) (chs : channels) :
    option (TransactionWorker * channels) :=
  chs ← send_to_all (rangeZ (tw_responsesChannels tw)).*2 (mkResponse "" (Some ctxErr)) chs;
  Some (mkWorker (tw_tq tw) true (tw_responsesChannels tw), chs).

(** ** The goroutine of [start], with [processNextTransaction] *)

Inductive goroutine :=
  | Waiting                                                 (* in the select *)
  | Popped (tx : FrontendTransaction)                       (* after nextTransaction *)
  | Retrieved (tx : FrontendTransaction) (r : option chan)  (* after retrieveChannel *)
  | Answering (tx : FrontendTransaction) (r : option chan) (resp : TransactionResponse)
                                                            (* after proxy.SendTransaction *)
  | Stopping                                                (* ctx.Done was selected *)
  | Stopped.

(** [w_asked] records, for the statements, the transaction each channel was
    handed out for. *)
Record wstate := mkW {
  w_tw : TransactionWorker;
  w_go : goroutine;
  w_chs : channels;
  w_asked : gmap chan FrontendTransaction }.

Section Steps.
Context `{MapRangeZ chan}.

Inductive wstep : wstate → wstate → Prop :=
  | w_add tx tw go chs q r tw' chs' :
      AddTransaction tx tw chs = Ok (Some (r, (tw', chs'))) →
      wstep (mkW tw go chs q) (mkW tw' go chs' (<[r := tx]> q))
  | w_receive c r tw go chs chs' q :
      ch_receive c chs = Some (r, chs') → wstep (mkW tw go chs q) (mkW tw go chs' q)
  | w_tick_empty tw tw' chs q :
      nextTransaction tw = Ok (None, tw') → wstep (mkW tw Waiting chs q) (mkW tw' Waiting chs q)
  | w_tick tw tx tw' chs q :
      nextTransaction tw = Ok (Some tx, tw') → wstep (mkW tw Waiting chs q) (mkW tw' (Popped tx) chs q)
  | w_retrieve tw tx r tw' chs q :
      retrieveChannel (tx_Nonce tx) tw = (r, tw') →
      wstep (mkW tw (Popped tx) chs q) (mkW tw' (Retrieved tx r) chs q)
  | w_network tw tx r resp chs q :
      wstep (mkW tw (Retrieved tx r) chs q) (mkW tw (Answering tx r resp) chs q)
  | w_answer tw tx c resp chs chs' q :
      ch_send c resp chs = Some chs' →
      wstep (mkW tw (Answering tx (Some c) resp) chs q) (mkW tw Waiting chs' q)
  | w_cancel tw chs q : wstep (mkW tw Waiting chs q) (mkW tw Stopping chs q)
  | w_close e tw chs tw' chs' q :
      closeAllChannels e tw chs = Some (tw', chs') →
      wstep (mkW tw Stopping chs q) (mkW tw' Stopped chs' q).

(** What [NewTransactionWorker] starts, and the states it can reach. *)
Definition reachable (s : wstate) : Prop :=
  ∃ tw, NewTransactionWorker = Ok tw ∧ rtc wstep (mkW tw Waiting (mkChannels ∅ 1%positive []) ∅) s.

(** ** The invariant *)

Definition queued (tw : TransactionWorker) : list FrontendTransaction := it_tx <$> tw_tq tw.
Definition in_hand (go : goroutine) : list FrontendTransaction :=
  match go with Popped tx => [tx] | _ => [] end.
Definition held (go : goroutine) : list chan :=
  match go with Retrieved _ (Some c) | Answering _ (Some c) _ => [c] | _ => [] end.

(** The channels still to be answered, and those and the answered ones. *)
Definition promised (tw : TransactionWorker) (go : goroutine) : list chan :=
  match go with Stopped => [] | _ => held go ++ (map_to_list (tw_responsesChannels tw)).*2 end.
Definition accounted (tw : TransactionWorker) (go : goroutine) (chs : channels) : list chan :=
  promised tw go ++ (ch_log chs).*1.

(** The channels made so far are exactly the accounted ones, each counted once;
    a response in a buffer was logged. *)
Record chs_inv (tw : TransactionWorker) (go : goroutine) (chs : channels) : Prop := {
  ci_nodup : NoDup (accounted tw go chs);
  ci_made c : c ∈ accounted tw go chs ↔ (c < ch_next chs)%positive;
  ci_logged c : ch_contents c chs ≠ [] → c ∈ (ch_log chs).*1 }.

(** The queue is a heap; each transaction in it or in hand has a channel of its
    own in the map, made for it; and these are all the entries. *)
Record tw_inv (tw : TransactionWorker) (txs : list FrontendTransaction) (q : gmap chan FrontendTransaction) : Prop := {
  ti_ordered : heap_ordered (length (tw_tq tw)) (tw_tq tw);
  ti_indexed : indexed (tw_tq tw);
  ti_nodup : NoDup (tx_Nonce <$> txs);
  ti_entry t : t ∈ txs → ∃ c, tw_responsesChannels tw !! tx_Nonce t = Some c ∧ q !! c = Some t;
  ti_only n c : tw_responsesChannels tw !! n = Some c → n ∈ tx_Nonce <$> txs }.

Definition go_inv (go : goroutine) (q : gmap chan FrontendTransaction) : Prop :=
  match go with
  | Retrieved tx r | Answering tx r _ => ∃ c, r = Some c ∧ q !! c = Some tx
  | _ => True
  end.

Record w_inv (s : wstate) : Prop := {
  wi_chs : chs_inv (w_tw s) (w_go s) (w_chs s);
  wi_tw : tw_inv (w_tw s) (in_hand (w_go s) ++ queued (w_tw s)) (w_asked s);
  wi_go : go_inv (w_go s) (w_asked s);
  wi_closed : tw_workerClosed (w_tw s) = true ↔ w_go s = Stopped;
  wi_asked c t : w_asked s !! c = Some t → (c < ch_next (w_chs s))%positive }.

(** Moving a channel around keeps the account; a new channel extends it. *)
Lemma chs_inv_keep tw go chs tw' go' chs' :
  chs_inv tw go chs → accounted tw' go' chs' ≡ₚ accounted tw go chs → ch_next chs' = ch_next chs →
  (∀ c, ch_contents c chs' ≠ [] → c ∈ (ch_log chs').*1) → chs_inv tw' go' chs'.
Proof.
  intros [Hnd Hm _] Hp Hn Hl. split; [by rewrite Hp| |done].
  intros c. by rewrite Hp, Hn.
Qed.

Lemma chs_inv_make tw go chs tw' go' chs' :
  chs_inv tw go chs → accounted tw' go' chs' ≡ₚ ch_next chs :: accounted tw go chs →
  ch_next chs' = Pos.succ (ch_next chs) →
  (∀ c, ch_contents c chs' ≠ [] → c ∈ (ch_log chs').*1) → chs_inv tw' go' chs'.
Proof.
  intros [Hnd Hm _] Hp Hn Hl. split; [| |done].
  - rewrite Hp. constructor; [|done]. rewrite Hm. lia.
  - intros c. rewrite Hp, Hn, elem_of_cons, Hm. lia.
Qed.

(** A channel that was not answered has an empty buffer: the send goes through. *)
Lemma ch_send_run c r chs :
  c ∉ (ch_log chs).*1 → (∀ c, ch_contents c chs ≠ [] → c ∈ (ch_log chs).*1) →
  ∃ chs', ch_send c r chs = Some chs' ∧ ch_next chs' = ch_next chs ∧ ch_log chs' = ch_log chs ++ [(c, r)] ∧
    (∀ c, ch_contents c chs' ≠ [] → c ∈ (ch_log chs').*1).
Proof.
  intros Hc Hl. unfold ch_send. destruct (ch_contents c chs) eqn:E.
  2:{ destruct Hc. apply Hl. by rewrite E. }
  eexists. split; [done|]. split; [done|]. split; [done|]. intros d. unfold ch_contents. cbn.
  rewrite fmap_app, elem_of_app. cbn. destruct (decide (c = d)) as [->|Hcd].
  - intros _. right. by left.
  - rewrite lookup_insert_ne by done. intros Hd. left. by apply Hl.
Qed.

Lemma send_to_all_run cs r chs :
  NoDup (cs ++ (ch_log chs).*1) → (∀ c, ch_contents c chs ≠ [] → c ∈ (ch_log chs).*1) →
  ∃ chs', send_to_all cs r chs = Some chs' ∧ ch_next chs' = ch_next chs ∧
    (ch_log chs').*1 ≡ₚ cs ++ (ch_log chs).*1 ∧ (∀ c, ch_contents c chs' ≠ [] → c ∈ (ch_log chs').*1).
Proof.
  revert chs. induction cs as [|c cs IH]; intros chs Hnd Hl; [by exists chs|].
  apply NoDup_cons in Hnd as [Hc Hnd]. cbn [send_to_all].
  destruct (ch_send_run c r chs) as (chs1 & E & Hn1 & Hlog1 & Hl1);
    [intros Hin; apply Hc, elem_of_app; by right|done|].
  destruct (IH chs1) as (chs2 & E2 & Hn2 & Hlog2 & Hl2); [|done|].
  { rewrite Hlog1, fmap_app. cbn. rewrite (Permutation_app_comm _ [c]). cbn.
    rewrite <-Permutation_middle. by constructor. }
  exists chs2. rewrite E. cbn. split; [done|]. split; [congruence|]. split; [|done].
  rewrite Hlog2, Hlog1, fmap_app. cbn. rewrite (Permutation_app_comm _ [c]). cbn. by rewrite <-Permutation_middle.
Qed.

Lemma tw_inv_perm tw txs txs' q : txs ≡ₚ txs' → tw_inv tw txs q → tw_inv tw txs' q.
Proof.
  intros Hp [Ho Hi Hnd He Hn]. split; [done|done|by rewrite <-Hp| |].
  - intros t Ht. apply He. by rewrite Hp.
  - intros n c Hc. rewrite <-Hp. by eapply Hn.
Qed.

Lemma tw_inv_ask tw txs q r tx : tw_inv tw txs q → q !! r = None → tw_inv tw txs (<[r := tx]> q).
Proof.
  intros [Ho Hi Hnd He Hn] Hr. split; [done..| |done].
  intros t (c & Hc & Hq)%He. exists c. split; [done|]. rewrite lookup_insert_ne; [done|congruence].
Qed.

Lemma go_inv_ask go q r tx : go_inv go q → q !! r = None → go_inv go (<[r := tx]> q).
Proof.
  intros Hg Hr. destruct go; cbn in *; try done; destruct Hg as (c & -> & Hc);
    (exists c; split; [done|rewrite lookup_insert_ne; [done|congruence]]).
Qed.

Lemma asked_insert (q : gmap chan FrontendTransaction) c t r tx (n : chan) :
  (∀ c t, q !! c = Some t → (c < n)%positive) → r = n →
  <[r := tx]> q !! c = Some t → (c < Pos.succ n)%positive.
Proof. intros Hq -> [[<- _]|[_ Hc%Hq]]%lookup_insert_Some; lia. Qed.

Lemma promised_running tw go :
  go ≠ Stopped → promised tw go = held go ++ (map_to_list (tw_responsesChannels tw)).*2.
Proof. by destruct go. Qed.

Lemma promised_add tw tw' go n (r : chan) :
  go ≠ Stopped → tw_responsesChannels tw !! n = None →
  tw_responsesChannels tw' = <[n := r]> (tw_responsesChannels tw) →
  promised tw' go ≡ₚ r :: promised tw go.
Proof.
  intros Hgo Hn E. rewrite !promised_running, E, map_to_list_insert by done. cbn.
  by rewrite Permutation_middle.
Qed.

(** A new channel is known to nobody. *)
Lemma new_channel tw go chs q :
  w_inv (mkW tw go chs q) → q !! ch_next chs = None ∧ ch_next chs ∉ (ch_log chs).*1.
Proof.
  intros [Hchs _ _ _ Hask]. cbn in *. split.
  - destruct (q !! ch_next chs) as [t|] eqn:E; [|done]. apply Hask in E. lia.
  - intros Hin. assert (Ha : ch_next chs ∈ accounted tw go chs) by (apply elem_of_app; by right).
    apply (ci_made _ _ _ Hchs) in Ha. lia.
Qed.

(** A refusal is an immediate answer on a new channel. *)
Lemma refuse_run tx tw go chs q resp :
  w_inv (mkW tw go chs q) →
  ∃ chs', ch_send (ch_next chs) resp (ch_make chs).2 = Some chs' ∧ w_inv (mkW tw go chs' (<[ch_next chs := tx]> q)).
Proof.
  intros Hinv. destruct (new_channel _ _ _ _ Hinv) as [Hr Hrlog]. destruct Hinv as [Hchs Htw Hgo Hcl Hask]. cbn in *.
  destruct (ch_send_run (ch_next chs) resp (ch_make chs).2) as (chs' & E & Hn & Hlog & Hl);
    [done|apply (ci_logged _ _ _ Hchs)|].
  exists chs'. split; [done|]. split; cbn in *; [|by apply tw_inv_ask|by apply go_inv_ask|done|].
  - eapply chs_inv_make; [exact Hchs| |by rewrite Hn|done]. unfold accounted.
    rewrite Hlog, fmap_app. cbn. rewrite app_assoc. apply Permutation_app_comm.
  - intros c t Hc. rewrite Hn. by eapply asked_insert.
Qed.

(** A call of [AddTransaction] returns, and keeps the invariant. *)
Lemma AddTransaction_run tx tw go chs q :
  w_inv (mkW tw go chs q) →
  ∃ r tw' chs', AddTransaction tx tw chs = Ok (Some (r, (tw', chs'))) ∧
                w_inv (mkW tw' go chs' (<[r := tx]> q)).
Proof.
  intros Hw. pose proof (λ resp, refuse_run tx tw go chs q resp Hw) as Hrefuse.
  destruct (new_channel _ _ _ _ Hw) as [Hr _]. destruct Hw as [Hchs Htw Hgo Hcl Hask]. cbn in *. set (r := ch_next chs) in *.
  unfold AddTransaction. cbn [ch_make]. fold r.
  destruct (tw_workerClosed tw) eqn:Ecl.
  { destruct (Hrefuse (mkResponse "" (Some ErrWorkerClosed))) as (chs' & E & Hinv).
    exists r, tw, chs'. cbn in E. fold r in E. by rewrite E. }
  destruct (tw_responsesChannels tw !! tx_Nonce tx) as [d|] eqn:Eresp.
  { destruct (Hrefuse (mkResponse "" (Some errAlreadyScheduled))) as (chs' & E & Hinv).
    exists r, tw, chs'. cbn in E. fold r in E. by rewrite E. }
  destruct Htw as [Ho Hi Hnd He Hn].
  destruct (heap_Push_run (mkItem tx 0) (tw_tq tw) Ho Hi) as (tq' & -> & Hp & Ho' & Hi').
  eexists r, _, _. split; [done|]. split; cbn.
  - eapply chs_inv_make; [exact Hchs| |done|apply (ci_logged _ _ _ Hchs)].
    assert (Hns : go ≠ Stopped) by (intros ->; by pose proof (proj2 Hcl eq_refl)).
    unfold accounted. rewrite (promised_add tw _ go (tx_Nonce tx) r Hns Eresp); done.
  - apply (tw_inv_perm _ (tx :: in_hand go ++ queued tw)).
    { unfold queued. cbn. rewrite Hp. cbn. apply Permutation_middle. }
    assert (Hfresh : tx_Nonce tx ∉ tx_Nonce <$> in_hand go ++ queued tw).
    { intros (t & Ht & Hin)%list_elem_of_fmap. destruct (He t Hin) as (c & Hc & _). congruence. }
    split; cbn; [done|done|by constructor| |].
    + intros t [->|Ht]%elem_of_cons; [exists r; by rewrite !lookup_insert_eq|].
      destruct (He t Ht) as (c & Hc & Hq). exists c. rewrite !lookup_insert_ne; [done|congruence|].
      intros E. apply Hfresh. rewrite E. by apply list_elem_of_fmap_2.
    + intros n c [[<- <-]|[_ Hc]]%lookup_insert_Some; [by left|]. right. by eapply Hn.
  - by apply go_inv_ask.
  - done.
  - intros c t. by apply asked_insert.
Qed.

(** The step of the ticker returns, hands out a transaction of the lowest nonce,
    and keeps the invariant. *)
Lemma nextTransaction_run tw chs q :
  w_inv (mkW tw Waiting chs q) →
  ∃ o tw', nextTransaction tw = Ok (o, tw') ∧
    match o with
    | None => tw' = tw ∧ queued tw = []
    | Some tx => w_inv (mkW tw' (Popped tx) chs q) ∧ queued tw ≡ₚ tx :: queued tw' ∧
                 Forall (λ t, tx_Nonce tx ≤ tx_Nonce t) (queued tw)
    end.
Proof.
  intros [Hchs Htw Hgo Hcl Hask]. cbn in *. unfold nextTransaction, tq_Len.
  destruct (Nat.eqb_spec (length (tw_tq tw)) 0) as [E|E].
  { exists None, tw. split; [done|]. split; [done|]. unfold queued. by destruct (tw_tq tw). }
  destruct (heap_Pop_run (tw_tq tw)) as (it & tq' & -> & _ & Hp & Hmin & Ho & Hi);
    [apply (ti_ordered _ _ _ Htw)|apply (ti_indexed _ _ _ Htw)|by intros E0; rewrite E0 in E|].
  eexists (Some (it_tx it)), _. split; [done|]. split; [|split; [done|]].
  - split; cbn; [|..|done].
    + eapply chs_inv_keep; [exact Hchs|done|done|apply (ci_logged _ _ _ Hchs)].
    + apply (tw_inv_perm _ _ _ _ Hp) in Htw as [_ _ Hnd He Hn]. by split.
    + done.
    + split; [|done]. intros Hc. discriminate (proj1 Hcl Hc).
  - unfold queued. rewrite Hp. by constructor.
Qed.

Lemma retrieveChannel_run tw tx chs q :
  w_inv (mkW tw (Popped tx) chs q) →
  ∃ c tw', retrieveChannel (tx_Nonce tx) tw = (Some c, tw') ∧ q !! c = Some tx ∧
           w_inv (mkW tw' (Retrieved tx (Some c)) chs q).
Proof.
  intros [Hchs Htw Hgo Hcl Hask]. cbn in *. destruct Htw as [Ho Hi Hnd He Hn]. cbn in *.
  apply NoDup_cons in Hnd as [Hfresh Hnd].
  destruct (He tx) as (c & Hc & Hq); [by left|]. exists c. eexists. unfold retrieveChannel. rewrite Hc.
  split; [done|]. split; [done|]. split; cbn.
  - eapply chs_inv_keep; [exact Hchs| |done|apply (ci_logged _ _ _ Hchs)].
    unfold accounted. cbn. rewrite <-(map_to_list_delete _ _ _ Hc). done.
  - split; cbn; [done..| |].
    + intros t Ht. destruct (He t) as (d & Hd & Hqd); [by right|]. exists d. split; [|done].
      rewrite lookup_delete_ne; [done|]. intros E. apply Hfresh. rewrite E. by apply list_elem_of_fmap_2.
    + intros n d [Hne Hd]%lookup_delete_Some. apply Hn, elem_of_cons in Hd as [E|E]; [|done].
      by destruct Hne.
  - by exists c.
  - split; [|done]. intros Hcl'. discriminate (proj1 Hcl Hcl').
  - done.
Qed.

Lemma answer_run tw tx r resp chs q :
  w_inv (mkW tw (Answering tx r resp) chs q) →
  ∃ c chs', r = Some c ∧ q !! c = Some tx ∧ ch_send c resp chs = Some chs' ∧ w_inv (mkW tw Waiting chs' q).
Proof.
  intros [Hchs Htw Hgo Hcl Hask]. cbn in *. destruct Hgo as (c & -> & Hq).
  destruct (ch_send_run c resp chs) as (chs' & E & Hn & Hlog & Hl).
  { pose proof (ci_nodup _ _ _ Hchs) as Hnd. unfold accounted in Hnd. cbn in Hnd.
    apply NoDup_cons in Hnd as [Hnin _]. intros Hin. apply Hnin, elem_of_app. by right. }
  { apply (ci_logged _ _ _ Hchs). }
  exists c, chs'. split; [done|]. split; [done|]. split; [done|]. split; cbn.
  - eapply chs_inv_keep; [exact Hchs| |done|done]. unfold accounted. cbn. rewrite Hlog, fmap_app. cbn.
    rewrite app_assoc. rewrite (Permutation_app_comm _ [c]). done.
  - done.
  - done.
  - split; [|done]. intros Hcl'. discriminate (proj1 Hcl Hcl').
  - by rewrite Hn.
Qed.

Lemma closeAllChannels_run e tw chs q :
  w_inv (mkW tw Stopping chs q) →
  ∃ tw' chs', closeAllChannels e tw chs = Some (tw', chs') ∧ w_inv (mkW tw' Stopped chs' q).
Proof.
  intros [Hchs Htw Hgo Hcl Hask]. cbn in *.
  assert (Hperm : (rangeZ (tw_responsesChannels tw)).*2 ≡ₚ promised tw Stopping)
    by (cbn; by rewrite (rangeZ_perm (tw_responsesChannels tw))).
  destruct (send_to_all_run (rangeZ (tw_responsesChannels tw)).*2 (mkResponse "" (Some e)) chs)
    as (chs' & E & Hn & Hlog & Hl); [rewrite Hperm; apply (ci_nodup _ _ _ Hchs)|apply (ci_logged _ _ _ Hchs)|].
  eexists _, chs'. unfold closeAllChannels. rewrite E. split; [done|]. split; cbn.
  - eapply chs_inv_keep; [exact Hchs| |done|done]. unfold accounted. rewrite Hlog, Hperm. done.
  - destruct Htw as [Ho Hi Hnd He Hnn]. by split.
  - done.
  - done.
  - by rewrite Hn.
Qed.

Lemma receive_run tw go chs q c r chs' :
  w_inv (mkW tw go chs q) → ch_receive c chs = Some (r, chs') → w_inv (mkW tw go chs' q).
Proof.
  intros [Hchs Htw Hgo Hcl Hask] E. cbn in *. unfold ch_receive in E.
  destruct (ch_contents c chs) as [|r0 rest] eqn:Ec; [done|]. injection E as <- <-.
  split; cbn; try done. eapply chs_inv_keep; [exact Hchs|done|done|]. cbn.
  intros d. unfold ch_contents. cbn. destruct (decide (c = d)) as [->|Hcd].
  - intros _. apply (ci_logged _ _ _ Hchs). by rewrite Ec.
  - rewrite lookup_insert_ne by done. apply (ci_logged _ _ _ Hchs).
Qed.

Lemma wstep_inv s s' : wstep s s' → w_inv s → w_inv s'.
Proof.
  intros Hs Hinv. destruct Hs as [tx tw go chs q r tw' chs' E|c r tw go chs chs' q E|tw tw' chs q E
    |tw tx tw' chs q E|tw tx r tw' chs q E|tw tx r resp chs q|tw tx c resp chs chs' q E|tw chs q|e tw chs tw' chs' q E].
  - destruct (AddTransaction_run tx _ _ _ _ Hinv) as (?&?&?&E'&?). congruence.
  - by eapply receive_run.
  - destruct (nextTransaction_run _ _ _ Hinv) as (?&?&E'&Hm). rewrite E in E'. injection E' as <- <-.
    by destruct Hm as [-> _].
  - destruct (nextTransaction_run _ _ _ Hinv) as (?&?&E'&Hm). rewrite E in E'. injection E' as <- <-. apply Hm.
  - destruct (retrieveChannel_run _ _ _ _ Hinv) as (?&?&E'&_&?). congruence.
  - destruct Hinv as [Hchs Htw Hgo Hcl Hask]. cbn in *. split; cbn; [|done..| |done].
    + eapply chs_inv_keep; [exact Hchs|done|done|apply (ci_logged _ _ _ Hchs)].
    + split; [|discriminate]. intros Hc. discriminate (proj1 Hcl Hc).
  - destruct (answer_run _ _ _ _ _ _ Hinv) as (?&?&E1&_&E2&?). congruence.
  - destruct Hinv as [Hchs Htw Hgo Hcl Hask]. cbn in *. split; cbn; [|done..| |done].
    + eapply chs_inv_keep; [exact Hchs|done|done|apply (ci_logged _ _ _ Hchs)].
    + split; [|discriminate]. intros Hc. discriminate (proj1 Hcl Hc).
  - destruct (closeAllChannels_run e _ _ _ Hinv) as (?&?&E'&?). congruence.
Qed.

Lemma reachable_inv s : reachable s → w_inv s.
Proof.
  intros (tw & E & Hrtc). injection E as <-.
  cut (w_inv (mkW (mkWorker [] false ∅) Waiting (mkChannels ∅ 1%positive []) ∅)).
  { intros Hinit. induction Hrtc; eauto using wstep_inv. }
  split; cbn; [..|intros c t; by rewrite lookup_empty].
  - split; cbn; [constructor| |].
    + intros c. split; [by intros ?%not_elem_of_nil|lia].
    + intros c. unfold ch_contents. cbn. by rewrite lookup_empty.
  - split; cbn; [..|intros n c; by rewrite lookup_empty].
    + intros p c _ Hc. lia.
    + intros i it. by rewrite lookup_nil.
    + constructor.
    + by intros t ?%not_elem_of_nil.
  - done.
  - done.
Qed.
End Steps.

Section Worker_theorems.
Context `{MapRangeZ chan}.

(** C15: Neither the worker's goroutine nor a caller of AddTransaction ever
    blocks or panics, in whatever order the calls, the ticks, the receives and the cancellation
    interleave: adding returns, the ticker finds its transaction, the answer goes
    into an empty channel that is not nil, and closing can write into every
    channel that is left. *)
Theorem worker_never_blocks (s : wstate) :
  reachable s →
  (∀ tx, ∃ r tw' chs', AddTransaction tx (w_tw s) (w_chs s) = Ok (Some (r, (tw', chs')))) ∧
  match w_go s with
  | Waiting => ∃ o tw', nextTransaction (w_tw s) = Ok (o, tw')
  | Answering tx r resp => ∃ c chs', r = Some c ∧ ch_send c resp (w_chs s) = Some chs'
  | Stopping => ∀ e, is_Some (closeAllChannels e (w_tw s) (w_chs s))
  | _ => True
  end.
Proof.
  intros Hr%reachable_inv. destruct s as [tw go chs q]. cbn. split.
  - intros tx. destruct (AddTransaction_run tx tw go chs q Hr) as (r & tw' & chs' & E & _). eauto.
  - destruct go; try done.
    + destruct (nextTransaction_run tw chs q Hr) as (o & tw' & E & _). eauto.
    + destruct (answer_run tw tx r resp chs q Hr) as (c & chs' & E & _ & E2 & _). eauto.
    + intros e. destruct (closeAllChannels_run e tw chs q Hr) as (tw' & chs' & E & _). eauto.
Qed.

(** C17: In every state the worker can reach, whatever its callers, its ticks and
    its cancellation interleave to, no channel has been answered twice; and once its
    goroutine has stopped, every channel that [AddTransaction] has handed out, before
    the stop or after it, has been answered: its caller does not wait for ever. *)
Theorem worker_answers_once (s : wstate) :
  reachable s →
  NoDup (ch_log (w_chs s)).*1 ∧
  (w_go s = Stopped → ∀ c, (c < ch_next (w_chs s))%positive → c ∈ (ch_log (w_chs s)).*1).
Proof.
  intros Hr%reachable_inv. pose proof (wi_chs _ Hr) as Hc. split.
  - pose proof (ci_nodup _ _ _ Hc) as Hnd. by apply NoDup_app in Hnd as (_ & _ & Hnd).
  - intros E c Hlt. apply (ci_made _ _ _ Hc) in Hlt. by rewrite E in Hlt.
Qed.

(** C3: The transaction sent at a tick has the lowest nonce of the queue, and the
    answer the goroutine then writes goes into the channel that was handed out for
    that very transaction. *)
Theorem worker_answers_the_sender (s : wstate) :
  reachable s →
  match w_go s with
  | Waiting => ∀ tx tw', nextTransaction (w_tw s) = Ok (Some tx, tw') →
                 Forall (λ t, tx_Nonce tx ≤ tx_Nonce t) (queued (w_tw s))
  | Retrieved tx r | Answering tx r _ => ∃ c, r = Some c ∧ w_asked s !! c = Some tx
  | _ => True
  end.
Proof.
  intros Hr%reachable_inv. pose proof (wi_go _ Hr) as Hgo. destruct s as [tw go chs q]. cbn in *.
  destruct go; try done. intros tx tw' E.
  destruct (nextTransaction_run tw chs q Hr) as (o & tw1 & E1 & Hm). rewrite E in E1. injection E1 as <- <-.
  apply Hm.
Qed.

(** A closed worker, and a worker that has a transaction of the same nonce
    waiting, refuse a transaction by answering its channel at once with the
    error, and queue nothing. *)
Theorem AddTransaction_refuses (tx : FrontendTransaction) (s : wstate) :
  reachable s →
  tw_workerClosed (w_tw s) = true ∨ tx_Nonce tx ∈ tx_Nonce <$> queued (w_tw s) →
  ∃ r chs', AddTransaction tx (w_tw s) (w_chs s) = Ok (Some (r, (w_tw s, chs'))) ∧
    ch_contents r chs'
    = [mkResponse "" (Some (if tw_workerClosed (w_tw s) then ErrWorkerClosed else errAlreadyScheduled))].
Proof.
  intros Hr%reachable_inv Hcase. destruct s as [tw go chs q]. cbn in *.
  pose proof (wi_tw _ Hr) as Htw. cbn in Htw.
  destruct (AddTransaction_run tx tw go chs q Hr) as (r & tw' & chs' & E & _).
  exists r, chs'. revert E. unfold AddTransaction. cbn [ch_make].
  destruct (tw_workerClosed tw) eqn:Ecl; [|destruct Hcase as [Hcase|Hcase]; [done|]].
  2:{ apply list_elem_of_fmap in Hcase as (t & Ht & Hin).
      destruct (ti_entry _ _ _ Htw t) as (c & Hc & _); [apply elem_of_app; by right|]. rewrite Ht, Hc.
      cbn. unfold ch_send. destruct (ch_contents _ _); cbn; [|done].
      intros [= <- <- <-]. split; [done|]. unfold ch_contents. cbn. by rewrite lookup_insert_eq. }
  unfold ch_send. destruct (ch_contents _ _); cbn; [|done].
  intros [= <- <- <-]. split; [done|]. unfold ch_contents. cbn. by rewrite lookup_insert_eq.
Qed.
End Worker_theorems.

(** ** Concrete runs: two transactions, the second of a lower nonce *)

#[local] Existing Instance map_to_list_rangeZ.

Definition witness_tx (n : Z) : FrontendTransaction := tx_setNonce n emptyTx.

Definition after_add (tx : FrontendTransaction) (s : wstate) : wstate :=
  match AddTransaction tx (w_tw s) (w_chs s) with
  | Ok (Some (r, (tw, chs))) => mkW tw (w_go s) chs (<[r := tx]> (w_asked s))
  | _ => s
  end.
Definition witness_queue : wstate :=
  after_add (witness_tx 3) (after_add (witness_tx 5) (mkW (mkWorker [] false ∅) Waiting (mkChannels ∅ 1%positive []) ∅)).
Definition witness_answering : wstate :=
  mkW (mkWorker [mkItem (witness_tx 5) 0] false {[5 := 1%positive]})
    (Answering (witness_tx 3) (Some 2%positive) (mkResponse "hash" None))
    (w_chs witness_queue) (w_asked witness_queue).
Definition witness_stopped : wstate :=
  let chs := mkChannels {[1%positive := [mkResponse "" (Some (ErrText "context canceled"))];
                          2%positive := [mkResponse "" (Some (ErrText "context canceled"))]]} 3%positive
    [(1%positive, mkResponse "" (Some (ErrText "context canceled")));
     (2%positive, mkResponse "" (Some (ErrText "context canceled")))] in
  mkW (mkWorker (tw_tq (w_tw witness_queue)) true (tw_responsesChannels (w_tw witness_queue)))
    Stopped chs (w_asked witness_queue).

Lemma reachable_queue : reachable witness_queue.
Proof.
  eexists. split; [reflexivity|].
  eapply rtc_l; [apply (w_add (witness_tx 5)); vm_compute; reflexivity|].
  eapply rtc_l; [apply (w_add (witness_tx 3)); vm_compute; reflexivity|]. apply rtc_refl.
Qed.

Lemma reachable_answering : reachable witness_answering.
Proof.
  destruct reachable_queue as (tw & E & Hq). exists tw. split; [done|].
  etransitivity; [exact Hq|].
  eapply rtc_l; [apply (w_tick _ (witness_tx 3)); vm_compute; reflexivity|].
  eapply rtc_l; [apply (w_retrieve _ (witness_tx 3) (Some 2%positive)); vm_compute; reflexivity|].
  eapply rtc_l; [apply (w_network _ _ _ (mkResponse "hash" None))|].
  match goal with |- rtc _ ?a ?b => replace a with b by (vm_compute; reflexivity) end. apply rtc_refl.
Qed.

Lemma reachable_stopped : reachable witness_stopped.
Proof.
  destruct reachable_queue as (tw & E & Hq). exists tw. split; [done|].
  etransitivity; [exact Hq|].
  eapply rtc_l; [apply w_cancel|].
  eapply rtc_l; [apply (w_close (ErrText "context canceled")); vm_compute; reflexivity|].
  match goal with |- rtc _ ?a ?b => replace a with b by (vm_compute; reflexivity) end. apply rtc_refl.
Qed.

Lemma worker_never_blocks_witness :
  ∃ c chs', Some 2%positive = Some c ∧
    ch_send c (mkResponse "hash" None) (w_chs witness_answering) = Some chs'.
Proof. exact (proj2 (worker_never_blocks witness_answering reachable_answering)). Defined.

Lemma worker_answers_once_witness : 1%positive ∈ (ch_log (w_chs witness_stopped)).*1.
Proof.
  apply (proj2 (worker_answers_once witness_stopped reachable_stopped)); [reflexivity|].
  vm_compute. reflexivity.
Defined.

Lemma worker_answers_the_sender_witness :
  (∃ c, Some 2%positive = Some c ∧ w_asked witness_answering !! c = Some (witness_tx 3)) ∧
  Forall (λ t, 3 ≤ tx_Nonce t) (queued (w_tw witness_queue)).
Proof.
  split; [exact (worker_answers_the_sender witness_answering reachable_answering)|].
  apply (worker_answers_the_sender witness_queue reachable_queue (witness_tx 3)
    (mkWorker [mkItem (witness_tx 5) 0] false (tw_responsesChannels (w_tw witness_queue)))).
  vm_compute. reflexivity.
Defined.

Lemma AddTransaction_refuses_witness :
  ∃ r chs', AddTransaction (witness_tx 5) (w_tw witness_queue) (w_chs witness_queue)
            = Ok (Some (r, (w_tw witness_queue, chs'))) ∧
    ch_contents r chs' = [mkResponse "" (Some errAlreadyScheduled)].
Proof.
  apply (AddTransaction_refuses (witness_tx 5) witness_queue reachable_queue).
  right. apply list_elem_of_In. vm_compute. auto.
Defined.
