(* ===== verification/NonceV3.v ===== *)
(** * Nonce handler, version 3 ([interactors/nonceHandlerV3/])

    [addressNonceHandler] numbers the transactions of one address from a cached
    nonce and sends them through its [TransactionWorker]; [nonceTransactionsHandlerV3]
    takes transactions of many senders at once.  [ApplyNonceAndGasPrice] writes
    through pointers, so the transactions are in the model's memory [txheap]. *)

From S2P Require Export Worker.

Record addressNonceHandler := mkAnh {
  address_ : address;
  nonce : Z;      (* int64, -1 when it is not known *)
  gasPrice : Z }.

Definition setNonce (n : Z) (h : addressNonceHandler) : addressNonceHandler := mkAnh (address_ h) n (gasPrice h).
Definition setGasPrice (g : Z) (h : addressNonceHandler) : addressNonceHandler := mkAnh (address_ h) (nonce h) g.

(** The worker the constructor starts is [Worker.NewTransactionWorker]. *)
Definition NewAddressNonceHandlerV3 (proxyIsNil : bool) (a : option address) : outcome addressNonceHandler :=
  if proxyIsNil then Fail ErrNilProxy
  else match a with
       | None => Fail ErrNilAddress
       | Some a => Ok (mkAnh a (-1) 0)
       end.

Section Handler.
Context {W : Type} `{InteractorProxy W}.

Abbreviation St := (addressNonceHandler * (txheap * W))%type.

Definition errFetchNonce (e : error) : error := ErrWrap e "failed to fetch nonce".
Definition net_call {A} (m : M W A) : M St A := onsnd (onsnd m).
Definition write (p : ptr) (f : FrontendTransaction → FrontendTransaction) : M St () :=
  tx ← gets (λ s : St, s.2.1 !! p);
  tx ← deref tx;
  onsnd (onfst (modify (<[p := f tx]>))).

Definition computeNonce : M St Z :=
  h ← gets fst;
  (if nonce h =? -1 then
     account ← wrapping errFetchNonce (net_call (px_GetAccount (address_ h)));
     account ← deref account;
     onfst (modify (setNonce (i64 (acc_Nonce account))))
   else onfst (modify (setNonce (i64 (nonce h + 1))))) ;;
  gets (λ s : St, nonce s.1).

(** On an error the configuration is the nil pointer, which is used all the same. *)
Definition applyGasPriceIfRequired (p : ptr) : M St () :=
  h ← gets fst;
  g ← (if gasPrice h =? 0 then
         r ← try (net_call px_GetNetworkConfig);
         networkConfig ← deref (match r with inl _ => None | inr cfg => cfg end);
         mret (nc_MinGasPrice networkConfig)
       else mret (gasPrice h));
  onfst (modify (setGasPrice g)) ;;
  write p (λ tx, tx_setGasPrice (core_MaxUint64 g (tx_GasPrice tx)) tx).

Definition ApplyNonceAndGasPrice (txs : list ptr) : M St () :=
  mfor txs (λ p,
    n ← wrapping errFetchNonce computeNonce;
    write p (tx_setNonce (u64 n)) ;;
    applyGasPriceIfRequired p).

Definition adaptNonceBasedOnResponse (response : TransactionResponse) (h : addressNonceHandler) : addressNonceHandler :=
  match ResponseError response with Some _ => setNonce (-1) h | None => h end.

(** [SendTransaction] after its [AddTransaction]: the select continues with the
    response, or with the error of the context when that is done first. *)
Definition SendTransaction_resume (selected : error + TransactionResponse) : M addressNonceHandler string :=
  match selected with
  | inl ctxErr => throw ctxErr
  | inr response =>
    modify (adaptNonceBasedOnResponse response) ;;
    match ResponseError response with
    | Some e => throw e
    | None => mret (TxHash response)
    end
  end.
End Handler.

(** ** [nonceTransactionsHandlerV3] *)

Definition minimumIntervalToResend : Z := 1000000.

Record nonceTransactionsHandlerV3 := mkNth {
  handlers : gmap string addressNonceHandler;
  intervalToSend : Z;
  closed : list string  (* the addresses whose handler was closed *) }.

Definition setHandlers (hs : gmap string addressNonceHandler) (nth : nonceTransactionsHandlerV3) :=
  mkNth hs (intervalToSend nth) (closed nth).

Definition NewNonceTransactionHandlerV3 (proxyIsNil : bool) (interval : Z) : outcome nonceTransactionsHandlerV3 :=
  if proxyIsNil then Fail ErrNilProxy
  else if interval <? minimumIntervalToResend
  then Fail (ErrWrap ErrInvalidValue "for intervalToSend in NewNonceTransactionHandlerV2")
  else Ok (mkNth ∅ interval []).

Definition handlerKey (a : address) : string := string_of_bytes (AddressBytes a).

Section Owner.
Context {W : Type} `{InteractorProxy W} `{PubkeyConverter}.

Abbreviation NthSt := (nonceTransactionsHandlerV3 * (txheap * W))%type.

Definition getAddressNonceHandler (a : address) (nth : nonceTransactionsHandlerV3) : option addressNonceHandler :=
  handlers nth !! handlerKey a.

(** Looks the handler up once more under the write lock; the proxy of the owner is
    not nil. *)
Definition createAddressNonceHandler {X} (a : address) : M (nonceTransactionsHandlerV3 * X) () := λ '(nth, w),
  match handlers nth !! handlerKey a with
  | Some _ => (Ok (), (nth, w))
  | None =>
    match NewAddressNonceHandlerV3 false (Some a) with
    | Ok anh => (Ok (), (setHandlers (<[handlerKey a := anh]> (handlers nth)) nth, w))
    | Fail e => (Fail e, (nth, w))
    | Panic => (Panic, (nth, w))
    end
  end.

(** A method of the handler of [a], which the map holds by reference. *)
Definition run_handler {A X} (a : address) (m : M (addressNonceHandler * X) A) : M (nonceTransactionsHandlerV3 * X) A :=
  λ '(nth, w),
    match handlers nth !! handlerKey a with
    | Some anh => let '(r, (anh', w')) := m (anh, w) in
                  (r, (setHandlers (<[handlerKey a := anh']> (handlers nth)) nth, w'))
    | None => (Panic, (nth, w))
    end.

(** Followed by a method of the handler. *)
Definition getOrCreateAddressNonceHandler {A X} (a : address) (m : M (addressNonceHandler * X) A) :
    M (nonceTransactionsHandlerV3 * X) A :=
  anh ← gets (λ s, getAddressNonceHandler a s.1);
  match anh with Some _ => mret () | None => createAddressNonceHandler a end ;;
  run_handler a m.

(** The loop of [filterTransactionsBySenderAddress]: the pointers grouped by the
    sender of what they point to. *)
Fixpoint filterTransactionsBySenderAddress (hp : txheap) (txs : list ptr)
    (filterMap : gmap string (list ptr)) : outcome (gmap string (list ptr)) :=
  match txs with
  | [] => Ok filterMap
  | p :: txs =>
    match hp !! p with
    | None => Panic
    | Some tx =>
      let transactionsPerAddress := default [] (filterMap !! tx_Sender tx) in
      filterTransactionsBySenderAddress hp txs (<[tx_Sender tx := transactionsPerAddress ++ [p]]> filterMap)
    end
  end.

(** [None] is the nil slice: no argument at all. *)
Definition ApplyNonceAndGasPrice_all `{MapRange (list ptr)} (txs : option (list ptr)) : M NthSt () :=
  match txs with
  | None => throw ErrNilTransaction
  | Some txs =>
    hp ← gets (λ s : NthSt, s.2.1);
    mapAddressTransactions ← lift (filterTransactionsBySenderAddress hp txs ∅);
    mfor (range mapAddressTransactions) (λ '(addressRawString, transactions),
      a ← lift (NewAddressFromBech32String addressRawString);
      getOrCreateAddressNonceHandler a (ApplyNonceAndGasPrice transactions))
  end.

(** The loop of [SendTransactions] that starts one goroutine per transaction:
    the index, the address and the copied transaction each one gets. *)
Fixpoint SendTransactions_spawn (i : nat) (txs : list (option FrontendTransaction)) :
    M (nonceTransactionsHandlerV3 * W) (list (nat * address * FrontendTransaction)) :=
  match txs with
  | [] => mret []
  | None :: _ => throw ErrNilTransaction
  | Some txCopy :: txs =>
    a ← wrapping (λ e, ErrWrap e "while creating address handler for string")
          (lift (NewAddressFromBech32String (tx_Sender txCopy)));
    getOrCreateAddressNonceHandler a (mret ()) ;;
    rest ← SendTransactions_spawn (S i) txs;
    mret ((i, a, txCopy) :: rest)
  end.

(** [group.Wait]: the goroutines finish in some order; each writes its hash at
    its index, the first error is kept. *)
Fixpoint SendTransactions_wait (completions : list (nat * (error + string))) (sentHashes : list string)
    (err : option error) : list string * option error :=
  match completions with
  | [] => (sentHashes, err)
  | (idx, inr sentHash) :: rest => SendTransactions_wait rest (<[idx := sentHash]> sentHashes) err
  | (_, inl errSend) :: rest =>
    SendTransactions_wait rest sentHashes
      (match err with Some _ => err | None => Some (ErrWrap errSend "while sending transaction for address") end)
  end.

(** Every handler is closed, in the order the map is visited. *)
Definition Close `{MapRange addressNonceHandler} : M (nonceTransactionsHandlerV3 * W) () :=
  onfst (modify (λ nth, mkNth (handlers nth) (intervalToSend nth) (closed nth ++ (range (handlers nth)).*1))).
End Owner.

(** ** Numbering

    [stamp g i tx] is the transaction with nonce [i] and a gas price of at least
    [g]; [stamp_all g i ps hp] is the memory in which the transactions at [ps]
    were stamped with [i], [i + 1], ... *)

Definition stamp (g i : Z) (tx : FrontendTransaction) : FrontendTransaction :=
  tx_setGasPrice (Z.max g (tx_GasPrice tx)) (tx_setNonce i tx).

Fixpoint stamp_all (g i : Z) (ps : list ptr) (hp : txheap) : txheap :=
  match ps with
  | [] => hp
  | p :: ps => stamp_all g (i + 1) ps (<[p := stamp g i (heap_tx hp p)]> hp)
  end.

Lemma stamp_all_other g i ps hp q : q ∉ ps → stamp_all g i ps hp !! q = hp !! q.
Proof.
  revert i hp. induction ps as [|p ps IH]; intros i hp Hq; [done|]. cbn [stamp_all].
  apply not_elem_of_cons in Hq as [Hqp Hq]. rewrite IH by done. by rewrite lookup_insert_ne.
Qed.

Lemma stamp_all_is_Some g i ps hp q : is_Some (hp !! q) → is_Some (stamp_all g i ps hp !! q).
Proof.
  revert i hp. induction ps as [|p ps IH]; intros i hp Hq; [done|]. cbn [stamp_all].
  apply IH, lookup_insert_is_Some'. by right.
Qed.

Lemma stamp_all_at g i ps hp k p :
  NoDup ps → ps !! k = Some p → stamp_all g i ps hp !! p = Some (stamp g (i + Z.of_nat k) (heap_tx hp p)).
Proof.
  revert i hp k. induction ps as [|q ps IH]; intros i hp k Hnd Hk; [done|].
  apply NoDup_cons in Hnd as [Hq Hnd]. cbn [stamp_all]. destruct k as [|k]; cbn in Hk.
  - injection Hk as ->. rewrite stamp_all_other by done. rewrite lookup_insert_eq. do 3 f_equal. lia.
  - rewrite (IH _ _ k) by done. assert (q ≠ p) by (intros ->; apply Hq; by eapply list_elem_of_lookup_2).
    unfold heap_tx. rewrite lookup_insert_ne by done. do 2 f_equal. lia.
Qed.

(** A handler about to give nonce [i] when the account nonce is [n]. *)
Definition about_to_give (n i : Z) (h : addressNonceHandler) : Prop :=
  (nonce h = -1 ∧ i = n) ∨ (nonce h = i - 1 ∧ 0 < i).

Definition gas_ok (g : Z) (h : addressNonceHandler) : Prop := gasPrice h = 0 ∨ gasPrice h = g.

(** The handler an owner has for an address, or makes for it, and the nonce it is about to
    give: the account nonce, or the one after the cached nonce. *)
Definition handler_of (a : address) (nth : nonceTransactionsHandlerV3) : addressNonceHandler :=
  default (mkAnh a (-1) 0) (handlers nth !! handlerKey a).
Definition next_of (n : address → Z) (nth : nonceTransactionsHandlerV3) (a : address) : Z :=
  let h := handler_of a nth in if nonce h =? -1 then n a else nonce h + 1.

(** What an owner is after any use: its handlers are filed under their addresses, and what
    they cache is a nonce or -1, the network's gas price or none. *)
Definition owner_ok (g : Z) (nth : nonceTransactionsHandlerV3) : Prop :=
  ∀ k h, handlers nth !! k = Some h → handlerKey (address_ h) = k ∧ -1 ≤ nonce h ∧ gas_ok g h.

Lemma handlerKey_inj a b : handlerKey a = handlerKey b → a = b.
Proof.
  unfold handlerKey, AddressBytes. intros E%(f_equal bytes_of_string). rewrite !bytes_of_string_of_bytes in E.
  destruct a, b. cbn in E. congruence.
Qed.

Lemma handler_of_ok g a nth : owner_ok g nth → address_ (handler_of a nth) = a ∧ -1 ≤ nonce (handler_of a nth) ∧ gas_ok g (handler_of a nth).
Proof.
  intros Hok. unfold handler_of. destruct (handlers nth !! handlerKey a) as [h|] eqn:E; cbn; [|by repeat split; [|left]].
  destruct (Hok _ _ E) as (Hk & Hr). split; [by apply handlerKey_inj|done].
Qed.

Lemma next_of_gives g n nth a : owner_ok g nth → about_to_give (n a) (next_of n nth a) (handler_of a nth).
Proof.
  intros Hok. destruct (handler_of_ok g a nth Hok) as (_ & Hn & _). unfold next_of, about_to_give.
  destruct (Z.eqb_spec (nonce (handler_of a nth)) (-1)); [by left|right; lia].
Qed.

Lemma new_owner_ok g interval nth : NewNonceTransactionHandlerV3 false interval = Ok nth →
  owner_ok g nth ∧ ∀ n a, next_of n nth a = n a.
Proof.
  unfold NewNonceTransactionHandlerV3. destruct (_ <? _); [done|]. intros [= <-]. split; [by intros k h|].
  intros n a. unfold next_of, handler_of. cbn. by rewrite lookup_empty.
Qed.

Lemma SendTransactions_wait_run completions hs err :
  NoDup completions.*1 →
  let '(hs', err') := SendTransactions_wait completions hs err in
  (∀ i, (∀ h, (i, inr h) ∉ completions) → hs' !! i = hs !! i) ∧
  (∀ i h, (i < length hs)%nat → (i, inr h) ∈ completions → hs' !! i = Some h) ∧
  (err' = None ↔ err = None ∧ ∀ i e, (i, inl e) ∉ completions).
Proof.
  revert hs err. induction completions as [|[j r] rest IH]; intros hs err Hnd; cbn.
  { split; [done|]. split; [by intros i h _ ?%not_elem_of_nil|].
    split; [intros ->; split; [done|by intros i e ?%not_elem_of_nil]|by intros [-> _]]. }
  apply NoDup_cons in Hnd as [Hj Hnd].
  assert (Hfresh : ∀ r', (j, r') ∉ rest) by (intros r' Hin; apply Hj; by apply (list_elem_of_fmap_2 fst) in Hin).
  destruct r as [e|h].
  - specialize (IH hs (match err with Some _ => err | None => Some (ErrWrap e "while sending transaction for address") end) Hnd).
    destruct (SendTransactions_wait rest hs _) as [hs' err']. destruct IH as (H1 & H2 & H3).
    split; [intros i Hi; apply H1; intros h Hin; apply (Hi h); by right|].
    split; [intros i h Hl [?|Hin]%elem_of_cons; [done|by apply H2]|]. rewrite H3. split.
    + intros [E _]. by destruct err.
    + intros [-> Hno]. destruct (Hno j e). by left.
  - specialize (IH (<[j := h]> hs) err Hnd).
    destruct (SendTransactions_wait rest _ err) as [hs' err']. destruct IH as (H1 & H2 & H3). split; [|split].
    + intros i Hi. rewrite H1 by (intros h' Hin; apply (Hi h'); by right).
      apply list_lookup_insert_ne. intros ->. apply (Hi h). by left.
    + intros i h' Hl [[= -> ->]|Hin]%elem_of_cons; [|apply H2; [by rewrite length_insert|done]].
      rewrite H1 by (intros h'; apply Hfresh). by apply list_lookup_insert_eq.
    + rewrite H3. split; (intros [-> Hno]; split; [done|]; intros i e Hin).
      * apply elem_of_cons in Hin as [?|Hin]; [done|]. by apply (Hno i e).
      * apply (Hno i e). by right.
Qed.

(** SendTransactions returns the hash of each transaction at the position of
    the transaction, whatever the order in which the sends complete; the error is
    that of the first send that failed, whose position stays empty. *)
Theorem SendTransactions_hashes_in_place (len : nat) (completions : list (nat * (error + string))) :
  NoDup completions.*1 →
  let '(sentHashes, err) := SendTransactions_wait completions (replicate len "") None in
  (∀ i h, (i < len)%nat → (i, inr h) ∈ completions → sentHashes !! i = Some h) ∧
  (∀ i, (i < len)%nat → (∀ h, (i, inr h) ∉ completions) → sentHashes !! i = Some "") ∧
  (err = None ↔ ∀ i e, (i, inl e) ∉ completions).
Proof.
  intros Hnd. pose proof (SendTransactions_wait_run completions (replicate len "") None Hnd) as Hrun.
  destruct (SendTransactions_wait _ _ _) as [hs err]. destruct Hrun as (H1 & H2 & H3). split; [|split].
  - intros i h Hi. apply H2. by rewrite length_replicate.
  - intros i Hi Hno. rewrite H1 by done. by apply lookup_replicate_2.
  - rewrite H3. split; [by intros [_ Hno]|by intros Hno].
Qed.

Section Theorems.
Context {W : Type} `{InteractorProxy W}.

Lemma computeNonce_run n i h hp w :
  ConstantNonce W (address_ h) n → 0 ≤ n → i < 2 ^ 63 → about_to_give n i h →
  ∃ w', computeNonce (h, (hp, w)) = (Ok i, (setNonce i h, (hp, w'))).
Proof.
  intros Hc Hn Hi Hg. unfold computeNonce, gets, mbind, M_bind. cbn [fst snd].
  destruct Hg as [[E ->]|[E Hlt]]; rewrite E.
  - destruct (constant_nonce (addr := address_ h) w) as (acc & w' & Ew & Ha). exists w'. cbn.
    unfold wrapping, net_call, onsnd. rewrite Ew. cbn. by rewrite Ha, i64_small by (unfold is_i64; lia).
  - exists w. destruct (Z.eqb_spec (i - 1) (-1)); [lia|]. cbn.
    replace (i - 1 + 1) with i by lia. by rewrite i64_small by (unfold is_i64; lia).
Qed.

Lemma applyGasPrice_run g h hp w p tx :
  ConstantGasPrice W g → gas_ok g h → hp !! p = Some tx →
  ∃ w', applyGasPriceIfRequired p (h, (hp, w))
        = (Ok (), (setGasPrice g h, (<[p := tx_setGasPrice (Z.max g (tx_GasPrice tx)) tx]> hp, w'))).
Proof.
  intros Hg Hok Hp. unfold applyGasPriceIfRequired, write, gets, mbind, M_bind. cbn [fst snd].
  destruct (Z.eqb_spec (gasPrice h) 0) as [E|E].
  - destruct (constant_gas w) as (cfg & w' & Ew & Ha). exists w'. unfold try, net_call, onsnd.
    rewrite Ew. cbn. rewrite Hp. cbn. by rewrite Ha, core_MaxUint64_max.
  - destruct Hok as [|Eg]; [done|]. exists w. cbn. rewrite Hp. cbn. by rewrite Eg, core_MaxUint64_max.
Qed.

Lemma applyAll_run n g ps : ∀ i h hp w,
  ConstantNonce W (address_ h) n → ConstantGasPrice W g → 0 ≤ n → 0 ≤ i →
  i + Z.of_nat (length ps) ≤ 2 ^ 63 → about_to_give n i h → gas_ok g h →
  (∀ p, p ∈ ps → is_Some (hp !! p)) →
  ∃ h' w', ApplyNonceAndGasPrice ps (h, (hp, w)) = (Ok (), (h', (stamp_all g i ps hp, w'))) ∧
           address_ h' = address_ h ∧ gas_ok g h' ∧ about_to_give n (i + Z.of_nat (length ps)) h'.
Proof.
  unfold ApplyNonceAndGasPrice.
  induction ps as [|p ps IH]; intros i h hp w Hc Hg Hn Hni Hi Hgive Hok Hps;
    [exists h, w; cbn [length]; by rewrite Z.add_0_r|].
  cbn [length] in Hi. destruct (Hps p) as [tx Htx]; [by left|].
  cbn [mfor]. unfold mbind, M_bind, wrapping.
  destruct (computeNonce_run n i h hp w Hc Hn ltac:(lia) Hgive) as [w1 E1]. rewrite E1.
  unfold write at 1, gets, mbind, M_bind. cbn [fst snd]. rewrite Htx. cbn [deref].
  unfold onsnd, onfst, modify. cbn [fst snd].
  destruct (applyGasPrice_run g (setNonce i h) (<[p:=tx_setNonce (u64 i) tx]> hp) w1 p (tx_setNonce (u64 i) tx))
    as [w2 E2]; [done|done|by rewrite lookup_insert_eq|]. rewrite E2.
  rewrite insert_insert_eq, u64_small by (unfold is_u64; lia).
  destruct (IH (i + 1) (setGasPrice g (setNonce i h)) (<[p:=stamp g i tx]> hp) w2) as (h' & w' & E & Ea & Eg & En);
    [done|done|done|lia|lia| |by right| |].
  - right. cbn. lia.
  - intros q Hq. rewrite lookup_insert_is_Some'. right. apply Hps. by right.
  - exists h', w'. unfold stamp in E. cbn [stamp_all]. unfold heap_tx. rewrite Htx. split; [exact E|].
    cbn [length]. by replace (i + Z.of_nat (Datatypes.S (length ps))) with (i + 1 + Z.of_nat (length ps)) by lia.
Qed.

(** ** Many senders at once *)

Definition sender_of (hp : txheap) (p : ptr) : string := tx_Sender (heap_tx hp p).
Definition from (hp : txheap) (s : string) (ps : list ptr) : list ptr := filter (λ p, sender_of hp p = s) ps.

Lemma filterTransactions_run hp ps m :
  (∀ p, p ∈ ps → is_Some (hp !! p)) →
  ∃ m', filterTransactionsBySenderAddress hp ps m = Ok m' ∧
    ∀ s, m' !! s = match m !! s, from hp s ps with
                   | None, [] => None
                   | o, qs => Some (default [] o ++ qs)
                   end.
Proof.
  revert m. induction ps as [|p ps IH]; intros m Hps.
  { exists m. split; [done|]. intros s. cbn. destruct (m !! s); [|done]. cbn. by rewrite app_nil_r. }
  destruct (Hps p) as [tx Htx]; [by left|]. cbn [filterTransactionsBySenderAddress]. rewrite Htx.
  destruct (IH (<[tx_Sender tx := default [] (m !! tx_Sender tx) ++ [p]]> m)) as (m' & -> & Hm').
  { intros q Hq. apply Hps. by right. }
  exists m'. split; [done|]. intros s. rewrite Hm'. unfold from. rewrite filter_cons.
  assert (Hs : sender_of hp p = tx_Sender tx) by (unfold sender_of, heap_tx; by rewrite Htx).
  destruct (decide (sender_of hp p = s)) as [E|E]; rewrite Hs in E.
  - subst s. rewrite lookup_insert_eq. cbn. rewrite <-app_assoc. cbn. by destruct (m !! tx_Sender tx).
  - by rewrite lookup_insert_ne.
Qed.

(** The groups, each with the nonce of its address. *)
Definition stamp_groups (g : Z) (n : string → Z) (L : list (string * list ptr)) (hp : txheap) : txheap :=
  foldl (λ hp e, stamp_all g (n e.1) e.2 hp) hp L.

Lemma stamp_groups_other g n L hp p :
  (∀ e, e ∈ L → p ∉ e.2) → stamp_groups g n L hp !! p = hp !! p.
Proof.
  revert hp. induction L as [|e L IH]; intros hp Hp; [done|]. unfold stamp_groups in *. cbn.
  rewrite IH by (intros e' He'; apply Hp; by right). apply stamp_all_other, Hp. by left.
Qed.

Lemma stamp_groups_at g n L hp s qs k p :
  (s, qs) ∈ L → NoDup L.*1 → NoDup qs → qs !! k = Some p →
  (∀ e q, e ∈ L → q ∈ e.2 → sender_of hp q = e.1) →
  stamp_groups g n L hp !! p = Some (stamp g (n s + Z.of_nat k) (heap_tx hp p)).
Proof.
  intros Hin HndL Hnd Hk Hsend. apply list_elem_of_split in Hin as (L1 & L2 & ->).
  assert (Hp : sender_of hp p = s) by (apply (Hsend (s, qs)); [set_solver|by eapply list_elem_of_lookup_2]).
  rewrite fmap_app in HndL. cbn in HndL. apply NoDup_app in HndL as (_ & Hd1 & [Hd2 _]%NoDup_cons).
  unfold stamp_groups. rewrite foldl_app. cbn.
  change (stamp_groups g n L2 (stamp_all g (n s) qs (stamp_groups g n L1 hp)) !! p
          = Some (stamp g (n s + Z.of_nat k) (heap_tx hp p))).
  rewrite stamp_groups_other.
  2:{ intros e He Hq. apply Hd2. rewrite <-Hp, (Hsend e p); [by apply list_elem_of_fmap_2|set_solver|done]. }
  rewrite (stamp_all_at _ _ _ _ k) by done. unfold heap_tx. rewrite stamp_groups_other; [done|].
  intros e He Hq. apply (Hd1 s); [|by left]. rewrite <-Hp, (Hsend e p); [by apply list_elem_of_fmap_2|set_solver|done].
Qed.

Context `{PubkeyConverter}.

Definition addr_of (s : string) : address :=
  match NewAddressFromBech32String s with Ok a => a | _ => mkAddress [] end.

Lemma handler_run {A X} a (m : M (addressNonceHandler * X) A) nth x r h' x' :
  m (handler_of a nth, x) = (r, (h', x')) →
  getOrCreateAddressNonceHandler a m (nth, x)
  = (r, (setHandlers (<[handlerKey a := h']> (handlers nth)) nth, x')).
Proof.
  unfold getOrCreateAddressNonceHandler, createAddressNonceHandler, getAddressNonceHandler, run_handler, handler_of. mred.
  destruct (handlers nth !! handlerKey a) as [h|] eqn:E; cbn; rewrite ?E; cbn; intros Em.
  - by rewrite Em.
  - unfold setHandlers. cbn. by rewrite lookup_insert_eq, Em, insert_insert_eq.
Qed.

(** After the call on one handler. *)
Lemma next_of_insert g n nth a h (len : nat) :
  owner_ok g nth → address_ h = a → gas_ok g h → 0 ≤ next_of n nth a → about_to_give (n a) (next_of n nth a + Z.of_nat len) h →
  let nth' := setHandlers (<[handlerKey a := h]> (handlers nth)) nth in
  owner_ok g nth' ∧ next_of n nth' a = next_of n nth a + Z.of_nat len ∧
  ∀ b, handlerKey b ≠ handlerKey a → next_of n nth' b = next_of n nth b.
Proof.
  intros Hok <- Hg Hpos Hgive nth'. split_and!.
  - intros k h1. cbn. intros [[<- <-]|[_ E]]%lookup_insert_Some; [|by apply Hok]. split_and!; [done| |done].
    destruct Hgive as [[-> _]|[-> ?]]; lia.
  - unfold next_of at 1, handler_of. cbn. rewrite lookup_insert_eq. cbn. destruct Hgive as [[-> ->]|[-> Hi]]; [done|].
    destruct (Z.eqb_spec (next_of n nth (address_ h) + Z.of_nat len - 1) (-1)); lia.
  - intros b Hb. unfold next_of, handler_of. cbn. by rewrite lookup_insert_ne by congruence.
Qed.

Lemma stamp_groups_ext g n n' L hp : (∀ e, e ∈ L → n e.1 = n' e.1) → stamp_groups g n L hp = stamp_groups g n' L hp.
Proof.
  revert hp. induction L as [|e L IH]; intros hp He; [done|]. unfold stamp_groups in *. cbn.
  rewrite (He e) by (by left). apply IH. intros e' He'. apply He. by right.
Qed.

Lemma groups_run (n : address → Z) g L : ∀ nth hp w,
  (∀ a, ConstantNonce W a (n a)) → ConstantGasPrice W g → owner_ok g nth →
  (∀ e, e ∈ L → NewAddressFromBech32String e.1 = Ok (addr_of e.1) ∧ 0 ≤ n (addr_of e.1) ∧
                next_of n nth (addr_of e.1) + Z.of_nat (length e.2) ≤ 2 ^ 63) →
  (∀ e p, e ∈ L → p ∈ e.2 → is_Some (hp !! p)) →
  NoDup ((λ e, handlerKey (addr_of e.1)) <$> L) →
  ∃ nth' w',
    mfor L (λ '(addressRawString, transactions),
      a ← lift (NewAddressFromBech32String addressRawString);
      getOrCreateAddressNonceHandler a (ApplyNonceAndGasPrice transactions)) (nth, (hp, w))
    = (Ok (), (nth', (stamp_groups g (next_of n nth ∘ addr_of) L hp, w'))) ∧ owner_ok g nth' ∧
    (∀ e, e ∈ L → next_of n nth' (addr_of e.1) = next_of n nth (addr_of e.1) + Z.of_nat (length e.2)) ∧
    (∀ b, handlerKey b ∉ (λ e, handlerKey (addr_of e.1)) <$> L → next_of n nth' b = next_of n nth b).
Proof.
  induction L as [|[s qs] L IH]; intros nth hp w Hc Hg Hok Ha Hp Hnd;
    [exists nth, w; split_and!; [done|done|by intros e ?%not_elem_of_nil|done]|].
  destruct (Ha (s, qs)) as (Es & Hn0 & Hn); [by left|]. cbn [fst snd] in Es, Hn0, Hn.
  apply NoDup_cons in Hnd as [Hk Hnd]. cbn [mfor]. unfold mbind, M_bind, lift. rewrite Es.
  destruct (handler_of_ok g (addr_of s) nth Hok) as (Ead & Hm1 & Hgas).
  assert (Hpos : 0 ≤ next_of n nth (addr_of s)) by (unfold next_of; case_match eqn:Eq; [done|apply Z.eqb_neq in Eq; lia]).
  destruct (applyAll_run (n (addr_of s)) g qs (next_of n nth (addr_of s)) (handler_of (addr_of s) nth) hp w)
    as (h' & w1 & E1 & Ea & Eg & En); [by rewrite Ead|done..|by eapply next_of_gives|done|intros p Hin; by apply (Hp (s, qs)); [left|]|].
  rewrite (handler_run _ _ _ _ _ _ _ E1).
  destruct (next_of_insert g n nth (addr_of s) h' (length qs) Hok ltac:(congruence) Eg Hpos En) as (Hok1 & Hs1 & Ho1).
  set (nth1 := setHandlers _ nth) in *.
  assert (Hrest : ∀ e, e ∈ L → next_of n nth1 (addr_of e.1) = next_of n nth (addr_of e.1)).
  { intros e He. apply Ho1. intros E. apply Hk, list_elem_of_fmap. by exists e. }
  destruct (IH nth1 (stamp_all g (next_of n nth (addr_of s)) qs hp) w1) as (nth2 & w2 & E2 & Hok2 & Hin2 & Ho2); try done.
  - intros e He. rewrite Hrest by done. apply Ha. by right.
  - intros e p He Hin. by apply stamp_all_is_Some, (Hp e p); [right|].
  - exists nth2, w2. split_and!; [|done| |].
    + etrans; [exact E2|]. by rewrite (stamp_groups_ext _ _ (next_of n nth ∘ addr_of)).
    + intros e [->|He]%elem_of_cons; [by rewrite Ho2|]. by rewrite Hin2, Hrest.
    + intros b [Hb Hb2]%not_elem_of_cons. by rewrite Ho2, Ho1.
Qed.

(** The position of a transaction among those of its sender. *)
Lemma from_lookup hp ps k p :
  ps !! k = Some p → from hp (sender_of hp p) ps !! length (from hp (sender_of hp p) (take k ps)) = Some p.
Proof.
  intros Hk. assert (E : from hp (sender_of hp p) ps = from hp (sender_of hp p) (take k ps)
    ++ p :: from hp (sender_of hp p) (drop (Datatypes.S k) ps)).
  { rewrite <-(take_drop_middle ps k p Hk) at 1. unfold from at 1. rewrite filter_app, filter_cons.
    by rewrite decide_True. }
  rewrite E. by rewrite lookup_app_r, Nat.sub_diag by lia.
Qed.

Lemma from_range `{MapRange (list ptr)} hp ps groups s qs :
  filterTransactionsBySenderAddress hp ps ∅ = Ok groups → (∀ p, p ∈ ps → is_Some (hp !! p)) →
  (s, qs) ∈ range groups ↔ qs = from hp s ps ∧ qs ≠ [].
Proof.
  intros E Hps. destruct (filterTransactions_run hp ps ∅ Hps) as (m' & E' & Hm).
  rewrite E in E'. injection E' as <-. rewrite map_range_elem, Hm, lookup_empty.
  destruct (from hp s ps); cbn; [by split; [|intros [-> []]]|]. split; [by intros [= <-]|by intros [-> _]].
Qed.

(** C8: One call of ApplyNonceAndGasPrice on transactions of many senders, mixed in any
    order, on a new or a used handler: the transactions of each sender are numbered
    consecutively in the order of the arguments, from the account nonce when the handler
    of the sender is new or has forgotten its nonce after a failed send, else from one
    above the last nonce it gave, whatever order the Go map of senders is visited in;
    every gas price is raised to the network's, other transactions are not touched, and
    the next call goes on where this one ended.  Every sender is written in one way, its
    numbers stay below [2^63], and the network's nonces and gas price do not change
    meanwhile. *)
Theorem ApplyNonceAndGasPrice_numbers `{MapRange (list ptr)} (n : address → Z) (g : Z)
    (ps : list ptr) (nth : nonceTransactionsHandlerV3) (hp : txheap) (w : W) :
  (∀ a, ConstantNonce W a (n a)) → ConstantGasPrice W g → owner_ok g nth →
  NoDup ps → (∀ p, p ∈ ps → is_Some (hp !! p)) →
  (∀ p, p ∈ ps → ∃ a, NewAddressFromBech32String (sender_of hp p) = Ok a ∧
                      0 ≤ n a ∧ next_of n nth a + Z.of_nat (length ps) ≤ 2 ^ 63) →
  (∀ p q, p ∈ ps → q ∈ ps → handlerKey (addr_of (sender_of hp p)) = handlerKey (addr_of (sender_of hp q)) →
          sender_of hp p = sender_of hp q) →
  ∃ nth' hp' w', ApplyNonceAndGasPrice_all (Some ps) (nth, (hp, w)) = (Ok (), (nth', (hp', w'))) ∧
    owner_ok g nth' ∧
    (∀ q, q ∉ ps → hp' !! q = hp !! q) ∧
    ∀ k p, ps !! k = Some p →
      let a := addr_of (sender_of hp p) in
      let before := length (from hp (sender_of hp p) (take k ps)) in
      hp' !! p = Some (stamp g (next_of n nth a + Z.of_nat before) (heap_tx hp p)) ∧
      next_of n nth' a = next_of n nth a + Z.of_nat (length (from hp (sender_of hp p) ps)).
Proof.
  intros Hc Hg Hok Hnd Hps Ha Hinj.
  destruct (filterTransactions_run hp ps ∅ Hps) as (groups & Eg & _).
  pose proof (λ s qs, from_range hp ps groups s qs Eg Hps) as Hin.
  assert (Hsub : ∀ e, e ∈ range groups → ∃ p, p ∈ ps ∧ sender_of hp p = e.1 ∧ e.2 = from hp e.1 ps).
  { intros [s qs] [-> Hne]%Hin. destruct (from hp s ps) as [|p qs] eqn:E; [done|].
    assert (Hp : p ∈ from hp s ps) by (rewrite E; by left). apply list_elem_of_filter in Hp as [Hs Hp].
    exists p. by rewrite <-E. }
  destruct (groups_run n g (range groups) nth hp w Hc Hg Hok) as (nth' & w' & E & Hok' & Hnext & _).
  - intros e He. destruct (Hsub e He) as (p & Hp & Hs & ->). destruct (Ha p Hp) as (a & Ea & Hn0 & Hn).
    unfold addr_of. rewrite <-Hs, Ea. split; [done|]. split; [done|].
    enough (length (from hp (sender_of hp p) ps) ≤ length ps)%nat by lia. apply length_filter.
  - intros e q He Hq. destruct (Hsub e He) as (p & Hp & Hs & E). rewrite E in Hq.
    apply list_elem_of_filter in Hq as [_ Hq]. by apply Hps.
  - apply (NoDup_fmap_fst_inj (λ s, handlerKey (addr_of s))); [|apply map_range_NoDup].
    intros e1 e2 He1 He2 E. destruct (Hsub e1 He1) as (p1 & Hp1 & E1 & _), (Hsub e2 He2) as (p2 & Hp2 & E2 & _).
    rewrite <-E1, <-E2 in E |- *. by apply Hinj.
  - exists nth', (stamp_groups g (next_of n nth ∘ addr_of) (range groups) hp), w'. split_and!; [|done| |].
    + unfold ApplyNonceAndGasPrice_all, gets, lift, mbind, M_bind. cbn [fst snd]. rewrite Eg. exact E.
    + intros q Hq. apply stamp_groups_other. intros e He Hqe. destruct (Hsub e He) as (p & _ & _ & Ee).
      rewrite Ee in Hqe. apply list_elem_of_filter in Hqe as [_ Hqe]. done.
    + intros k p Hk before. pose proof (from_lookup hp ps k p Hk) as Hfrom.
      assert (Hgroup : (sender_of hp p, from hp (sender_of hp p) ps) ∈ range groups)
        by (apply Hin; split; [done|]; intros E0; by rewrite E0 in Hfrom).
      split; [|exact (Hnext _ Hgroup)].
      apply (stamp_groups_at g (next_of n nth ∘ addr_of) (range groups) hp (sender_of hp p) (from hp (sender_of hp p) ps)).
      * exact Hgroup.
      * apply map_range_NoDup.
      * by apply NoDup_filter.
      * done.
      * intros e q He Hq. destruct (Hsub e He) as (p' & _ & _ & Ee). rewrite Ee in Hq.
        by apply list_elem_of_filter in Hq as [Hq _].
Qed.

(** After a failed send the cached nonce is forgotten, so the next
    transaction is numbered from the account nonce again; a successful one leaves it. *)
Theorem SendTransaction_failure_refetches (h : addressNonceHandler) (r : TransactionResponse) (n : Z)
    (hp : txheap) (w : W) :
  ConstantNonce W (address_ h) n → 0 ≤ n < 2 ^ 63 →
  match ResponseError r with
  | Some e => SendTransaction_resume (inr r) h = (Fail e, setNonce (-1) h) ∧
              ∃ w', computeNonce (setNonce (-1) h, (hp, w)) = (Ok n, (setNonce n h, (hp, w')))
  | None => SendTransaction_resume (inr r) h = (Ok (TxHash r), h)
  end.
Proof.
  intros Hc Hn. unfold SendTransaction_resume, adaptNonceBasedOnResponse, modify, mbind, M_bind, throw, mret, M_ret.
  destruct (ResponseError r) as [e|]; [|done]. split; [done|].
  apply (computeNonce_run n n (setNonce (-1) h)); [done|lia..|by left].
Qed.

(** C20: one failed send takes back the nonces of the others: transactions are numbered
    from the account nonce [n] on and sent; one of them fails, so that the account
    stays at [n]; then the next transactions get the same nonces again, those of the
    transactions that were accepted and wait for theirs included. *)
Theorem failure_gives_nonces_again (a : address) (n g : Z) (ps qs : list ptr) (hash : string) (e : error)
    (hp : txheap) (w : W) :
  ConstantNonce W a n → ConstantGasPrice W g → 0 ≤ n →
  n + Z.of_nat (length ps) ≤ 2 ^ 63 → n + Z.of_nat (length qs) ≤ 2 ^ 63 →
  NoDup ps → NoDup qs → (∀ p, p ∈ ps → p ∉ qs) → (∀ p, p ∈ ps ++ qs → is_Some (hp !! p)) →
  ∃ h1 hp1 w1 h2 h3 hp2 w2,
    ApplyNonceAndGasPrice ps (mkAnh a (-1) 0, (hp, w)) = (Ok (), (h1, (hp1, w1))) ∧
    SendTransaction_resume (inr (mkResponse hash (Some e))) h1 = (Fail e, h2) ∧
    ApplyNonceAndGasPrice qs (h2, (hp1, w1)) = (Ok (), (h3, (hp2, w2))) ∧
    (∀ k p, ps !! k = Some p → tx_Nonce (heap_tx hp2 p) = n + Z.of_nat k) ∧
    (∀ k q, qs !! k = Some q → tx_Nonce (heap_tx hp2 q) = n + Z.of_nat k).
Proof.
  intros Hc Hg Hn Hp Hq Hnp Hnq Hd Hs.
  destruct (applyAll_run n g ps n (mkAnh a (-1) 0) hp w) as (h1 & w1 & E1 & Ea & Eg & _); try done;
    [by left|by left|intros p Hin; apply Hs, elem_of_app; by left|].
  destruct (applyAll_run n g qs n (setNonce (-1) h1) (stamp_all g n ps hp) w1) as (h3 & w2 & E2 & _); try done.
  { cbn. by rewrite Ea. }
  { by left. }
  { intros q Hin. apply stamp_all_is_Some, Hs, elem_of_app. by right. }
  eexists h1, _, w1, _, h3, _, w2. split; [exact E1|]. split; [reflexivity|]. split; [exact E2|]. split.
  - intros k p Hk. unfold heap_tx. rewrite stamp_all_other by (eapply Hd, list_elem_of_lookup_2, Hk).
    by rewrite (stamp_all_at g n ps _ k).
  - intros k q Hk. unfold heap_tx. by rewrite (stamp_all_at g n qs _ k).
Qed.

(** When the gas price is not known yet and the network configuration cannot
    be fetched, ApplyNonceAndGasPrice panics on the nil configuration instead of returning
    the error it has logged. *)
Theorem Apply_panics_without_config (h : addressNonceHandler) (p : ptr) (tx : FrontendTransaction)
    (hp : txheap) (w : W) (n : Z) :
  ConstantNonce W (address_ h) n → 0 ≤ n < 2 ^ 63 → nonce h = -1 →
  gasPrice h = 0 → hp !! p = Some tx → (∀ w, ∃ e w', px_GetNetworkConfig w = (Fail e, w')) →
  (ApplyNonceAndGasPrice [p] (h, (hp, w))).1 = Panic.
Proof.
  intros Hc Hn Hm Hg Hp Hfail. unfold ApplyNonceAndGasPrice. cbn [mfor]. unfold mbind, M_bind, wrapping.
  destruct (computeNonce_run n n h hp w Hc) as [w1 ->]; [lia..|by left|].
  unfold write at 1, gets, mbind, M_bind. cbn [fst snd]. rewrite Hp. cbn [deref].
  unfold onsnd, onfst, modify. cbn [fst snd].
  unfold applyGasPriceIfRequired, gets, mbind, M_bind. cbn [fst snd gasPrice setNonce]. rewrite Hg. cbn.
  destruct (Hfail w1) as (e & w2 & E). unfold try, net_call, onsnd. by rewrite E.
Qed.
End Theorems.

(** ** Concrete runs: two senders, mixed *)

#[local] Existing Instances map_to_list_rangeZ map_to_list_range.

Definition alice : string := hex_EncodeToString (replicate 32 x01).
Definition bob : string := hex_EncodeToString (replicate 32 x02).
Definition witness_tx (s : string) : FrontendTransaction := tx_setSender s emptyTx.
Definition witness_heap : txheap :=
  {[1%positive := witness_tx alice; 2%positive := witness_tx bob; 3%positive := witness_tx alice]}.
(** The handler of alice has given the nonces up to 11; bob has none. *)
Definition witness_nth : nonceTransactionsHandlerV3 :=
  let a := mkAddress (replicate 32 x01) in mkNth {[handlerKey a := mkAnh a 11 1000]} 1000000 [].

Lemma witness_range (P : positive → Prop) (ps : list positive) : Forall P ps → ∀ p, p ∈ ps → P p.
Proof. apply Forall_forall. Qed.

Lemma ApplyNonceAndGasPrice_numbers_witness :
  ∃ nth' hp' w',
    @ApplyNonceAndGasPrice_all net (frozen_proxy 7) hexConverter _ (Some [1; 2; 3]%positive)
      (witness_nth, (witness_heap, emptyNet)) = (Ok (), (nth', (hp', w'))) ∧
    hp' !! 1%positive = Some (stamp 1000 12 (witness_tx alice)) ∧
    hp' !! 2%positive = Some (stamp 1000 7 (witness_tx bob)) ∧
    hp' !! 3%positive = Some (stamp 1000 13 (witness_tx alice)) ∧
    next_of (λ _, 7) nth' (mkAddress (replicate 32 x01)) = 14 ∧ next_of (λ _, 7) nth' (mkAddress (replicate 32 x02)) = 8.
Proof.
  destruct (@ApplyNonceAndGasPrice_numbers net (frozen_proxy 7) hexConverter _ (λ _, 7) frozen_gas
    [1; 2; 3]%positive witness_nth witness_heap emptyNet) as (nth' & hp' & w' & E & _ & _ & Hat).
  - intros a. apply frozen_constant.
  - apply frozen_gas_constant.
  - unfold owner_ok, witness_nth. cbn [handlers]. intros k h [<- <-]%lookup_singleton_Some. split_and!; [reflexivity|cbn; lia|by right].
  - apply (bool_decide_unpack _). vm_compute. exact I.
  - apply witness_range. repeat constructor; vm_compute; eauto.
  - apply witness_range. repeat constructor; eexists; (split; [vm_compute; reflexivity|split; [lia|vm_compute; discriminate]]).
  - intros p q Hp Hq. apply list_elem_of_In in Hp, Hq. cbn in Hp, Hq.
    destruct_or? Hp; destruct_or? Hq; subst; try done; vm_compute; congruence.
  - destruct (Hat 0%nat 1%positive eq_refl), (Hat 1%nat 2%positive eq_refl), (Hat 2%nat 3%positive eq_refl).
    exists nth', hp', w'. by split_and!.
Defined.

Lemma SendTransaction_failure_refetches_witness :
  SendTransaction_resume (inr (mkResponse "" (Some ErrWorkerClosed))) (mkAnh (mkAddress []) 12 5)
  = (Fail ErrWorkerClosed, mkAnh (mkAddress []) (-1) 5) ∧
  ∃ w', @computeNonce net (frozen_proxy 7) (mkAnh (mkAddress []) (-1) 5, (∅, emptyNet))
        = (Ok 7, (mkAnh (mkAddress []) 7 5, (∅, w'))).
Proof.
  apply (@SendTransaction_failure_refetches net (frozen_proxy 7) (mkAnh (mkAddress []) 12 5)
    (mkResponse "" (Some ErrWorkerClosed)) 7 ∅ emptyNet (frozen_constant _ _)). lia.
Defined.

(** Two transactions, then one failure, then two more. *)
Lemma failure_gives_nonces_again_witness :
  let hp : txheap := foldr (λ p m, <[p := emptyTx]> m) ∅ [1; 2; 3; 4]%positive in
  ∃ h1 hp1 w1 h2 h3 hp2 w2,
    @ApplyNonceAndGasPrice net (frozen_proxy 7) [1; 2]%positive (mkAnh (mkAddress []) (-1) 0, (hp, emptyNet)) = (Ok (), (h1, (hp1, w1))) ∧
    SendTransaction_resume (inr (mkResponse "" (Some ErrWorkerClosed))) h1 = (Fail ErrWorkerClosed, h2) ∧
    @ApplyNonceAndGasPrice net (frozen_proxy 7) [3; 4]%positive (h2, (hp1, w1)) = (Ok (), (h3, (hp2, w2))) ∧
    (∀ k p, [1; 2]%positive !! k = Some p → tx_Nonce (heap_tx hp2 p) = 7 + Z.of_nat k) ∧
    (∀ k q, [3; 4]%positive !! k = Some q → tx_Nonce (heap_tx hp2 q) = 7 + Z.of_nat k).
Proof.
  intros hp. apply (@failure_gives_nonces_again net (frozen_proxy 7) (mkAddress []) 7 frozen_gas [1; 2]%positive [3; 4]%positive
    "" ErrWorkerClosed hp emptyNet (frozen_constant _ _) (frozen_gas_constant _)); [lia|cbn; lia|cbn; lia|..].
  - apply (bool_decide_unpack _). vm_compute. done.
  - apply (bool_decide_unpack _). vm_compute. done.
  - intros p. rewrite !elem_of_cons, !elem_of_nil. intros ? ?. naive_solver.
  - intros p. cbn. rewrite !elem_of_cons, elem_of_nil. intros Hp. destruct_or? Hp; subst; vm_compute; eauto; done.
Defined.

(** The frozen network without a configuration. *)
Definition no_config_proxy (n : Z) : InteractorProxy net := {|
  px_GetNetworkConfig := throw (ErrText "timeout");
  px_GetAccount _ := gets (λ _, Some (simpleAccount n "0"));
  px_SendTransaction _ := throw (ErrText "timeout");
  px_SendTransactions _ := throw (ErrText "timeout") |}.

Lemma no_config_constant n a : @ConstantNonce net (no_config_proxy n) a n.
Proof. split. intros w. by exists (simpleAccount n "0"), w. Qed.

Lemma Apply_panics_without_config_witness :
  (@ApplyNonceAndGasPrice net (no_config_proxy 7) [1%positive]
     (mkAnh (mkAddress []) (-1) 0, (witness_heap, emptyNet))).1 = Panic.
Proof.
  apply (@Apply_panics_without_config net (no_config_proxy 7) (mkAnh (mkAddress []) (-1) 0) 1%positive
    (witness_tx alice) witness_heap emptyNet 7 (no_config_constant _ _)); [lia|reflexivity|reflexivity|vm_compute; reflexivity|].
  intros w. exists (ErrText "timeout"), w. reflexivity.
Defined.

Lemma SendTransactions_hashes_in_place_witness :
  (SendTransactions_wait [(1%nat, inr "b"); (2%nat, inl ErrWorkerClosed); (0%nat, inr "a")] (replicate 3 "") None).1 !! 0%nat
  = Some "a".
Proof.
  apply (SendTransactions_hashes_in_place 3 [(1%nat, inr "b"); (2%nat, inl ErrWorkerClosed); (0%nat, inr "a")]).
  - apply (bool_decide_unpack _). vm_compute. exact I.
  - lia.
  - right. right. left.
Defined.
