(* ===== verification/SendFlow.v ===== *)
(** * Sending through the version 3 handlers
    ([interactors/nonceHandlerV3/]: [SendTransactions] and the workers)

    [NonceV3] has the loop of [SendTransactions] and its [group.Wait] as functions, and
    [Worker] the worker of one address.  Here they run together: any number of calls of
    [SendTransactions], the goroutines of their groups, the worker goroutine of every
    address and the callers of [ApplyNonceAndGasPrice], one event at a time in any
    order.  [getOrCreateAddressNonceHandler] is one event ([NthFlow] has its two
    critical sections).  [s_net] records what the network was asked to send and what it
    answered. *)

From S2P Require Export NonceV3.

(** ** The goroutine of one worker, as a function *)

Inductive worker_event := Tick | Retrieve | Network (resp : TransactionResponse) | Answer | Cancel | CloseAll (e : error).

Definition worker_do `{MapRangeZ chan} (ev : worker_event) (w : wstate) : option wstate :=
  let '(mkW tw go chs q) := w in
  match ev, go with
  | Tick, Waiting =>
    match nextTransaction tw with
    | Ok (None, tw') => Some (mkW tw' Waiting chs q)
    | Ok (Some tx, tw') => Some (mkW tw' (Popped tx) chs q)
    | _ => None
    end
  | Retrieve, Popped tx => let '(r, tw') := retrieveChannel (tx_Nonce tx) tw in Some (mkW tw' (Retrieved tx r) chs q)
  | Network resp, Retrieved tx r => Some (mkW tw (Answering tx r resp) chs q)
  | Answer, Answering tx (Some c) resp => chs' ← ch_send c resp chs; Some (mkW tw Waiting chs' q)
  | Cancel, Waiting => Some (mkW tw Stopping chs q)
  | CloseAll e, Stopping => '(tw', chs') ← closeAllChannels e tw chs; Some (mkW tw' Stopped chs' q)
  | _, _ => None
  end.

Definition fresh_worker : wstate := mkW (mkWorker [] false ∅) Waiting (mkChannels ∅ 1%positive []) ∅.

(** ** The calls *)

(** A goroutine of the group: before its [AddTransaction], in the select, with the
    response, with the result of [SendTransaction], after its return. *)
Inductive task_pc :=
  | Starting
  | Selecting
  | Received (r : TransactionResponse)
  | Returning (r : error + string)
  | Ended (r : error + string).

(** [t_chan] is the channel [AddTransaction] answered. *)
Record task := mkTask {
  t_address : address;
  t_tx : FrontendTransaction;
  t_chan : option chan;
  t_pc : task_pc }.

Definition t_key (t : task) : string := handlerKey (t_address t).
Definition at_pc (pc : task_pc) (t : task) : task := mkTask (t_address t) (t_tx t) (t_chan t) pc.

(** The goroutine of the caller: in the loop, at [group.Wait], returned. *)
Inductive main_pc :=
  | Looping (i : nat)
  | AtWait
  | Returned (sentHashes : list string) (err : option error).

Record call := mkCall {
  c_txs : list (option FrontendTransaction);
  c_main : main_pc;
  c_tasks : gmap nat task;
  c_hashes : list string;
  c_err : option error }.

Definition set_main (m : main_pc) (c : call) : call := mkCall (c_txs c) m (c_tasks c) (c_hashes c) (c_err c).
Definition set_task (i : nat) (t : task) (c : call) : call :=
  mkCall (c_txs c) (c_main c) (<[i := t]> (c_tasks c)) (c_hashes c) (c_err c).

(** The [return] at the end of a goroutine of the group: the write of the hash, or the
    error the group keeps if it is the first. *)
Definition end_task (i : nat) (t : task) (r : error + string) (c : call) : call :=
  let '(hs, err) := SendTransactions_wait [(i, r)] (c_hashes c) (c_err c) in
  mkCall (c_txs c) (c_main c) (<[i := at_pc (Ended r) t]> (c_tasks c)) hs err.

Record request := mkRequest { rq_key : string; rq_chan : option chan; rq_tx : FrontendTransaction; rq_resp : TransactionResponse }.

Record sends := mkSends {
  s_nth : nonceTransactionsHandlerV3;
  s_workers : gmap string wstate;
  s_calls : gmap nat call;
  s_net : list request }.

Definition set_call (id : nat) (c : call) (s : sends) : sends :=
  mkSends (s_nth s) (s_workers s) (<[id := c]> (s_calls s)) (s_net s).
Definition set_worker (k : string) (w : wstate) (s : sends) : sends :=
  mkSends (s_nth s) (<[k := w]> (s_workers s)) (s_calls s) (s_net s).

Definition goroutine_of (s : sends) (id i : nat) : option task := c ← s_calls s !! id; c_tasks c !! i.

(** The constructor of a handler starts its worker. *)
Definition with_worker (a : address) (ws : gmap string wstate) : gmap string wstate :=
  match ws !! handlerKey a with Some _ => ws | None => <[handlerKey a := fresh_worker]> ws end.

Section Sends.
Context `{PubkeyConverter} `{MapRangeZ chan}.

(** One iteration of the loop of [SendTransactions], or its end. *)
Definition loop_body (id i : nat) (c : call) (s : sends) : option sends :=
  match c_txs c !! i with
  | None => Some (set_call id (set_main AtWait c) s)
  | Some None => Some (set_call id (set_main (Returned [] (Some ErrNilTransaction)) c) s)
  | Some (Some txCopy) =>
    match NewAddressFromBech32String (tx_Sender txCopy) with
    | Panic => None
    | Fail e => Some (set_call id (set_main (Returned [] (Some (ErrWrap e "while creating address handler for string"))) c) s)
    | Ok a =>
      match getOrCreateAddressNonceHandler a (mret ()) (s_nth s, ()) with
      | (Panic, _) => None
      | (Fail e, _) => Some (set_call id (set_main (Returned [] (Some e)) c) s)
      | (Ok _, (nth, _)) =>
        Some (mkSends nth (with_worker a (s_workers s))
                (<[id := set_main (Looping (S i)) (set_task i (mkTask a txCopy None Starting) c)]> (s_calls s)) (s_net s))
      end
    end
  end.

(** [AddTransaction] *)
Definition task_add (id i : nat) (c : call) (t : task) (s : sends) : option sends :=
  w ← s_workers s !! t_key t;
  match AddTransaction (t_tx t) (w_tw w) (w_chs w) with
  | Ok (Some (r, (tw, chs))) =>
    Some (set_worker (t_key t) (mkW tw (w_go w) chs (<[r := t_tx t]> (w_asked w)))
            (set_call id (set_task i (mkTask (t_address t) (t_tx t) (Some r) Selecting) c) s))
  | _ => None
  end.

(** The select: the response, or the end of the caller's context. *)
Definition task_receive (id i : nat) (c : call) (t : task) (s : sends) : option sends :=
  w ← s_workers s !! t_key t;
  ch ← t_chan t;
  '(r, chs) ← ch_receive ch (w_chs w);
  Some (set_worker (t_key t) (mkW (w_tw w) (w_go w) chs (w_asked w)) (set_call id (set_task i (at_pc (Received r) t) c) s)).

Definition result {A} (o : outcome A) : option (error + A) :=
  match o with Ok a => Some (inr a) | Fail e => Some (inl e) | Panic => None end.

(** The rest of the handler's [SendTransaction]; its error is wrapped when the goroutine
    returns. *)
Definition task_resume (id i : nat) (selected : error + TransactionResponse) (c : call) (t : task) (s : sends) : option sends :=
  h ← handlers (s_nth s) !! t_key t;
  let '(o, h) := SendTransaction_resume selected h in
  r ← result o;
  Some (mkSends (setHandlers (<[t_key t := h]> (handlers (s_nth s))) (s_nth s)) (s_workers s)
          (<[id := set_task i (at_pc (Returning r) t) c]> (s_calls s)) (s_net s)).

Definition asked_network (k : string) (w w' : wstate) : list request :=
  match w_go w, w_go w' with Retrieved _ _, Answering tx r resp => [mkRequest k r tx resp] | _, _ => [] end.

Definition all_ended (c : call) : bool :=
  forallb (λ i, match c_tasks c !! i with Some t => match t_pc t with Ended _ => true | _ => false end | None => false end)
    (seq 0 (length (c_txs c))).

Inductive event :=
  | Call (id : nat) (txs : list (option FrontendTransaction))
  | Runs (id : nat)
  | Goes (id i : nat)
  | CtxDone (id i : nat) (e : error)
  | Works (k : string) (ev : worker_event)
  | Numbers (k : string) (n g : Z).

Definition do_event (ev : event) (s : sends) : option sends :=
  match ev with
  | Call id txs =>
    match s_calls s !! id with
    | Some _ => None
    | None => Some (set_call id (mkCall txs (Looping 0) ∅ (replicate (length txs) "") None) s)
    end
  | Runs id =>
    c ← s_calls s !! id;
    match c_main c with
    | Looping i => loop_body id i c s
    | AtWait => if all_ended c then Some (set_call id (set_main (Returned (c_hashes c) (c_err c)) c) s) else None
    | Returned _ _ => None
    end
  | Goes id i =>
    c ← s_calls s !! id;
    t ← c_tasks c !! i;
    match t_pc t with
    | Starting => task_add id i c t s
    | Selecting => task_receive id i c t s
    | Received r => task_resume id i (inr r) c t s
    | Returning r => Some (set_call id (end_task i t r c) s)
    | Ended _ => None
    end
  | CtxDone id i e =>
    c ← s_calls s !! id;
    t ← c_tasks c !! i;
    match t_pc t with Selecting => task_resume id i (inl e) c t s | _ => None end
  | Works k ev =>
    w ← s_workers s !! k;
    w' ← worker_do ev w;
    Some (mkSends (s_nth s) (<[k := w']> (s_workers s)) (s_calls s) (s_net s ++ asked_network k w w'))
  | Numbers k n g =>
    h ← handlers (s_nth s) !! k;
    Some (mkSends (setHandlers (<[k := mkAnh (address_ h) n g]> (handlers (s_nth s))) (s_nth s)) (s_workers s) (s_calls s) (s_net s))
  end.

Definition sends_step (s s' : sends) : Prop := ∃ ev, do_event ev s = Some s'.

Fixpoint exec (evs : list event) (s : sends) : option sends :=
  match evs with [] => Some s | ev :: evs => s ← do_event ev s; exec evs s end.

(** After [NewNonceTransactionHandlerV3]. *)
Definition no_sends (interval : Z) : sends := mkSends (mkNth ∅ interval []) ∅ ∅ [].

Lemma sends_exec_sound evs s s' : exec evs s = Some s' → rtc sends_step s s'.
Proof.
  revert s. induction evs as [|ev evs IH]; intros s; cbn; [by intros [= <-]|].
  destruct (do_event ev s) as [s1|] eqn:E; cbn; [|done]. intros Er.
  eapply rtc_l; [by exists ev|by apply IH].
Qed.

(** ** The invariant *)

(** What is in a channel of capacity one without an error was answered by the network
    for the transaction the channel was handed out for; and every request of this key
    has a channel that was handed out for its transaction and is answered, or about to. *)
Record worker_ok (k : string) (net : list request) (w : wstate) : Prop := {
  wo_inv : w_inv w;
  wo_buffer c r : r ∈ ch_contents c (w_chs w) → ResponseError r = None →
    ∃ tx, w_asked w !! c = Some tx ∧ mkRequest k (Some c) tx r ∈ net;
  wo_answering tx r resp : w_go w = Answering tx r resp → mkRequest k r tx resp ∈ net;
  wo_request e : e ∈ net → rq_key e = k → ∃ c, rq_chan e = Some c ∧ w_asked w !! c = Some (rq_tx e) ∧
    (c ∈ (ch_log (w_chs w)).*1 ∨ ∃ tx resp, w_go w = Answering tx (Some c) resp) }.

(** The answer of the network to the request a task made. *)
Definition answered (net : list request) (t : task) (r : TransactionResponse) : Prop :=
  ∃ c, mkRequest (t_key t) (Some c) (t_tx t) r ∈ net.

Record task_ok (ws : gmap string wstate) (net : list request) (t : task) : Prop := {
  to_address : NewAddressFromBech32String (tx_Sender (t_tx t)) = Ok (t_address t);
  to_worker : is_Some (ws !! t_key t);
  to_starting : t_pc t = Starting → t_chan t = None;
  to_chan c : t_chan t = Some c → ∃ w, ws !! t_key t = Some w ∧ w_asked w !! c = Some (t_tx t);
  to_selecting : t_pc t = Selecting → is_Some (t_chan t);
  to_received r : t_pc t = Received r → ResponseError r = None → answered net t r;
  to_hash h : t_pc t = Returning (inr h) ∨ t_pc t = Ended (inr h) → answered net t (mkResponse h None) }.

Record call_ok (c : call) : Prop := {
  co_length : length (c_hashes c) = length (c_txs c);
  co_task i t : c_tasks c !! i = Some t → c_txs c !! i = Some (Some (t_tx t));
  co_hash i t h : c_tasks c !! i = Some t → t_pc t = Ended (inr h) → c_hashes c !! i = Some h;
  co_err i t e : c_tasks c !! i = Some t → t_pc t = Ended (inl e) → c_err c ≠ None;
  co_looping i j : c_main c = Looping i → is_Some (c_tasks c !! j) → (j < i)%nat;
  co_returned hs : c_main c = Returned hs None → hs = c_hashes c ∧ c_err c = None ∧ all_ended c = true }.

Definition origin (e : request) : string * option chan := (rq_key e, rq_chan e).

(** The goroutine that asked for what is sent. *)
Definition asked_by (s : sends) (id i : nat) (k : string) (c : chan) (tx : FrontendTransaction) : Prop :=
  ∃ t, goroutine_of s id i = Some t ∧ t_key t = k ∧ t_chan t = Some c ∧ t_tx t = tx.

Record sends_ok (s : sends) : Prop := {
  so_worker k w : s_workers s !! k = Some w → worker_ok k (s_net s) w;
  so_net e : e ∈ s_net s → is_Some (s_workers s !! rq_key e);
  so_once : NoDup (origin <$> s_net s);
  so_call id c : s_calls s !! id = Some c → call_ok c;
  so_task id i t : goroutine_of s id i = Some t → task_ok (s_workers s) (s_net s) t;
  so_asked k w c tx : s_workers s !! k = Some w → w_asked w !! c = Some tx → ∃ id i, asked_by s id i k c tx }.

(** What was asked stays asked, and the record of the network grows. *)
Lemma task_ok_mono ws ws' net net' t :
  (∀ k w, ws !! k = Some w → ∃ w', ws' !! k = Some w' ∧ w_asked w ⊆ w_asked w') → net ⊆ net' →
  task_ok ws net t → task_ok ws' net' t.
Proof.
  intros Hw Hn [Ha [w Ew] Hst Hch Hse Hre Hh]. split; [done| |done| |done|..].
  - destruct (Hw _ _ Ew) as (w' & Ew' & _). by exists w'.
  - intros c (w1 & E1 & Hc)%Hch. destruct (Hw _ _ E1) as (w' & Ew' & Hsub). exists w'. split; [done|]. by eapply lookup_weaken.
  - intros r E1 E2. destruct (Hre r E1 E2) as [c Hc]. exists c. by apply Hn.
  - intros h E1. destruct (Hh h E1) as [c Hc]. exists c. by apply Hn.
Qed.

Lemma task_ok_at ws net t pc :
  task_ok ws net t → pc ≠ Starting → pc ≠ Selecting →
  (∀ r, pc = Received r → ResponseError r = None → answered net t r) →
  (∀ h, pc = Returning (inr h) ∨ pc = Ended (inr h) → answered net t (mkResponse h None)) → task_ok ws net (at_pc pc t).
Proof. intros [Ha Hw Hst Hch Hse _ _] H1 H2 Hre Hh. by split. Qed.

Lemma goroutine_set_call id c s j i :
  goroutine_of (set_call id c s) j i = if decide (id = j) then c_tasks c !! i else goroutine_of s j i.
Proof.
  unfold goroutine_of. cbn. destruct (decide (id = j)) as [->|Hne]; [by rewrite lookup_insert_eq|].
  by rewrite lookup_insert_ne.
Qed.

Lemma goroutine_in s id c i : s_calls s !! id = Some c → goroutine_of s id i = c_tasks c !! i.
Proof. unfold goroutine_of. by intros ->. Qed.

Lemma goroutine_set_task s id c c' i t' :
  s_calls s !! id = Some c → c_tasks c' = <[i := t']> (c_tasks c) →
  ∀ j a, goroutine_of (set_call id c' s) j a = if decide (id = j ∧ i = a) then Some t' else goroutine_of s j a.
Proof.
  intros Ec Ec' j a. rewrite goroutine_set_call, Ec'.
  destruct (decide (id = j)) as [<-|Hne], (decide (i = a)) as [<-|Hi]; case_decide as Hd; try tauto.
  - by rewrite lookup_insert_eq.
  - rewrite lookup_insert_ne by done. by rewrite (goroutine_in _ _ _ _ Ec).
Qed.

(** Another state of the calls: the goroutines keep their transactions and channels. *)
Lemma sends_ok_calls s s' :
  sends_ok s → s_workers s' = s_workers s → s_net s' = s_net s →
  (∀ id c, s_calls s' !! id = Some c → call_ok c) →
  (∀ id i t, goroutine_of s' id i = Some t → task_ok (s_workers s) (s_net s) t) →
  (∀ id i k c tx, asked_by s id i k c tx → asked_by s' id i k c tx) → sends_ok s'.
Proof.
  intros [Hw Hn Ho _ _ Ha] Ew En Hc Ht Hk. split; rewrite ?Ew, ?En; try done.
  intros k w c tx Ek Eq. destruct (Ha k w c tx Ek Eq) as (id & i & Hby). exists id, i. by apply Hk.
Qed.

(** The caller's goroutine moves. *)
Lemma sends_ok_main s id c m :
  sends_ok s → s_calls s !! id = Some c → call_ok (set_main m c) → sends_ok (set_call id (set_main m c) s).
Proof.
  intros Hok Ec Hc.
  assert (Hg : ∀ j i, goroutine_of (set_call id (set_main m c) s) j i = goroutine_of s j i).
  { intros j i. rewrite goroutine_set_call. case_decide; [subst j|done]. by rewrite (goroutine_in _ _ _ _ Ec). }
  eapply (sends_ok_calls s); [done..| | |].
  - cbn. intros j d [[<- <-]|[_ E]]%lookup_insert_Some; [done|by eapply (so_call _ Hok)].
  - intros j i t. rewrite Hg. by apply so_task.
  - intros j i k ch tx (t & Et & Hr). exists t. by rewrite Hg.
Qed.

(** A goroutine of the group moves, and keeps its transaction and channel. *)
Lemma sends_ok_task s id c c' i t t' nth :
  sends_ok s → s_calls s !! id = Some c → c_tasks c !! i = Some t →
  c_tasks c' = <[i := t']> (c_tasks c) → call_ok c' →
  t_key t' = t_key t → t_chan t' = t_chan t → t_tx t' = t_tx t → task_ok (s_workers s) (s_net s) t' →
  sends_ok (mkSends nth (s_workers s) (<[id := c']> (s_calls s)) (s_net s)).
Proof.
  intros Hok Ec Ei Ec' Hc Ek Eh Et Ht.
  set (s' := mkSends _ _ _ _).
  pose proof (goroutine_set_task s id c c' i t' Ec Ec' : ∀ j a, goroutine_of s' j a = _) as Hg.
  apply (sends_ok_calls s); [done..| | |].
  - cbn. intros j d [[<- <-]|[_ E]]%lookup_insert_Some; [done|by eapply (so_call _ Hok)].
  - intros j a t1. rewrite Hg. case_decide; [by intros [= <-]|by apply so_task].
  - intros j a k ch tx (t1 & Et1 & E1 & E2 & E3). unfold asked_by. rewrite Hg. case_decide as Hd; [|by exists t1].
    destruct Hd as [<- <-]. rewrite (goroutine_in _ _ _ _ Ec), Ei in Et1. injection Et1 as <-. exists t'. by rewrite Ek, Eh, Et.
Qed.

(** *** The workers *)

Lemma ch_send_inv c r chs chs' :
  ch_send c r chs = Some chs' →
  ch_log chs' = ch_log chs ++ [(c, r)] ∧
  ∀ d r', r' ∈ ch_contents d chs' → (d = c ∧ r' = r) ∨ r' ∈ ch_contents d chs.
Proof.
  unfold ch_send. destruct (ch_contents c chs); [|done]. intros [= <-]. split; [done|].
  intros d r'. unfold ch_contents. cbn. destruct (decide (d = c)) as [->|Hne].
  - rewrite lookup_insert_eq. cbn. intros ->%list_elem_of_singleton. by left.
  - rewrite lookup_insert_ne by done. by right.
Qed.

Lemma send_to_all_inv cs r chs chs' :
  send_to_all cs r chs = Some chs' →
  ch_log chs ⊆ ch_log chs' ∧ ∀ d r', r' ∈ ch_contents d chs' → r' = r ∨ r' ∈ ch_contents d chs.
Proof.
  revert chs. induction cs as [|c cs IH]; intros chs; cbn; [intros [= <-]; by auto|].
  destruct (ch_send c r chs) as [chs1|] eqn:E; cbn; [|done]. intros [Hl Hc]%IH.
  apply ch_send_inv in E as [El Ec]. rewrite El in Hl. split; [intros x Hx; apply Hl, elem_of_app; by left|].
  intros d r' [?|[[_ ?]|?]%Ec]%Hc; by auto.
Qed.

Lemma ch_receive_inv c r chs chs' :
  ch_receive c chs = Some (r, chs') →
  r ∈ ch_contents c chs ∧ ch_log chs' = ch_log chs ∧ ∀ d r', r' ∈ ch_contents d chs' → r' ∈ ch_contents d chs.
Proof.
  unfold ch_receive. destruct (ch_contents c chs) as [|r0 rest] eqn:E; [done|]. intros [= <- <-].
  split_and!; [by left|done|]. intros d r'. unfold ch_contents at 1. cbn. destruct (decide (d = c)) as [->|Hne].
  - rewrite lookup_insert_eq, E. cbn. by right.
  - by rewrite lookup_insert_ne.
Qed.

Lemma worker_do_wstep ev w w' : worker_do ev w = Some w' → wstep w w'.
Proof.
  destruct w as [tw go chs q]. destruct ev, go; cbn; try done.
  - destruct (nextTransaction tw) as [[[tx|] tw']|e|] eqn:E; [..|done|done]; intros [= <-]; [by apply w_tick|by apply w_tick_empty].
  - intros [= <-]. by apply w_retrieve.
  - intros [= <-]. apply w_network.
  - destruct r as [c|]; cbn; [|done]. destruct (ch_send c resp chs) eqn:E; cbn; [|done]. intros [= <-]. by apply w_answer.
  - intros [= <-]. apply w_cancel.
  - destruct (closeAllChannels e tw chs) as [[tw' chs']|] eqn:E; cbn; [|done]. intros [= <-]. by eapply w_close.
Qed.

(** A channel in hand was not answered, and no request carries it yet. *)
Lemma retrieved_is_new k net tw tx c chs q :
  worker_ok k net (mkW tw (Retrieved tx (Some c)) chs q) → ∀ e, e ∈ net → origin e ≠ (k, Some c).
Proof.
  intros [Hi _ _ Hr] e He [= Ek Ec]. destruct (Hr e He Ek) as (c' & E' & _ & [Hl|(? & ? & [=])]).
  rewrite Ec in E'. injection E' as <-. pose proof (ci_nodup _ _ _ (wi_chs _ Hi)) as Hnd. cbn in Hnd.
  apply NoDup_cons in Hnd as [Hnd _]. apply Hnd, elem_of_app. by right.
Qed.

Lemma worker_do_asked ev w w' : worker_do ev w = Some w' → w_asked w' = w_asked w.
Proof.
  destruct w as [tw go chs q]. destruct ev, go; cbn; try done; try (by intros [= <-]).
  - by destruct (nextTransaction tw) as [[[?|] ?]| |]; intros [= <-].
  - destruct r as [c|]; cbn; [|done]. destruct (ch_send c resp chs); cbn; [|done]. by intros [= <-].
  - destruct (closeAllChannels e tw chs) as [[? ?]|]; cbn; [|done]. by intros [= <-].
Qed.

(** The steps of a worker that neither ask the network nor answer. *)
Lemma worker_ok_quiet k net w w' :
  worker_ok k net w → w_inv w' → w_asked w' = w_asked w → w_chs w' = w_chs w →
  (∀ tx r resp, w_go w ≠ Answering tx r resp) → (∀ tx r resp, w_go w' ≠ Answering tx r resp) → worker_ok k net w'.
Proof.
  intros [_ Hb _ Hr] Hi Ea Ec Hg Hg'. split; [done|..].
  - intros c r. rewrite Ea, Ec. apply Hb.
  - intros tx r resp E. by destruct (Hg' _ _ _ E).
  - intros e He Ek. destruct (Hr e He Ek) as (c & E1 & E2 & [E3|(? & ? & E3)]); [|by destruct (Hg _ _ _ E3)].
    exists c. rewrite Ea, Ec. by auto.
Qed.

Lemma asked_network_quiet k w w' :
  (∀ tx r resp, w_go w' ≠ Answering tx r resp) → asked_network k w w' = [].
Proof. unfold asked_network. intros Hg. destruct (w_go w), (w_go w') eqn:E; try done. by destruct (Hg _ _ _ eq_refl). Qed.

Lemma worker_do_ok k net ev w w' :
  worker_ok k net w → worker_do ev w = Some w' → NoDup (origin <$> net) →
  worker_ok k (net ++ asked_network k w w') w' ∧ NoDup (origin <$> net ++ asked_network k w w').
Proof.
  intros Hok E Hnd. pose proof (wstep_inv _ _ (worker_do_wstep _ _ _ E) (wo_inv _ _ _ Hok)) as Hi.
  assert (Hquiet : w_chs w' = w_chs w → (∀ tx r resp, w_go w ≠ Answering tx r resp) →
    (∀ tx r resp, w_go w' ≠ Answering tx r resp) →
    worker_ok k (net ++ asked_network k w w') w' ∧ NoDup (origin <$> net ++ asked_network k w w')).
  { intros Ec Hg Hg'. rewrite asked_network_quiet, app_nil_r by done. split; [|done].
    eapply worker_ok_quiet; [exact Hok|exact Hi|by eapply worker_do_asked|done..]. }
  destruct w as [tw go chs q]. destruct ev, go; cbn -[asked_network] in E; try done.
  - destruct (nextTransaction tw) as [[[tx|] tw']| |]; [..|done|done]; injection E as <-; by apply Hquiet.
  - injection E as <-. by apply Hquiet.
  - injection E as <-. destruct (wi_go _ Hi) as (c & -> & Eq). cbn in Eq. unfold asked_network. cbn [w_go].
    pose proof (retrieved_is_new _ _ _ _ _ _ _ Hok) as Hnew. destruct Hok as [_ Hb _ Hr]. cbn in Hb, Hr. split.
    + split; [done|..]; cbn.
      * intros d r Hd Hr0. destruct (Hb d r Hd Hr0) as (tx' & ? & ?). exists tx'. split; [done|]. apply elem_of_app. by left.
      * intros ? ? ? [= <- <- <-]. apply elem_of_app. right. by left.
      * intros e [He| ->%list_elem_of_singleton]%elem_of_app Ek; [|exists c; cbn; split_and!; [done..|right; by eauto]].
        destruct (Hr e He Ek) as (d & ? & ? & [?|(? & ? & [=])]). exists d. by auto.
    + rewrite fmap_app. apply NoDup_app. split_and!; [done| |apply NoDup_singleton].
      intros x (e & -> & He)%list_elem_of_fmap Hx%list_elem_of_singleton. by eapply Hnew.
  - destruct r as [c|]; cbn in E; [|done]. destruct (ch_send c resp chs) as [chs'|] eqn:Es; cbn -[asked_network] in E; [|done].
    injection E as <-. rewrite asked_network_quiet, app_nil_r by done. split; [|done].
    apply ch_send_inv in Es as [El Ec]. pose proof (wo_answering _ _ _ Hok _ _ _ eq_refl) as Hnet.
    destruct (wi_go _ (wo_inv _ _ _ Hok)) as (c0 & [= <-] & Eq). cbn in Eq. destruct Hok as [_ Hb _ Hr]. cbn in Hb, Hr.
    split; [done|..]; cbn.
    + intros d r [[-> ->]|Hd]%Ec Hr0; [by exists tx|by apply Hb].
    + done.
    + intros e He Ek. destruct (Hr e He Ek) as (d & E1 & E2 & Hd). exists d. split_and!; [done..|left].
      rewrite El, fmap_app. apply elem_of_app. destruct Hd as [?|(? & ? & [= <- <- <-])]; [by left|right; by left].
  - injection E as <-. by apply Hquiet.
  - destruct (closeAllChannels e tw chs) as [[tw' chs']|] eqn:Es; cbn -[asked_network] in E; [|done]. injection E as <-.
    rewrite asked_network_quiet, app_nil_r by done. split; [|done].
    unfold closeAllChannels in Es. destruct (send_to_all _ _ chs) as [chs1|] eqn:Ea; cbn in Es; [|done]. injection Es as <- <-.
    apply send_to_all_inv in Ea as [El Ec]. destruct Hok as [_ Hb _ Hr]. cbn in Hb, Hr. split; [done|..]; cbn.
    + intros d r [->|Hd]%Ec Hr0; [done|by apply Hb].
    + done.
    + intros e' He Ek. destruct (Hr e' He Ek) as (d & E1 & E2 & [E3|(? & ? & [=])]). exists d. split_and!; [done..|left].
      apply list_elem_of_fmap in E3 as (x & -> & Hx). by apply list_elem_of_fmap_2, El.
Qed.

Lemma AddTransaction_inv tx tw chs r tw' chs' :
  AddTransaction tx tw chs = Ok (Some (r, (tw', chs'))) →
  r = ch_next chs ∧ ch_log chs ⊆ ch_log chs' ∧
  ∀ d r', r' ∈ ch_contents d chs' → ResponseError r' ≠ None ∨ r' ∈ ch_contents d chs.
Proof.
  assert (Hrefuse : ∀ e, (chs1 ← ch_send (ch_next chs) (mkResponse "" (Some e)) (ch_make chs).2; Some (ch_next chs, (tw, chs1)))
    = Some (r, (tw', chs')) → r = ch_next chs ∧ ch_log chs ⊆ ch_log chs' ∧
      ∀ d r', r' ∈ ch_contents d chs' → ResponseError r' ≠ None ∨ r' ∈ ch_contents d chs).
  { intros e. destruct (ch_send _ _ _) as [chs1|] eqn:E; cbn; [|done]. intros [= <- <- <-].
    apply ch_send_inv in E as [El Ec]. split_and!; [done|rewrite El; intros x Hx; apply elem_of_app; by left|].
    intros d r' [[_ ->]|Hd]%Ec; [by left|by right]. }
  unfold AddTransaction. cbn [ch_make]. destruct (tw_workerClosed tw); [intros [= E]; by eapply Hrefuse|].
  destruct (tw_responsesChannels tw !! tx_Nonce tx); [intros [= E]; by eapply Hrefuse|].
  unfold mbind, outcome_bind. destruct (heap_Push (mkItem tx 0) (tw_tq tw)); [|done..].
  intros [= <- <- <-]. split_and!; [done|done|]. by right.
Qed.

Lemma AddTransaction_ok k net tx w r tw chs :
  worker_ok k net w → AddTransaction tx (w_tw w) (w_chs w) = Ok (Some (r, (tw, chs))) →
  w_asked w !! r = None ∧ worker_ok k net (mkW tw (w_go w) chs (<[r := tx]> (w_asked w))).
Proof.
  intros [Hi Hb Ha Hr] E. destruct w as [tw0 go chs0 q]. cbn [w_tw w_go w_chs w_asked] in *.
  destruct (AddTransaction_run tx _ _ _ _ Hi) as (r' & tw' & chs' & E' & Hi'). rewrite E in E'. injection E' as <- <- <-.
  apply AddTransaction_inv in E as (-> & Hl & Hc).
  assert (Hq : q !! ch_next chs0 = None).
  { destruct (q !! ch_next chs0) as [t|] eqn:Eq; [|done]. apply (wi_asked _ Hi) in Eq. cbn in Eq. lia. }
  assert (Hkeep : ∀ c t, q !! c = Some t → <[ch_next chs0 := tx]> q !! c = Some t)
    by (intros c t Ec; rewrite lookup_insert_ne; [done|congruence]).
  split; [done|]. split; cbn; [done| |done|].
  - intros c r' [Hne|Hc']%Hc Hr0; [done|]. destruct (Hb c r' Hc' Hr0) as (t & Et & Hn). eauto.
  - intros e He Ek. destruct (Hr e He Ek) as (c & E1 & E2 & E3). exists c. split_and!; [done|by apply Hkeep|].
    destruct E3 as [(x & -> & Hx)%list_elem_of_fmap|E3]; [left; by apply list_elem_of_fmap_2, Hl|by right].
Qed.

Lemma receive_ok k net w c r chs :
  worker_ok k net w → ch_receive c (w_chs w) = Some (r, chs) →
  worker_ok k net (mkW (w_tw w) (w_go w) chs (w_asked w)) ∧
  (ResponseError r = None → ∃ tx, w_asked w !! c = Some tx ∧ mkRequest k (Some c) tx r ∈ net).
Proof.
  intros [Hi Hb Ha Hr] E. destruct w as [tw go chs0 q]. cbn in *. pose proof (receive_run _ _ _ _ _ _ _ Hi E) as Hi'.
  apply ch_receive_inv in E as (Hin & El & Hc). split; [|by apply Hb]. split; cbn; [done| |done|by rewrite El].
  intros d r' Hd. by apply Hb, Hc.
Qed.

Lemma fresh_worker_ok k net : (∀ e, e ∈ net → rq_key e ≠ k) → worker_ok k net fresh_worker.
Proof.
  intros Hn. split; cbn; [|by intros c r ?%not_elem_of_nil|done|intros e He Ek; by destruct (Hn e He)].
  apply reachable_inv. by exists (mkWorker [] false ∅).
Qed.

(** *** The calls *)

Definition ended (pc : task_pc) : bool := match pc with Ended _ => true | _ => false end.

Lemma all_ended_at c i t : all_ended c = true → call_ok c → c_tasks c !! i = Some t → ended (t_pc t) = true.
Proof.
  unfold all_ended. intros He Hc Hi. rewrite forallb_forall in He.
  pose proof (co_task _ Hc _ _ Hi) as Hl%lookup_lt_Some. specialize (He i). rewrite Hi in He.
  apply He. rewrite in_seq. lia.
Qed.

Lemma call_ok_set_task c i t t' :
  call_ok c → c_tasks c !! i = Some t → t_tx t' = t_tx t → ended (t_pc t) = false → ended (t_pc t') = false →
  call_ok (set_task i t' c).
Proof.
  intros Hok Hi Et He He'. pose proof Hok as [Hl Ht Hh Hr Hlo Hre].
  split; cbn; [done|..].
  - intros j t1 [[<- <-]|[_ E]]%lookup_insert_Some; [rewrite Et|]; by apply Ht.
  - intros j t1 h [[<- <-]|[_ E]]%lookup_insert_Some E1; [by rewrite E1 in He'|by eapply Hh].
  - intros j t1 e [[<- <-]|[_ E]]%lookup_insert_Some E1; [by rewrite E1 in He'|by eapply Hr].
  - intros n j En [t1 [[<- _]|[_ E]]%lookup_insert_Some]; eapply Hlo; by eauto.
  - intros hs En. destruct (Hre hs En) as (_ & _ & Ha). pose proof (all_ended_at _ _ _ Ha Hok Hi) as Hc. by rewrite He in Hc.
Qed.

Lemma call_ok_end c i t r :
  call_ok c → c_tasks c !! i = Some t → ended (t_pc t) = false → call_ok (end_task i t r c).
Proof.
  intros Hok Hi He. pose proof Hok as [Hl Ht Hh Hr Hlo Hre].
  pose proof (co_task _ Hok _ _ Hi) as Hlen%lookup_lt_Some.
  assert (Hno : ∀ hs, c_main c ≠ Returned hs None).
  { intros hs En. destruct (Hre hs En) as (_ & _ & Ha). pose proof (all_ended_at _ _ _ Ha Hok Hi) as Hc. by rewrite He in Hc. }
  destruct r as [e|h]; split; cbn;
    try (intros j t1 [[<- <-]|[_ E]]%lookup_insert_Some; cbn; by apply Ht);
    try (intros n j En [t1 [[<- _]|[_ E]]%lookup_insert_Some]; eapply Hlo; by eauto);
    try (intros hs En; by destruct (Hno hs)).
  - done.
  - intros j t1 h [[<- <-]|[_ E]]%lookup_insert_Some E1; [done|by eapply Hh].
  - by destruct (c_err c).
  - by rewrite length_insert.
  - intros j t1 h' [[<- <-]|[Hne E]]%lookup_insert_Some E1.
    + injection E1 as <-. apply list_lookup_insert_eq. lia.
    + rewrite list_lookup_insert_ne by done. by eapply Hh.
  - intros j t1 e [[<- <-]|[_ E]]%lookup_insert_Some E1; [done|by eapply Hr].
Qed.

(** *** Every event keeps it *)

Lemma sends_ok_resume s id i selected c t s' :
  sends_ok s → s_calls s !! id = Some c → c_tasks c !! i = Some t → ended (t_pc t) = false →
  (∀ r, selected = inr r → ResponseError r = None → answered (s_net s) t r) →
  task_resume id i selected c t s = Some s' → sends_ok s'.
Proof.
  intros Hok Ec Ei He Hsel. unfold task_resume. destruct (handlers _ !! _) as [h|]; cbn; [|done].
  destruct (SendTransaction_resume selected h) as [o h'] eqn:Er. destruct (result o) as [r|] eqn:Eo; cbn; [|done]. intros [= <-].
  assert (Hg : goroutine_of s id i = Some t) by (by rewrite (goroutine_in _ _ _ _ Ec)).
  pose proof (so_task _ Hok _ _ _ Hg) as Ht.
  eapply (sends_ok_task s id c _ i t (at_pc (Returning r) t)); [done..| |done|done|done|].
  { eapply call_ok_set_task; [by eapply (so_call _ Hok)|done..]. }
  apply task_ok_at; [done..|]. intros h0 [[= ->]|[=]].
  destruct selected as [e|resp]; cbn in Er; [unfold throw in Er; injection Er as <- <-; cbn in Eo; congruence|].
  unfold mbind, M_bind, modify in Er. destruct (ResponseError resp) as [e|] eqn:Ee; cbn in Er; injection Er as <- _; cbn in Eo; [congruence|].
  injection Eo as <-. destruct (Hsel resp eq_refl Ee) as [ch Hch]. exists ch. destruct resp as [hash err]. cbn in *. by subst err.
Qed.

(** A worker is replaced by one that asks for at least as much. *)
Lemma sends_ok_worker s k w w' :
  sends_ok s → s_workers s !! k = Some w → worker_ok k (s_net s) w' → w_asked w' = w_asked w → sends_ok (set_worker k w' s).
Proof.
  intros Hok Ek Hw' Ea. pose proof Hok as [Hw Hn Ho Hc Ht Hb]. split; cbn; [| |done|done|..].
  - intros k1 w1 [[<- <-]|[_ E]]%lookup_insert_Some; [done|by apply Hw].
  - intros e He. apply lookup_insert_is_Some'. right. by apply Hn.
  - intros id i t Eg. eapply task_ok_mono; [|reflexivity|by eapply Ht].
    intros k1 w1 E1. destruct (decide (k1 = k)) as [->|Hne].
    + exists w'. rewrite lookup_insert_eq. split; [done|]. rewrite Ek in E1. injection E1 as <-. by rewrite Ea.
    + exists w1. by rewrite lookup_insert_ne.
  - intros k1 w1 c tx [[<- <-]|[_ E]]%lookup_insert_Some Eq; [|by eapply Hb]. rewrite Ea in Eq. by eapply Hb.
Qed.

Lemma sends_ok_receive s id i c t s' :
  sends_ok s → s_calls s !! id = Some c → c_tasks c !! i = Some t → t_pc t = Selecting →
  task_receive id i c t s = Some s' → sends_ok s'.
Proof.
  intros Hok Ec Ei Ep. unfold task_receive. destruct (s_workers s !! t_key t) as [w|] eqn:Ew; cbn; [|done].
  destruct (t_chan t) as [ch|] eqn:Eh; cbn; [|done]. destruct (ch_receive ch (w_chs w)) as [[r chs]|] eqn:Er; cbn; [|done]. intros [= <-].
  assert (Hg : goroutine_of s id i = Some t) by (by rewrite (goroutine_in _ _ _ _ Ec)).
  pose proof (so_task _ Hok _ _ _ Hg) as [Ha Hs _ Hch _ _ _].
  destruct (receive_ok _ _ _ _ _ _ (so_worker _ Hok _ _ Ew) Er) as [Hw' Hr].
  destruct (Hch _ Eh) as (w1 & E2 & E3). rewrite Ew in E2. injection E2 as <-.
  pose proof (sends_ok_worker _ _ _ _ Hok Ew Hw' eq_refl) as Hok1.
  pose proof (goroutine_in (set_worker (t_key t) (mkW (w_tw w) (w_go w) chs (w_asked w)) s) id c i Ec) as Hg1. rewrite Ei in Hg1.
  pose proof (so_task _ Hok1 _ _ _ Hg1) as Ht1.
  eapply (sends_ok_task _ id c _ i t (at_pc (Received r) t) (s_nth s) Hok1 Ec Ei); [done| |done|done|done|].
  { eapply call_ok_set_task; [by eapply (so_call _ Hok)|done|done|by rewrite Ep|done]. }
  apply task_ok_at; [done..| |by intros h [|]].
  intros r1 [= <-] Er0. destruct (Hr Er0) as (tx & Etx & Hn). exists ch. rewrite E3 in Etx. by injection Etx as <-.
Qed.

Lemma sends_ok_add s id i c t s' :
  sends_ok s → s_calls s !! id = Some c → c_tasks c !! i = Some t → t_pc t = Starting →
  task_add id i c t s = Some s' → sends_ok s'.
Proof.
  intros Hok Ec Ei Ep. unfold task_add. destruct (s_workers s !! t_key t) as [w|] eqn:Ew; cbn -[AddTransaction]; [|done].
  destruct (AddTransaction (t_tx t) (w_tw w) (w_chs w)) as [[[r [tw chs]]|]| |] eqn:Er; [|done..]. intros [= <-].
  assert (Hg : goroutine_of s id i = Some t) by (by rewrite (goroutine_in _ _ _ _ Ec)).
  pose proof (so_task _ Hok _ _ _ Hg) as [Ha _ Hst _ _ _ _]. specialize (Hst Ep).
  destruct (AddTransaction_ok _ _ _ _ _ _ _ (so_worker _ Hok _ _ Ew) Er) as [Hnew Hw'].
  set (t' := mkTask _ _ (Some r) Selecting). set (w' := mkW tw _ chs _) in *. set (s' := set_worker _ _ _).
  pose proof (goroutine_set_task s id c (set_task i t' c) i t' Ec eq_refl : ∀ j a, goroutine_of s' j a = _) as Hg'.
  assert (Hgrow : ∀ k w1, s_workers s !! k = Some w1 → ∃ w2, s_workers s' !! k = Some w2 ∧ w_asked w1 ⊆ w_asked w2).
  { cbn. intros k w1 E1. destruct (decide (k = t_key t)) as [->|Hne]; [|exists w1; by rewrite lookup_insert_ne].
    exists w'. rewrite lookup_insert_eq. split; [done|]. rewrite Ew in E1. injection E1 as <-. by apply insert_subseteq. }
  split; try exact (so_once _ Hok).
  - cbn. intros k w1 [[<- <-]|[_ E]]%lookup_insert_Some; [done|by apply (so_worker _ Hok)].
  - intros e [w1 E1]%(so_net _ Hok). destruct (Hgrow _ _ E1) as (w2 & E2 & _). by exists w2.
  - cbn. intros j d [[<- <-]|[_ E]]%lookup_insert_Some; [|by eapply (so_call _ Hok)].
    eapply call_ok_set_task; [by eapply (so_call _ Hok)|done|done|by rewrite Ep|done].
  - intros j a t1. rewrite Hg'. case_decide; [intros [= <-]|intros E1; eapply task_ok_mono; [exact Hgrow|done|by eapply (so_task _ Hok)]].
    split; cbn; try done; [by rewrite lookup_insert_eq| |by intros h [|]].
    intros ch [= <-]. exists w'. split; apply lookup_insert_eq.
  - cbn. intros k w1 ch tx [[<- <-]|[_ E]]%lookup_insert_Some Eq.
    + cbn in Eq. apply lookup_insert_Some in Eq as [[<- <-]|[_ Eq]].
      * exists id, i, t'. rewrite Hg'. by rewrite decide_True.
      * destruct (so_asked _ Hok _ _ _ _ Ew Eq) as (j & a & t1 & E1 & E2 & E3 & E4). exists j, a, t1. rewrite Hg'.
        case_decide as Hd; [|done]. destruct Hd as [<- <-]. congruence.
    + destruct (so_asked _ Hok _ _ _ _ E Eq) as (j & a & t1 & E1 & E2 & E3 & E4). exists j, a, t1. rewrite Hg'.
      case_decide as Hd; [|done]. destruct Hd as [<- <-]. congruence.
Qed.

Lemma with_worker_lookup a ws k w :
  with_worker a ws !! k = Some w →
  ws !! k = Some w ∨ k = handlerKey a ∧ w = fresh_worker ∧ ws !! k = None.
Proof.
  unfold with_worker. destruct (ws !! handlerKey a) eqn:E; [by left|].
  intros [[<- <-]|[_ ?]]%lookup_insert_Some; [by right|by left].
Qed.

Lemma with_worker_grows a ws k w : ws !! k = Some w → with_worker a ws !! k = Some w.
Proof.
  unfold with_worker. destruct (ws !! handlerKey a) eqn:E; [done|]. intros Ek. rewrite lookup_insert_ne; [done|congruence].
Qed.

Lemma with_worker_has a ws : is_Some (with_worker a ws !! handlerKey a).
Proof. unfold with_worker. destruct (ws !! handlerKey a) eqn:E; [by rewrite E|by rewrite lookup_insert_eq]. Qed.

Lemma call_ok_loop_over c m :
  call_ok c → (∀ i, m ≠ Looping i) → (∀ hs, m ≠ Returned hs None) → call_ok (set_main m c).
Proof.
  intros [Hl Ht Hh Hr Hlo Hre] H1 H2. split; cbn; try done; [intros i j ->; by destruct (H1 i)|intros hs ->; by destruct (H2 hs)].
Qed.

Lemma call_ok_spawn c i a tx :
  call_ok c → c_main c = Looping i → c_txs c !! i = Some (Some tx) →
  call_ok (set_main (Looping (S i)) (set_task i (mkTask a tx None Starting) c)).
Proof.
  intros [Hl Ht Hh Hr Hlo Hre] Em Ei. split; cbn; try done.
  - intros j t [[<- <-]|[_ E]]%lookup_insert_Some; [done|by apply Ht].
  - intros j t h [[<- <-]|[_ E]]%lookup_insert_Some E1; [done|by eapply Hh].
  - intros j t e [[<- <-]|[_ E]]%lookup_insert_Some E1; [done|by eapply Hr].
  - intros n j [= <-] [t [[<- _]|[_ E]]%lookup_insert_Some]; [lia|]. assert (j < i)%nat by (apply Hlo; eauto). lia.
Qed.

Lemma sends_ok_spawn s id i c tx a nth :
  sends_ok s → s_calls s !! id = Some c → c_main c = Looping i → c_txs c !! i = Some (Some tx) →
  NewAddressFromBech32String (tx_Sender tx) = Ok a →
  sends_ok (mkSends nth (with_worker a (s_workers s))
    (<[id := set_main (Looping (S i)) (set_task i (mkTask a tx None Starting) c)]> (s_calls s)) (s_net s)).
Proof.
  intros Hok Ec Em Ei Ea. set (t' := mkTask _ _ None Starting). set (c' := set_main _ _). set (s' := mkSends _ _ _ _).
  pose proof (goroutine_set_task s id c c' i t' Ec eq_refl : ∀ j a, goroutine_of s' j a = _) as Hg'.
  assert (Hno : goroutine_of s id i = None).
  { rewrite (goroutine_in _ _ _ _ Ec). destruct (c_tasks c !! i) as [t|] eqn:Et; [|done].
    assert (i < i)%nat by (eapply co_looping; [by eapply (so_call _ Hok)|exact Em|by exists t]). lia. }
  assert (Hgrow : ∀ k w1, s_workers s !! k = Some w1 → ∃ w2, s_workers s' !! k = Some w2 ∧ w_asked w1 ⊆ w_asked w2).
  { intros k w1 E1. exists w1. split; [by apply with_worker_grows|done]. }
  split; try exact (so_once _ Hok).
  - cbn. intros k w [E|(-> & -> & E)]%with_worker_lookup; [by apply (so_worker _ Hok)|]. apply fresh_worker_ok.
    intros e He Ek. apply (so_net _ Hok) in He as [w Ew]. congruence.
  - intros e [w1 E1]%(so_net _ Hok). destruct (Hgrow _ _ E1) as (w2 & E2 & _). by exists w2.
  - cbn. intros j d [[<- <-]|[_ E]]%lookup_insert_Some; [|by eapply (so_call _ Hok)]. apply call_ok_spawn; [by eapply (so_call _ Hok)|done..].
  - intros j b t1. rewrite Hg'. case_decide; [intros [= <-]|intros E1; eapply task_ok_mono; [exact Hgrow|done|by eapply (so_task _ Hok)]].
    split; cbn; try done; [apply with_worker_has|by intros h [|]].
  - cbn. intros k w ch tx1 [E|(-> & -> & E)]%with_worker_lookup Eq; [|cbn in Eq; by rewrite lookup_empty in Eq].
    destruct (so_asked _ Hok _ _ _ _ E Eq) as (j & b & t1 & E1 & E2). exists j, b, t1. rewrite Hg'.
    case_decide as Hd; [|done]. destruct Hd as [<- <-]. congruence.
Qed.

Lemma sends_ok_runs s id s' : sends_ok s → do_event (Runs id) s = Some s' → sends_ok s'.
Proof.
  intros Hok. cbn. destruct (s_calls s !! id) as [c|] eqn:Ec; cbn; [|done]. pose proof (so_call _ Hok _ _ Ec) as Hc.
  destruct (c_main c) as [i| |] eqn:Em; [| |done].
  - unfold loop_body.
    assert (Hover : ∀ m, (∀ i, m ≠ Looping i) → (∀ hs, m ≠ Returned hs None) → sends_ok (set_call id (set_main m c) s))
      by (intros m ? ?; apply sends_ok_main; [done..|by apply call_ok_loop_over]).
    destruct (c_txs c !! i) as [[tx|]|] eqn:Ei; [|intros [= <-]; by apply Hover..].
    destruct (NewAddressFromBech32String _) as [a|e|] eqn:Ea; [|intros [= <-]; by apply Hover|done].
    destruct (getOrCreateAddressNonceHandler _ _ _) as [[?|e|] [nth ?]]; [|intros [= <-]; by apply Hover|done].
    intros [= <-]. by apply sends_ok_spawn.
  - destruct (all_ended c) eqn:Ee; [|done]. intros [= <-]. apply sends_ok_main; [done..|].
    destruct Hc as [Hl Ht Hh Hr Hlo Hre]. split; cbn; try done. by intros hs [= <- Hn].
Qed.

Lemma sends_ok_works s k ev s' : sends_ok s → do_event (Works k ev) s = Some s' → sends_ok s'.
Proof.
  intros Hok. cbn. destruct (s_workers s !! k) as [w|] eqn:Ek; cbn; [|done].
  destruct (worker_do ev w) as [w'|] eqn:Ew; cbn; [|done]. intros [= <-].
  destruct (worker_do_ok _ _ _ _ _ (so_worker _ Hok _ _ Ek) Ew (so_once _ Hok)) as [Hw' Hnd].
  pose proof (worker_do_asked _ _ _ Ew) as Ea. pose proof Hok as [Hw Hn Ho Hc Ht Hb].
  assert (Hkey : ∀ e, e ∈ asked_network k w w' → rq_key e = k).
  { unfold asked_network. intros e. destruct (w_go w), (w_go w'); try (by intros ?%not_elem_of_nil).
    by intros ->%list_elem_of_singleton. }
  assert (Hgrow : ∀ k1 w1, s_workers s !! k1 = Some w1 → ∃ w2, <[k := w']> (s_workers s) !! k1 = Some w2 ∧ w_asked w1 ⊆ w_asked w2).
  { intros k1 w1 E1. destruct (decide (k1 = k)) as [->|Hne]; [|exists w1; by rewrite lookup_insert_ne].
    exists w'. rewrite lookup_insert_eq. split; [done|]. rewrite Ek in E1. injection E1 as <-. by rewrite Ea. }
  assert (Hsub : s_net s ⊆ s_net s ++ asked_network k w w') by (intros e He; apply elem_of_app; by left).
  split; cbn; [| |done|done|..].
  - intros k1 w1 [[<- <-]|[Hne E]]%lookup_insert_Some; [done|]. destruct (Hw _ _ E) as [Hi Hbu Han Hr]. split; [done|..].
    + intros c r Hin Hr0. destruct (Hbu c r Hin Hr0) as (tx & ? & ?). exists tx. by auto.
    + intros tx r resp E1. by apply Hsub, Han.
    + intros e [He|He%Hkey]%elem_of_app E1; [by apply Hr|congruence].
  - intros e [[w1 E1]%Hn| ->%Hkey]%elem_of_app; [destruct (Hgrow _ _ E1) as (w2 & E2 & _); by exists w2|].
    rewrite lookup_insert_eq. by eauto.
  - intros id i t Eg. eapply task_ok_mono; [exact Hgrow|exact Hsub|by eapply Ht].
  - intros k1 w1 c tx [[<- <-]|[_ E]]%lookup_insert_Some Eq; [rewrite Ea in Eq|]; by eapply Hb.
Qed.

Lemma sends_ok_step s s' : sends_step s s' → sends_ok s → sends_ok s'.
Proof.
  intros [[id txs|id|id i|id i e|k ev|k n g] E] Hok.
  - cbn in E. destruct (s_calls s !! id) eqn:Ec; [done|]. injection E as <-.
    assert (Hg : ∀ c0 j i, c_tasks c0 = ∅ → goroutine_of (set_call id c0 s) j i = goroutine_of s j i).
    { intros c0 j i E0. rewrite goroutine_set_call, E0. case_decide as Hd; [|done]. subst j. unfold goroutine_of. by rewrite Ec. }
    eapply (sends_ok_calls s); [done..| | |].
    + cbn. intros j c [[<- <-]|[_ E]]%lookup_insert_Some; [|by eapply (so_call _ Hok)].
      split; cbn; try done; [by rewrite length_replicate|]. intros i j _ [t Et]. by rewrite lookup_empty in Et.
    + intros j i t. rewrite Hg by done. by apply so_task.
    + intros j i k c tx (t & Et & Hr). exists t. by rewrite Hg.
  - by eapply sends_ok_runs.
  - cbn in E. destruct (s_calls s !! id) as [c|] eqn:Ec; cbn in E; [|done]. destruct (c_tasks c !! i) as [t|] eqn:Ei; cbn in E; [|done].
    assert (Hg : goroutine_of s id i = Some t) by (by rewrite (goroutine_in _ _ _ _ Ec)).
    pose proof (so_task _ Hok _ _ _ Hg) as Ht. pose proof Ht as [_ _ _ _ _ Hre Hh].
    destruct (t_pc t) as [| |r|r|r] eqn:Ep; [..|done].
    + by eapply sends_ok_add.
    + by eapply sends_ok_receive.
    + eapply sends_ok_resume; [exact Hok|done|done|by rewrite Ep| |exact E]. intros r1 [= <-]. by apply Hre.
    + injection E as <-. apply (sends_ok_task s id c _ i t (at_pc (Ended r) t)); [done..|by destruct r| |done|done|done|].
      { apply call_ok_end; [by eapply (so_call _ Hok)|done|by rewrite Ep]. }
      apply task_ok_at; [done..|]. intros h [|[= ->]]; [done|]. apply Hh. by left.
  - cbn in E. destruct (s_calls s !! id) as [c|] eqn:Ec; cbn in E; [|done]. destruct (c_tasks c !! i) as [t|] eqn:Ei; cbn in E; [|done].
    destruct (t_pc t) eqn:Ep; try done.
    apply (sends_ok_resume s id i (inl e) c t); [done..|by rewrite Ep|done|done].
  - by eapply sends_ok_works.
  - cbn in E. destruct (handlers _ !! _) as [h|]; cbn in E; [|done]. injection E as <-. by apply (sends_ok_calls s); [done..|apply (so_call _ Hok)|apply (so_task _ Hok)|].
Qed.

Lemma sends_reachable interval s : rtc sends_step (no_sends interval) s → sends_ok s.
Proof.
  revert s. refine (rtc_ind_r sends_ok _ _ _); [|intros s s' _ Hs Hok; by eapply sends_ok_step].
  split; cbn; try (by intros; simplify_map_eq); [by intros e ?%not_elem_of_nil|constructor].
Qed.

Lemma all_ended_task c i :
  all_ended c = true → (i < length (c_txs c))%nat → ∃ t r, c_tasks c !! i = Some t ∧ t_pc t = Ended r.
Proof.
  unfold all_ended. rewrite forallb_forall. intros He Hi. specialize (He i). rewrite in_seq in He.
  destruct (c_tasks c !! i) as [t|]; [|by specialize (He ltac:(lia))]. exists t.
  destruct (t_pc t) as [| | | |r]; try by specialize (He ltac:(lia)). by exists r.
Qed.

(** C5: the hashes are the network's: whatever other calls, workers and numberings
    interleave with it, and in whatever order its goroutines run, a call of
    [SendTransactions] that returns without an error has one hash per transaction, and
    the hash at each index is what the network answered to a request to send the
    transaction at this index, made by the worker of its sender. *)
Theorem sent_hashes_are_answers interval s id c hs :
  rtc sends_step (no_sends interval) s → s_calls s !! id = Some c → c_main c = Returned hs None →
  length hs = length (c_txs c) ∧
  ∀ i, (i < length (c_txs c))%nat → ∃ tx a h ch,
    c_txs c !! i = Some (Some tx) ∧ NewAddressFromBech32String (tx_Sender tx) = Ok a ∧ hs !! i = Some h ∧
    mkRequest (handlerKey a) (Some ch) tx (mkResponse h None) ∈ s_net s.
Proof.
  intros Hok%sends_reachable Ec Em. pose proof (so_call _ Hok _ _ Ec) as Hc.
  destruct (co_returned _ Hc _ Em) as (-> & Hnone & Hall). split; [apply (co_length _ Hc)|]. intros i Hi.
  destruct (all_ended_task c i Hall Hi) as (t & r & Et & Ep).
  assert (Hg : goroutine_of s id i = Some t) by (by rewrite (goroutine_in _ _ _ _ Ec)).
  pose proof (so_task _ Hok _ _ _ Hg) as Ht. destruct r as [e|h]; [by destruct (co_err _ Hc _ _ _ Et Ep)|].
  destruct (to_hash _ _ _ Ht h) as [ch Hch]; [by right|]. exists (t_tx t), (t_address t), h, ch.
  split_and!; [by apply (co_task _ Hc)|apply (to_address _ _ _ Ht)|by eapply (co_hash _ Hc)|done].
Qed.

(** The goroutine whose [AddTransaction] led to a request. *)
Definition behind (s : sends) (id i : nat) (e : request) : Prop :=
  ∃ c, rq_chan e = Some c ∧ asked_by s id i (rq_key e) c (rq_tx e).

(** C7: nothing is sent twice and nothing is made up: every request the network got comes
    from a goroutine of a call, with the transaction this goroutine was started for, and
    no goroutine is behind two requests. *)
Theorem sent_once interval s :
  rtc sends_step (no_sends interval) s →
  (∀ e, e ∈ s_net s → ∃ id i, behind s id i e) ∧
  (∀ n m e e' id i, s_net s !! n = Some e → s_net s !! m = Some e' → behind s id i e → behind s id i e' → n = m).
Proof.
  intros Hok%sends_reachable. split.
  - intros e He. destruct (so_net _ Hok _ He) as [w Ew].
    destruct (wo_request _ _ _ (so_worker _ Hok _ _ Ew) e He eq_refl) as (c & Ec & Eq & _).
    destruct (so_asked _ Hok _ _ _ _ Ew Eq) as (id & i & Hby). exists id, i, c. done.
  - intros n m e e' id i En Em (c & Ec & t & Et & Ek & Eh & _) (c' & Ec' & t' & Et' & Ek' & Eh' & _).
    rewrite Et in Et'. injection Et' as <-.
    eapply NoDup_lookup; [apply (so_once _ Hok)|rewrite list_lookup_fmap, En; done|].
    rewrite list_lookup_fmap, Em. cbn. unfold origin. congruence.
Qed.
End Sends.

(** ** Runs *)

Module SendFlowRun.
#[local] Existing Instances map_to_list_rangeZ hexConverter.

Definition sender : string := hex_EncodeToString (replicate 32 x01).
Definition tx_of (n : Z) : FrontendTransaction := tx_setSender sender (tx_setNonce n emptyTx).
Definition key : string := string_of_bytes (replicate 32 x01).

(** The worker takes the next transaction and gets the hash [h]. *)
Definition round (h : string) : list event := map (Works key) [Tick; Retrieve; Network (mkResponse h None); Answer].
Definition takes (i : nat) : list event := [Goes 0 i; Goes 0 i; Goes 0 i].

(** The transaction of nonce 5 comes first in the arguments and is queued first; the one
    of nonce 3 is sent first. *)
Definition both : list event :=
  [Call 0 [Some (tx_of 5); Some (tx_of 3)]; Runs 0; Goes 0 0; Runs 0; Goes 0 1; Runs 0] ++
  round "h3" ++ takes 1 ++ round "h5" ++ takes 0 ++ [Runs 0].
Definition sent : sends := default (no_sends 1000000) (exec both (no_sends 1000000)).
Definition call0 : call :=
  mkCall [Some (tx_of 5); Some (tx_of 3)] (Returned ["h5"; "h3"] None)
    {[0%nat := mkTask (mkAddress (replicate 32 x01)) (tx_of 5) (Some 1%positive) (Ended (inr "h5"));
      1%nat := mkTask (mkAddress (replicate 32 x01)) (tx_of 3) (Some 2%positive) (Ended (inr "h3"))]} ["h5"; "h3"] None.

Lemma sent_runs : exec both (no_sends 1000000) = Some sent.
Proof. vm_compute. reflexivity. Qed.

Lemma sent_hashes_are_answers_witness :
  length ["h5"; "h3"] = 2%nat ∧ mkRequest key (Some 2%positive) (tx_of 3) (mkResponse "h3" None) ∈ s_net sent ∧
  ∀ i, (i < 2)%nat → ∃ tx a h ch,
    c_txs call0 !! i = Some (Some tx) ∧ NewAddressFromBech32String (tx_Sender tx) = Ok a ∧ ["h5"; "h3"] !! i = Some h ∧
    mkRequest (handlerKey a) (Some ch) tx (mkResponse h None) ∈ s_net sent.
Proof.
  destruct (sent_hashes_are_answers 1000000 sent 0 call0 ["h5"; "h3"]) as [A B];
    [apply (sends_exec_sound both), sent_runs|vm_compute; reflexivity|reflexivity|].
  split_and!; [exact A|vm_compute; left|exact B].
Defined.

Lemma sent_once_witness :
  (∀ e, e ∈ s_net sent → ∃ id i, behind sent id i e) ∧
  (∀ n m e e' id i, s_net sent !! n = Some e → s_net sent !! m = Some e' → behind sent id i e → behind sent id i e' → n = m).
Proof. apply (sent_once 1000000 sent), (sends_exec_sound both), sent_runs. Defined.

(** An argument that is nil, behind one that is not. *)
Definition half : list event := [Call 0 [Some (tx_of 5); None]; Runs 0; Runs 0].
Definition refused : sends := default (no_sends 1000000) (exec half (no_sends 1000000)).
Definition half_sent : sends := default refused (exec (Goes 0 0 :: round "h5" ++ takes 0) refused).

(** an error that does not undo: the loop of [SendTransactions] starts a goroutine per
    transaction before it has looked at the ones that follow, and returns at the first
    one that is nil without waiting: the caller has the error and no hash, while nothing
    was sent so far, and the first transaction is sent afterwards all the same. *)
Theorem refused_call_still_sends :
  rtc sends_step (no_sends 1000000) refused ∧ rtc sends_step refused half_sent ∧
  (c_main <$> s_calls refused !! 0%nat) = Some (Returned [] (Some ErrNilTransaction)) ∧ s_net refused = [] ∧
  s_net half_sent = [mkRequest key (Some 1%positive) (tx_of 5) (mkResponse "h5" None)] ∧
  (c_main <$> s_calls half_sent !! 0%nat) = Some (Returned [] (Some ErrNilTransaction)).
Proof.
  split; [apply (sends_exec_sound half); vm_compute; reflexivity|].
  split; [apply (sends_exec_sound (Goes 0 0 :: round "h5" ++ takes 0)); vm_compute; reflexivity|].
  by vm_compute.
Qed.
End SendFlowRun.
