(* ===== verification/SendProgress.v ===== *)
(** * Every call of [SendTransactions] can return
    ([interactors/nonceHandlerV3/])

    [SendFlow] shows what a call answers when it returns.  Here: from every state, the
    goroutines and workers that are there can carry a call that waits for its group to
    its return, without the help of a closed worker or a context that is done. *)

From S2P Require Export SendFlow.

(** ** One worker *)

(** An answered channel holds its answer until its owner receives it. *)
Definition filled (c : chan) (chs : channels) : Prop := c ∈ (ch_log chs).*1 → ch_contents c chs ≠ [].

(** What is left to do for the worker. *)
Definition work (w : wstate) : nat :=
  4 * length (queued (w_tw w)) +
  match w_go w with Popped _ => 3 | Retrieved _ _ => 2 | Answering _ _ _ => 1 | Stopping => 1 | Waiting | Stopped => 0 end.

Definition undisturbed (ev : worker_event) : bool := match ev with Cancel => false | _ => true end.

Section Progress.
Context `{PubkeyConverter} `{MapRangeZ chan}.

Fixpoint worker_run (evs : list worker_event) (w : wstate) : option wstate :=
  match evs with [] => Some w | ev :: evs => w ← worker_do ev w; worker_run evs w end.

Lemma ch_send_filled c d r chs chs' : ch_send d r chs = Some chs' → filled c chs → filled c chs'.
Proof.
  unfold ch_send. destruct (ch_contents d chs); [|done]. intros [= <-] Hf. unfold filled, ch_contents. cbn.
  destruct (decide (c = d)) as [->|Hne]; [by rewrite lookup_insert_eq|].
  rewrite lookup_insert_ne, fmap_app, elem_of_app by done. intros [Hc|Hc%list_elem_of_singleton]; [by apply Hf|by destruct Hne].
Qed.

Lemma send_to_all_filled c cs r chs chs' : send_to_all cs r chs = Some chs' → filled c chs → filled c chs'.
Proof.
  revert chs. induction cs as [|d cs IH]; intros chs; cbn; [by intros [= <-]|].
  destruct (ch_send d r chs) as [chs1|] eqn:E; cbn; [|done]. intros E1 Hf. eapply IH; [exact E1|]. by eapply ch_send_filled.
Qed.

Lemma worker_do_filled c ev w w' : worker_do ev w = Some w' → filled c (w_chs w) → filled c (w_chs w').
Proof.
  destruct w as [tw go chs q]. destruct ev, go; cbn; try done; try (by intros [= <-]).
  - by destruct (nextTransaction tw) as [[[?|] ?]| |]; intros [= <-].
  - destruct r as [d|]; cbn; [|done]. destruct (ch_send d resp chs) as [chs'|] eqn:E; cbn; [|done].
    intros [= <-]. cbn. by eapply ch_send_filled.
  - unfold closeAllChannels. destruct (send_to_all _ _ chs) as [chs'|] eqn:E; cbn; [|done].
    intros [= <-]. cbn. by eapply send_to_all_filled.
Qed.

Lemma send_to_all_log cs r chs chs' :
  send_to_all cs r chs = Some chs' →
  ch_next chs' = ch_next chs ∧ ∀ c, c ∈ cs ++ (ch_log chs).*1 → c ∈ (ch_log chs').*1.
Proof.
  revert chs. induction cs as [|d cs IH]; intros chs; cbn; [by intros [= <-]|].
  unfold ch_send at 1. destruct (ch_contents d chs); cbn; [|done]. intros [En Hin]%IH. split; [done|].
  intros c Hc. apply Hin. cbn. rewrite fmap_app. set_solver.
Qed.

(** While a channel is promised, the worker has a step, and the step answers the channel
    or brings it nearer. *)
Lemma worker_towards w c :
  w_inv w → (c < ch_next (w_chs w))%positive → c ∉ (ch_log (w_chs w)).*1 →
  ∃ ev w', undisturbed ev = true ∧ worker_do ev w = Some w' ∧ ch_next (w_chs w') = ch_next (w_chs w) ∧
           (c ∈ (ch_log (w_chs w')).*1 ∨ (work w' < work w)%nat).
Proof.
  intros Hi Hc Hl. destruct w as [tw go chs q]. cbn [w_chs] in *.
  pose proof (proj2 (ci_made _ _ _ (wi_chs _ Hi) c) Hc) as Hp. cbn [w_tw w_go w_chs] in Hp.
  apply elem_of_app in Hp as [Hp|Hp]; [|done]. destruct go as [|tx|tx r|tx r resp| |].
  - destruct (nextTransaction_run _ _ _ Hi) as (o & tw' & E & Hm). destruct o as [tx|].
    + exists Tick, (mkW tw' (Popped tx) chs q). unfold worker_do. rewrite E. split_and!; [done..|right].
      destruct Hm as (_ & Hq & _). unfold work. cbn [w_tw w_go]. rewrite Hq. cbn [length]. lia.
    + destruct Hm as [_ Hq]. cbn in Hp. apply list_elem_of_fmap in Hp as ([n d] & -> & Hin%elem_of_map_to_list).
      apply (ti_only _ _ _ (wi_tw _ Hi)) in Hin. cbn in Hin. rewrite Hq in Hin. by apply not_elem_of_nil in Hin.
  - destruct (retrieveChannel_run _ _ _ _ Hi) as (d & tw' & E & _ & _). exists Retrieve. eexists.
    unfold worker_do. rewrite E. split_and!; [done..|right]. unfold retrieveChannel in E. injection E as _ <-. unfold work, queued. cbn [w_tw w_go tw_tq]. lia.
  - exists (Network (mkResponse "" None)). eexists. split_and!; [done..|right]. unfold work. cbn [w_tw w_go]. lia.
  - destruct (answer_run _ _ _ _ _ _ Hi) as (d & chs' & -> & _ & E & _). exists Answer. eexists.
    unfold worker_do. rewrite E. split_and!; [done..| |right; unfold work; cbn [w_tw w_go]; lia].
    unfold ch_send in E. destruct (ch_contents d chs); [|done]. by injection E as <-.
  - destruct (closeAllChannels_run (ErrText "context canceled") _ _ _ Hi) as (tw' & chs' & E & Hi').
    exists (CloseAll (ErrText "context canceled")). eexists. unfold worker_do. rewrite E. unfold closeAllChannels in E.
    destruct (send_to_all _ _ chs) as [chs1|] eqn:Es; cbn in E; [|done]. injection E as <- <-.
    apply send_to_all_log in Es as [En Hin]. split_and!; [done..|left]. apply Hin. rewrite elem_of_app. left. by rewrite rangeZ_perm.
  - by apply not_elem_of_nil in Hp.
Qed.

(** So it gets there. *)
Lemma worker_answers w c :
  w_inv w → (c < ch_next (w_chs w))%positive → filled c (w_chs w) →
  ∃ evs w', Forall (λ ev, undisturbed ev = true) evs ∧ worker_run evs w = Some w' ∧ ch_contents c (w_chs w') ≠ [].
Proof.
  remember (work w) as n eqn:En. revert w En. induction n as [n IH] using lt_wf_ind. intros w -> Hi Hc Hf.
  destruct (decide (c ∈ (ch_log (w_chs w)).*1)) as [Hl|Hl]; [exists [], w; by auto|].
  destruct (worker_towards w c Hi Hc Hl) as (ev & w1 & Hu & E & En & Hw).
  pose proof (worker_do_filled c _ _ _ E Hf) as Hf1. destruct Hw as [Hin|Hlt].
  - exists [ev], w1. cbn. rewrite E. split_and!; [by constructor|done|by apply Hf1].
  - destruct (IH (work w1) Hlt w1 eq_refl) as (evs & w' & Hev & Er & Hne);
      [by eapply wstep_inv; [eapply worker_do_wstep|]|by rewrite En|done|].
    exists (ev :: evs), w'. cbn. rewrite E. split_and!; [by constructor|done|done].
Qed.

(** ** The goroutines *)

Record waiting_ok (s : sends) : Prop := {
  wk_handler id i t : goroutine_of s id i = Some t → is_Some (handlers (s_nth s) !! t_key t);
  wk_filled id i t c w : goroutine_of s id i = Some t → t_pc t = Selecting → t_chan t = Some c →
    s_workers s !! t_key t = Some w → filled c (w_chs w);
  wk_own id i t id' i' t' c : goroutine_of s id i = Some t → goroutine_of s id' i' = Some t' →
    t_key t = t_key t' → t_chan t = Some c → t_chan t' = Some c → id = id' ∧ i = i';
  wk_looping id c n i : s_calls s !! id = Some c → c_main c = Looping n → (i < n)%nat → is_Some (c_tasks c !! i);
  wk_wait id c i : s_calls s !! id = Some c → c_main c = AtWait → (i < length (c_txs c))%nat → is_Some (c_tasks c !! i) }.

Lemma getOrCreate_keeps a nth u nth' x :
  getOrCreateAddressNonceHandler a (mret ()) (nth, ()) = (Ok u, (nth', x)) →
  is_Some (handlers nth' !! handlerKey a) ∧ ∀ k, is_Some (handlers nth !! k) → is_Some (handlers nth' !! k).
Proof.
  unfold getOrCreateAddressNonceHandler, gets, getAddressNonceHandler, run_handler, createAddressNonceHandler, mbind, M_bind, mret, M_ret.
  cbn [fst]. destruct (handlers nth !! handlerKey a) as [h|] eqn:E; cbn; rewrite ?E; cbn.
  - intros [= _ <- _]. cbn. split; [by rewrite lookup_insert_eq|]. intros k Hk. apply lookup_insert_is_Some'. by right.
  - rewrite lookup_insert_eq. intros [= _ <- _]. cbn. split; [by rewrite lookup_insert_eq|].
    intros k Hk. rewrite insert_insert_eq. apply lookup_insert_is_Some'. by right.
Qed.

(** The calls but not the goroutines of the group change, or a goroutine moves on and
    keeps its channel. *)
Lemma waiting_ok_move s s' :
  waiting_ok s →
  (∀ k, is_Some (handlers (s_nth s) !! k) → is_Some (handlers (s_nth s') !! k)) →
  (∀ id i t', goroutine_of s' id i = Some t' → ∃ t, goroutine_of s id i = Some t ∧ t_key t' = t_key t ∧ t_chan t' = t_chan t ∧
     (t_pc t' = Selecting → t_pc t = Selecting ∧ ∀ c w', t_chan t = Some c → s_workers s' !! t_key t = Some w' →
        ∃ w, s_workers s !! t_key t = Some w ∧ (filled c (w_chs w) → filled c (w_chs w')))) →
  (∀ id c', s_calls s' !! id = Some c' → c_main c' = Looping 0 ∨ ∃ c, s_calls s !! id = Some c ∧ c_txs c' = c_txs c ∧
     (∀ i, is_Some (c_tasks c !! i) → is_Some (c_tasks c' !! i)) ∧
     (c_main c' = c_main c ∨ (∃ hs e, c_main c' = Returned hs e) ∨
      ∃ n, c_main c = Looping n ∧ c_main c' = AtWait ∧ c_txs c !! n = None)) →
  waiting_ok s'.
Proof.
  intros [Hh Hf Ho Hl Hw] Hk Hg Hc. split.
  - intros id i t' (t & Et & Ek & _)%Hg. rewrite Ek. by eapply Hk, Hh.
  - intros id i t' c w' (t & Et & Ek & Ech & Hsel)%Hg Ep Ec Ew. destruct (Hsel Ep) as [Ep0 Hw'].
    rewrite Ek in Ew. rewrite Ech in Ec. destruct (Hw' c w' Ec Ew) as (w & Ew0 & Hfill). by eapply Hfill, Hf.
  - intros id i t' id2 i2 t2' c (t & Et & Ek & Ech & _)%Hg (t2 & Et2 & Ek2 & Ech2 & _)%Hg Ekk E1 E2.
    apply (Ho id i t id2 i2 t2 c); congruence.
  - intros id c' n i [E0|(c & Ec & _ & Ht & [Em|[(hs & e & Em)|(m & _ & Em & _)]])]%Hc En Hi; [rewrite E0 in En; injection En as <-; lia| |congruence..].
    apply Ht. eapply Hl; [done|by rewrite <-Em|done].
  - intros id c' i [E0|(c & Ec & Etx & Ht & [Em|[(hs & e & Em)|(m & Em0 & Em & Hnone)]])]%Hc En Hi; [congruence| |congruence|]; apply Ht; rewrite Etx in Hi.
    + eapply Hw; [done|by rewrite <-Em|done].
    + eapply Hl; [done|exact Em0|]. apply lookup_ge_None in Hnone. lia.
Qed.

Lemma AddTransaction_filled c tx tw chs r tw' chs' :
  AddTransaction tx tw chs = Ok (Some (r, (tw', chs'))) → filled c chs → filled c chs'.
Proof.
  intros E Hf. assert (Hmake : filled c (ch_make chs).2) by exact Hf.
  assert (Hrefuse : ∀ e, (chs1 ← ch_send (ch_next chs) (mkResponse "" (Some e)) (ch_make chs).2; Some (ch_next chs, (tw, chs1)))
    = Some (r, (tw', chs')) → filled c chs').
  { intros e. destruct (ch_send _ _ _) as [chs1|] eqn:Es; cbn; [|done]. intros [= _ _ <-]. by eapply ch_send_filled. }
  revert E. unfold AddTransaction. cbn [ch_make]. destruct (tw_workerClosed tw); [intros [= E]; by eapply Hrefuse|].
  destruct (tw_responsesChannels tw !! tx_Nonce tx); [intros [= E]; by eapply Hrefuse|].
  unfold mbind, outcome_bind. destruct (heap_Push (mkItem tx 0) (tw_tq tw)); [|done..]. by intros [= _ _ <-].
Qed.

(** A goroutine of a group moves, and none but the receive and the add touch a worker. *)
Lemma waiting_ok_task s id c c' i t t' nth :
  waiting_ok s → s_calls s !! id = Some c → c_tasks c !! i = Some t →
  c_tasks c' = <[i := t']> (c_tasks c) → c_txs c' = c_txs c → c_main c' = c_main c →
  t_key t' = t_key t → t_chan t' = t_chan t → t_pc t' ≠ Selecting →
  (∀ k, is_Some (handlers (s_nth s) !! k) → is_Some (handlers nth !! k)) →
  waiting_ok (mkSends nth (s_workers s) (<[id := c']> (s_calls s)) (s_net s)).
Proof.
  intros Hok Ec Ei Ec' Etx Em Ek Ech Hp Hk. eapply (waiting_ok_move s); [done|done|..].
  - set (s' := mkSends _ _ _ _). pose proof (goroutine_set_task s id c c' i t' Ec Ec' : ∀ j a, goroutine_of s' j a = _) as Hg.
    intros j a t1. rewrite Hg. case_decide as Hd.
    + destruct Hd as [<- <-]. intros [= <-]. exists t. by rewrite (goroutine_in _ _ _ _ Ec).
    + intros E1. exists t1. split_and!; [done..|]. intros E2. split; [done|]. intros ch w' _ Ew. by exists w'.
  - cbn. intros j d [[<- <-]|[_ E]]%lookup_insert_Some; right; [|exists d; by auto].
    exists c. split_and!; [done..| |by left]. intros a Ha. rewrite Ec'. apply lookup_insert_is_Some'. by right.
Qed.

(** Neither does the goroutine of a caller. *)
Lemma waiting_ok_main s id c m :
  waiting_ok s → s_calls s !! id = Some c →
  (∃ hs e, m = Returned hs e) ∨ (∃ n, c_main c = Looping n ∧ m = AtWait ∧ c_txs c !! n = None) →
  waiting_ok (set_call id (set_main m c) s).
Proof.
  intros Hok Ec Hm. eapply (waiting_ok_move s); [done|done|..].
  - intros j a t1. rewrite goroutine_set_call.
    assert (goroutine_of s id a = c_tasks c !! a) as Hg by by apply goroutine_in.
    case_decide as Hd; [subst j; cbn; rewrite <-Hg|]; intros E1; exists t1; (split_and!; [done..|]);
      intros E2; (split; [done|]); intros ch w' _ Ew; by exists w'.
  - cbn. intros j d [[<- <-]|[_ E]]%lookup_insert_Some; right; [|exists d; by auto]. exists c. by auto.
Qed.

(** Only the content of the channels changes. *)
Lemma waiting_ok_worker s k w w' net :
  waiting_ok s → s_workers s !! k = Some w →
  (∀ c id i t, goroutine_of s id i = Some t → t_key t = k → t_chan t = Some c → t_pc t = Selecting →
     filled c (w_chs w) → filled c (w_chs w')) →
  waiting_ok (mkSends (s_nth s) (<[k := w']> (s_workers s)) (s_calls s) net).
Proof.
  intros Hok Ek Hf. eapply (waiting_ok_move s); [done|done|..]; cbn.
  - intros id i t Et. exists t. split_and!; [done..|]. intros Ep. split; [done|].
    intros c w1 Ec [[Hk <-]|[_ E]]%lookup_insert_Some; [|by exists w1]. exists w. rewrite <-Hk. split; [done|]. by apply (Hf c id i t).
  - intros id c Ec. right. exists c. by auto.
Qed.

Lemma waiting_ok_add s id i c t s' :
  sends_ok s → waiting_ok s → s_calls s !! id = Some c → c_tasks c !! i = Some t →
  task_add id i c t s = Some s' → waiting_ok s'.
Proof.
  intros Hok Hwk Ec Ei. unfold task_add. destruct (s_workers s !! t_key t) as [w|] eqn:Ew; cbn -[AddTransaction]; [|done].
  destruct (AddTransaction (t_tx t) (w_tw w) (w_chs w)) as [[[r [tw chs]]|]| |] eqn:Er; [|done..]. intros [= <-].
  pose proof (so_worker _ Hok _ _ Ew) as Hw. destruct (AddTransaction_ok _ _ _ _ _ _ _ Hw Er) as [Hnew _].
  set (t' := mkTask _ _ (Some r) Selecting). set (w' := mkW tw _ chs _) in *. set (s' := set_worker _ _ _).
  pose proof (goroutine_set_task s id c (set_task i t' c) i t' Ec eq_refl : ∀ j a, goroutine_of s' j a = _) as Hg'.
  assert (Hothers : ∀ j a t1, goroutine_of s j a = Some t1 → t_key t1 = t_key t → t_chan t1 ≠ Some r).
  { intros j a t1 E1 E2 E3. destruct (to_chan _ _ _ (so_task _ Hok _ _ _ E1) _ E3) as (w1 & E4 & E5).
    rewrite E2, Ew in E4. injection E4 as <-. congruence. }
  destruct Hwk as [Hh Hf Ho Hl Hwt]. split.
  - intros j a t1. rewrite Hg'. case_decide as Hd; [intros [= <-]|by eapply Hh].
    eapply (Hh id i t). by rewrite (goroutine_in _ _ _ _ Ec).
  - intros j a t1 d w1. rewrite Hg'. case_decide as Hd.
    + intros [= <-] _ [= <-]. cbn. rewrite lookup_insert_eq. intros [= <-]. eapply AddTransaction_filled; [exact Er|].
      intros Hin. apply AddTransaction_inv in Er as [-> _]. exfalso. eapply (Pos.lt_irrefl (ch_next (w_chs w))).
      apply (ci_made _ _ _ (wi_chs _ (wo_inv _ _ _ Hw))). apply elem_of_app. by right.
    + intros E1 E2 E3. cbn. intros [[Ek <-]|[_ E4]]%lookup_insert_Some; [|by eapply Hf].
      eapply AddTransaction_filled; [exact Er|]. eapply Hf; [done..|by rewrite <-Ek].
  - intros j a t1 j2 a2 t2 d. rewrite !Hg'. case_decide as Hd; case_decide as Hd2.
    + intros _ _ _ _ _. destruct Hd as [<- <-]. by destruct Hd2.
    + intros [= <-] E2 Ek [= <-] E3. by destruct (Hothers _ _ _ E2 (eq_sym Ek)).
    + intros E1 [= <-] Ek E3 [= <-]. by destruct (Hothers _ _ _ E1 Ek).
    + by apply Ho.
  - cbn. intros j d n a [[<- <-]|[_ E]]%lookup_insert_Some Em Ha; [|by eapply Hl].
    cbn. apply lookup_insert_is_Some'. right. by eapply Hl.
  - cbn. intros j d a [[<- <-]|[_ E]]%lookup_insert_Some Em Ha; [|by eapply Hwt].
    cbn. apply lookup_insert_is_Some'. right. by eapply Hwt.
Qed.

Lemma waiting_ok_spawn s id i c tx a u nth x :
  sends_ok s → waiting_ok s → s_calls s !! id = Some c → c_main c = Looping i →
  getOrCreateAddressNonceHandler a (mret ()) (s_nth s, ()) = (Ok u, (nth, x)) →
  waiting_ok (mkSends nth (with_worker a (s_workers s))
    (<[id := set_main (Looping (S i)) (set_task i (mkTask a tx None Starting) c)]> (s_calls s)) (s_net s)).
Proof.
  intros Hok Hwk Ec Em E. apply getOrCreate_keeps in E as [Ea Hk].
  set (t' := mkTask _ _ None Starting). set (c' := set_main _ _). set (s' := mkSends _ _ _ _).
  pose proof (goroutine_set_task s id c c' i t' Ec eq_refl : ∀ j a, goroutine_of s' j a = _) as Hg'.
  destruct Hwk as [Hh Hf Ho Hl Hwt]. split.
  - intros j b t1. rewrite Hg'. case_decide as Hd; [by intros [= <-]|]. intros E1. by eapply Hk, Hh.
  - intros j b t1 d w1. rewrite Hg'. case_decide as Hd; [by intros [= <-]|]. intros E1 E2 E3.
    destruct (to_worker _ _ _ (so_task _ Hok _ _ _ E1)) as [w Ew]. cbn. rewrite (with_worker_grows _ _ _ _ Ew).
    intros [= <-]. by eapply Hf.
  - intros j b t1 j2 b2 t2 d. rewrite !Hg'. case_decide; case_decide; [by intros [= <-]|by intros [= <-]|by intros _ [= <-]|by apply Ho].
  - cbn. intros j d n b [[<- <-]|[_ E]]%lookup_insert_Some Em' Hb; [|by eapply Hl]. injection Em' as <-. cbn.
    apply lookup_insert_is_Some'. destruct (decide (i = b)); [by left|right]. eapply Hl; [done..|lia].
  - cbn. intros j d b [[<- <-]|[_ E]]%lookup_insert_Some Em' Hb; [done|by eapply Hwt].
Qed.

Lemma ch_receive_filled c d r chs chs' : ch_receive d chs = Some (r, chs') → c ≠ d → filled c chs → filled c chs'.
Proof.
  unfold ch_receive. destruct (ch_contents d chs); [done|]. intros [= _ <-] Hne. unfold filled, ch_contents. cbn.
  by rewrite lookup_insert_ne.
Qed.

Lemma waiting_ok_receive s id i c t s' :
  waiting_ok s → s_calls s !! id = Some c → c_tasks c !! i = Some t → task_receive id i c t s = Some s' → waiting_ok s'.
Proof.
  intros Hwk Ec Ei. unfold task_receive. destruct (s_workers s !! t_key t) as [w|] eqn:Ew; cbn; [|done].
  destruct (t_chan t) as [ch|] eqn:Eh; cbn; [|done]. destruct (ch_receive ch (w_chs w)) as [[r chs]|] eqn:Er; cbn; [|done]. intros [= <-].
  set (t' := at_pc (Received r) t).
  pose proof (waiting_ok_task s id c (set_task i t' c) i t t' (s_nth s) Hwk Ec Ei eq_refl eq_refl eq_refl eq_refl eq_refl ltac:(done) ltac:(done)) as H1.
  eapply (waiting_ok_worker _ _ w _ _ H1); [exact Ew|]. intros d j a t1 Et1 Ek Ed Ep Hfill.
  eapply ch_receive_filled; [exact Er| |done]. intros ->.
  set (s1 := mkSends _ _ _ _) in *.
  pose proof (goroutine_set_task s id c (set_task i t' c) i t' Ec eq_refl : ∀ j a, goroutine_of s1 j a = _) as Hg.
  assert (E' : goroutine_of s1 id i = Some t') by by rewrite Hg, decide_True.
  destruct (wk_own _ H1 _ _ _ _ _ _ _ Et1 E' Ek Ed Eh) as [-> ->]. rewrite Et1 in E'. injection E' as ->. done.
Qed.

Lemma waiting_ok_resume s id i selected c t s' :
  waiting_ok s → s_calls s !! id = Some c → c_tasks c !! i = Some t → task_resume id i selected c t s = Some s' → waiting_ok s'.
Proof.
  intros Hwk Ec Ei. unfold task_resume. destruct (handlers _ !! _) as [h|]; cbn; [|done].
  destruct (SendTransaction_resume selected h) as [o h']. destruct (result o) as [r|]; cbn; [|done]. intros [= <-].
  eapply (waiting_ok_task s id c (set_task i (at_pc (Returning r) t) c) i t (at_pc (Returning r) t)); [done..|].
  intros k Hk. cbn. apply lookup_insert_is_Some'. by right.
Qed.

Lemma waiting_ok_step s s' : sends_step s s' → sends_ok s → waiting_ok s → waiting_ok s'.
Proof.
  intros [[id txs|id|id i|id i e|k ev|k n g] E] Hok Hwk; cbn in E.
  - destruct (s_calls s !! id) eqn:Ec; [done|]. injection E as <-. eapply (waiting_ok_move s); [done|done|..].
    + intros j i t. rewrite goroutine_set_call. case_decide; [by cbn; rewrite lookup_empty|]. intros Et. exists t. split_and!; [done..|].
      intros Ep. split; [done|]. intros c w _ Ew. by exists w.
    + cbn. intros j c [[<- <-]|[_ Ej]]%lookup_insert_Some; [by left|]. right. exists c. by auto.
  - destruct (s_calls s !! id) as [c|] eqn:Ec; cbn in E; [|done]. destruct (c_main c) as [i| |] eqn:Em; [| |done].
    + unfold loop_body in E. destruct (c_txs c !! i) as [[tx|]|] eqn:Ei; [|injection E as <-; apply waiting_ok_main; by eauto 10..].
      destruct (NewAddressFromBech32String _) as [a|e|]; [|injection E as <-; apply waiting_ok_main; by eauto 10|done].
      destruct (getOrCreateAddressNonceHandler _ _ _) as [[?|e|] [nth ?]] eqn:Eg; [|injection E as <-; apply waiting_ok_main; by eauto 10|done].
      injection E as <-. by eapply waiting_ok_spawn.
    + destruct (all_ended c); [|done]. injection E as <-. apply waiting_ok_main; by eauto 10.
  - destruct (s_calls s !! id) as [c|] eqn:Ec; cbn in E; [|done]. destruct (c_tasks c !! i) as [t|] eqn:Ei; cbn in E; [|done].
    destruct (t_pc t) as [| |r|r|r] eqn:Ep; [by eapply waiting_ok_add|by eapply waiting_ok_receive|by eapply waiting_ok_resume| |done].
    injection E as <-. eapply (waiting_ok_task s id c _ i t (at_pc (Ended r) t)); [done..| | | |done|done|done|done]; by destruct r.
  - destruct (s_calls s !! id) as [c|] eqn:Ec; cbn in E; [|done]. destruct (c_tasks c !! i) as [t|] eqn:Ei; cbn in E; [|done].
    destruct (t_pc t); try done. by eapply waiting_ok_resume.
  - destruct (s_workers s !! k) as [w|] eqn:Ek; cbn in E; [|done]. destruct (worker_do ev w) as [w'|] eqn:Ew; cbn in E; [|done]. injection E as <-.
    eapply waiting_ok_worker; [done..|]. intros c _ _ _ _ _ _ _. by eapply worker_do_filled.
  - destruct (handlers _ !! _) as [h|] eqn:Eh; cbn in E; [|done]. injection E as <-. eapply (waiting_ok_move s); [done|..]; cbn.
    + intros k1 Hk. apply lookup_insert_is_Some'. by right.
    + intros id i t Et. exists t. split_and!; [done..|]. intros Ep. split; [done|]. intros c w _ Ew. by exists w.
    + intros id c Ec. right. exists c. by auto.
Qed.

Lemma no_sends_waiting interval : waiting_ok (no_sends interval).
Proof. split; unfold goroutine_of; cbn; intros; simplify_map_eq. Qed.

(** ** Carrying a call to its return *)

(** The events of the call [id] itself and of the workers: no step of another call or of
    its goroutines, no new call, no context that is done, no worker cancelled. *)
Definition helps (id : nat) (ev : event) : bool :=
  match ev with Works _ ev => undisturbed ev | Runs j | Goes j _ => bool_decide (j = id) | _ => false end.
Definition helped (id : nat) (s s' : sends) : Prop := ∃ ev, helps id ev = true ∧ do_event ev s = Some s'.

Definition good (s : sends) : Prop := sends_ok s ∧ waiting_ok s.

Lemma good_step s s' : sends_step s s' → good s → good s'.
Proof. intros Hs [Hok Hwk]. split; [by eapply sends_ok_step|by eapply waiting_ok_step]. Qed.

Lemma helped_good id s s' : rtc (helped id) s s' → good s → good s'.
Proof. induction 1 as [|s1 s2 s3 (ev & _ & E) _ IH]; [done|]. intros Hg. eapply IH, good_step; [by exists ev|done]. Qed.

Lemma good_reachable interval s : rtc sends_step (no_sends interval) s → good s.
Proof.
  revert s. refine (rtc_ind_r good _ _ _); [|intros s s' _ Hs Hg; by eapply good_step].
  split; [by apply (sends_reachable interval)|apply no_sends_waiting].
Qed.

(** The goroutine [i] of the call can end, while the rest of the call stays as it is. *)
Definition can_end (s : sends) (id i : nat) (c : call) : Prop :=
  ∃ s' c' t r, rtc (helped id) s s' ∧ s_calls s' !! id = Some c' ∧ c_main c' = c_main c ∧ c_txs c' = c_txs c ∧
    (∀ a, a ≠ i → c_tasks c' !! a = c_tasks c !! a) ∧ c_tasks c' !! i = Some t ∧ t_pc t = Ended r.

Lemma can_end_step s s1 id i c c1 :
  rtc (helped id) s s1 → c_main c1 = c_main c → c_txs c1 = c_txs c → (∀ a, a ≠ i → c_tasks c1 !! a = c_tasks c !! a) →
  can_end s1 id i c1 → can_end s id i c.
Proof.
  intros Hs Em Et Ha (s' & c' & t & r & Hs' & Ec' & Em' & Et' & Ha' & Hend). exists s', c', t, r.
  split_and!; [by etrans|done|congruence|congruence| |apply Hend..]. intros a Hne. by rewrite Ha', Ha.
Qed.

(** One event of the goroutine itself. *)
Lemma can_end_goes s s1 id i c t t1 :
  s_calls s !! id = Some c → c_tasks c !! i = Some t → do_event (Goes id i) s = Some s1 →
  s_calls s1 !! id = Some (set_task i t1 c) → can_end s1 id i (set_task i t1 c) → can_end s id i c.
Proof.
  intros Ec Ei E Ec1. apply can_end_step; [apply rtc_once; exists (Goes id i); split; [apply bool_decide_eq_true_2|]; done|done|done|].
  intros a Hne. cbn. by rewrite lookup_insert_ne.
Qed.

Lemma can_end_returning s id i c t r :
  s_calls s !! id = Some c → c_tasks c !! i = Some t → t_pc t = Returning r → can_end s id i c.
Proof.
  intros Ec Ei Ep. exists (set_call id (end_task i t r c) s), (end_task i t r c), (at_pc (Ended r) t), r.
  split_and!; [|apply lookup_insert_eq|by destruct r|by destruct r| | |done].
  - apply rtc_once. exists (Goes id i). split; [by apply bool_decide_eq_true_2|]. cbn. rewrite Ec. cbn. rewrite Ei. cbn. by rewrite Ep.
  - intros a Hne. destruct r; cbn; by rewrite lookup_insert_ne.
  - destruct r; cbn; apply lookup_insert_eq.
Qed.

Lemma can_end_received s id i c t resp :
  good s → s_calls s !! id = Some c → c_tasks c !! i = Some t → t_pc t = Received resp → can_end s id i c.
Proof.
  intros [_ Hwk] Ec Ei Ep. destruct (wk_handler _ Hwk id i t) as [h Eh]; [by rewrite (goroutine_in _ _ _ _ Ec)|].
  assert (∃ r s1, do_event (Goes id i) s = Some s1 ∧ s_calls s1 !! id = Some (set_task i (at_pc (Returning r) t) c)) as (r & s1 & E & Ec1).
  { cbn -[task_resume]. rewrite Ec. cbn -[task_resume]. rewrite Ei. cbn -[task_resume]. rewrite Ep. unfold task_resume. rewrite Eh. cbn.
    unfold mbind, M_bind, modify. destruct (ResponseError resp); cbn; eexists _, _; (split; [done|]); apply lookup_insert_eq. }
  eapply can_end_goes; [exact Ec|exact Ei|exact E|exact Ec1|].
  eapply (can_end_returning _ _ _ _ (at_pc (Returning r) t)); [exact Ec1|apply lookup_insert_eq|done].
Qed.

Lemma can_end_full s id i c t ch w :
  good s → s_calls s !! id = Some c → c_tasks c !! i = Some t → t_pc t = Selecting → t_chan t = Some ch →
  s_workers s !! t_key t = Some w → ch_contents ch (w_chs w) ≠ [] → can_end s id i c.
Proof.
  intros Hg Ec Ei Ep Eh Ew Hne.
  assert (∃ r s1, do_event (Goes id i) s = Some s1 ∧ s_calls s1 !! id = Some (set_task i (at_pc (Received r) t) c)) as (r & s1 & E & Ec1).
  { cbn -[task_receive]. rewrite Ec. cbn -[task_receive]. rewrite Ei. cbn -[task_receive]. rewrite Ep. unfold task_receive. rewrite Ew, Eh. cbn.
    unfold ch_receive. destruct (ch_contents ch (w_chs w)) as [|r rest]; [done|]. cbn. eexists r, _. split; [done|]. apply lookup_insert_eq. }
  eapply can_end_goes; [exact Ec|exact Ei|exact E|exact Ec1|].
  eapply (can_end_received _ _ _ _ (at_pc (Received r) t)); [|exact Ec1|apply lookup_insert_eq|done].
  eapply good_step; [by exists (Goes id i)|done].
Qed.

(** A run of one worker is a run of the whole. *)
Lemma worker_run_helped id evs s k w w' :
  Forall (λ ev, undisturbed ev = true) evs → s_workers s !! k = Some w → worker_run evs w = Some w' →
  ∃ s', rtc (helped id) s s' ∧ s_calls s' = s_calls s ∧ s_workers s' !! k = Some w'.
Proof.
  intros Hu. revert s w. induction Hu as [|ev evs Hev _ IH]; intros s w Ew; cbn; [intros [= <-]; by exists s|].
  destruct (worker_do ev w) as [w1|] eqn:E; cbn; [|done]. intros Er.
  destruct (IH (mkSends (s_nth s) (<[k := w1]> (s_workers s)) (s_calls s) (s_net s ++ asked_network k w w1)) w1) as (s' & Hs & Ec & Ew');
    [apply lookup_insert_eq|done|]. exists s'. split_and!; [|done|done].
  eapply rtc_l; [|exact Hs]. exists (Works k ev). split; [done|]. cbn. rewrite Ew. cbn. by rewrite E.
Qed.

Lemma can_end_selecting s id i c t :
  good s → s_calls s !! id = Some c → c_tasks c !! i = Some t → t_pc t = Selecting → can_end s id i c.
Proof.
  intros Hg Ec Ei Ep. pose proof Hg as [Hok Hwk].
  assert (Eg : goroutine_of s id i = Some t) by by rewrite (goroutine_in _ _ _ _ Ec).
  pose proof (so_task _ Hok _ _ _ Eg) as Ht. destruct (to_selecting _ _ _ Ht Ep) as [ch Eh].
  destruct (to_chan _ _ _ Ht ch Eh) as (w & Ew & Eq). pose proof (wo_inv _ _ _ (so_worker _ Hok _ _ Ew)) as Hi.
  destruct (worker_answers w ch Hi (wi_asked _ Hi _ _ Eq)) as (evs & w' & Hu & Er & Hne); [by eapply (wk_filled _ Hwk)|].
  destruct (worker_run_helped id evs s (t_key t) w w' Hu Ew Er) as (s1 & Hs1 & Ec1 & Ew1).
  eapply can_end_step; [exact Hs1|done|done|done|].
  eapply can_end_full; [by eapply helped_good|by rewrite Ec1|done..].
Qed.

Lemma can_end_starting s id i c t :
  good s → s_calls s !! id = Some c → c_tasks c !! i = Some t → t_pc t = Starting → can_end s id i c.
Proof.
  intros Hg Ec Ei Ep. pose proof Hg as [Hok _].
  assert (Eg : goroutine_of s id i = Some t) by by rewrite (goroutine_in _ _ _ _ Ec).
  destruct (to_worker _ _ _ (so_task _ Hok _ _ _ Eg)) as [w Ew]. pose proof (wo_inv _ _ _ (so_worker _ Hok _ _ Ew)) as Hi.
  destruct w as [tw go chs q]. destruct (AddTransaction_run (t_tx t) _ _ _ _ Hi) as (r & tw' & chs' & Er & _).
  set (t1 := mkTask (t_address t) (t_tx t) (Some r) Selecting).
  assert (∃ s1, do_event (Goes id i) s = Some s1 ∧ s_calls s1 !! id = Some (set_task i t1 c)) as (s1 & E & Ec1).
  { cbn -[task_add]. rewrite Ec. cbn -[task_add]. rewrite Ei. cbn -[task_add]. rewrite Ep. unfold task_add. rewrite Ew.
    unfold mbind, option_bind. cbn [w_tw w_chs]. rewrite Er. eexists. split; [done|]. apply lookup_insert_eq. }
  eapply can_end_goes; [exact Ec|exact Ei|exact E|exact Ec1|].
  eapply (can_end_selecting _ _ _ _ t1); [|exact Ec1|apply lookup_insert_eq|done].
  eapply good_step; [by exists (Goes id i)|done].
Qed.

Lemma goroutine_can_end s id i c t : good s → s_calls s !! id = Some c → c_tasks c !! i = Some t → can_end s id i c.
Proof.
  intros Hg Ec Ei. destruct (t_pc t) as [| |r|r|r] eqn:Ep.
  - by eapply can_end_starting.
  - by eapply can_end_selecting.
  - by eapply can_end_received.
  - by eapply can_end_returning.
  - by exists s, c, t, r.
Qed.

(** C6: no caller waits for ever: whatever has happened so far, a call of [SendTransactions]
    that waits for its group can return, by events of its own goroutines and of the
    workers, whose requests the network answers, alone: no goroutine of another call has
    to move, to receive what a worker has for it either, no context to end and no worker
    to be cancelled. *)
Theorem SendTransactions_can_return interval s id c :
  rtc sends_step (no_sends interval) s → s_calls s !! id = Some c → c_main c = AtWait →
  ∃ s' c', rtc (helped id) s s' ∧ s_calls s' !! id = Some c' ∧ c_txs c' = c_txs c ∧ c_main c' = Returned (c_hashes c') (c_err c').
Proof.
  intros Hg%good_reachable Ec Em.
  assert (Hn : ∀ n, (n ≤ length (c_txs c))%nat → ∃ s' c', rtc (helped id) s s' ∧ s_calls s' !! id = Some c' ∧ c_main c' = AtWait ∧ c_txs c' = c_txs c ∧
    ∀ i, (i < n)%nat → ∃ t r, c_tasks c' !! i = Some t ∧ t_pc t = Ended r).
  { induction n as [|n IH]; intros Hn; [exists s, c; split_and!; try done; intros; lia|].
    destruct IH as (s1 & c1 & Hs & Ec1 & Em1 & Et1 & Hend); [lia|]. pose proof (helped_good _ _ _ Hs Hg) as Hg1.
    destruct (wk_wait _ (proj2 Hg1) id c1 n Ec1 Em1) as [t Et]; [rewrite Et1; lia|].
    destruct (goroutine_can_end _ _ _ _ _ Hg1 Ec1 Et) as (s2 & c2 & t2 & r & Hs2 & Ec2 & Em2 & Et2 & Ha & Ei & Ep).
    exists s2, c2. split_and!; [by etrans|done|congruence|congruence|]. intros i Hi.
    destruct (decide (i = n)) as [->|Hne]; [by exists t2, r|]. rewrite Ha by done. apply Hend. lia. }
  destruct (Hn (length (c_txs c)) (le_n _)) as (s1 & c1 & Hs & Ec1 & Em1 & Et1 & Hend).
  exists (set_call id (set_main (Returned (c_hashes c1) (c_err c1)) c1) s1), (set_main (Returned (c_hashes c1) (c_err c1)) c1).
  split_and!; [|apply lookup_insert_eq|done|done]. eapply rtc_r; [exact Hs|]. exists (Runs id). split; [by apply bool_decide_eq_true_2|].
  cbn. rewrite Ec1. cbn. rewrite Em1. assert (all_ended c1 = true) as ->; [|done].
  apply forallb_forall. intros i Hi%in_seq. rewrite Et1 in Hi. destruct (Hend i) as (t & r & -> & ->); [lia|done].
Qed.
End Progress.

(** ** A run *)

Module SendProgressRun.
Import SendFlowRun.
#[local] Existing Instances map_to_list_rangeZ hexConverter.

(** Both goroutines have just been started. *)
Definition begun : list event := [Call 0 [Some (tx_of 5); Some (tx_of 3)]; Runs 0; Runs 0; Runs 0].
Definition waiting : sends := default (no_sends 1000000) (exec begun (no_sends 1000000)).
Definition waiting_call : call :=
  mkCall [Some (tx_of 5); Some (tx_of 3)] AtWait
    {[0%nat := mkTask (mkAddress (replicate 32 x01)) (tx_of 5) None Starting;
      1%nat := mkTask (mkAddress (replicate 32 x01)) (tx_of 3) None Starting]} [""; ""] None.

Lemma SendTransactions_can_return_witness :
  ∃ s' c', rtc (helped 0) waiting s' ∧ s_calls s' !! 0%nat = Some c' ∧ c_txs c' = c_txs waiting_call ∧
           c_main c' = Returned (c_hashes c') (c_err c').
Proof.
  apply (SendTransactions_can_return 1000000 waiting 0 waiting_call); [|vm_compute; reflexivity|reflexivity].
  apply (sends_exec_sound begun). vm_compute. reflexivity.
Defined.
End SendProgressRun.
