(* ===== verification/Crypto.v ===== *)
(** * Keys and signatures ([blockchain/cryptoProvider/])

    The key generator, the ed25519 signer, the Keccak hash and the JSON encoding
    of a transaction are libraries the sources call: they are the class [Crypto],
    with the documented laws in [CryptoLaws].  [signer] and
    [cryptoComponentsHolder] are the SDK's own code on top of them, and [Signer]
    is the interface of [builders/interface.go] that the clients are written for. *)

From S2P Require Export Data.

Class Crypto := {
  PrivateKey : Type;
  PublicKey : Type;
  PrivateKeyFromByteArray : bytes → outcome PrivateKey;
  PublicKeyFromByteArray : bytes → outcome PublicKey;
  GeneratePublic : PrivateKey → PublicKey;
  ToByteArray : PublicKey → outcome bytes;
  singlesig_Sign : PrivateKey → bytes → outcome bytes;
  singlesig_Verify : PublicKey → bytes → bytes → outcome ();
  keccak_Compute : bytes → bytes;
  json_MarshalTx : FrontendTransaction → outcome bytes }.

(** A signature verifies under the public key of its private key and is never
    empty; a public key is found again from its bytes. *)
Class CryptoLaws `{Crypto} := {
  singlesig_correct sk m sig : singlesig_Sign sk m = Ok sig → singlesig_Verify (GeneratePublic sk) m sig = Ok ();
  singlesig_not_empty sk m sig : singlesig_Sign sk m = Ok sig → sig ≠ [];
  PublicKey_bytes pk b : ToByteArray pk = Ok b → PublicKeyFromByteArray b = Ok pk;
  PublicKey_length pk b : ToByteArray pk = Ok b → length b = AddressBytesLen }.

Definition ErrTxAlreadySigned : error := ErrVar "cryptoProvider.ErrTxAlreadySigned".

(** ** The interface [builders.Signer] *)

Class Signer `{Crypto} := {
  sig_SignMessage : bytes → PrivateKey → outcome bytes;
  sig_VerifyMessage : bytes → PublicKey → bytes → outcome ();
  sig_SignTransaction : FrontendTransaction → PrivateKey → outcome bytes;
  sig_SignByteSlice : bytes → PrivateKey → outcome bytes;
  sig_VerifyByteSlice : bytes → PublicKey → bytes → outcome () }.

(** What the clients of a signer rely on. *)
Class SignerLaws `{Signer} := {
  SignMessage_verifies m sk sig : sig_SignMessage m sk = Ok sig → sig_VerifyMessage m (GeneratePublic sk) sig = Ok ();
  SignByteSlice_verifies m sk sig : sig_SignByteSlice m sk = Ok sig → sig_VerifyByteSlice m (GeneratePublic sk) sig = Ok ();
  SignMessage_not_empty m sk sig : sig_SignMessage m sk = Ok sig → sig ≠ [];
  SignByteSlice_not_empty m sk sig : sig_SignByteSlice m sk = Ok sig → sig ≠ [] }.

(** ** [signer.go] *)

Section Signer.
Context `{Crypto}.

Definition messagePrefix : bytes := x17 :: bytes_of_string "Elrond Signed Message:" ++ [x0a].

Definition serializeForSigning (msg : bytes) : bytes :=
  let msgSize := bytes_of_string (itoa (Z.of_nat (length msg))) in
  let msg := msgSize ++ msg in
  let msg := messagePrefix ++ msg in
  keccak_Compute msg.

Definition SignByteSlice (msg : bytes) (privateKey : PrivateKey) : outcome bytes := singlesig_Sign privateKey msg.

Definition VerifyByteSlice (msg : bytes) (publicKey : PublicKey) (sig : bytes) : outcome () :=
  singlesig_Verify publicKey msg sig.

Definition SignMessage (msg : bytes) (privateKey : PrivateKey) : outcome bytes :=
  let serializedMessage := serializeForSigning msg in
  SignByteSlice serializedMessage privateKey.

Definition VerifyMessage (msg : bytes) (publicKey : PublicKey) (sig : bytes) : outcome () :=
  let serializedMessage := serializeForSigning msg in
  singlesig_Verify publicKey serializedMessage sig.

(** [tx.Version >= 2 && tx.Options&1 > 0] *)
Definition shouldSignOnTxHash (tx : FrontendTransaction) : bool :=
  (2 <=? tx_Version tx) && (0 <? Z.land (tx_Options tx) 1).

Definition SignTransaction (tx : FrontendTransaction) (privateKey : PrivateKey) : outcome bytes :=
  if Nat.ltb 0 (String.length (tx_Signature tx)) then Fail ErrTxAlreadySigned
  else
    txBytes ← json_MarshalTx tx;
    let txBytes := if shouldSignOnTxHash tx then keccak_Compute txBytes else txBytes in
    SignByteSlice txBytes privateKey.

#[export] Instance signer : Signer := {|
  sig_SignMessage := SignMessage;
  sig_VerifyMessage := VerifyMessage;
  sig_SignTransaction := SignTransaction;
  sig_SignByteSlice := SignByteSlice;
  sig_VerifyByteSlice := VerifyByteSlice |}.

#[export] Instance signer_laws `{!CryptoLaws} : SignerLaws.
Proof.
  split; cbn; unfold SignMessage, VerifyMessage, SignByteSlice, VerifyByteSlice.
  - intros m sk sig. apply singlesig_correct.
  - intros m sk sig. apply singlesig_correct.
  - intros m sk sig. apply singlesig_not_empty.
  - intros m sk sig. apply singlesig_not_empty.
Qed.
End Signer.

(** ** [cryptoComponentsHolder.go] *)

Section Holder.
Context `{Crypto} `{PubkeyConverter}.

Record cryptoComponentsHolder := mkHolder {
  publicKey : PublicKey;
  privateKey : PrivateKey;
  addressHandler : address;
  bech32Address : string }.

Definition NewCryptoComponentsHolder (skBytes : bytes) : outcome cryptoComponentsHolder :=
  privateKey ← PrivateKeyFromByteArray skBytes;
  let publicKey := GeneratePublic privateKey in
  publicKeyBytes ← ToByteArray publicKey;
  let addressHandler := NewAddressFromBytes publicKeyBytes in
  bech32Address ← AddressAsBech32String addressHandler;
  Ok (mkHolder publicKey privateKey addressHandler bech32Address).

Definition GetPublicKey (h : cryptoComponentsHolder) : PublicKey := publicKey h.
Definition GetPrivateKey (h : cryptoComponentsHolder) : PrivateKey := privateKey h.
Definition GetBech32 (h : cryptoComponentsHolder) : string := bech32Address h.
Definition GetAddressHandler (h : cryptoComponentsHolder) : address := addressHandler h.

(** What the constructor establishes: all the fields are about one key pair. *)
Record holder_ok (h : cryptoComponentsHolder) : Prop := {
  ho_public : publicKey h = GeneratePublic (privateKey h);
  ho_address : ToByteArray (publicKey h) = Ok (addr_bytes (addressHandler h));
  ho_bech32 : AddressAsBech32String (addressHandler h) = Ok (bech32Address h) }.

Lemma NewCryptoComponentsHolder_ok sk h : NewCryptoComponentsHolder sk = Ok h → holder_ok h.
Proof.
  unfold NewCryptoComponentsHolder. intros E. mrun. split; cbn; [done|done|]. by rewrite E2.
Qed.

(** The address text leads back to the public key. *)
Lemma holder_public_key `{!CryptoLaws} `{!PubkeyConverterLaws} h :
  holder_ok h →
  pkc_Decode (bech32Address h) = Ok (addr_bytes (addressHandler h)) ∧
  PublicKeyFromByteArray (addr_bytes (addressHandler h)) = Ok (publicKey h).
Proof.
  intros [Hp Ha Hb]. split; [by apply pkc_Decode_Encode|by apply PublicKey_bytes].
Qed.
End Holder.

(** ** A scheme for concrete runs

    A private key is 32 bytes and its own public key; a signature is the key
    followed by the message. *)

Definition toyCrypto : Crypto := {|
  PrivateKey := bytes;
  PublicKey := bytes;
  PrivateKeyFromByteArray b := if Nat.eqb (length b) 32 then Ok b else Fail (ErrText "wrong size");
  PublicKeyFromByteArray b := if Nat.eqb (length b) 32 then Ok b else Fail (ErrText "wrong size");
  GeneratePublic sk := sk;
  ToByteArray pk := if Nat.eqb (length pk) 32 then Ok pk else Fail (ErrText "wrong size");
  singlesig_Sign sk m := Ok (x53 :: sk ++ m);
  singlesig_Verify pk m sig := if bool_decide (sig = x53 :: pk ++ m) then Ok () else Fail (ErrText "bad signature");
  keccak_Compute b := b;
  json_MarshalTx tx :=
    Ok (bytes_of_string (itoa (tx_Nonce tx) +:+ tx_Sender tx +:+ tx_Receiver tx +:+ tx_Signature tx
                         +:+ tx_GuardianSignature tx) ++ tx_Data tx) |}.

Lemma toyCrypto_laws : @CryptoLaws toyCrypto.
Proof.
  split; cbn.
  - intros sk m sig [= <-]. by rewrite bool_decide_true.
  - by intros sk m sig [= <-].
  - intros pk b. destruct (Nat.eqb (length pk) 32) eqn:E; [|done]. intros [= <-]. by rewrite E.
  - intros pk b. destruct (Nat.eqb (length pk) 32) eqn:E; [|done]. intros [= <-]. by apply Nat.eqb_eq.
Qed.
