(* ===== verification/Storage.v ===== *)
(** * The map cacher ([storage/mapCacher.go])

    [mapCacher] stores values of any type ([V]) under byte keys and tells the
    registered handlers of each addition.  The handlers are functions of the
    caller run in goroutines of their own: the model keeps their identities and
    logs the calls.  [Cacher] is the part of the interface [storage.Cacher] of
    mx-chain-go that the SDK's components call. *)

From S2P Require Export GoStd.

(** ** The interface *)

Class Cacher (V C : Type) := {
  cacher_Get : bytes → C → option V;
  cacher_Put : bytes → V → Z → C → C * bool }.

(** A cacher may forget, and evict, but it never makes up a value. *)
Class CacherLaws (V C : Type) `{Cacher V C} := {
  cacher_Get_Put k k' v size c x :
    cacher_Get k (cacher_Put k' v size c).1 = Some x → (k = k' ∧ x = v) ∨ cacher_Get k c = Some x }.

(** ** The implementation *)

Section MapCacher.
Context {V : Type}.

Record mapCacher := mkMapCacher {
  dataMap : gmap string V;
  addedDataHandlers : list nat;
  notified : list (nat * (bytes * V)) }.

Definition NewMapCacher : mapCacher := mkMapCacher ∅ [] [].

Definition Clear (mc : mapCacher) : mapCacher := mkMapCacher ∅ (addedDataHandlers mc) (notified mc).

Definition callAddedDataHandlers (key : bytes) (val : V) (mc : mapCacher) : mapCacher :=
  mkMapCacher (dataMap mc) (addedDataHandlers mc)
    (notified mc ++ map (λ handler, (handler, (key, val))) (addedDataHandlers mc)).

Definition Put (key : bytes) (value : V) (size : Z) (mc : mapCacher) : mapCacher * bool :=
  (callAddedDataHandlers key value
     (mkMapCacher (<[string_of_bytes key := value]> (dataMap mc)) (addedDataHandlers mc) (notified mc)), false).

Definition Get (key : bytes) (mc : mapCacher) : option V := dataMap mc !! string_of_bytes key.
Definition Has (key : bytes) (mc : mapCacher) : bool := bool_decide (is_Some (dataMap mc !! string_of_bytes key)).
Definition Peek (key : bytes) (mc : mapCacher) : option V := dataMap mc !! string_of_bytes key.

Definition HasOrAdd (key : bytes) (value : V) (size : Z) (mc : mapCacher) : mapCacher * (bool * bool) :=
  match dataMap mc !! string_of_bytes key with
  | Some _ => (mc, (true, false))
  | None =>
    (callAddedDataHandlers key value
       (mkMapCacher (<[string_of_bytes key := value]> (dataMap mc)) (addedDataHandlers mc) (notified mc)), (false, true))
  end.

Definition Remove (key : bytes) (mc : mapCacher) : mapCacher :=
  mkMapCacher (delete (string_of_bytes key) (dataMap mc)) (addedDataHandlers mc) (notified mc).

Definition Keys `{MapRange V} (mc : mapCacher) : list bytes := map bytes_of_string (range (dataMap mc)).*1.

Definition Len (mc : mapCacher) : Z := Z.of_nat (size (dataMap mc)).

Definition MaxSize (mc : mapCacher) : Z := 10000.

Definition RegisterHandler (handler : option nat) (mc : mapCacher) : mapCacher :=
  match handler with
  | None => mc
  | Some h => mkMapCacher (dataMap mc) (addedDataHandlers mc ++ [h]) (notified mc)
  end.

Definition UnRegisterHandler (id : string) (mc : mapCacher) : mapCacher := mc.

(** [gob] is [gob.NewEncoder(b).Encode(v)]: the bytes it appends to the buffer
    and whether it succeeds. *)
Section Size.
Variable gob : V → bytes * bool.

Fixpoint sizeLoop (vs : list V) (b : bytes) (total : Z) : Z :=
  match vs with
  | [] => total
  | v :: vs =>
    let '(written, ok) := gob v in
    let b := b ++ written in
    sizeLoop vs b (if ok then total + Z.of_nat (length b) else total)
  end.

Definition SizeInBytesContained `{MapRange V} (mc : mapCacher) : Z :=
  u64 (sizeLoop (range (dataMap mc)).*2 [] 0).
End Size.
End MapCacher.
Arguments mapCacher : clear implicits.

#[export] Instance mapCacher_cacher V : Cacher V (mapCacher V) := {|
  cacher_Get := Get;
  cacher_Put := Put |}.

Lemma Get_Put_eq {V} key (v : V) size mc : Get key (Put key v size mc).1 = Some v.
Proof. apply lookup_insert_eq. Qed.

Lemma Get_Put_ne {V} key key' (v : V) size mc : key ≠ key' → Get key' (Put key v size mc).1 = Get key' mc.
Proof. intros Hk. apply lookup_insert_ne. intros E. by apply (inj string_of_bytes) in E. Qed.

#[export] Instance mapCacher_laws V : CacherLaws V (mapCacher V).
Proof.
  split. intros k k' v size c x.
  change (Get k (Put k' v size c).1 = Some x → (k = k' ∧ x = v) ∨ Get k c = Some x). destruct (decide (k' = k)) as [->|Hk].
  - rewrite Get_Put_eq. intros [= <-]. by left.
  - rewrite Get_Put_ne by done. by right.
Qed.

(** The cacher is a map that tells its handlers of each addition exactly
    once: Put always stores and notifies every registered handler; HasOrAdd on an absent
    key does the same as Put, on a present key it changes nothing and notifies nobody; the other keys are not touched. *)
Theorem mapCacher_is_a_map {V} (key : bytes) (v : V) (size : Z) (mc : mapCacher V) :
  let mc' := (Put key v size mc).1 in
  (∀ k, Get k mc' = if decide (k = key) then Some v else Get k mc) ∧
  notified mc' = notified mc ++ map (λ h, (h, (key, v))) (addedDataHandlers mc) ∧
  HasOrAdd key v size mc = (if Has key mc then (mc, (true, false)) else (mc', (false, true))) ∧
  (∀ k, Get k (Remove key mc) = if decide (k = key) then None else Get k mc).
Proof.
  split; [|split; [done|split]].
  - intros k. case_decide as Hk; [subst; apply Get_Put_eq|by apply Get_Put_ne].
  - unfold HasOrAdd, Has. by destruct (dataMap mc !! string_of_bytes key).
  - intros k. unfold Get, Remove. cbn. case_decide as Hk; [subst; apply lookup_delete_eq|].
    apply lookup_delete_ne. intros E. by apply (inj string_of_bytes) in E.
Qed.

(** SizeInBytesContained encodes all values into one buffer it never resets,
    so with values of sizes a, b, c (in the order visited) it answers
    a + (a + b) + (a + b + c) and not the size of the contained elements. *)
Theorem SizeInBytesContained_sums_prefixes {V} `{MapRange V} (gob : V → bytes * bool) (mc : mapCacher V) :
  (∀ v, (gob v).2 = true) →
  let sizes := map (λ v, Z.of_nat (length (gob v).1)) (range (dataMap mc)).*2 in
  SizeInBytesContained gob mc
  = u64 (foldr Z.add 0 (map (λ n, foldr Z.add 0 (take n sizes)) (seq 1 (length sizes)))).
Proof.
  intros Hok sizes. unfold SizeInBytesContained. f_equal. subst sizes.
  generalize (range (dataMap mc)).*2 as vs. intros vs.
  assert (G : ∀ b total, sizeLoop gob vs b total = total +
    foldr Z.add 0 (map (λ n, Z.of_nat (length b) + foldr Z.add 0 (take n (map (λ v, Z.of_nat (length (gob v).1)) vs)))
                     (seq 1 (length vs)))).
  { clear mc. induction vs as [|v vs IH]; intros b total; [cbn; lia|]. cbn [sizeLoop].
    specialize (Hok v). destruct (gob v) as [w ok] eqn:E. cbn in Hok. subst ok. rewrite IH. cbn [length seq map foldr].
    rewrite <-(seq_shift (length vs) 1), map_map. cbn [take foldr map]. rewrite E. cbn [fst].
    rewrite length_app, Nat2Z.inj_add. rewrite Z.add_0_r, <-Z.add_assoc. do 2 f_equal.
    f_equal. apply map_ext. intros n. lia. }
  rewrite G, length_map. cbn. done.
Qed.

Lemma SizeInBytesContained_sums_prefixes_witness :
  @SizeInBytesContained bytes (λ v, (v, true)) (map_to_list_range _)
    (mkMapCacher {["k" := [x01; x02; x03]; "l" := [x04; x05; x06]]} [] []) = 9.
Proof.
  rewrite (@SizeInBytesContained_sums_prefixes _ (map_to_list_range _)) by done. vm_compute. reflexivity.
Defined.
