(* ===== verification/Http.v ===== *)
(** * The HTTP client wrapper ([core/http/clientWrapper.go])

    The network is [http.Client]'s [Do], a parameter: it takes a request and
    gives a response or an error.  [HttpClientWrapper] is the interface through
    which the blockchain and authentication packages make requests; a call returns the
    body, the status code and the error side by side, as the Go function does. *)

From S2P Require Export GoStd.

Definition StatusOK : Z := 200.
Definition StatusBadRequest : Z := 400.

(** ** The interface *)

Class HttpClientWrapper (W : Type) := {
  http_GetHTTP : string → W → (bytes * Z * option error) * W;
  http_PostHTTP : string → bytes → W → (bytes * Z * option error) * W }.

(** ** The implementation *)

Record request := mkRequest {
  req_Method : string;
  req_URL : string;
  req_Header : list (string * string);
  req_Body : bytes }.

(** Reading the body gives the bytes read and the error that stopped it. *)
Record response := mkResponse { resp_StatusCode : Z; resp_Body : bytes * option error }.

Definition httpUserAgentKey : string := "User-Agent".
Definition httpUserAgent : string := "MultiversX/1.0.1 (GO SDK tools)".
Definition httpAcceptTypeKey : string := "Accept".
Definition httpAcceptType : string := "application/json".
Definition httpContentTypeKey : string := "Content-Type".
Definition httpContentType : string := "application/json".

Definition applyGetHeaderParams (r : request) : request :=
  mkRequest (req_Method r) (req_URL r)
    (req_Header r ++ [(httpAcceptTypeKey, httpAcceptType); (httpUserAgentKey, httpUserAgent)]) (req_Body r).
Definition applyPostHeaderParams (r : request) : request :=
  let r := applyGetHeaderParams r in
  mkRequest (req_Method r) (req_URL r) (req_Header r ++ [(httpContentTypeKey, httpContentType)]) (req_Body r).

(** [NewHttpClientWrapper]: a nil client is replaced by [http.DefaultClient]. *)
Definition NewHttpClientWrapper {Client} (DefaultClient : Client) (client : option Client) (url : string) : Client * string :=
  (default DefaultClient client, url).

Section Wrapper.
(** [NewRequestWithContext]'s check of the URL, and [client.Do]. *)
Context {W : Type} (bad_url : string → option error) (client_Do : request → W → (error + response) * W).
Variable url : string.

Definition GetHTTP (endpoint : string) (w : W) : (bytes * Z * option error) * W :=
  let url := url +:+ "/" +:+ endpoint in
  match bad_url url with
  | Some e => (([], StatusBadRequest, Some e), w)
  | None =>
    let request := applyGetHeaderParams (mkRequest "GET" url [] []) in
    match client_Do request w with
    | (inl e, w) => (([], StatusBadRequest, Some e), w)
    | (inr response, w) =>
      match resp_Body response with
      | (_, Some e) => (([], resp_StatusCode response, Some e), w)
      | (body, None) => ((body, resp_StatusCode response, None), w)
      end
    end
  end.

Definition PostHTTP (endpoint : string) (data : bytes) (w : W) : (bytes * Z * option error) * W :=
  let url := url +:+ "/" +:+ endpoint in
  match bad_url url with
  | Some e => (([], StatusBadRequest, Some e), w)
  | None =>
    let request := applyPostHeaderParams (mkRequest "POST" url [] data) in
    match client_Do request w with
    | (inl e, w) => (([], StatusBadRequest, Some e), w)
    | (inr response, w) =>
      let '(buff, err) := resp_Body response in ((buff, resp_StatusCode response, err), w)
    end
  end.

Definition clientWrapper : HttpClientWrapper W := {|
  http_GetHTTP := GetHTTP;
  http_PostHTTP := PostHTTP |}.
End Wrapper.

(** ** A world for concrete runs: a table of pages and a log of the requests *)

Record web := mkWeb { web_pages : list (string * (bytes * Z * option error)); web_log : list (string * bytes) }.

Definition web_find (endpoint : string) (pages : list (string * (bytes * Z * option error))) : bytes * Z * option error :=
  match find (λ p, String.eqb p.1 endpoint) pages with
  | Some p => p.2
  | None => ([], 404, None)
  end.

Definition web_client : HttpClientWrapper web := {|
  http_GetHTTP endpoint w := (web_find endpoint (web_pages w), mkWeb (web_pages w) (web_log w ++ [(endpoint, [])]));
  http_PostHTTP endpoint data w := (web_find endpoint (web_pages w), mkWeb (web_pages w) (web_log w ++ [(endpoint, data)])) |}.
