(* ===== verification/Auth.v ===== *)
(** * Native authentication ([authentication/native/])

    [authTokenHandler] writes and reads tokens; [authServer] checks a token's
    expiration, with a cache of block timestamps, and its signature; [authClient]
    makes tokens.  Client and server are written against the interfaces
    [AuthTokenHandler], [Signer], [Cacher] and [HttpClientWrapper] of the source,
    which are classes here. *)

From S2P Require Export Crypto Storage Http.

(** ** [errors.go] *)

Definition ErrNilTokenHandler : error := ErrVar "authentication.ErrNilTokenHandler".
Definition ErrNilSigner : error := ErrVar "authentication.ErrNilSigner".
Definition ErrNilSignature : error := ErrVar "authentication.ErrNilSignature".
Definition ErrNilTokenAddress : error := ErrVar "authentication.ErrNilAddress".
Definition ErrNilBody : error := ErrVar "authentication.ErrNilBody".
Definition ErrTokenExpired : error := ErrVar "authentication.ErrTokenExpired".
Definition ErrNilCryptoComponentsHolder : error := ErrVar "authentication.ErrNilCryptoComponentsHolder".
Definition ErrNilHttpClientWrapper : error := ErrVar "authentication.ErrNilHttpClientWrapper".
Definition ErrHTTPStatusCodeIsNotOK : error := ErrVar "authentication.ErrHTTPStatusCodeIsNotOK".
Definition ErrNilCacher : error := ErrVar "authentication.ErrNilCacher".
Definition ErrInvalidValue : error := ErrVar "authentication.ErrInvalidValue".
Definition ErrNilKeyGenerator : error := ErrVar "crypto.ErrNilKeyGenerator".
Definition ErrNilPubkeyConverter : error := ErrVar "core.ErrNilPubkeyConverter".
Definition ErrNilProxy : error := ErrVar "workflows.ErrNilProxy".

Definition CreateHTTPStatusError (httpStatusCode : Z) (err : option error) : error :=
  let err := default ErrHTTPStatusCodeIsNotOK err in
  ErrWrap err ("returned http status: " +:+ itoa httpStatusCode).

(** ** [token.go] *)

Record AuthToken := mkToken {
  GetTtl : Z;
  GetAddress : bytes;
  GetHost : bytes;
  GetExtraInfo : bytes;
  GetSignature : bytes;
  GetBlockHash : string }.

Definition setSignature (sig : bytes) (t : AuthToken) : AuthToken :=
  mkToken (GetTtl t) (GetAddress t) (GetHost t) (GetExtraInfo t) sig (GetBlockHash t).

(** ** The interface of a token handler *)

Class AuthTokenHandler := {
  th_Decode : string → outcome AuthToken;
  th_Encode : AuthToken → outcome string;
  th_GetUnsignedToken : AuthToken → bytes;
  th_GetSignableMessage : bytes → bytes → bytes;
  th_GetSignableMessageLegacy : bytes → bytes → bytes }.

(** ** [tokenHandler.go] *)

Module TokenHandler.

Definition decodeHandler (source : string) : outcome bytes :=
  let source := strings_ReplaceAll "-" "+" source in
  let source := strings_ReplaceAll "_" "/" source in
  let source := strings_TrimRight "=" source in
  base64_RawStdDecode source.

Definition encodeHandler (source : bytes) : string :=
  let encoded := base64_StdEncode source in
  let encoded := strings_ReplaceAll "+" "-" encoded in
  let encoded := strings_ReplaceAll "/" "_" encoded in
  strings_TrimRight "=" encoded.

(** [strs[i]] *)
Definition index (strs : list string) (i : nat) : outcome string :=
  match strs !! i with Some s => Ok s | None => Panic end.

Definition Decode (accessToken : string) : outcome AuthToken :=
  let strs := strings_Split "." accessToken in
  s0 ← index strs 0;
  address ← decodeHandler s0;
  s1 ← index strs 1;
  body ← decodeHandler s1;
  s2 ← index strs 2;
  signature ← hex_DecodeString s2;
  let strs := strings_Split "." (string_of_bytes body) in
  s0 ← index strs 0;
  host ← decodeHandler s0;
  blockHash ← index strs 1;
  s2 ← index strs 2;
  ttl ← strconv_ParseInt s2;
  s3 ← index strs 3;
  extraInfo ← decodeHandler s3;
  Ok (mkToken ttl address host extraInfo signature blockHash).

Definition GetUnsignedToken (token : AuthToken) : bytes :=
  let encodedExtraInfo := encodeHandler (GetExtraInfo token) in
  let encodedHost := encodeHandler (GetHost token) in
  bytes_of_string (encodedHost +:+ "." +:+ GetBlockHash token +:+ "." +:+ itoa (GetTtl token)
                   +:+ "." +:+ encodedExtraInfo).

Definition Encode (authToken : AuthToken) : outcome string :=
  match GetSignature authToken with
  | [] => Fail ErrNilSignature
  | signature =>
    let encodedAddress := encodeHandler (GetAddress authToken) in
    if Nat.eqb (String.length encodedAddress) 0 then Fail ErrNilTokenAddress
    else
      let encodedToken := encodeHandler (GetUnsignedToken authToken) in
      if Nat.eqb (String.length encodedToken) 0 then Fail ErrNilBody
      else Ok (encodedAddress +:+ "." +:+ encodedToken +:+ "." +:+ hex_EncodeToString signature)
  end.

Definition GetSignableMessage (address unsignedToken : bytes) : bytes := address ++ unsignedToken.

Definition GetSignableMessageLegacy (address unsignedToken : bytes) : bytes :=
  address ++ unsignedToken ++ bytes_of_string "{}".

#[global] Instance authTokenHandler : AuthTokenHandler := {|
  th_Decode := Decode;
  th_Encode := Encode;
  th_GetUnsignedToken := GetUnsignedToken;
  th_GetSignableMessage := GetSignableMessage;
  th_GetSignableMessageLegacy := GetSignableMessageLegacy |}.

(** ** The encoding is undone by the decoding *)

Definition url_safe (c : ascii) : ascii :=
  if Ascii.eqb c "+" then "-"%char else if Ascii.eqb c "/" then "_"%char else c.

Lemma url_safe_pad c : Ascii.eqb (url_safe c) "=" = Ascii.eqb c "=".
Proof.
  unfold url_safe. destruct (Ascii.eqb_spec c "+") as [->|]; [done|].
  by destruct (Ascii.eqb_spec c "/") as [->|].
Qed.

Lemma url_safe_dot c : is_b64 c = true → negb (Ascii.eqb (url_safe c) ".") = true.
Proof.
  intros Hc. unfold url_safe. destruct (Ascii.eqb_spec c "+") as [->|]; [done|].
  destruct (Ascii.eqb_spec c "/") as [->|]; [done|]. by destruct (Ascii.eqb_spec c ".") as [->|].
Qed.

(** The characters back from the URL safe ones. *)
Lemma url_safe_undo c :
  is_b64 c = true →
  (let c1 := if Ascii.eqb (url_safe c) "-" then "+"%char else url_safe c in
   if Ascii.eqb c1 "_" then "/"%char else c1) = c.
Proof.
  intros Hc. unfold url_safe. destruct (Ascii.eqb_spec c "+") as [->|]; [done|].
  destruct (Ascii.eqb_spec c "/") as [->|]; [done|].
  destruct (Ascii.eqb_spec c "-") as [->|]; [done|]. by destruct (Ascii.eqb_spec c "_") as [->|].
Qed.

Lemma encodeHandler_body b : encodeHandler b = string_map url_safe (base64_body b).
Proof.
  unfold encodeHandler, strings_ReplaceAll. rewrite string_map_map.
  change (strings_TrimRight "=" (string_map _ (base64_StdEncode b)))
    with (strings_TrimRight "=" (string_map (λ c, let c1 := if Ascii.eqb c "+" then "-"%char else c in
            if Ascii.eqb c1 "/" then "_"%char else c1) (base64_StdEncode b))).
  rewrite (string_map_ext _ url_safe).
  - unfold strings_TrimRight. rewrite (trim_right_map (λ x, Ascii.eqb x "=")) by apply url_safe_pad.
    f_equal. apply base64_StdEncode_trim.
  - intros c. unfold url_safe. by destruct (Ascii.eqb_spec c "+") as [->|].
Qed.

Lemma decode_encodeHandler b : decodeHandler (encodeHandler b) = Ok b.
Proof.
  rewrite encodeHandler_body. unfold decodeHandler, strings_ReplaceAll, strings_TrimRight.
  rewrite !string_map_map, (string_map_id _ is_b64); [|apply url_safe_undo|apply base64_body_chars].
  rewrite trim_right_id; [apply base64_Decode_body|].
  eapply string_forallb_impl; [apply is_b64_not_pad|apply base64_body_chars].
Qed.

Lemma encodeHandler_no_dot b : lacks "."%char (encodeHandler b).
Proof.
  rewrite encodeHandler_body, string_forallb_map.
  eapply string_forallb_impl; [apply url_safe_dot|apply base64_body_chars].
Qed.

Lemma encodeHandler_empty b : encodeHandler b = "" → b = [].
Proof. intros E. pose proof (decode_encodeHandler b) as D. rewrite E in D. by injection D as <-. Qed.

Lemma itoa_no_dot z : lacks "."%char (itoa z).
Proof.
  eapply string_forallb_impl; [|apply itoa_chars]. intros c. by destruct (Ascii.eqb_spec c ".") as [->|].
Qed.

Lemma hex_no_dot b : lacks "."%char (hex_EncodeToString b).
Proof. apply hex_chars_lack; [done|apply hex_Encode_chars]. Qed.

(** A token that can be written: its parts are there, the block hash is one word. *)
Record writable (t : AuthToken) : Prop := {
  wr_signature : GetSignature t ≠ [];
  wr_address : GetAddress t ≠ [];
  wr_ttl : is_i64 (GetTtl t);
  wr_hash : lacks "."%char (GetBlockHash t) }.

Lemma Encode_run t :
  writable t →
  Encode t = Ok (encodeHandler (GetAddress t) +:+ "." +:+ encodeHandler (GetUnsignedToken t)
                 +:+ "." +:+ hex_EncodeToString (GetSignature t)).
Proof.
  intros [Hs Ha _ _]. unfold Encode. destruct (GetSignature t) as [|b sig]; [done|].
  destruct (encodeHandler (GetAddress t)) as [|c s] eqn:E; [by apply encodeHandler_empty in E|].
  cbn [String.length Nat.eqb]. destruct (encodeHandler (GetUnsignedToken t)) as [|c' s'] eqn:E'; [|done].
  apply encodeHandler_empty in E'. unfold GetUnsignedToken in E'. by destruct (encodeHandler (GetHost t)).
Qed.

Lemma Decode_run t :
  writable t →
  Decode (encodeHandler (GetAddress t) +:+ "." +:+ encodeHandler (GetUnsignedToken t)
          +:+ "." +:+ hex_EncodeToString (GetSignature t)) = Ok t.
Proof.
  intros [_ _ Httl Hh]. unfold Decode.
  rewrite !strings_Split_sep, strings_Split_lacks by (apply encodeHandler_no_dot || apply hex_no_dot).
  cbn [index lookup list_lookup].
  unfold mbind, outcome_bind, index; cbn. rewrite !decode_encodeHandler, hex_Decode_Encode.
  unfold GetUnsignedToken. rewrite string_of_bytes_of_string.
  rewrite !strings_Split_sep, strings_Split_lacks by (apply encodeHandler_no_dot || apply itoa_no_dot || done).
  cbn. rewrite !decode_encodeHandler, strconv_ParseInt_itoa by done. by destruct t.
Qed.

(** A token survives the trip: what Encode writes for a token with a
    signature, an address, a 64 bit ttl and a block hash without a dot, Decode reads back as the same token. *)
Theorem Decode_Encode (t : AuthToken) :
  writable t → ∃ s, Encode t = Ok s ∧ Decode s = Ok t.
Proof. intros Ht. eexists. split; [by apply Encode_run|by apply Decode_run]. Qed.

Definition witness_token : AuthToken :=
  mkToken 86400 (bytes_of_string "erd1alice") (bytes_of_string "https://host") (bytes_of_string "{}") [x01; xff] "abcdef".

Lemma witness_writable : writable witness_token.
Proof. split; done. Qed.

Lemma Decode_Encode_witness : ∃ s, Encode witness_token = Ok s ∧ Decode s = Ok witness_token.
Proof. apply (Decode_Encode witness_token witness_writable). Defined.

(** Decode does not check how many parts a token has: on a text without a
    dot that is valid base64 it panics with an index out of range instead of returning an error. *)
Theorem Decode_panics_without_dots (s : string) (b : bytes) :
  lacks "."%char s → decodeHandler s = Ok b → Decode s = Panic.
Proof. intros Hs Hb. unfold Decode. rewrite strings_Split_lacks by done. cbn. by rewrite Hb. Qed.

Lemma Decode_panics_without_dots_witness : Decode "abcd" = Panic.
Proof. apply (Decode_panics_without_dots "abcd" [x69; xb7; x1d]); reflexivity. Defined.
End TokenHandler.

(** ** [server.go] *)

(** A value of the cache: an [int64], or something else. *)
Inductive cached := CInt64 (z : Z) | COther.

Module Server.
Section Server.
Context {C W : Type} `{Crypto} `{Signer} `{PubkeyConverter} `{AuthTokenHandler}
  `{HttpClientWrapper W} `{Cacher cached C}.
(** [json.Unmarshal] of a block: its timestamp. *)
Variable json_Block : bytes → outcome Z.

Abbreviation St := (C * W)%type.

Definition int64Size : Z := 64.

(** The flags are the nil checks of the six arguments, in their order. *)
Definition checkArgs (http signer keyGen pkConv tokenHandler cacher : bool) : outcome () :=
  if negb http then Fail ErrNilHttpClientWrapper
  else if negb signer then Fail ErrNilSigner
  else if negb keyGen then Fail ErrNilKeyGenerator
  else if negb pkConv then Fail ErrNilPubkeyConverter
  else if negb tokenHandler then Fail ErrNilTokenHandler
  else if negb cacher then Fail ErrNilCacher
  else Ok ().

(** The state of a server is its cacher: the other fields are read only. *)
Definition NewNativeAuthServer (http signer keyGen pkConv tokenHandler : bool) (timestampsCacher : option C) : outcome C :=
  checkArgs http signer keyGen pkConv tokenHandler (bool_decide (is_Some timestampsCacher)) ;;
  of_option ErrNilCacher timestampsCacher.

Definition getBlockByHash (hash : string) : M W Z := λ w,
  let '((buff, code, err), w) := http_GetHTTP ("blocks/" +:+ hash) w in
  match err with
  | Some _ => (Fail (CreateHTTPStatusError code err), w)
  | None => if code =? StatusOK then (json_Block buff, w) else (Fail (CreateHTTPStatusError code None), w)
  end.

Definition getBlockTimestamp (blockHash : string) : M St Z :=
  c ← gets fst;
  match cacher_Get (bytes_of_string blockHash) c with
  | Some (CInt64 timestamp) => mret timestamp
  | Some COther => throw (ErrWrap ErrInvalidValue "while casting timestamp value")
  | None =>
    timestamp ← onsnd (getBlockByHash blockHash);
    let intTimestamp := i64 timestamp in
    onfst (modify (λ c, (cacher_Put (bytes_of_string blockHash) (CInt64 intTimestamp) int64Size c).1)) ;;
    mret intTimestamp
  end.

Definition validateExpiration (now : gtime) (token : AuthToken) : M St () :=
  timestamp ← getBlockTimestamp (GetBlockHash token);
  let expireTime := i64 (timestamp + GetTtl token) in
  if time_After now (time_Unix expireTime) then throw ErrTokenExpired else mret ().

Definition validateSignature (token : AuthToken) : outcome () :=
  address ← pkc_Decode (string_of_bytes (GetAddress token));
  pubkey ← PublicKeyFromByteArray address;
  let unsignedToken := th_GetUnsignedToken token in
  let signableMessage := th_GetSignableMessage (GetAddress token) unsignedToken in
  match sig_VerifyMessage signableMessage pubkey (GetSignature token) with
  | Fail _ =>
    let signableMessageLegacy := th_GetSignableMessageLegacy (GetAddress token) unsignedToken in
    sig_VerifyMessage signableMessageLegacy pubkey (GetSignature token)
  | r => r
  end.

Definition Validate (now : gtime) (authToken : AuthToken) : M St () :=
  validateExpiration now authToken ;; lift (validateSignature authToken).
End Server.
End Server.

(** ** [client.go] *)

(** The calls of [workflows.ProxyHandler] the client makes. *)
Class HyperBlockProxy (W : Type) := {
  hp_GetLatestHyperBlockNonce : M W Z;
  hp_GetHyperBlockByNonce : Z → M W (option HyperBlock) }.

Module Client.
Section Client.
Context {W : Type} `{Crypto} `{Signer} `{PubkeyConverter} `{AuthTokenHandler} `{HyperBlockProxy W}.

Record authClient := mkClient {
  extraInfo : bytes;
  cryptoComponents : cryptoComponentsHolder;
  tokenExpiryInSeconds : Z;
  host : bytes;
  token : string;
  tokenExpire : gtime }.

Definition setToken (t : string) (c : authClient) : authClient :=
  mkClient (extraInfo c) (cryptoComponents c) (tokenExpiryInSeconds c) (host c) t (tokenExpire c).
Definition setExpire (e : gtime) (c : authClient) : authClient :=
  mkClient (extraInfo c) (cryptoComponents c) (tokenExpiryInSeconds c) (host c) (token c) e.

(** The flags are the nil checks; the extra information is the JSON of an empty
    struct. *)
Definition NewNativeAuthClient (signer proxy tokenHandler : bool) (holder : option cryptoComponentsHolder)
    (expiry : Z) (host : string) : outcome authClient :=
  if negb signer then Fail ErrNilSigner
  else if negb proxy then Fail ErrNilProxy
  else if negb tokenHandler then Fail ErrNilTokenHandler
  else match holder with
       | None => Fail ErrNilCryptoComponentsHolder
       | Some holder => Ok (mkClient (bytes_of_string "{}") holder expiry (bytes_of_string host) "" (mkTime 0 0))
       end.

Abbreviation St := (authClient * W)%type.

(** [now] is the second reading of the clock, at the end. *)
Definition createNewToken (now : gtime) : M St () :=
  nonce ← onsnd hp_GetLatestHyperBlockNonce;
  lastHyperblock ← onsnd (hp_GetHyperBlockByNonce nonce);
  lastHyperblock ← (λ s, match lastHyperblock with Some b => (Ok b, s) | None => (Panic, s) end);
  c ← gets fst;
  let token := mkToken (tokenExpiryInSeconds c) (bytes_of_string (GetBech32 (cryptoComponents c)))
                 (host c) (extraInfo c) [] (hb_Hash lastHyperblock) in
  let unsignedToken := th_GetUnsignedToken token in
  let signableMessage := th_GetSignableMessage (GetAddress token) unsignedToken in
  signature ← lift (sig_SignMessage signableMessage (GetPrivateKey (cryptoComponents c)));
  let token := setSignature signature token in
  (λ '(c, w), match th_Encode token with
              | Ok t => (Ok (), (setToken t c, w))
              | Fail e => (Fail e, (setToken "" c, w))
              | Panic => (Panic, (c, w))
              end) ;;
  onfst (modify (setExpire (time_Add now (tokenExpiryInSeconds c)))).

Definition GetAccessToken (now later : gtime) : M St string :=
  c ← gets fst;
  let noToken := time_IsZero (tokenExpire c) in
  let tokenExpired := time_After now (tokenExpire c) in
  (if noToken || tokenExpired then createNewToken later else mret ()) ;;
  gets (λ s : St, token s.1).
End Client.
End Client.

(** ** The server, with blocks that do not change

    [ts] is the timestamp of each block. [blocks_are ts] says that the API
    serves them; [cache_ok ts] that what the cache has is right. *)

Section Server_theorems.
Context {C W : Type} `{Crypto} `{Signer} `{PubkeyConverter} `{AuthTokenHandler}
  `{HttpClientWrapper W} `{CacherLaws cached C}.
Variable json_Block : bytes → outcome Z.
Variable ts : string → Z.

Definition blocks_are : Prop := ∀ hash w, ∃ buff w',
  http_GetHTTP ("blocks/" +:+ hash) w = ((buff, StatusOK, None), w') ∧ json_Block buff = Ok (ts hash).

Definition cache_ok (c : C) : Prop := ∀ hash v,
  cacher_Get (bytes_of_string hash) c = Some v → v = CInt64 (i64 (ts hash)).

Lemma getBlockTimestamp_run hash c w :
  blocks_are → cache_ok c →
  ∃ c' w', Server.getBlockTimestamp json_Block hash (c, w) = (Ok (i64 (ts hash)), (c', w')) ∧ cache_ok c'.
Proof.
  intros Hb Hc. unfold Server.getBlockTimestamp, gets, mbind, M_bind. cbn [fst].
  destruct (cacher_Get (bytes_of_string hash) c) as [v|] eqn:E.
  { rewrite (Hc _ _ E). by exists c, w. }
  destruct (Hb hash w) as (buff & w' & Ew & Et).
  eexists _, w'. unfold onsnd, onfst, modify, Server.getBlockByHash. rewrite Ew. cbn.
  rewrite Et. split; [done|]. intros h v Hv.
  destruct (cacher_Get_Put _ _ _ _ _ _ Hv) as [[Eh ->]|Hold]; [|by apply Hc].
  apply (f_equal string_of_bytes) in Eh. by rewrite !string_of_bytes_of_string in Eh; subst.
Qed.

(** Whatever the cache already holds of earlier checks, Validate decides on
    the block's own timestamp: a token is expired when the clock is past the timestamp
    plus its ttl, otherwise the answer is that of the signature check; and the cache stays right
    for the checks that follow. *)
Theorem Validate_spec (now : gtime) (t : AuthToken) (c : C) (w : W) :
  blocks_are → cache_ok c →
  ∃ c' w', cache_ok c' ∧
    Server.Validate json_Block now t (c, w)
    = (if time_After now (time_Unix (i64 (i64 (ts (GetBlockHash t)) + GetTtl t))) then Fail ErrTokenExpired
       else Server.validateSignature t, (c', w')).
Proof.
  intros Hb Hc. destruct (getBlockTimestamp_run (GetBlockHash t) c w Hb Hc) as (c' & w' & E & Hc').
  exists c', w'. split; [done|].
  unfold Server.Validate, Server.validateExpiration, mbind, M_bind. rewrite E. by destruct (time_After _ _).
Qed.
End Server_theorems.

(** ** Client and server together *)

Section EndToEnd.
Context `{SignerLaws} `{!CryptoLaws} `{PubkeyConverterLaws}.

(** The signature check accepts what the owner of the address signed. *)
Lemma validateSignature_own (h : cryptoComponentsHolder) (t : AuthToken) (sig : bytes) :
  holder_ok h → GetAddress t = bytes_of_string (GetBech32 h) →
  sig_SignMessage (TokenHandler.GetSignableMessage (GetAddress t) (TokenHandler.GetUnsignedToken t)) (GetPrivateKey h) = Ok sig →
  Server.validateSignature (setSignature sig t) = Ok ().
Proof.
  intros Hh Ha Hs. destruct (holder_public_key h Hh) as [Hd Hp].
  unfold GetBech32 in Ha.
  unfold Server.validateSignature. cbn [GetAddress setSignature]. rewrite Ha, string_of_bytes_of_string.
  rewrite Hd. unfold mbind, outcome_bind. rewrite Hp.
  apply SignMessage_verifies in Hs. destruct Hh as [Hpub _ _]. unfold GetPrivateKey in Hs.
  rewrite <-Hpub, Ha in Hs.
  change (match sig_VerifyMessage (TokenHandler.GetSignableMessage (bytes_of_string (bech32Address h))
                  (TokenHandler.GetUnsignedToken t)) (publicKey h) sig with
          | Fail _ => sig_VerifyMessage (TokenHandler.GetSignableMessageLegacy (bytes_of_string (bech32Address h))
                        (TokenHandler.GetUnsignedToken t)) (publicKey h) sig
          | r => r
          end = Ok ()).
  by rewrite Hs.
Qed.

Context {C W W' : Type} `{HyperBlockProxy W} `{HttpClientWrapper W'} `{CacherLaws cached C}.
Variable json_Block : bytes → outcome Z.

(** C13: The two ends agree: when the network's last hyper block has a hash
    without a dot and the signer signs, a client with a key pair of its own, which has no
    cached token, gets an access token, which the token handler decodes, and which a server that knows the block accepts
    exactly until the block's timestamp plus the ttl (as an int64), and afterwards refuses
    as expired. *)
Theorem access_token_accepted (h : cryptoComponentsHolder) (c : Client.authClient) (w w1 w2 : W) (nonce : Z)
    (block : HyperBlock) (now later : gtime) (ts : string → Z) (checkTime : gtime) (cc : C) (w' : W') :
  holder_ok h → Client.cryptoComponents c = h → bech32Address h ≠ "" →
  Client.tokenExpire c = mkTime 0 0 → is_i64 (Client.tokenExpiryInSeconds c) →
  hp_GetLatestHyperBlockNonce w = (Ok nonce, w1) → hp_GetHyperBlockByNonce nonce w1 = (Ok (Some block), w2) →
  lacks "."%char (hb_Hash block) →
  (∀ m, is_ok (sig_SignMessage m (privateKey h)) = true) →
  blocks_are json_Block ts → cache_ok ts cc →
  ∃ s t c', Client.GetAccessToken now later (c, w) = (Ok s, (c', w2)) ∧ TokenHandler.Decode s = Ok t ∧
    (Server.Validate json_Block checkTime t (cc, w')).1
    = (if time_After checkTime (time_Unix (i64 (i64 (ts (hb_Hash block)) + Client.tokenExpiryInSeconds c)))
       then Fail ErrTokenExpired else Ok ()).
Proof.
  intros Hh Ec Hne He Httl Hn Hb Hdot Hsign Hbl Hcc.
  set (t0 := mkToken (Client.tokenExpiryInSeconds c) (bytes_of_string (GetBech32 h))
               (Client.host c) (Client.extraInfo c) [] (hb_Hash block)).
  set (m := TokenHandler.GetSignableMessage (GetAddress t0) (TokenHandler.GetUnsignedToken t0)).
  pose proof (Hsign m) as Hm. destruct (sig_SignMessage m (privateKey h)) as [sig|e|] eqn:Es; [|done..].
  assert (Hw : TokenHandler.writable (setSignature sig t0)).
  { split; cbn; [by eapply SignMessage_not_empty| |done|done].
    unfold GetBech32. by destruct (bech32Address h). }
  eexists _, (setSignature sig t0), _. split; [|split].
  - unfold Client.GetAccessToken, gets, mbind, M_bind. cbn [fst snd]. rewrite He. cbn [time_IsZero t_sec t_nsec Z.eqb andb orb].
    unfold Client.createNewToken, gets, mbind, M_bind, onsnd, lift. rewrite Hn, Hb. cbn [fst snd].
    rewrite Ec. change (sig_SignMessage _ (GetPrivateKey h)) with (sig_SignMessage m (privateKey h)). rewrite Es.
    change (th_Encode _) with (TokenHandler.Encode (setSignature sig t0)).
    rewrite (TokenHandler.Encode_run _ Hw). reflexivity.
  - by apply TokenHandler.Decode_run.
  - destruct (getBlockTimestamp_run json_Block ts (hb_Hash block) cc w' Hbl Hcc) as (cc' & w'' & E & _).
    unfold Server.Validate, Server.validateExpiration, mbind, M_bind.
    change (GetBlockHash (setSignature sig t0)) with (hb_Hash block). rewrite E.
    change (GetTtl (setSignature sig t0)) with (Client.tokenExpiryInSeconds c).
    destruct (time_After _ _); [done|]. cbn. by apply (validateSignature_own h).
Qed.
End EndToEnd.

(** ** When the client asks for a new token *)

Definition normal_time (t : gtime) : Prop := 0 ≤ t_nsec t < 10 ^ 9.

Lemma time_After_Add t d d' :
  normal_time t → time_After (time_Add t d) (time_Add t d') = (d' <? d).
Proof.
  unfold normal_time, time_After, time_Add. cbn. intros Hn.
  destruct (Z.ltb_spec d' d), (Z.ltb_spec (t_sec t + (t_nsec t + d') / 10 ^ 9) (t_sec t + (t_nsec t + d) / 10 ^ 9)),
    (Z.eqb_spec (t_sec t + (t_nsec t + d) / 10 ^ 9) (t_sec t + (t_nsec t + d') / 10 ^ 9)),
    (Z.ltb_spec ((t_nsec t + d') mod 10 ^ 9) ((t_nsec t + d) mod 10 ^ 9)); cbn; zdiv || done.
Qed.

Section Renewal.
Context {W : Type} `{Crypto} `{Signer} `{PubkeyConverter} `{AuthTokenHandler} `{HyperBlockProxy W}.

(** A client reuses its token only for as many nanoseconds as the token has
    seconds to live: with a token obtained at time t for N seconds, a call d nanoseconds later
    returns the same token when d is at most N, and otherwise makes a new one. *)
Theorem GetAccessToken_reuse_in_nanoseconds (c : Client.authClient) (w : W) (t later : gtime) (d : Z) :
  normal_time t → Client.tokenExpire c = time_Add t (Client.tokenExpiryInSeconds c) →
  time_IsZero (Client.tokenExpire c) = false →
  Client.GetAccessToken (time_Add t d) later (c, w)
  = if d <=? Client.tokenExpiryInSeconds c then (Ok (Client.token c), (c, w))
    else (Client.createNewToken later ;; gets (λ s, Client.token s.1)) (c, w).
Proof.
  intros Ht He Hz. unfold Client.GetAccessToken, gets, mbind, M_bind. cbn [fst].
  rewrite Hz, He, time_After_Add by done. cbn [orb].
  by rewrite Z.leb_antisym; destruct (Client.tokenExpiryInSeconds c <? d).
Qed.
End Renewal.

(** ** Concrete runs *)

Module AuthRun.
#[local] Existing Instances toyCrypto hexConverter hexConverter_laws toyCrypto_laws.
#[local] Existing Instances signer signer_laws.

(** An API that serves every block, with the length of its path as timestamp. *)
#[local] Instance block_client : HttpClientWrapper () := {|
  http_GetHTTP e w := ((bytes_of_string e, StatusOK, None), w);
  http_PostHTTP _ _ w := (([], StatusBadRequest, None), w) |}.
Definition json (b : bytes) : outcome Z := Ok (Z.of_nat (length b)).
Definition stamp_of (hash : string) : Z := Z.of_nat (length (bytes_of_string ("blocks/" +:+ hash))).

Lemma blocks : blocks_are json stamp_of.
Proof. intros hash w. by eexists _, w. Qed.

Lemma empty_cache : @cache_ok _ (mapCacher_cacher cached) stamp_of NewMapCacher.
Proof.
  intros hash v. change (dataMap (@NewMapCacher cached) !! string_of_bytes (bytes_of_string hash) = Some v → v = CInt64 (i64 (stamp_of hash))).
  cbn [dataMap NewMapCacher]. by rewrite lookup_empty.
Qed.

#[local] Instance tip : HyperBlockProxy () := {|
  hp_GetLatestHyperBlockNonce := mret 9;
  hp_GetHyperBlockByNonce n := mret (Some (simpleHyperBlock n "ab" [])) |}.

Definition key : bytes := replicate 32 x07.
Definition holder : cryptoComponentsHolder := mkHolder key key (mkAddress key) (hex_EncodeToString key).

Lemma holder_is_ok : holder_ok holder.
Proof. split; reflexivity. Qed.

Definition client : Client.authClient := Client.mkClient (bytes_of_string "{}") holder 100 (bytes_of_string "host") "" (mkTime 0 0).
Definition t0 : gtime := time_Unix 5.

(** The block of hash "ab" has timestamp 9: valid until 109. *)
Lemma Validate_spec_witness :
  ∃ c' w', @cache_ok _ (mapCacher_cacher cached) stamp_of c' ∧
    Server.Validate json (time_Unix 120) (mkToken 100 [] [] [] [] "ab") (NewMapCacher, ())
    = (Fail ErrTokenExpired, (c', w')).
Proof.
  apply (Validate_spec json stamp_of (time_Unix 120) (mkToken 100 [] [] [] [] "ab") NewMapCacher () blocks empty_cache).
Defined.

Lemma access_token_accepted_witness :
  ∃ s t c', Client.GetAccessToken t0 t0 (client, ()) = (Ok s, (c', ())) ∧ TokenHandler.Decode s = Ok t ∧
    (Server.Validate json (time_Unix 109) t (NewMapCacher, ())).1 = Ok ().
Proof.
  apply (access_token_accepted json holder client () () () 9 (simpleHyperBlock 9 "ab" []) t0 t0 stamp_of
    (time_Unix 109) NewMapCacher () holder_is_ok); try reflexivity.
  - discriminate.
  - done.
  - apply blocks.
  - apply empty_cache.
Defined.

Definition aged : Client.authClient :=
  Client.mkClient (bytes_of_string "{}") holder 86400 (bytes_of_string "host") "a.b.c" (time_Add t0 86400).

(** A token for a day, one millisecond later. *)
Lemma GetAccessToken_reuse_in_nanoseconds_witness :
  Client.GetAccessToken (time_Add t0 1000000) t0 (aged, ())
  = (Client.createNewToken t0 ;; gets (λ s, Client.token s.1)) (aged, ()).
Proof.
  apply (GetAccessToken_reuse_in_nanoseconds aged () t0 t0 1000000); vm_compute; [split; congruence|reflexivity..].
Defined.
End AuthRun.
