(* ===== verification/Builders.v ===== *)
(** * The base of the builders ([builders/baseBuilder.go], [builders/errors.go])

    [baseBuilder] accumulates hexadecimal arguments and keeps the first error.
    The arguments of a whole chain of calls are the list [arg], with their
    meaning [args_bytes], from which the builders on top are specified. *)

From S2P Require Export Data.

Definition ErrInvalidValue : error := ErrVar "builders.ErrInvalidValue".
Definition ErrNilValue : error := ErrVar "builders.ErrNilValue".
Definition ErrNilAddress : error := ErrVar "builders.ErrNilAddress".
Definition ErrInvalidAddress : error := ErrVar "builders.ErrInvalidAddress".
Definition ErrNilInnerTransaction : error := ErrVar "builders.ErrNilInnerTransaction".
Definition ErrNilRelayerAccount : error := ErrVar "builders.ErrNilRelayerAccount".
Definition ErrNilNetworkConfig : error := ErrVar "builders.ErrNilNetworkConfig".
Definition ErrNilInnerTransactionSignature : error := ErrVar "builders.ErrNilInnerTransactionSignature".
Definition ErrInvalidGasLimitNeededForInnerTransaction : error :=
  ErrVar "builders.ErrInvalidGasLimitNeededForInnerTransaction".
Definition ErrGasLimitForInnerTransactionV2ShouldBeZero : error :=
  ErrVar "builders.ErrGasLimitForInnerTransactionV2ShouldBeZero".

(** ** [baseBuilder.go] *)

Record baseBuilder := mkBase { args : list string; err : option error }.

Definition addBytes (b : bytes) (builder : baseBuilder) : baseBuilder :=
  let b := match b with [] => [x00] | _ => b end in
  mkBase (args builder ++ [hex_EncodeToString b]) (err builder).

Definition checkAddress (a : option address) : outcome () :=
  match a with
  | None => Fail (ErrWrap ErrNilAddress "in builder.checkAddress")
  | Some a => if IsValid a then Ok () else Fail (ErrWrap ErrInvalidAddress "in builder.checkAddress")
  end.

Definition setErr (e : error) (builder : baseBuilder) : baseBuilder := mkBase (args builder) (Some e).

Definition addArgHexString (hexed : string) (builder : baseBuilder) : baseBuilder :=
  match err builder with
  | Some _ => builder
  | None =>
    match hex_DecodeString hexed with
    | Ok _ => mkBase (args builder ++ [hexed]) None
    | Fail e => setErr (ErrWrap e "in builder.ArgHexString for string") builder
    | Panic => builder
    end
  end.

Definition addArgAddress (a : option address) (builder : baseBuilder) : baseBuilder :=
  match err builder with
  | Some _ => builder
  | None =>
    match checkAddress a, a with
    | Fail e, _ => setErr e builder
    | _, Some a => addBytes (AddressBytes a) builder
    | _, None => builder
    end
  end.

Definition addArgBigInt (value : option Z) (builder : baseBuilder) : baseBuilder :=
  match err builder with
  | Some _ => builder
  | None =>
    match value with
    | None => setErr (ErrWrap ErrNilValue "in builder.ArgBigInt") builder
    | Some value => addBytes (bigint_Bytes value) builder
    end
  end.

Definition addArgInt64 (value : Z) (builder : baseBuilder) : baseBuilder :=
  match err builder with
  | Some _ => builder
  | None => addBytes (bigint_Bytes value) builder
  end.

(** An empty argument is an error, and the zero byte is appended all the same. *)
Definition addArgBytes (b : bytes) (builder : baseBuilder) : baseBuilder :=
  match err builder with
  | Some _ => builder
  | None =>
    let builder := match b with
                   | [] => setErr (ErrWrap ErrInvalidValue "in builder.ArgBytes") builder
                   | _ => builder
                   end in
    addBytes b builder
  end.

(** ** A list of arguments

    The [Arg...] calls of both builders, as data. *)

Inductive arg :=
  | AHex (hexed : string)
  | AAddress (a : option address)
  | ABigInt (value : option Z)
  | AInt64 (value : Z)
  | ABytes (b : bytes).

Definition addArg (a : arg) : baseBuilder → baseBuilder :=
  match a with
  | AHex hexed => addArgHexString hexed
  | AAddress a => addArgAddress a
  | ABigInt value => addArgBigInt value
  | AInt64 value => addArgInt64 value
  | ABytes b => addArgBytes b
  end.

Definition addArgs (l : list arg) (b : baseBuilder) : baseBuilder := foldl (λ b a, addArg a b) b l.

(** What an argument means: the bytes the contract receives, or the error.  A
    number is sent as its absolute value, and nothing as a zero byte. *)
Definition arg_bytes (a : arg) : outcome bytes :=
  let or_zero b := match b with [] => [x00] | _ => b end in
  match a with
  | AHex hexed => match hex_DecodeString hexed with
                  | Ok b => Ok b
                  | _ => Fail (ErrWrap errHex "in builder.ArgHexString for string")
                  end
  | AAddress None => Fail (ErrWrap ErrNilAddress "in builder.checkAddress")
  | AAddress (Some a) => if IsValid a then Ok (AddressBytes a)
                         else Fail (ErrWrap ErrInvalidAddress "in builder.checkAddress")
  | ABigInt None => Fail (ErrWrap ErrNilValue "in builder.ArgBigInt")
  | ABigInt (Some value) | AInt64 value => Ok (or_zero (bigint_Bytes (Z.abs value)))
  | ABytes [] => Fail (ErrWrap ErrInvalidValue "in builder.ArgBytes")
  | ABytes b => Ok b
  end.

Fixpoint args_bytes (l : list arg) : outcome (list bytes) :=
  match l with
  | [] => Ok []
  | a :: l => b ← arg_bytes a; bs ← args_bytes l; Ok (b :: bs)
  end.

Fixpoint decode_all (l : list string) : outcome (list bytes) :=
  match l with
  | [] => Ok []
  | s :: l => b ← hex_DecodeString s; bs ← decode_all l; Ok (b :: bs)
  end.

Lemma bigint_Bytes_abs z : bigint_Bytes (Z.abs z) = bigint_Bytes z.
Proof.
  unfold bigint_Bytes. rewrite Z.abs_idemp.
  destruct (Z.eqb_spec (Z.abs z) 0), (Z.eqb_spec z 0); lia || done.
Qed.

Lemma hex_DecodeString_cases s : (∃ b, hex_DecodeString s = Ok b) ∨ hex_DecodeString s = Fail errHex.
Proof.
  induction s as [s IH] using (induction_ltof1 _ String.length); unfold ltof in IH.
  destruct s as [|a [|b s]]; cbn; [eauto..|].
  destruct (hex_value a), (hex_value b); eauto.
  destruct (IH s) as [[l ->]| ->]; cbn; eauto. 
Qed.

Lemma addArg_err a b e : err b = Some e → addArg a b = b.
Proof.
  intros E. destruct a; cbn; unfold addArgHexString, addArgAddress, addArgBigInt, addArgInt64, addArgBytes; by rewrite E.
Qed.

Lemma addArgs_err l b e : err b = Some e → addArgs l b = b.
Proof.
  unfold addArgs. revert b. induction l as [|a l IH]; intros b E; [done|]. cbn.
  rewrite (addArg_err a b e E). by apply IH.
Qed.

(** One argument: its hexadecimal text, or its error. *)
Lemma addArg_run a b :
  err b = None →
  match arg_bytes a with
  | Ok v => ∃ s, addArg a b = mkBase (args b ++ [s]) None ∧ hex_DecodeString s = Ok v
  | Fail e => err (addArg a b) = Some e
  | Panic => False
  end.
Proof.
  intros E. destruct a as [hexed|[a|]|[z|]|z|[|x l]]; cbn;
    unfold addArgHexString, addArgAddress, addArgBigInt, addArgInt64, addArgBytes, checkAddress; rewrite E; cbn; try done.
  - destruct (hex_DecodeString_cases hexed) as [[v Ev]|Ev]; rewrite Ev; [by exists hexed|done].
  - destruct (IsValid a) eqn:Ev; [|done]. exists (hex_EncodeToString (AddressBytes a)).
    rewrite hex_Decode_Encode. split; [|done]. unfold addBytes. rewrite E.
    apply Nat.eqb_eq in Ev. unfold AddressBytes. by destruct (addr_bytes a).
  - eexists. rewrite bigint_Bytes_abs. unfold addBytes. rewrite E. split; [done|]. apply hex_Decode_Encode.
  - eexists. rewrite bigint_Bytes_abs. unfold addBytes. rewrite E. split; [done|]. apply hex_Decode_Encode.
  - eexists. unfold addBytes. rewrite E. split; [done|]. apply hex_Decode_Encode.
Qed.

Lemma addArgs_run l b :
  err b = None →
  match args_bytes l with
  | Ok vs => ∃ ss, addArgs l b = mkBase (args b ++ ss) None ∧ decode_all ss = Ok vs
  | Fail e => err (addArgs l b) = Some e
  | Panic => False
  end.
Proof.
  revert b. induction l as [|a l IH]; intros b E.
  { exists []. cbn. rewrite app_nil_r. by destruct b; cbn in E; subst. }
  cbn [args_bytes]. unfold addArgs. cbn [foldl]. pose proof (addArg_run a b E) as Ha.
  destruct (arg_bytes a) as [v|e|]; [|cbn|done].
  - destruct Ha as (s & Ea & Es). rewrite Ea. specialize (IH (mkBase (args b ++ [s]) None) eq_refl).
    unfold addArgs in IH. cbn. destruct (args_bytes l) as [vs|e|]; cbn; [|done..].
    destruct IH as (ss & Ess & Eds). exists (s :: ss). rewrite Ess. cbn. rewrite <-app_assoc.
    split; [done|]. by rewrite Es, Eds.
  - change (err (addArgs l (addArg a b)) = Some e). by rewrite (addArgs_err l _ e Ha).
Qed.

(** The arguments are hexadecimal, so they never contain the separator. *)
Lemma decode_all_lack ss vs : decode_all ss = Ok vs → Forall (λ s, lacks "@"%char s) ss.
Proof.
  revert vs. induction ss as [|s ss IH]; intros vs; [constructor|]. cbn.
  destruct (hex_DecodeString s) eqn:E; cbn; [|done..]. destruct (decode_all ss); cbn; [|done..]. intros _.
  constructor; [|by eapply IH]. apply hex_chars_lack; [done|]. by eapply hex_Decode_chars.
Qed.

(** The sign of a number is lost: a builder given n and one given -n write
    the same data, for both kinds of integer arguments. *)
Theorem integers_lose_their_sign (z : Z) (b : baseBuilder) :
  addArgInt64 (- z) b = addArgInt64 z b ∧ addArgBigInt (Some (- z)) b = addArgBigInt (Some z) b.
Proof.
  assert (E : bigint_Bytes (- z) = bigint_Bytes z) by (by rewrite <-(bigint_Bytes_abs (- z)), Z.abs_opp, bigint_Bytes_abs).
  unfold addArgInt64, addArgBigInt. by rewrite E.
Qed.
