(* ===== verification/TxDataBuilder.v ===== *)
(** * The data field of a contract call ([builders/txDataBuilder.go])

    [txDataBuilder] joins a function name and its arguments with "@". *)

From S2P Require Export Builders.

Definition dataSeparator : string := "@".

Record txDataBuilder := mkTxData { base : baseBuilder; function : string }.

Definition NewTxDataBuilder : txDataBuilder := mkTxData (mkBase [] None) "".
Definition on_base (f : baseBuilder → baseBuilder) (b : txDataBuilder) : txDataBuilder :=
  mkTxData (f (base b)) (function b).

Definition Function (f : string) (b : txDataBuilder) : txDataBuilder := mkTxData (base b) f.
Definition ArgHexString (hexed : string) : txDataBuilder → txDataBuilder := on_base (addArgHexString hexed).
Definition ArgAddress (a : option address) : txDataBuilder → txDataBuilder := on_base (addArgAddress a).
Definition ArgBigInt (value : option Z) : txDataBuilder → txDataBuilder := on_base (addArgBigInt value).
Definition ArgInt64 (value : Z) : txDataBuilder → txDataBuilder := on_base (addArgInt64 value).
Definition ArgBytes (b : bytes) : txDataBuilder → txDataBuilder := on_base (addArgBytes b).
Definition ArgBytesList (l : list bytes) : txDataBuilder → txDataBuilder :=
  on_base (λ b, foldl (λ b arg, addArgBytes arg b) b l).

Definition ToDataString (b : txDataBuilder) : outcome string :=
  match err (base b) with
  | Some e => Fail e
  | None =>
    let parts := if Nat.ltb 0 (String.length (function b)) then [function b] else [] in
    let parts := parts ++ args (base b) in
    Ok (strings_Join dataSeparator parts)
  end.

Definition ToDataBytes (b : txDataBuilder) : outcome bytes :=
  dataField ← ToDataString b; Ok (bytes_of_string dataField).

Lemma ToDataString_run (f : string) (l : list arg) :
  f ≠ "" → lacks "@"%char f →
  let b := on_base (addArgs l) (Function f NewTxDataBuilder) in
  match args_bytes l with
  | Ok vs => ∃ s parts, ToDataString b = Ok s ∧ strings_Split "@" s = f :: parts ∧ decode_all parts = Ok vs
  | Fail e => ToDataString b = Fail e
  | Panic => False
  end.
Proof.
  intros Hf Hl b. pose proof (addArgs_run l (mkBase [] None) eq_refl) as Hrun.
  subst b. unfold ToDataString, on_base, Function, NewTxDataBuilder. cbn.
  destruct (args_bytes l) as [vs|e|]; [|by rewrite Hrun|done].
  destruct Hrun as (ss & -> & Hss). cbn. eexists _, ss. split; [done|]. split; [|done].
  destruct f as [|c f]; [done|]. cbn [String.length Nat.ltb Nat.leb app].
  apply strings_Split_Join; [done|]. constructor; [done|]. by eapply decode_all_lack.
Qed.

(** What ToDataString writes for a function and any arguments splits at "@"
    into the function and one hexadecimal text per argument, which decode to the bytes of the
    arguments in order; when an argument is wrong it returns the error of the first wrong one. *)
Theorem ToDataString_spec (f : string) (l : list arg) :
  f ≠ "" → lacks "@"%char f →
  let b := on_base (addArgs l) (Function f NewTxDataBuilder) in
  match args_bytes l with
  | Ok vs => ∃ s parts, ToDataString b = Ok s ∧ strings_Split "@" s = f :: parts ∧ decode_all parts = Ok vs
  | Fail e => ToDataString b = Fail e
  | Panic => False
  end.
Proof. apply ToDataString_run. Qed.

Lemma ToDataString_spec_witness :
  ∃ s parts,
    ToDataString (ArgInt64 (-5) (ArgHexString "0aFF"
      (Function "issue" NewTxDataBuilder))) = Ok s ∧
    strings_Split "@" s = "issue" :: parts ∧ decode_all parts = Ok [[x0a; xff]; [x05]].
Proof. apply (ToDataString_spec "issue" [AHex "0aFF"; AInt64 (-5)]); [discriminate|reflexivity]. Defined.
