(* ===== verification/VmQueryBuilder.v ===== *)
(** * VM query requests ([builders/vmQueryBuilder.go])

    [vmQueryBuilder] collects the addresses, the function and the arguments of a
    query. *)

From S2P Require Export Builders.

Record VmValueRequest := mkVmValueRequest {
  vvr_Address : string;
  vvr_FuncName : string;
  vvr_CallerAddr : string;
  vvr_CallValue : string;
  vvr_Args : list string }.

Section VmQuery.
Context `{PubkeyConverter}.

Record vmQueryBuilder := mkVmQuery {
  base : baseBuilder;
  address_ : string;
  callerAddr : string;
  function : string }.

Definition NewVMQueryBuilder : vmQueryBuilder := mkVmQuery (mkBase [] None) "" "" "".
Definition on_base (f : baseBuilder → baseBuilder) (b : vmQueryBuilder) : vmQueryBuilder :=
  mkVmQuery (f (base b)) (address_ b) (callerAddr b) (function b).

Definition Function (f : string) (b : vmQueryBuilder) : vmQueryBuilder :=
  mkVmQuery (base b) (address_ b) (callerAddr b) f.
Definition ArgHexString (hexed : string) : vmQueryBuilder → vmQueryBuilder := on_base (addArgHexString hexed).
Definition ArgAddress (a : option address) : vmQueryBuilder → vmQueryBuilder := on_base (addArgAddress a).
Definition ArgBigInt (value : option Z) : vmQueryBuilder → vmQueryBuilder := on_base (addArgBigInt value).
Definition ArgInt64 (value : Z) : vmQueryBuilder → vmQueryBuilder := on_base (addArgInt64 value).
Definition ArgBytes (b : bytes) : vmQueryBuilder → vmQueryBuilder := on_base (addArgBytes b).

(** The check and the conversion of [CallerAddress] and [Address]. *)
Definition checkedBech32 (a : option address) : outcome string :=
  checkAddress a ;; match a with Some a => AddressAsBech32String a | None => Panic end.

(** These two overwrite an earlier error. *)
Definition CallerAddress (a : option address) (b : vmQueryBuilder) : vmQueryBuilder :=
  match checkedBech32 a with
  | Ok s => mkVmQuery (base b) (address_ b) s (function b)
  | Fail e => on_base (setErr e) b
  | Panic => b
  end.
Definition Address (a : option address) (b : vmQueryBuilder) : vmQueryBuilder :=
  match checkedBech32 a with
  | Ok s => mkVmQuery (base b) s (callerAddr b) (function b)
  | Fail e => on_base (setErr e) b
  | Panic => b
  end.

Definition ToVmValueRequest (b : vmQueryBuilder) : outcome VmValueRequest :=
  match err (base b) with
  | Some e => Fail e
  | None => Ok (mkVmValueRequest (address_ b) (function b) (callerAddr b) "" (args (base b)))
  end.
End VmQuery.
