(* ===== verification/RelayedTx.v ===== *)
(** * Relayed transactions ([builders/relayedTxV1Builder.go],
    [builders/relayedTxV2Builder.go])

    A relayer's transaction that wraps a signed one: as JSON in hexadecimal
    (version 1), or as four hexadecimal fields (version 2). *)

From S2P Require Export Builders.

Section Relayed.
Context `{PubkeyConverter}.
(** [json.Marshal] of a node transaction. *)
Variable json_MarshalNodeTx : Transaction → outcome bytes.

Record relayedTxV1Builder := mkV1 {
  innerTransaction : option FrontendTransaction;
  relayerAccount : option Account;
  networkConfig : option NetworkConfig }.

Definition NewRelayedTxV1Builder : relayedTxV1Builder := mkV1 None None None.
Definition SetInnerTransaction (tx : option FrontendTransaction) (b : relayedTxV1Builder) : relayedTxV1Builder :=
  mkV1 tx (relayerAccount b) (networkConfig b).
Definition SetRelayerAccount (a : option Account) (b : relayedTxV1Builder) : relayedTxV1Builder :=
  mkV1 (innerTransaction b) a (networkConfig b).
Definition SetNetworkConfig (c : option NetworkConfig) (b : relayedTxV1Builder) : relayedTxV1Builder :=
  mkV1 (innerTransaction b) (relayerAccount b) c.

Definition prepareInnerTxForRelayV1 (tx : FrontendTransaction) : outcome string :=
  txValue ← of_option ErrInvalidValue (bigint_SetString (tx_Value tx));
  receiverAddress ← pkc_Decode (tx_Receiver tx);
  senderAddress ← pkc_Decode (tx_Sender tx);
  signatureBytes ← hex_DecodeString (tx_Signature tx);
  let coreTx := mkNodeTx (tx_Nonce tx) txValue receiverAddress senderAddress (tx_GasPrice tx) (tx_GasLimit tx)
                  (tx_Data tx) (bytes_of_string (tx_ChainID tx)) (tx_Version tx) signatureBytes (tx_Options tx) [] [] in
  serializedTx ← json_MarshalNodeTx coreTx;
  Ok (hex_EncodeToString serializedTx).

(** The gas of the outer transaction: a [uint64] sum. *)
Definition relayedGas (c : NetworkConfig) (payload : bytes) (inner : Z) : Z :=
  u64 (nc_MinGasLimit c + nc_GasPerDataByte c * Z.of_nat (length payload) + inner).

Definition relayedTx (value : string) (inner : FrontendTransaction) (relayer : Account) (c : NetworkConfig)
    (gasLimit : Z) (payload : bytes) : FrontendTransaction :=
  mkTx (acc_Nonce relayer) value (tx_Sender inner) (acc_Address relayer) (tx_GasPrice inner) gasLimit payload
    "" (nc_ChainID c) (nc_MinTransactionVersion c) 0 "" "".

Definition Build_V1 (rtb : relayedTxV1Builder) : outcome FrontendTransaction :=
  match innerTransaction rtb with
  | None => Fail ErrNilInnerTransaction
  | Some inner =>
    if Nat.eqb (String.length (tx_Signature inner)) 0 then Fail ErrNilInnerTransactionSignature
    else match relayerAccount rtb, networkConfig rtb with
         | None, _ => Fail ErrNilRelayerAccount
         | _, None => Fail ErrNilNetworkConfig
         | Some relayer, Some c =>
           innerTxHex ← prepareInnerTxForRelayV1 inner;
           let payload := bytes_of_string ("relayedTx@" +:+ innerTxHex) in
           let gasLimit := relayedGas c payload (tx_GasLimit inner) in
           innerTxValue ← of_option ErrInvalidValue (bigint_SetString (tx_Value inner));
           Ok (relayedTx (itoa innerTxValue) inner relayer c gasLimit payload)
         end
  end.

Record relayedTxV2Builder := mkV2 {
  v1 : relayedTxV1Builder;  (* the three fields both builders have *)
  gasLimitNeededForInnerTransaction : Z }.

Definition NewRelayedTxV2Builder : relayedTxV2Builder := mkV2 NewRelayedTxV1Builder 0.
Definition SetInnerTransaction_V2 (tx : option FrontendTransaction) (b : relayedTxV2Builder) : relayedTxV2Builder :=
  mkV2 (SetInnerTransaction tx (v1 b)) (gasLimitNeededForInnerTransaction b).
Definition SetRelayerAccount_V2 (a : option Account) (b : relayedTxV2Builder) : relayedTxV2Builder :=
  mkV2 (SetRelayerAccount a (v1 b)) (gasLimitNeededForInnerTransaction b).
Definition SetNetworkConfig_V2 (c : option NetworkConfig) (b : relayedTxV2Builder) : relayedTxV2Builder :=
  mkV2 (SetNetworkConfig c (v1 b)) (gasLimitNeededForInnerTransaction b).
Definition SetGasLimitNeededForInnerTransaction (gasLimit : Z) (b : relayedTxV2Builder) : relayedTxV2Builder :=
  mkV2 (v1 b) gasLimit.

Definition prepareInnerTxForRelayV2 (tx : FrontendTransaction) : outcome string :=
  let nonceBytes := bigint_Bytes (tx_Nonce tx) in
  decodedReceiver ← pkc_Decode (tx_Receiver tx);
  Ok (hex_EncodeToString decodedReceiver +:+ "@" +:+ hex_EncodeToString nonceBytes +:+ "@" +:+
      hex_EncodeToString (tx_Data tx) +:+ "@" +:+ tx_Signature tx).

Definition Build_V2 (rtb : relayedTxV2Builder) : outcome FrontendTransaction :=
  match innerTransaction (v1 rtb) with
  | None => Fail ErrNilInnerTransaction
  | Some inner =>
    if Nat.eqb (String.length (tx_Signature inner)) 0 then Fail ErrNilInnerTransactionSignature
    else match relayerAccount (v1 rtb), networkConfig (v1 rtb) with
         | None, _ => Fail ErrNilRelayerAccount
         | _, None => Fail ErrNilNetworkConfig
         | Some relayer, Some c =>
           if gasLimitNeededForInnerTransaction rtb =? 0 then Fail ErrInvalidGasLimitNeededForInnerTransaction
           else if negb (tx_GasLimit inner =? 0) then Fail ErrGasLimitForInnerTransactionV2ShouldBeZero
           else
             innerTxHex ← prepareInnerTxForRelayV2 inner;
             let payload := bytes_of_string ("relayedTxV2@" +:+ innerTxHex) in
             let gasLimit := relayedGas c payload (gasLimitNeededForInnerTransaction rtb) in
             Ok (relayedTx "0" inner relayer c gasLimit payload)
         end
  end.

(** The V2 relayed transaction carries the inner one: when Build succeeds its
    data field splits at "@" into relayedTxV2, the receiver, the nonce, the data and the
    signature, the first three decoding to what the inner transaction has; it goes to the
    inner sender, on the relayer's account and nonce, moves no value, and pays for its own
    data plus the gas reserved for the inner one. *)
Theorem relayed_V2_carries_inner (rtb : relayedTxV2Builder) (tx inner : FrontendTransaction) :
  Build_V2 rtb = Ok tx → innerTransaction (v1 rtb) = Some inner →
  is_u64 (tx_Nonce inner) → lacks "@"%char (tx_Signature inner) →
  ∃ relayer c s1 s2 s3, relayerAccount (v1 rtb) = Some relayer ∧ networkConfig (v1 rtb) = Some c ∧
    strings_Split "@" (string_of_bytes (tx_Data tx)) = ["relayedTxV2"; s1; s2; s3; tx_Signature inner] ∧
    (b ← hex_DecodeString s1; Ok b) = pkc_Decode (tx_Receiver inner) ∧
    be_to_Z <$> hex_DecodeString s2 = Ok (tx_Nonce inner) ∧ hex_DecodeString s3 = Ok (tx_Data inner) ∧
    tx_Receiver tx = tx_Sender inner ∧ tx_Sender tx = acc_Address relayer ∧ tx_Nonce tx = acc_Nonce relayer ∧
    tx_Value tx = "0" ∧ tx_GasLimit inner = 0 ∧
    tx_GasLimit tx = u64 (nc_MinGasLimit c + nc_GasPerDataByte c * Z.of_nat (length (tx_Data tx))
                          + gasLimitNeededForInnerTransaction rtb).
Proof.
  intros Hb Hi Hn Hs. unfold Build_V2 in Hb. rewrite Hi in Hb. destruct (Nat.eqb _ _); [done|].
  destruct (relayerAccount (v1 rtb)) as [relayer|], (networkConfig (v1 rtb)) as [c|]; try done.
  destruct (_ =? 0); [done|]. destruct (Z.eqb_spec (tx_GasLimit inner) 0) as [Hg|]; cbn [negb] in Hb; [|done].
  unfold prepareInnerTxForRelayV2 in Hb.
  destruct (pkc_Decode (tx_Receiver inner)) as [rcv|e|] eqn:Er; cbn in Hb; [|done..]. injection Hb as <-.
  exists relayer, c, (hex_EncodeToString rcv), (hex_EncodeToString (bigint_Bytes (tx_Nonce inner))),
    (hex_EncodeToString (tx_Data inner)).
  split; [done|]. split; [done|]. cbn [tx_Data relayedTx]. rewrite string_of_bytes_of_string.
  assert (Hhex : ∀ b, lacks "@"%char (hex_EncodeToString b)) by (intros b; apply hex_chars_lack; [done|apply hex_Encode_chars]).
  split.
  { change ("relayedTxV2@" +:+ ?s) with ("relayedTxV2" +:+ "@" +:+ s).
    rewrite !strings_Split_sep, strings_Split_lacks by (apply Hhex || done). done. }
  rewrite !hex_Decode_Encode. cbn. rewrite bigint_Bytes_value. unfold is_u64 in Hn.
  repeat split; try done. f_equal. lia.
Qed.
End Relayed.

Definition witness_inner : FrontendTransaction :=
  mkTx 7 "0" (hex_EncodeToString (replicate 32 x02)) (hex_EncodeToString (replicate 32 x01)) 10 0
    (bytes_of_string "ping") "aabb" "T" 1 0 "" "".
Definition witness_rtb : relayedTxV2Builder :=
  mkV2 (mkV1 (Some witness_inner) (Some (simpleAccount 3 "1")) (Some (simpleConfig "T" 1500 50000 10 1 3))) 70000.

Lemma relayed_V2_carries_inner_witness :
  ∃ tx, @Build_V2 hexConverter witness_rtb = Ok tx ∧
  ∃ relayer c s1 s2 s3, Some (simpleAccount 3 "1") = Some relayer ∧
    Some (simpleConfig "T" 1500 50000 10 1 3) = Some c ∧
    strings_Split "@" (string_of_bytes (tx_Data tx)) = ["relayedTxV2"; s1; s2; s3; "aabb"] ∧
    (b ← hex_DecodeString s1; Ok b) = hex_DecodeString (hex_EncodeToString (replicate 32 x02)) ∧
    be_to_Z <$> hex_DecodeString s2 = Ok 7 ∧ hex_DecodeString s3 = Ok (bytes_of_string "ping") ∧
    tx_Receiver tx = tx_Sender witness_inner ∧ tx_Sender tx = acc_Address relayer ∧ tx_Nonce tx = acc_Nonce relayer ∧
    tx_Value tx = "0" ∧ tx_GasLimit witness_inner = 0 ∧
    tx_GasLimit tx = u64 (nc_MinGasLimit c + nc_GasPerDataByte c * Z.of_nat (length (tx_Data tx)) + 70000).
Proof.
  eexists. split; [vm_compute; reflexivity|].
  apply (@relayed_V2_carries_inner hexConverter witness_rtb _ witness_inner);
    [vm_compute; reflexivity|reflexivity|split; done|reflexivity].
Defined.
