(* ===== verification/TxBuilder.v ===== *)
(** * Signing and checking transactions ([builders/txBuilder.go], [txcheck/])

    [txBuilder] signs a transaction as its user and as its guardian, and computes
    its hash; [VerifyTransactionSignature] checks a signature.  The hashes, the
    protobuf encoding and the flags of the options field belong to mx-chain-core-go
    and are parameters. *)

From S2P Require Export Crypto Builders.

Definition ErrNilSigner : error := ErrVar "builders.ErrNilSigner".
Definition ErrMissingSignature : error := ErrVar "builders.ErrMissingSignature".
Definition ErrMissingGuardianOption : error := ErrVar "builders.ErrMissingGuardianOption".
Definition ErrGuardianDoesNotMatch : error := ErrVar "builders.ErrGuardianDoesNotMatch".

Definition TransactionToUnsignedTx (tx : FrontendTransaction) : FrontendTransaction :=
  tx_setGuardianSignature "" (tx_setSignature "" tx).

Section TxBuilder.
Context `{Signer} `{PubkeyConverter}.
(** [tx.HasOptionGuardianSet()], the protobuf marshaller and Blake2b. *)
Variable HasOptionGuardianSet : Transaction → bool.
Variable proto_Marshal : Transaction → outcome bytes.
Variable blake2b_Compute : bytes → bytes.

(** The builder is its signer. *)
Definition NewTxBuilder (signer : option Signer) : outcome Signer := of_option ErrNilSigner signer.

Definition signTx (unsignedTx : FrontendTransaction) (userCryptoHolder : cryptoComponentsHolder) : outcome bytes :=
  unsignedMessage ← json_MarshalTx unsignedTx;
  let shouldSignOnTxHash := (2 <=? tx_Version unsignedTx) && (0 <? Z.land (tx_Options unsignedTx) 1) in
  let unsignedMessage := if shouldSignOnTxHash then keccak_Compute unsignedMessage else unsignedMessage in
  sig_SignByteSlice unsignedMessage (GetPrivateKey userCryptoHolder).

(** The transaction is written through its pointer: it is the state. *)
Definition ApplyUserSignature (cryptoHolder : cryptoComponentsHolder) : M FrontendTransaction () :=
  modify (tx_setSender (GetBech32 cryptoHolder)) ;;
  tx ← gets id;
  let unsignedTx := TransactionToUnsignedTx tx in
  signature ← lift (signTx unsignedTx cryptoHolder);
  modify (tx_setSignature (hex_EncodeToString signature)).

Definition transactionToNodeTransaction (tx : FrontendTransaction) : outcome Transaction :=
  receiverBytes ← pkc_Decode (tx_Receiver tx);
  senderBytes ← pkc_Decode (tx_Sender tx);
  signaturesBytes ← hex_DecodeString (tx_Signature tx);
  valueBI ← of_option ErrInvalidValue (bigint_SetString (tx_Value tx));
  '(guardianAddrBytes, guardianSigBytes) ←
    (if Nat.ltb 0 (String.length (tx_GuardianAddr tx)) then
       a ← pkc_Decode (tx_GuardianAddr tx);
       s ← hex_DecodeString (tx_GuardianSignature tx);
       Ok (a, s)
     else Ok ([], []));
  Ok (mkNodeTx (tx_Nonce tx) valueBI receiverBytes senderBytes (tx_GasPrice tx) (tx_GasLimit tx) (tx_Data tx)
        (bytes_of_string (tx_ChainID tx)) (tx_Version tx) signaturesBytes (tx_Options tx)
        guardianAddrBytes guardianSigBytes).

Definition ApplyGuardianSignature (guardianCryptoHolder : cryptoComponentsHolder) : M FrontendTransaction () :=
  tx ← gets id;
  nodeTx ← lift (transactionToNodeTransaction tx);
  if negb (HasOptionGuardianSet nodeTx) then throw ErrMissingGuardianOption
  else
    txGuardianAddrBytes ← lift (pkc_Decode (tx_GuardianAddr tx));
    guardianPubKeyBytes ← lift (ToByteArray (GetPublicKey guardianCryptoHolder));
    if negb (bool_decide (txGuardianAddrBytes = guardianPubKeyBytes)) then throw ErrGuardianDoesNotMatch
    else
      let unsignedTx := TransactionToUnsignedTx tx in
      guardianSignature ← lift (signTx unsignedTx guardianCryptoHolder);
      modify (tx_setGuardianSignature (hex_EncodeToString guardianSignature)).

Definition ComputeTxHash (tx : FrontendTransaction) : outcome bytes :=
  if Nat.eqb (String.length (tx_Signature tx)) 0 then Fail ErrMissingSignature
  else
    nodeTx ← transactionToNodeTransaction tx;
    txBytes ← proto_Marshal nodeTx;
    Ok (blake2b_Compute txBytes).
End TxBuilder.

(** ** [txcheck/sigcheck.go] *)

Module TxCheck.
Definition ErrNilTransaction : error := ErrVar "txcheck.ErrNilTransaction".
Definition ErrNilSignature : error := ErrVar "txcheck.ErrNilSignature".
Definition ErrNilPubKey : error := ErrVar "txcheck.ErrNilPubKey".
Definition ErrNilSignatureVerifier : error := ErrVar "txcheck.ErrNilSignatureVerifier".
Definition ErrNilMarshaller : error := ErrVar "txcheck.ErrNilMarshaller".
Definition ErrNilHasher : error := ErrVar "txcheck.ErrNilHasher".

Section TxCheck.
Context `{Crypto}.
(** [transaction.MaskSignedWithHash]; the verifier, the marshaller and the
    hasher are arguments of the function, nil when absent. *)
Variable MaskSignedWithHash : Z.

Definition checkParams (tx : option FrontendTransaction) (pk : option PublicKey) (signature : bytes)
    (verifier : option Signer) (marshaller : option (FrontendTransaction → outcome bytes))
    (hasher : option (bytes → bytes)) : outcome () :=
  match tx, signature, pk, verifier, marshaller, hasher with
  | None, _, _, _, _, _ => Fail ErrNilTransaction
  | _, [], _, _, _, _ => Fail ErrNilSignature
  | _, _, None, _, _, _ => Fail ErrNilPubKey
  | _, _, _, None, _, _ => Fail ErrNilSignatureVerifier
  | _, _, _, _, None, _ => Fail ErrNilMarshaller
  | _, _, _, _, _, None => Fail ErrNilHasher
  | _, _, _, _, _, _ => Ok ()
  end.

Definition VerifyTransactionSignature (tx : option FrontendTransaction) (pk : option PublicKey) (signature : bytes)
    (verifier : option Signer) (marshaller : option (FrontendTransaction → outcome bytes))
    (hasher : option (bytes → bytes)) : outcome () :=
  checkParams tx pk signature verifier marshaller hasher ;;
  match tx, pk, verifier, marshaller, hasher with
  | Some tx, Some pk, Some verifier, Some marshal, Some hash =>
    let unsignedTx := TransactionToUnsignedTx tx in
    unsignedMessage ← marshal unsignedTx;
    let shouldVerifyOnTxHash := (2 <=? tx_Version unsignedTx) && (0 <? Z.land (tx_Options unsignedTx) MaskSignedWithHash) in
    let unsignedMessage := if shouldVerifyOnTxHash then hash unsignedMessage else unsignedMessage in
    @sig_VerifyByteSlice _ verifier unsignedMessage pk signature
  | _, _, _, _, _ => Panic
  end.
End TxCheck.
End TxCheck.

(** ** What is signed can be verified *)

Section Theorems.
Context `{SignerLaws} `{PubkeyConverter}.

(** The check of a signature with the SDK's own encoding and hash. *)
Definition verifies (tx : FrontendTransaction) (pk : PublicKey) (signature : bytes) : outcome () :=
  TxCheck.VerifyTransactionSignature 1 (Some tx) (Some pk) signature (Some _) (Some json_MarshalTx) (Some keccak_Compute).

Lemma verifies_unsigned tx tx' pk signature :
  TransactionToUnsignedTx tx = TransactionToUnsignedTx tx' → verifies tx pk signature = verifies tx' pk signature.
Proof. intros E. unfold verifies, TxCheck.VerifyTransactionSignature, TxCheck.checkParams. by rewrite E. Qed.

Lemma signTx_verifies (h : cryptoComponentsHolder) tx signature :
  holder_ok h → signTx (TransactionToUnsignedTx tx) h = Ok signature → verifies tx (GetPublicKey h) signature = Ok ().
Proof.
  intros Hh. unfold signTx, verifies, TxCheck.VerifyTransactionSignature.
  set (u := TransactionToUnsignedTx tx). destruct (json_MarshalTx u) as [m|e|] eqn:Em; cbn; [|done..]. intros Hs.
  pose proof (SignByteSlice_not_empty _ _ _ Hs) as Hne. destruct signature as [|b sig]; [done|].
  cbn [TxCheck.checkParams mbind outcome_bind]. unfold GetPublicKey. rewrite (ho_public _ Hh). by apply SignByteSlice_verifies.
Qed.

Lemma ApplyUserSignature_run (h : cryptoComponentsHolder) (tx tx' : FrontendTransaction) :
  holder_ok h → ApplyUserSignature h tx = (Ok (), tx') →
  ∃ signature, hex_DecodeString (tx_Signature tx') = Ok signature ∧
    verifies tx' (GetPublicKey h) signature = Ok () ∧
    tx' = tx_setSignature (hex_EncodeToString signature) (tx_setSender (GetBech32 h) tx).
Proof.
  intros Hh. unfold ApplyUserSignature, modify, gets, lift, mbind, M_bind. cbn [id].
  destruct (signTx _ h) as [signature|e|] eqn:Es; [|done..]. intros [= <-].
  exists signature. split; [apply hex_Decode_Encode|]. split; [|done].
  rewrite (verifies_unsigned _ (tx_setSender (GetBech32 h) tx)) by done. by apply signTx_verifies.
Qed.

Lemma ApplyGuardianSignature_run (opt : Transaction → bool) (g : cryptoComponentsHolder) (tx tx' : FrontendTransaction) :
  holder_ok g → ApplyGuardianSignature opt g tx = (Ok (), tx') →
  (∃ signature, hex_DecodeString (tx_GuardianSignature tx') = Ok signature ∧
     verifies tx' (GetPublicKey g) signature = Ok () ∧
     tx' = tx_setGuardianSignature (hex_EncodeToString signature) tx) ∧
  ∃ nodeTx key, transactionToNodeTransaction tx = Ok nodeTx ∧ opt nodeTx = true ∧
    pkc_Decode (tx_GuardianAddr tx) = Ok key ∧ ToByteArray (GetPublicKey g) = Ok key.
Proof.
  intros Hg. unfold ApplyGuardianSignature, modify, gets, lift, throw, mbind, M_bind. cbn [id].
  destruct (transactionToNodeTransaction tx) as [nodeTx|e|] eqn:En; [|done..].
  destruct (opt nodeTx) eqn:Eo; cbn [negb]; [|done].
  destruct (pkc_Decode (tx_GuardianAddr tx)) as [key|e|] eqn:Ek; [|done..].
  destruct (ToByteArray (GetPublicKey g)) as [key'|e|] eqn:Ek'; [|done..].
  case_bool_decide as Hk; cbn [negb]; [subst key'|done].
  destruct (signTx _ g) as [signature|e|] eqn:Es; [|done..]. intros [= <-].
  split.
  - exists signature. split; [apply hex_Decode_Encode|]. split; [|done].
    rewrite (verifies_unsigned _ tx) by done. by apply signTx_verifies.
  - exists nodeTx, key. done.
Qed.

(** C28: A transaction signed by its user verifies: after ApplyUserSignature the
    sender is the user's address, the signature field decodes to bytes that
    VerifyTransactionSignature accepts under the user's public key, and nothing else of the transaction changed. *)
Theorem ApplyUserSignature_verifies (h : cryptoComponentsHolder) (tx tx' : FrontendTransaction) :
  holder_ok h → ApplyUserSignature h tx = (Ok (), tx') →
  ∃ signature, hex_DecodeString (tx_Signature tx') = Ok signature ∧
    verifies tx' (GetPublicKey h) signature = Ok () ∧
    tx' = tx_setSignature (hex_EncodeToString signature) (tx_setSender (GetBech32 h) tx).
Proof. apply ApplyUserSignature_run. Qed.

(** The guardian co-signs without spoiling the user's signature: after
    ApplyGuardianSignature both signatures verify over the same transaction, each under its own
    key, and this happens only for a transaction that has the guardian option and names the
    holder's own key as its guardian. *)
Theorem ApplyGuardianSignature_keeps_user (opt : Transaction → bool) (g : cryptoComponentsHolder)
    (tx tx' : FrontendTransaction) (userKey : PublicKey) (userSignature : bytes) :
  holder_ok g → ApplyGuardianSignature opt g tx = (Ok (), tx') →
  verifies tx userKey userSignature = Ok () →
  verifies tx' userKey userSignature = Ok () ∧
  (∃ signature, hex_DecodeString (tx_GuardianSignature tx') = Ok signature ∧
     verifies tx' (GetPublicKey g) signature = Ok () ∧
     tx' = tx_setGuardianSignature (hex_EncodeToString signature) tx) ∧
  ∃ nodeTx key, transactionToNodeTransaction tx = Ok nodeTx ∧ opt nodeTx = true ∧
    pkc_Decode (tx_GuardianAddr tx) = Ok key ∧ ToByteArray (GetPublicKey g) = Ok key.
Proof.
  intros Hg E Hu. destruct (ApplyGuardianSignature_run opt g tx tx' Hg E) as [Hs Hn]. split; [|by split].
  destruct Hs as (signature & _ & _ & ->). by rewrite (verifies_unsigned _ tx).
Qed.
End Theorems.

(** ** Concrete runs *)

Module TxBuilderRun.
#[local] Existing Instances toyCrypto hexConverter toyCrypto_laws signer signer_laws.

Definition user : cryptoComponentsHolder :=
  mkHolder (replicate 32 x01 : bytes) (replicate 32 x01 : bytes) (mkAddress (replicate 32 x01)) (hex_EncodeToString (replicate 32 x01)).
Definition guardian : cryptoComponentsHolder :=
  mkHolder (replicate 32 x02 : bytes) (replicate 32 x02 : bytes) (mkAddress (replicate 32 x02)) (hex_EncodeToString (replicate 32 x02)).
Definition tx0 : FrontendTransaction :=
  mkTx 7 "10" (hex_EncodeToString (replicate 32 x03)) "" 1 50000 [] "" "T" 2 3 (hex_EncodeToString (replicate 32 x02)) "".
Definition tx1 : FrontendTransaction := (ApplyUserSignature user tx0).2.
Definition signature1 : bytes := match hex_DecodeString (tx_Signature tx1) with Ok s => s | _ => [] end.
Definition has_guardian (t : Transaction) : bool := Z.testbit (ntx_Options t) 1.
Definition tx2 : FrontendTransaction := (ApplyGuardianSignature has_guardian guardian tx1).2.

Lemma ApplyUserSignature_verifies_witness :
  ∃ signature, hex_DecodeString (tx_Signature tx1) = Ok signature ∧
    verifies tx1 (GetPublicKey user) signature = Ok () ∧
    tx1 = tx_setSignature (hex_EncodeToString signature) (tx_setSender (GetBech32 user) tx0).
Proof.
  apply (ApplyUserSignature_verifies user tx0 tx1); [split; reflexivity|vm_compute; reflexivity].
Defined.

Lemma ApplyGuardianSignature_keeps_user_witness : verifies tx2 (GetPublicKey user) signature1 = Ok ().
Proof.
  apply (ApplyGuardianSignature_keeps_user has_guardian guardian tx1 tx2);
    [split; reflexivity|vm_compute; reflexivity|vm_compute; reflexivity].
Defined.
End TxBuilderRun.
