(* ===== verification/Interactor.v ===== *)
(** * The transaction interactor ([interactors/transaction.go])

    An accumulator of transaction pointers, emptied by
    [SendTransactionsAsBunch], which sends the transactions in bunches of a
    given size through the proxy.  The pointers are read in the heap [hp] when
    they are sent.  The pause between two bunches and the log are left out. *)

From S2P Require Export Interactors.

Record transactionInteractor := mkTransactionInteractor {
  timeBetweenBunches : Z;
  txAccumulator : list ptr }.

(** [time.Second], in nanoseconds. *)
Definition defaultTimeBetweenBunches : Z := 1000000000.

(** The proxy and the builder may be nil. *)
Definition NewTransactionInteractor (proxy_nil txBuilder_nil : bool) : outcome transactionInteractor :=
  if proxy_nil then Fail ErrNilProxy
  else if txBuilder_nil then Fail ErrNilTxBuilder
  else Ok (mkTransactionInteractor defaultTimeBetweenBunches []).

Definition SetTimeBetweenBunches (t : Z) (ti : transactionInteractor) : transactionInteractor :=
  mkTransactionInteractor t (txAccumulator ti).

Definition AddTransaction (tx : option ptr) (ti : transactionInteractor) : transactionInteractor :=
  match tx with
  | None => ti
  | Some p => mkTransactionInteractor (timeBetweenBunches ti) (txAccumulator ti ++ [p])
  end.

Section Interactor.
Context {W : Type} `{InteractorProxy W}.
Variable hp : txheap.

Definition PopAccumulatedTransactions : M transactionInteractor (list ptr) := λ ti,
  (Ok (txAccumulator ti), mkTransactionInteractor (timeBetweenBunches ti) []).

(** The loop over the remaining transactions; every turn takes one at least, so
    that their number is fuel enough. *)
Fixpoint send_bunches (fuel bunchSize : nat) (transactions : list ptr) (allHashes : list string) : M W (list string) :=
  match transactions with
  | [] => mret allHashes
  | _ =>
    match fuel with
    | O => panic
    | S fuel =>
      let '(bunch, transactions) :=
        if Nat.ltb bunchSize (length transactions)
        then (take bunchSize transactions, drop bunchSize transactions)
        else (transactions, []) in
      hashes ← px_SendTransactions (heap_tx hp <$> bunch);
      send_bunches fuel bunchSize transactions (allHashes ++ hashes)
    end
  end.

Definition SendTransactionsAsBunch (bunchSize : Z) : M (transactionInteractor * W) (list string) :=
  if bunchSize <=? 0 then throw ErrInvalidValue
  else
    transactions ← onfst PopAccumulatedTransactions;
    onsnd (send_bunches (length transactions) (Z.to_nat bunchSize) transactions []).

(** ** The bunches

    What a split of [l] in bunches of [n] is: the bunches in order are [l], all
    but the last hold [n] transactions, the last holds one to [n]. *)

Inductive bunches_of (n : nat) : list ptr → list (list ptr) → Prop :=
  | bunches_nil : bunches_of n [] []
  | bunches_last l : l ≠ [] → (length l ≤ n)%nat → bunches_of n l [l]
  | bunches_cons b l bs : length b = n → l ≠ [] → bunches_of n l bs → bunches_of n (b ++ l) (b :: bs).

Lemma bunches_concat n l bs : bunches_of n l bs → concat bs = l.
Proof. induction 1; cbn; [done|by rewrite app_nil_r|congruence]. Qed.

Lemma bunches_length n l bs : (0 < n)%nat → bunches_of n l bs → ∀ b, b ∈ bs → (1 ≤ length b ≤ n)%nat.
Proof.
  intros Hn. induction 1 as [|l Hl Hle|b l bs Hb Hl Hbs IH]; intros c; [by intros ?%not_elem_of_nil| |].
  - intros ->%list_elem_of_singleton. destruct l; [done|cbn in *; lia].
  - rewrite elem_of_cons. intros [->|]; [lia|auto].
Qed.

Lemma send_bunches_spec n fuel l acc w :
  (0 < n)%nat → (length l ≤ fuel)%nat →
  ∃ bs, bunches_of n l bs ∧
    send_bunches fuel n l acc w =
    (hs ← mcollect bs (λ b, px_SendTransactions (heap_tx hp <$> b)); mret (acc ++ concat hs)) w.
Proof.
  intros Hn. revert l acc w. induction fuel as [|fuel IH]; intros [|p l] acc w Hl; cbn [length] in Hl; try lia;
    try (exists []; split; [constructor|]; cbn [send_bunches mcollect concat]; unfold mbind, M_bind, mret, M_ret; by rewrite app_nil_r).
  cbn [send_bunches]. destruct (Nat.ltb_spec n (length (p :: l))) as [Hlt|Hge].
  - assert (drop n (p :: l) ≠ []) as Hd.
    { intros E. apply (f_equal length) in E. rewrite length_drop in E. cbn in *. lia. }
    destruct (px_SendTransactions (heap_tx hp <$> take n (p :: l)) w) as [[hs|e|] w1] eqn:E;
      [destruct (IH (drop n (p :: l)) (acc ++ hs) w1) as (bs & Hb & Eq); [rewrite length_drop; cbn in *; lia|]
      |destruct (IH (drop n (p :: l)) acc w1) as (bs & Hb & _); [rewrite length_drop; cbn in *; lia|]
      |destruct (IH (drop n (p :: l)) acc w1) as (bs & Hb & _); [rewrite length_drop; cbn in *; lia|]];
      (exists (take n (p :: l) :: bs); split;
       [rewrite <-(take_drop n (p :: l)) at 1; constructor; [rewrite length_take; lia|done|done]|]);
      cbn [mcollect]; unfold mbind, M_bind, mret, M_ret in *; rewrite E; [|done..].
    rewrite Eq. destruct (mcollect bs _ w1) as [[hss|e|] w2]; cbn; [|done..]. by rewrite app_assoc.
  - exists [p :: l]. split; [by constructor|].
    cbn [mcollect]. unfold mbind, M_bind, mret, M_ret in *.
    destruct (px_SendTransactions _ w) as [[hs|e|] w1]; [|done..].
    destruct fuel; cbn; by rewrite app_nil_r.
Qed.

Lemma SendTransactionsAsBunch_run (bunchSize : Z) ti w :
  0 < bunchSize →
  ∃ bs, bunches_of (Z.to_nat bunchSize) (txAccumulator ti) bs ∧ concat bs = txAccumulator ti ∧
    SendTransactionsAsBunch bunchSize (ti, w) =
    let '(r, w') := mcollect bs (λ b, px_SendTransactions (heap_tx hp <$> b)) w in
    ((λ hs, concat hs) <$> r, (mkTransactionInteractor (timeBetweenBunches ti) [], w')).
Proof.
  intros Hn. destruct (send_bunches_spec (Z.to_nat bunchSize) (length (txAccumulator ti)) (txAccumulator ti) [] w)
    as (bs & Hb & E); [lia|lia|].
  exists bs. split; [done|split; [by eapply bunches_concat|]].
  unfold SendTransactionsAsBunch. destruct (Z.leb_spec bunchSize 0); [lia|].
  unfold mbind, M_bind, onfst, onsnd, PopAccumulatedTransactions. cbn beta iota zeta. cbn [txAccumulator timeBetweenBunches] in *.
  rewrite E. unfold mbind, M_bind, mret, M_ret, fmap, outcome_fmap.
  by destruct (mcollect bs _ w) as [[hs|e|] w'].
Qed.
(** C21: [SendTransactionsAsBunch] with a positive size sends every accumulated
    transaction once, in the order they were added, split in bunches that are
    all full but the last (which is not empty), one [SendTransactions] call per
    bunch; the result is the concatenation of the answered hashes, the first
    error ends the run with no hash, and in every case the accumulator is left
    empty - so after an error the bunches not yet sent are gone. *)
Theorem SendTransactionsAsBunch_spec (bunchSize : Z) ti w :
  0 < bunchSize →
  ∃ bs, bunches_of (Z.to_nat bunchSize) (txAccumulator ti) bs ∧ concat bs = txAccumulator ti ∧
    SendTransactionsAsBunch bunchSize (ti, w) =
    let '(r, w') := mcollect bs (λ b, px_SendTransactions (heap_tx hp <$> b)) w in
    ((λ hs, concat hs) <$> r, (mkTransactionInteractor (timeBetweenBunches ti) [], w')).
Proof. apply SendTransactionsAsBunch_run. Qed.
End Interactor.

Lemma SendTransactionsAsBunch_spec_witness :
  let hp : txheap := <[1%positive := tx_setNonce 5 emptyTx]> (<[2%positive := tx_setNonce 6 emptyTx]> ∅) in
  let ti := AddTransaction (Some 1%positive) (AddTransaction None (AddTransaction (Some 2%positive)
              (AddTransaction (Some 1%positive) (mkTransactionInteractor 0 [])))) in
  0 < 2 ∧
  (∃ bs, bunches_of (Z.to_nat 2) (txAccumulator ti) bs ∧ concat bs = txAccumulator ti ∧
    SendTransactionsAsBunch hp 2 (ti, emptyNet) =
    let '(r, w') := mcollect bs (λ b, px_SendTransactions (heap_tx hp <$> b)) emptyNet in
    ((λ hs, concat hs) <$> r, (mkTransactionInteractor (timeBetweenBunches ti) [], w'))) ∧
  (SendTransactionsAsBunch hp 2 (ti, emptyNet)).1 = Ok ["5"; "6"; "5"].
Proof.
  split; [lia|]. split; [|vm_compute; reflexivity]. apply SendTransactionsAsBunch_spec. lia.
Defined.

(** A failing second bunch: the transactions popped are not put back. *)
Example SendTransactionsAsBunch_loses :
  let failing : InteractorProxy net := {|
    px_GetNetworkConfig := gets net_config; px_GetAccount _ := throw (ErrText "off");
    px_SendTransaction _ := throw (ErrText "off");
    px_SendTransactions txs := λ w, if decide (net_sent w = []) then (Ok ["h"], net_send txs w) else (Fail (ErrText "off"), w) |} in
  let hp : txheap := <[1%positive := tx_setNonce 5 emptyTx]> (<[2%positive := tx_setNonce 6 emptyTx]> ∅) in
  let r := SendTransactionsAsBunch hp 1 (mkTransactionInteractor 0 [1%positive; 2%positive], emptyNet) in
  r.1 = Fail (ErrText "off") ∧ txAccumulator r.2.1 = [] ∧ net_sent r.2.2 = [tx_setNonce 5 emptyTx].
Proof. vm_compute. auto. Qed.
