(* ===== verification/EndpointProviders.v ===== *)
(** * Endpoint routes ([blockchain/endpointProviders/], [blockchain/factory/])

    The REST routes of the gateway ("proxy") and of an observer node, behind the
    interface [EndpointProvider] the blockchain proxy is written against, with
    the factory that picks one. *)

From S2P Require Export Data.

(** ** [fmt.Sprintf] with the verbs [%s] and [%d] *)

Inductive fmt_arg := FStr (s : string) | FInt (z : Z).

Fixpoint fmt_Sprintf (f : string) (args : list fmt_arg) : string :=
  match f with
  | String "%" (String "s" f) =>
    match args with
    | FStr s :: args => s +:+ fmt_Sprintf f args
    | _ => "%!s(MISSING)" +:+ fmt_Sprintf f args
    end
  | String "%" (String "d" f) =>
    match args with
    | FInt z :: args => itoa z +:+ fmt_Sprintf f args
    | _ => "%!d(MISSING)" +:+ fmt_Sprintf f args
    end
  | String c f => String c (fmt_Sprintf f args)
  | EmptyString => EmptyString
  end.

(** ** The interface *)

Class EndpointProvider := {
  ep_GetNetworkConfig : string;
  ep_GetNetworkEconomics : string;
  ep_GetRatingsConfig : string;
  ep_GetEnableEpochsConfig : string;
  ep_GetAccount : string → string;
  ep_GetCostTransaction : string;
  ep_GetSendTransaction : string;
  ep_GetSendMultipleTransactions : string;
  ep_GetTransactionStatus : string → string;
  ep_GetTransactionInfo : string → string;
  ep_GetHyperBlockByNonce : Z → string;
  ep_GetHyperBlockByHash : string → string;
  ep_GetVmValues : string;
  ep_GetGenesisNodesConfig : string;
  ep_GetRawStartOfEpochMetaBlock : Z → string;
  ep_GetNodeStatus : Z → string;
  ep_ShouldCheckShardIDForNodeStatus : bool;
  ep_GetRawBlockByHash : Z → string → string;
  ep_GetRawBlockByNonce : Z → Z → string;
  ep_GetRawMiniBlockByHash : Z → string → Z → string;
  ep_GetGuardianData : string → string;
  ep_GetRestAPIEntityType : RestAPIEntityType;
  ep_GetValidatorsInfo : Z → string;
  ep_GetProcessedTransactionStatus : string → string;
  ep_GetESDTTokenData : string → string → string;
  ep_GetNFTTokenData : string → string → Z → string;
  ep_IsDataTrieMigrated : string → string;
  ep_GetBlockByNonce : Z → Z → string;
  ep_GetBlockByHash : Z → string → string }.

(** ** The routes both providers share ([baseEndpointProvider.go]) *)

Definition networkConfig : string := "network/config".
Definition networkEconomics : string := "network/economics".
Definition ratingsConfig : string := "network/ratings".
Definition enableEpochsConfig : string := "network/enable-epochs".
Definition account : string := "address/%s".
Definition costTransaction : string := "transaction/cost".
Definition sendTransaction : string := "transaction/send".
Definition sendMultipleTransactions : string := "transaction/send-multiple".
Definition transactionStatus : string := "transaction/%s/status".
Definition processedTransactionStatus : string := "transaction/%s/process-status".
Definition transactionInfo : string := "transaction/%s".
Definition hyperBlockByNonce : string := "hyperblock/by-nonce/%d".
Definition hyperBlockByHash : string := "hyperblock/by-hash/%s".
Definition vmValues : string := "vm-values/query".
Definition genesisNodesConfig : string := "network/genesis-nodes".
Definition rawStartOfEpochMetaBlock : string := "internal/raw/startofepoch/metablock/by-epoch/%d".
Definition rawStartOfEpochValidators : string := "internal/json/startofepoch/validators/by-epoch/%d".
Definition esdt : string := "address/%s/esdt/%s".
Definition nft : string := "address/%s/nft/%s/nonce/%d".
Definition nodeGetGuardianData : string := "address/%s/guardian-data".
Definition isDataTrieMigrated : string := "address/%s/is-data-trie-migrated".

Definition base_GetNetworkConfig : string := networkConfig.
Definition base_GetNetworkEconomics : string := networkEconomics.
Definition base_GetRatingsConfig : string := ratingsConfig.
Definition base_GetEnableEpochsConfig : string := enableEpochsConfig.
Definition base_GetAccount (addressAsBech32 : string) : string :=
  fmt_Sprintf account [FStr addressAsBech32].
Definition base_GetESDTTokenData (addressAsBech32 : string) (tokenIdentifier : string) : string :=
  fmt_Sprintf esdt [FStr addressAsBech32; FStr tokenIdentifier].
Definition base_GetNFTTokenData (addressAsBech32 : string) (tokenIdentifier : string) (nonce : Z) : string :=
  fmt_Sprintf nft [FStr addressAsBech32; FStr tokenIdentifier; FInt nonce].
Definition base_GetCostTransaction : string := costTransaction.
Definition base_GetSendTransaction : string := sendTransaction.
Definition base_GetSendMultipleTransactions : string := sendMultipleTransactions.
Definition base_GetTransactionStatus (hexHash : string) : string :=
  fmt_Sprintf transactionStatus [FStr hexHash].
Definition base_GetProcessedTransactionStatus (hexHash : string) : string :=
  fmt_Sprintf processedTransactionStatus [FStr hexHash].
Definition base_GetTransactionInfo (hexHash : string) : string := fmt_Sprintf transactionInfo [FStr hexHash].
Definition base_GetHyperBlockByNonce (nonce : Z) : string := fmt_Sprintf hyperBlockByNonce [FInt nonce].
Definition base_GetHyperBlockByHash (hexHash : string) : string :=
  fmt_Sprintf hyperBlockByHash [FStr hexHash].
Definition base_GetVmValues : string := vmValues.
Definition base_GetGenesisNodesConfig : string := genesisNodesConfig.
Definition base_GetGuardianData (address : string) : string :=
  fmt_Sprintf nodeGetGuardianData [FStr address].
Definition base_GetRawStartOfEpochMetaBlock (epoch : Z) : string := fmt_Sprintf rawStartOfEpochMetaBlock [FInt epoch].
Definition base_GetValidatorsInfo (epoch : Z) : string :=
  fmt_Sprintf rawStartOfEpochValidators [FInt epoch].
Definition base_IsDataTrieMigrated (addressAsBech32 : string) : string :=
  fmt_Sprintf isDataTrieMigrated [FStr addressAsBech32].

(** ** Observer nodes ([nodeEndpointProvider.go]) *)

Definition nodeGetNodeStatusEndpoint : string := "node/status".
Definition nodeRawBlockByHashEndpoint : string := "internal/raw/block/by-hash/%s".
Definition nodeRawBlockByNonceEndpoint : string := "internal/raw/block/by-nonce/%d".
Definition nodeRawMiniBlockByHashEndpoint : string := "internal/raw/miniblock/by-hash/%s/epoch/%d".
Definition nodeBlockByNonceEndpoint : string := "block/by-nonce/%d".
Definition nodeGetBlockByHashEndpoint : string := "block/by-hash/%s".

Definition node_GetNodeStatus (_ : Z) : string := nodeGetNodeStatusEndpoint.
Definition node_ShouldCheckShardIDForNodeStatus : bool := true.
Definition node_GetRawBlockByHash (_ : Z) (hexHash : string) : string :=
  fmt_Sprintf nodeRawBlockByHashEndpoint [FStr hexHash].
Definition node_GetRawBlockByNonce (_ : Z) (nonce : Z) : string :=
  fmt_Sprintf nodeRawBlockByNonceEndpoint [FInt nonce].
Definition node_GetRawMiniBlockByHash (_ : Z) (hexHash : string) (epoch : Z) : string :=
  fmt_Sprintf nodeRawMiniBlockByHashEndpoint [FStr hexHash; FInt epoch].
Definition node_GetRestAPIEntityType : RestAPIEntityType := ObserverNode.
Definition node_GetBlockByNonce (_ : Z) (nonce : Z) : string :=
  fmt_Sprintf nodeBlockByNonceEndpoint [FInt nonce].
Definition node_GetBlockByHash (_ : Z) (hash : string) : string :=
  fmt_Sprintf nodeGetBlockByHashEndpoint [FStr hash].

Definition nodeEndpointProvider : EndpointProvider := {|
  ep_GetNetworkConfig := base_GetNetworkConfig;
  ep_GetNetworkEconomics := base_GetNetworkEconomics;
  ep_GetRatingsConfig := base_GetRatingsConfig;
  ep_GetEnableEpochsConfig := base_GetEnableEpochsConfig;
  ep_GetAccount := base_GetAccount;
  ep_GetCostTransaction := base_GetCostTransaction;
  ep_GetSendTransaction := base_GetSendTransaction;
  ep_GetSendMultipleTransactions := base_GetSendMultipleTransactions;
  ep_GetTransactionStatus := base_GetTransactionStatus;
  ep_GetTransactionInfo := base_GetTransactionInfo;
  ep_GetHyperBlockByNonce := base_GetHyperBlockByNonce;
  ep_GetHyperBlockByHash := base_GetHyperBlockByHash;
  ep_GetVmValues := base_GetVmValues;
  ep_GetGenesisNodesConfig := base_GetGenesisNodesConfig;
  ep_GetRawStartOfEpochMetaBlock := base_GetRawStartOfEpochMetaBlock;
  ep_GetNodeStatus := node_GetNodeStatus;
  ep_ShouldCheckShardIDForNodeStatus := node_ShouldCheckShardIDForNodeStatus;
  ep_GetRawBlockByHash := node_GetRawBlockByHash;
  ep_GetRawBlockByNonce := node_GetRawBlockByNonce;
  ep_GetRawMiniBlockByHash := node_GetRawMiniBlockByHash;
  ep_GetGuardianData := base_GetGuardianData;
  ep_GetRestAPIEntityType := node_GetRestAPIEntityType;
  ep_GetValidatorsInfo := base_GetValidatorsInfo;
  ep_GetProcessedTransactionStatus := base_GetProcessedTransactionStatus;
  ep_GetESDTTokenData := base_GetESDTTokenData;
  ep_GetNFTTokenData := base_GetNFTTokenData;
  ep_IsDataTrieMigrated := base_IsDataTrieMigrated;
  ep_GetBlockByNonce := node_GetBlockByNonce;
  ep_GetBlockByHash := node_GetBlockByHash |}.

(** ** The gateway ([proxyEndpointProvider.go]) *)

Definition proxyGetNodeStatus : string := "network/status/%d".
Definition proxyRawBlockByHash : string := "internal/%d/raw/block/by-hash/%s".
Definition proxyRawBlockByNonce : string := "internal/%d/raw/block/by-nonce/%d".
Definition proxyRawMiniBlockByHash : string := "internal/%d/raw/miniblock/by-hash/%s/epoch/%d".
Definition proxyBlockByNonce : string := "block/%d/by-nonce/%d".
Definition proxyBlockByHash : string := "block/%d/by-hash/%s".

Definition proxy_GetNodeStatus (shardID : Z) : string := fmt_Sprintf proxyGetNodeStatus [FInt shardID].
Definition proxy_ShouldCheckShardIDForNodeStatus : bool := false.
Definition proxy_GetRawBlockByHash (shardID : Z) (hexHash : string) : string :=
  fmt_Sprintf proxyRawBlockByHash [FInt shardID; FStr hexHash].
Definition proxy_GetRawBlockByNonce (shardID : Z) (nonce : Z) : string :=
  fmt_Sprintf proxyRawBlockByNonce [FInt shardID; FInt nonce].
Definition proxy_GetRawMiniBlockByHash (shardID : Z) (hexHash : string) (epoch : Z) : string :=
  fmt_Sprintf proxyRawMiniBlockByHash [FInt shardID; FStr hexHash; FInt epoch].
Definition proxy_GetRestAPIEntityType : RestAPIEntityType := Proxy.
Definition proxy_GetBlockByNonce (shardID : Z) (nonce : Z) : string :=
  fmt_Sprintf proxyBlockByNonce [FInt shardID; FInt nonce].
Definition proxy_GetBlockByHash (shardID : Z) (hash : string) : string :=
  fmt_Sprintf proxyBlockByHash [FInt shardID; FStr hash].

Definition proxyEndpointProvider : EndpointProvider := {|
  ep_GetNetworkConfig := base_GetNetworkConfig;
  ep_GetNetworkEconomics := base_GetNetworkEconomics;
  ep_GetRatingsConfig := base_GetRatingsConfig;
  ep_GetEnableEpochsConfig := base_GetEnableEpochsConfig;
  ep_GetAccount := base_GetAccount;
  ep_GetCostTransaction := base_GetCostTransaction;
  ep_GetSendTransaction := base_GetSendTransaction;
  ep_GetSendMultipleTransactions := base_GetSendMultipleTransactions;
  ep_GetTransactionStatus := base_GetTransactionStatus;
  ep_GetTransactionInfo := base_GetTransactionInfo;
  ep_GetHyperBlockByNonce := base_GetHyperBlockByNonce;
  ep_GetHyperBlockByHash := base_GetHyperBlockByHash;
  ep_GetVmValues := base_GetVmValues;
  ep_GetGenesisNodesConfig := base_GetGenesisNodesConfig;
  ep_GetRawStartOfEpochMetaBlock := base_GetRawStartOfEpochMetaBlock;
  ep_GetNodeStatus := proxy_GetNodeStatus;
  ep_ShouldCheckShardIDForNodeStatus := proxy_ShouldCheckShardIDForNodeStatus;
  ep_GetRawBlockByHash := proxy_GetRawBlockByHash;
  ep_GetRawBlockByNonce := proxy_GetRawBlockByNonce;
  ep_GetRawMiniBlockByHash := proxy_GetRawMiniBlockByHash;
  ep_GetGuardianData := base_GetGuardianData;
  ep_GetRestAPIEntityType := proxy_GetRestAPIEntityType;
  ep_GetValidatorsInfo := base_GetValidatorsInfo;
  ep_GetProcessedTransactionStatus := base_GetProcessedTransactionStatus;
  ep_GetESDTTokenData := base_GetESDTTokenData;
  ep_GetNFTTokenData := base_GetNFTTokenData;
  ep_IsDataTrieMigrated := base_IsDataTrieMigrated;
  ep_GetBlockByNonce := proxy_GetBlockByNonce;
  ep_GetBlockByHash := proxy_GetBlockByHash |}.

(** ** The factory ([factory/factory.go]) *)

Definition ErrUnknownRestAPIEntityType : error := ErrVar "factory.ErrUnknownRestAPIEntityType".

Definition CreateEndpointProvider (entityType : RestAPIEntityType) : outcome EndpointProvider :=
  match entityType with
  | ObserverNode => Ok nodeEndpointProvider
  | Proxy => Ok proxyEndpointProvider
  | OtherEntity name => Fail (ErrWrap ErrUnknownRestAPIEntityType ": %s")
  end.
