(* ===== verification/Finality.v ===== *)
(** * Shard finalization ([blockchain/finalityProvider/])

    The checks that a shard is in sync, through the gateway (against the nonces
    the metachain notarized, a text in the metachain's status) and through an
    observer node (against the node's own highest nonces), with the factory that
    picks one.  Nonces are 64 bit words and their sums wrap around. *)

From S2P Require Export EndpointProviders.

Definition ErrInvalidNonceCrossCheckValueFormat : error := ErrVar "finalityProvider.ErrInvalidNonceCrossCheckValueFormat".
Definition ErrInvalidAllowedDeltaToFinal : error := ErrVar "finalityProvider.ErrInvalidAllowedDeltaToFinal".
Definition ErrNilProxy : error := ErrVar "finalityProvider.ErrNilProxy".
Definition ErrNodeNotStarted : error := ErrVar "finalityProvider.ErrNodeNotStarted".

(** The [proxy] interface of the package; the status pointer may be nil. *)
Class StatusProxy (W : Type) := {
  sp_GetNetworkStatus : Z → M W (option NetworkStatus);
  sp_GetRestAPIEntityType : RestAPIEntityType }.

(** The [FinalityProvider] interface. *)
Class FinalityProvider (W : Type) := {
  fp_CheckShardFinalization : Z → Z → M W () }.

(** ** The cross check text *)

(** The loop over the comma separated parts of the text. *)
Fixpoint extract_loop (shardsData : list string) (shardIdAsString : string) : outcome Z :=
  match shardsData with
  | [] => Fail (ErrWrap ErrInvalidNonceCrossCheckValueFormat ": value not found for shard %d from this response: %s")
  | shardData :: shardsData =>
    match strings_Split ":" shardData with
    | [s0; s1] =>
      let s0 := strings_TrimSpace s0 in
      let s1 := strings_TrimSpace s1 in
      if negb (String.eqb s0 shardIdAsString) then extract_loop shardsData shardIdAsString
      else
        match bigint_SetString s1 with
        | None => Fail (ErrWrap ErrInvalidNonceCrossCheckValueFormat
                          ": %s is not a valid number as found in this response: %s")
        | Some val => Ok (u64 (Z.abs val))
        end
    | _ => extract_loop shardsData shardIdAsString
    end
  end.

Definition extractNonceOfShardID (crossCheckValue : string) (shardID : Z) : outcome Z :=
  if String.eqb crossCheckValue "" then
    Fail (ErrWrap ErrInvalidNonceCrossCheckValueFormat ": empty value, maybe bad observer version")
  else extract_loop (strings_Split "," crossCheckValue) (itoa shardID).

(** ** The three providers *)

Record nonces := mkNonces { current : Z; highest : Z; probable : Z }.

(** [disabledFinalityProvider] *)
Definition disabled_CheckShardFinalization {W} (_ _ : Z) : M W () := mret ().

Section Providers.
Context {W : Type} `{StatusProxy W}.

(** [nodeFinalityProvider] *)
Definition getNonces (targetShardID : Z) : M W nonces :=
  status ← sp_GetNetworkStatus targetShardID;
  networkStatusShard ← deref status;
  let result := mkNonces (ns_Nonce networkStatusShard) (ns_HighestNonce networkStatusShard)
                         (ns_ProbableHighestNonce networkStatusShard) in
  let isEmpty := (current result =? 0) && (highest result =? 0) && (probable result =? 0) in
  if isEmpty then throw ErrNodeNotStarted else mret result.

Definition node_CheckShardFinalization (targetShardID maxNoncesDelta : Z) : M W () :=
  if maxNoncesDelta <? MinAllowedDeltaToFinal then
    throw (ErrWrap ErrInvalidAllowedDeltaToFinal ", provided: %d, minimum: %d")
  else
    result ← getNonces targetShardID;
    if u64 (current result + maxNoncesDelta) <? probable result then
      throw (ErrText "shardID %d is syncing")
    else if current result <=? u64 (highest result + maxNoncesDelta) then mret ()
    else throw (ErrText "shardID %d is stuck").

(** [proxyFinalityProvider] *)
Definition getNoncesFromMetaAndShard (targetShardID : Z) : M W (Z * Z) :=
  status ← sp_GetNetworkStatus MetachainShardId;
  networkStatusMeta ← deref status;
  let crossCheckValue := ns_CrossCheckBlockHeight networkStatusMeta in
  nonceFromMeta ← lift (extractNonceOfShardID crossCheckValue targetShardID);
  status ← sp_GetNetworkStatus targetShardID;
  networkStatusShard ← deref status;
  let nonceFromShard := ns_Nonce networkStatusShard in
  mret (nonceFromMeta, nonceFromShard).

Definition proxy_CheckShardFinalization (targetShardID maxNoncesDelta : Z) : M W () :=
  if maxNoncesDelta <? MinAllowedDeltaToFinal then
    throw (ErrWrap ErrInvalidAllowedDeltaToFinal ", provided: %d, minimum: %d")
  else if targetShardID =? MetachainShardId then mret ()
  else
    '(nonceFromMeta, nonceFromShard) ← getNoncesFromMetaAndShard targetShardID;
    if nonceFromShard <? nonceFromMeta then throw (ErrText "shardID %d is syncing")
    else if nonceFromShard <=? u64 (nonceFromMeta + maxNoncesDelta) then mret ()
    else throw (ErrText "shardID %d is stuck").

(** [factory.CreateFinalityProvider]; the proxy given to the constructors is not nil. *)
Definition CreateFinalityProvider (checkFinality : bool) : outcome (FinalityProvider W) :=
  if negb checkFinality then Ok {| fp_CheckShardFinalization := disabled_CheckShardFinalization |}
  else
    match sp_GetRestAPIEntityType with
    | ObserverNode => Ok {| fp_CheckShardFinalization := node_CheckShardFinalization |}
    | Proxy => Ok {| fp_CheckShardFinalization := proxy_CheckShardFinalization |}
    | OtherEntity _ => Fail (ErrWrap ErrUnknownRestAPIEntityType ": %s")
    end.
End Providers.

(** ** Reading what the metachain prints

    The documented format of the text: ["0: 9169897, 1: 9166353, 2: 9170524, "]. *)

Definition print_entry (e : Z * Z) : string := itoa e.1 +:+ ": " +:+ itoa e.2.
Fixpoint print_cross_check (l : list (Z * Z)) : string :=
  match l with
  | [] => ""
  | e :: l => print_entry e +:+ ", " +:+ print_cross_check l
  end.

Lemma itoa_lacks c z : is_digit c = false → Ascii.eqb c "-" = false → lacks c (itoa z).
Proof.
  intros Hd Hm. eapply string_forallb_impl, itoa_chars. intros x Hx. cbn in Hx.
  apply negb_true_iff, Ascii.eqb_neq. intros ->. by rewrite Hd, Hm in Hx.
Qed.

Lemma itoa_trim z : strings_TrimSpace (itoa z) = itoa z.
Proof.
  apply strings_TrimSpace_id. eapply string_forallb_impl, itoa_chars. intros x Hx. cbn in Hx.
  destruct x as [[] [] [] [] [] [] [] []]; done.
Qed.

Lemma print_entry_lacks_comma e : lacks "," (print_entry e).
Proof. unfold print_entry. rewrite !string_forallb_app, !itoa_lacks; done. Qed.

(** One part of the text, with or without the space that follows a comma. *)
Lemma split_entry (sp : bool) (e : Z * Z) :
  let pre := if sp then " " else "" in
  ∃ s0 s1, strings_Split ":" (pre +:+ print_entry e) = [s0; s1] ∧
    strings_TrimSpace s0 = itoa e.1 ∧ strings_TrimSpace s1 = itoa e.2.
Proof.
  intros pre. exists (pre +:+ itoa e.1), (" " +:+ itoa e.2). split; [|split].
  - unfold print_entry. change (": " +:+ itoa e.2) with (String ":" (String " " (itoa e.2))).
    transitivity ((pre +:+ itoa e.1) :: strings_Split ":" (String " " (itoa e.2))).
    + rewrite <-strings_Split_app.
      * f_equal. by destruct sp.
      * destruct sp; cbn; apply itoa_lacks; done.
    + f_equal. apply strings_Split_lacks. cbn. by apply itoa_lacks.
  - destruct sp; [|apply itoa_trim].
    change (strings_TrimSpace (String " " (itoa e.1)) = itoa e.1).
    rewrite strings_TrimSpace_space. apply itoa_trim.
  - change (strings_TrimSpace (String " " (itoa e.2)) = itoa e.2).
    rewrite strings_TrimSpace_space. apply itoa_trim.
Qed.

Lemma extract_loop_print (l : list (Z * Z)) (sp : bool) k :
  (∀ e, e ∈ l → is_u64 e.2) →
  extract_loop (strings_Split "," ((if sp then " " else "") +:+ print_cross_check l)) (itoa k) =
  of_option (ErrWrap ErrInvalidNonceCrossCheckValueFormat ": value not found for shard %d from this response: %s")
    ((list_to_map l : gmap Z Z) !! k).
Proof.
  revert sp. induction l as [|e l IH]; intros sp Hl; [by destruct sp|].
  destruct (split_entry sp e) as (s0 & s1 & Es & E0 & E1).
  replace ((if sp then " " else "") +:+ print_cross_check (e :: l))
    with (((if sp then " " else "") +:+ print_entry e) +:+ String "," (" " +:+ print_cross_check l)).
  2:{ cbn [print_cross_check]. by rewrite <-!string_app_assoc. }
  rewrite strings_Split_app.
  2:{ destruct sp; cbn; apply print_entry_lacks_comma. }
  cbn [extract_loop list_to_map foldr]. rewrite Es, E0, E1.
  rewrite bigint_SetString_itoa. destruct (String.eqb_spec (itoa e.1) (itoa k)) as [Ek|Hne]; cbn [negb].
  - apply (inj itoa) in Ek. subst k. rewrite lookup_insert_eq. cbn.
    pose proof (Hl e ltac:(by left)) as Hu. rewrite Z.abs_eq by (unfold is_u64 in Hu; lia). by rewrite u64_small.
  - rewrite lookup_insert_ne by congruence. apply (IH true). intros e' He'. apply Hl. by right.
Qed.

Lemma print_cross_check_nonempty e l : print_cross_check (e :: l) ≠ "".
Proof. cbn [print_cross_check]. unfold print_entry. by destruct (itoa e.1). Qed.

Lemma extract_print (l : list (Z * Z)) k :
  (∀ e, e ∈ l → is_u64 e.2) →
  ∃ msg, extractNonceOfShardID (print_cross_check l) k =
    of_option (ErrWrap ErrInvalidNonceCrossCheckValueFormat msg) ((list_to_map l : gmap Z Z) !! k).
Proof.
  intros Hl. unfold extractNonceOfShardID. destruct l as [|e l]; [by eexists|].
  pose proof (extract_loop_print (e :: l) false k Hl) as E.
  change ((if false then " " else "") +:+ print_cross_check (e :: l)) with (print_cross_check (e :: l)) in E.
  destruct (String.eqb_spec (print_cross_check (e :: l)) "") as [E0|_].
  - by apply print_cross_check_nonempty in E0.
  - rewrite E. by eexists.
Qed.

(** the cross check text is read back: from the text the metachain prints
    for a list of shards and nonces, [extractNonceOfShardID] gives the nonce
    of the shard asked for, and an error that wraps
    [ErrInvalidNonceCrossCheckValueFormat] exactly when the shard is not in the
    list (or the text is empty). *)
Theorem extractNonceOfShardID_print (l : list (Z * Z)) (k : Z) :
  (∀ e, e ∈ l → is_u64 e.2) →
  match (list_to_map l : gmap Z Z) !! k with
  | Some n => extractNonceOfShardID (print_cross_check l) k = Ok n
  | None => ∃ msg, extractNonceOfShardID (print_cross_check l) k =
                   Fail (ErrWrap ErrInvalidNonceCrossCheckValueFormat msg)
  end.
Proof.
  intros Hl. destruct (extract_print l k Hl) as [msg E]. rewrite E.
  destruct (_ !! k); [done|by eexists].
Qed.

Lemma extractNonceOfShardID_print_witness :
  let l := [(0, 9169897); (1, 9166353); (2, 9170524)] in
  (∀ e, e ∈ l → is_u64 e.2) ∧ print_cross_check l = "0: 9169897, 1: 9166353, 2: 9170524, " ∧
  match (list_to_map l : gmap Z Z) !! 1 with
  | Some n => extractNonceOfShardID (print_cross_check l) 1 = Ok n
  | None => ∃ msg, extractNonceOfShardID (print_cross_check l) 1 =
                   Fail (ErrWrap ErrInvalidNonceCrossCheckValueFormat msg)
  end.
Proof.
  assert (H : ∀ e, e ∈ [(0, 9169897); (1, 9166353); (2, 9170524)] → is_u64 e.2).
  { intros e He. rewrite !elem_of_cons, elem_of_nil in He. unfold is_u64.
    destruct He as [->|[->|[->|[]]]]; cbn; lia. }
  split; [exact H|]. split; [vm_compute; reflexivity|].
  apply (extractNonceOfShardID_print [(0, 9169897); (1, 9166353); (2, 9170524)] 1 H).
Defined.

Lemma extract_no_panic v k : extractNonceOfShardID v k ≠ Panic.
Proof.
  unfold extractNonceOfShardID. destruct (String.eqb v ""); [done|].
  induction (strings_Split "," v) as [|x l IH]; [done|]. cbn [extract_loop]. repeat case_match; done.
Qed.

(** ** What the checks accept *)

Section Checks.
Context {W : Type} `{StatusProxy W}.

(** through an observer node, a shard passes the check exactly when the node
    has started, its nonce is within the allowed delta of the probable highest
    nonce (it is not syncing) and at most the delta above the highest final
    nonce (it is not stuck); the node is asked once, and every other case is an
    error, [ErrNodeNotStarted] for a node that has not started.  This holds as
    long as the sums with the delta fit a 64 bit word. *)
Theorem node_CheckShardFinalization_spec shard delta st w w' :
  MinAllowedDeltaToFinal ≤ delta →
  sp_GetNetworkStatus shard w = (Ok (Some st), w') →
  0 ≤ ns_Nonce st → 0 ≤ ns_HighestNonce st → 0 ≤ ns_ProbableHighestNonce st →
  is_u64 (ns_Nonce st + delta) → is_u64 (ns_HighestNonce st + delta) →
  ∃ r, node_CheckShardFinalization shard delta w = (r, w') ∧
    (r = Fail ErrNodeNotStarted ↔ ns_Nonce st = 0 ∧ ns_HighestNonce st = 0 ∧ ns_ProbableHighestNonce st = 0) ∧
    (r = Ok () ↔ (ns_Nonce st ≠ 0 ∨ ns_HighestNonce st ≠ 0 ∨ ns_ProbableHighestNonce st ≠ 0) ∧
                 ns_ProbableHighestNonce st ≤ ns_Nonce st + delta ∧
                 ns_Nonce st ≤ ns_HighestNonce st + delta) ∧
    r ≠ Panic.
Proof.
  intros Hd E H1 H2 H3 U1 U2. unfold node_CheckShardFinalization, getNonces.
  destruct (Z.ltb_spec delta MinAllowedDeltaToFinal) as [|_]; [lia|].
  unfold mbind, M_bind, mret, M_ret, deref, throw. rewrite E. cbn [current highest probable].
  destruct ((ns_Nonce st =? 0) && (ns_HighestNonce st =? 0) && (ns_ProbableHighestNonce st =? 0)) eqn:Ez.
  - rewrite !andb_true_iff, !Z.eqb_eq in Ez. eexists. split; [done|]. repeat split; intros; try done; lia.
  - rewrite !andb_false_iff, !Z.eqb_neq in Ez. cbn [current highest probable]. rewrite !u64_small by done.
    destruct (Z.ltb_spec (ns_Nonce st + delta) (ns_ProbableHighestNonce st));
      [|destruct (Z.leb_spec (ns_Nonce st) (ns_HighestNonce st + delta))];
      eexists; (split; [done|]); repeat split; intros; try done; lia.
Qed.

(** through the gateway, the metachain always passes the check; another shard
    passes exactly when the metachain's status prints a nonce [m] for it and the
    shard's own nonce is between [m] and [m] plus the delta (as long as that sum
    fits a 64 bit word); the metachain is asked first, the shard second. *)
Theorem proxy_CheckShardFinalization_spec shard delta (l : list (Z * Z)) meta st w1 w2 w3 :
  MinAllowedDeltaToFinal ≤ delta →
  (∀ e, e ∈ l → is_u64 e.2 ∧ is_u64 (e.2 + delta)) →
  ns_CrossCheckBlockHeight meta = print_cross_check l →
  sp_GetNetworkStatus MetachainShardId w1 = (Ok (Some meta), w2) →
  sp_GetNetworkStatus shard w2 = (Ok (Some st), w3) →
  (proxy_CheckShardFinalization MetachainShardId delta w1 = (Ok (), w1)) ∧
  (shard ≠ MetachainShardId →
    (proxy_CheckShardFinalization shard delta w1).1 = Ok () ↔
    ∃ m, (list_to_map l : gmap Z Z) !! shard = Some m ∧ m ≤ ns_Nonce st ≤ m + delta).
Proof.
  intros Hd Hl Hc E1 E2. unfold proxy_CheckShardFinalization.
  destruct (Z.ltb_spec delta MinAllowedDeltaToFinal) as [|_]; [lia|]. split; [by rewrite Z.eqb_refl|].
  intros Hs%Z.eqb_neq. rewrite Hs. unfold getNoncesFromMetaAndShard, mbind, M_bind, mret, M_ret, deref, lift, throw.
  destruct (extract_print l shard (λ e He, proj1 (Hl e He))) as [msg Ex].
  rewrite E1, Hc, Ex. destruct (list_to_map l !! shard) as [m|] eqn:Em; cbn [of_option].
  - pose proof (elem_of_list_to_map_2 _ _ _ Em) as Hin. destruct (Hl _ Hin) as [U1 U2]. cbn [snd] in *.
    rewrite E2, u64_small by done.
    destruct (Z.ltb_spec (ns_Nonce st) m); [|destruct (Z.leb_spec (ns_Nonce st) (m + delta))]; cbn;
      (split; [intros; try done|intros (? & [= <-] & ?)]); try done; try lia. by exists m.
  - split; [done|]. by intros (? & ? & _).
Qed.
End Checks.

(** ** Concrete runs *)

Definition statuses : Type := Z → NetworkStatus.
Definition statuses_proxy (t : RestAPIEntityType) : StatusProxy statuses := {|
  sp_GetNetworkStatus shard := gets (λ w, Some (w shard));
  sp_GetRestAPIEntityType := t |}.

Definition someStatuses : statuses := λ shard,
  if shard =? MetachainShardId then simpleStatus 50 50 50 "0: 99, 1: 7, " shard
  else simpleStatus 100 99 101 "" shard.

Lemma node_CheckShardFinalization_spec_witness :
  let st := simpleStatus 100 99 101 "" 0 in
  ∃ r, @node_CheckShardFinalization statuses (statuses_proxy ObserverNode) 0 1 someStatuses = (r, someStatuses) ∧
    (r = Fail ErrNodeNotStarted ↔ ns_Nonce st = 0 ∧ ns_HighestNonce st = 0 ∧ ns_ProbableHighestNonce st = 0) ∧
    (r = Ok () ↔ (ns_Nonce st ≠ 0 ∨ ns_HighestNonce st ≠ 0 ∨ ns_ProbableHighestNonce st ≠ 0) ∧
                 ns_ProbableHighestNonce st ≤ ns_Nonce st + 1 ∧ ns_Nonce st ≤ ns_HighestNonce st + 1) ∧
    r ≠ Panic.
Proof.
  apply (@node_CheckShardFinalization_spec statuses (statuses_proxy ObserverNode)); cbn;
    unfold is_u64, MinAllowedDeltaToFinal; try lia; reflexivity.
Defined.

Lemma proxy_CheckShardFinalization_spec_witness :
  (0 ≠ MetachainShardId →
    (@proxy_CheckShardFinalization statuses (statuses_proxy Proxy) 0 1 someStatuses).1 = Ok () ↔
    ∃ m, (list_to_map [(0, 99); (1, 7)] : gmap Z Z) !! 0 = Some m ∧ m ≤ 100 ≤ m + 1) ∧
  (@proxy_CheckShardFinalization statuses (statuses_proxy Proxy) 0 1 someStatuses).1 = Ok () ∧
  is_ok (@proxy_CheckShardFinalization statuses (statuses_proxy Proxy) 1 1 someStatuses).1 = false.
Proof.
  split; [|split; vm_compute; reflexivity].
  refine (proj2 (@proxy_CheckShardFinalization_spec statuses (statuses_proxy Proxy) 0 1 [(0, 99); (1, 7)]
    (someStatuses MetachainShardId) (someStatuses 0) someStatuses someStatuses someStatuses _ _ _ _ _)).
  - unfold MinAllowedDeltaToFinal. lia.
  - intros e He. rewrite !elem_of_cons, elem_of_nil in He. unfold is_u64.
    destruct He as [->|[->|[]]]; cbn; lia.
  - vm_compute. reflexivity.
  - reflexivity.
  - reflexivity.
Defined.
