(* ===== verification/Responses.v ===== *)
(** * API responses ([data/])

    The envelope of every REST answer, the payloads the SDK's data package
    declares, and the JSON decoding of both.  [encoding/json] works by
    reflection on the struct tags; [ApiJson] names the instance of
    [json.Unmarshal] and [json.Marshal] at each type the blockchain proxy uses.
    Payloads declared in mx-chain-core-go and mx-chain-go and only passed
    through are types of that class.  Floating point fields hold their bits. *)

From S2P Require Export Data VmQueryBuilder.

(** [struct { Data D; Error string; Code string }] *)
Record apiResponse (D : Type) := mkResp { ar_Data : D; ar_Error : string; ar_Code : string }.
Arguments mkResp {D} _ _ _.
Arguments ar_Data {D} _.
Arguments ar_Error {D} _.
Arguments ar_Code {D} _.

Record NetworkEconomics := mkNetworkEconomics {
  ne_DevRewards : string;
  ne_EpochForEconomicsData : Z;
  ne_Inflation : string;
  ne_TotalFees : string;
  ne_TotalStakedValue : string;
  ne_TotalSupply : string;
  ne_TotalTopUpValue : string }.

Record SelectionChances := mkSelectionChances {
  sch_ChancePercent : Z;
  sch_MaxThreshold : Z }.

Record RatingsConfig := mkRatingsConfig {
  rc_GeneralMaxRating : Z;
  rc_GeneralMinRating : Z;
  rc_GeneralSignedBlocksThreshold : Z;
  rc_GeneralStartRating : Z;
  rc_GeneralSelectionChances : list SelectionChances;
  rc_MetachainConsecutiveMissedBlocksPenalty : Z;
  rc_MetachainHoursToMaxRatingFromStartRating : Z;
  rc_MetachainProposerDecreaseFactor : Z;
  rc_MetachainProposerValidatorImportance : Z;
  rc_MetachainValidatorDecreaseFactor : Z;
  rc_PeerhonestyBadPeerThreshold : Z;
  rc_PeerhonestyDecayCoefficient : Z;
  rc_PeerhonestyDecayUpdateIntervalInseconds : Z;
  rc_PeerhonestyMaxScore : Z;
  rc_PeerhonestyMinScore : Z;
  rc_PeerhonestyUnitValue : Z;
  rc_ShardchainConsecutiveMissedBlocksPenalty : Z;
  rc_ShardchainHoursToMaxRatingFromStartRating : Z;
  rc_ShardchainProposerDecreaseFactor : Z;
  rc_ShardchainProposerValidatorImportance : Z;
  rc_ShardchainValidatorDecreaseFactor : Z }.

Record ESDTFungibleTokenData := mkESDTFungibleTokenData {
  ft_TokenIdentifier : string;
  ft_Balance : string;
  ft_Properties : string }.

Record ESDTNFTTokenData := mkESDTNFTTokenData {
  nt_TokenIdentifier : string;
  nt_Balance : string;
  nt_Properties : string;
  nt_Name : string;
  nt_Nonce : Z;
  nt_Creator : string;
  nt_Royalties : string;
  nt_Hash : bytes;
  nt_URIs : list bytes;
  nt_Attributes : bytes }.

Record GenesisNodes := mkGenesisNodes {
  gn_Eligible : gmap Z (list string);
  gn_Waiting : gmap Z (list string) }.

Record TxCostResponseData := mkTxCostResponseData {
  tc_TxCost : Z;
  tc_RetMessage : string }.

(** [VmValueRequestWithOptionalParameters]. *)
Record VmValueRequestWithOptionalParameters := mkVmRequestOpt {
  vro_VmValueRequest : VmValueRequest;
  vro_SameScState : bool;
  vro_ShouldBeSynced : bool }.

(** [vm.VMOutputApi] and the log types of mx-chain-core-go: the fields read. *)
Record VMOutputApi := mkVMOutput { vmo_ReturnData : list bytes; vmo_ReturnCode : string; vmo_ReturnMessage : string }.

Record Events := mkEvents { ev_Address : string; ev_Identifier : string; ev_Topics : list bytes; ev_Data : bytes }.
#[export] Instance Events_eq_dec : EqDecision Events.
Proof. solve_decision. Defined.

(** An [api.Block]: its nonce, and for each miniblock its transactions, each
    with its logs, which may be nil, or the list of its events. *)
Record apiBlock := mkApiBlock { bl_Nonce : Z; bl_MiniBlocks : list (list (option (list Events))) }.

(** *** The response envelopes

    Each is [{ Data; Error; Code }]; a [Data] with one field is that field. *)
Record sentTransactions := mkSentTransactions {
  NumOfSentTxs : Z;
  TxsHashes : gmap Z string }.

Definition AccountResponse := apiResponse (option Account).
Definition IsDataTrieMigratedResponse := apiResponse (gmap string bool).
Definition ESDTFungibleResponse := apiResponse (option ESDTFungibleTokenData).
Definition ESDTNFTResponse := apiResponse (option ESDTNFTTokenData).
Definition GuardianDataResponse (GuardianData : Type) := apiResponse (option GuardianData).
Definition EnableEpochsConfigResponse (EnableEpochsConfig : Type) := apiResponse (option EnableEpochsConfig).
Definition ValidatorsInfoResponse (ShardValidatorInfo : Type) := apiResponse (list ShardValidatorInfo).
Definition GenesisNodesResponse := apiResponse (option GenesisNodes).
Definition RatingsConfigResponse := apiResponse (option RatingsConfig).
Definition NetworkConfigResponse := apiResponse (option NetworkConfig).
Definition NetworkEconomicsResponse := apiResponse (option NetworkEconomics).
Definition NetworkStatusResponse := apiResponse (option NetworkStatus).
Definition NodeStatusResponse := apiResponse (option NetworkStatus).
Definition HyperBlockResponse := apiResponse HyperBlock.
Definition RawBlockRespone := apiResponse bytes.
Definition RawMiniBlockRespone := apiResponse bytes.
Definition SendTransactionResponse := apiResponse string.
Definition SendTransactionsResponse := apiResponse sentTransactions.
Definition TransactionStatus := apiResponse string.
Definition ProcessedTransactionStatus := apiResponse string.
Definition TransactionInfo := apiResponse TransactionOnNetwork.
Definition ResponseTxCost := apiResponse TxCostResponseData.
Definition VmValuesResponseData := option VMOutputApi.
Definition ResponseVmValue := apiResponse VmValuesResponseData.
Definition BlockDataResponse := option apiBlock.
Definition BlockResponse := apiResponse BlockDataResponse.

(** ** JSON *)

Class ApiJson := {
  EnableEpochsConfig : Type;
  GuardianData : Type;
  ShardValidatorInfo : Type;
  json_NetworkConfigResponse : bytes → outcome NetworkConfigResponse;
  json_NetworkStatusResponse : bytes → outcome NetworkStatusResponse;
  json_NodeStatusResponse : bytes → outcome NodeStatusResponse;
  json_ProcessedTransactionStatus : bytes → outcome ProcessedTransactionStatus;
  json_ResponseVmValue : bytes → outcome ResponseVmValue;
  json_NetworkEconomicsResponse : bytes → outcome NetworkEconomicsResponse;
  json_AccountResponse : bytes → outcome AccountResponse;
  json_SendTransactionResponse : bytes → outcome SendTransactionResponse;
  json_SendTransactionsResponse : bytes → outcome SendTransactionsResponse;
  json_TransactionStatus : bytes → outcome TransactionStatus;
  json_TransactionInfo : bytes → outcome TransactionInfo;
  json_ResponseTxCost : bytes → outcome ResponseTxCost;
  json_HyperBlockResponse : bytes → outcome HyperBlockResponse;
  json_RawBlockRespone : bytes → outcome RawBlockRespone;
  json_RawMiniBlockRespone : bytes → outcome RawMiniBlockRespone;
  json_RatingsConfigResponse : bytes → outcome RatingsConfigResponse;
  json_EnableEpochsConfigResponse : bytes → outcome (EnableEpochsConfigResponse EnableEpochsConfig);
  json_GenesisNodesResponse : bytes → outcome GenesisNodesResponse;
  json_ValidatorsInfoResponse : bytes → outcome (ValidatorsInfoResponse ShardValidatorInfo);
  json_ESDTFungibleResponse : bytes → outcome ESDTFungibleResponse;
  json_ESDTNFTResponse : bytes → outcome ESDTNFTResponse;
  json_GuardianDataResponse : bytes → outcome (GuardianDataResponse GuardianData);
  json_IsDataTrieMigratedResponse : bytes → outcome IsDataTrieMigratedResponse;
  json_BlockResponse : bytes → outcome BlockResponse;
  json_Marshal_VmRequest : VmValueRequestWithOptionalParameters → outcome bytes;
  json_Marshal_Tx : FrontendTransaction → outcome bytes;
  json_Marshal_Txs : list FrontendTransaction → outcome bytes }.

(** An instance for concrete runs: bodies are decimal numbers or words. *)
Definition read_number {D} (f : Z → D) (b : bytes) : outcome (apiResponse D) :=
  match bigint_SetString (string_of_bytes b) with
  | Some z => Ok (mkResp (f z) "" "successful")
  | None => Fail (ErrText "json")
  end.
Definition no_json {A B} (_ : A) : outcome B := Fail (ErrText "json").

Definition wordsJsonOver (status : bytes → outcome (apiResponse (option NetworkStatus)))
    (block : bytes → outcome (apiResponse (option apiBlock)))
    (ratings : bytes → outcome (apiResponse (option RatingsConfig)))
    (genesis : bytes → outcome (apiResponse (option GenesisNodes))) : ApiJson := {|
  EnableEpochsConfig := (); GuardianData := (); ShardValidatorInfo := ();
  json_NetworkConfigResponse := read_number (λ z, Some (simpleConfig "T" 1500 50000 1000 1 z));
  json_NetworkStatusResponse := status;
  json_NodeStatusResponse := status;
  json_ProcessedTransactionStatus b := Ok (mkResp (string_of_bytes b) "" "successful");
  json_ResponseVmValue b :=
    if Nat.eqb (length b) 0 then Ok (mkResp None "" "successful")
    else Ok (mkResp (Some (mkVMOutput [b] "ok" "")) "" "successful");
  json_NetworkEconomicsResponse := no_json;
  json_AccountResponse := read_number (λ z, Some (simpleAccount z "10"));
  json_SendTransactionResponse b := Ok (mkResp (string_of_bytes b) "" "successful");
  json_SendTransactionsResponse := read_number (λ z, mkSentTransactions 2 {[ 2 := itoa (z + 2); 0 := itoa z ]});
  json_TransactionStatus b := Ok (mkResp (string_of_bytes b) "" "successful");
  json_TransactionInfo := no_json;
  json_ResponseTxCost := read_number (λ z, mkTxCostResponseData z "");
  json_HyperBlockResponse := read_number (λ z, simpleHyperBlock z "" []);
  json_RawBlockRespone b := Ok (mkResp b "" "successful");
  json_RawMiniBlockRespone b := Ok (mkResp b "" "successful");
  json_RatingsConfigResponse := ratings;
  json_EnableEpochsConfigResponse := read_number (λ _, Some tt);
  json_GenesisNodesResponse := genesis;
  json_ValidatorsInfoResponse := no_json;
  json_ESDTFungibleResponse := no_json;
  json_ESDTNFTResponse := no_json;
  json_GuardianDataResponse := no_json;
  json_IsDataTrieMigratedResponse := read_number (λ z, {[ "isMigrated" := (0 <? z) ]});
  json_BlockResponse := block;
  json_Marshal_VmRequest r := Ok (bytes_of_string (vvr_FuncName (vro_VmValueRequest r)));
  json_Marshal_Tx tx := Ok (tx_Data tx);
  json_Marshal_Txs txs := Ok (concat (map tx_Data txs)) |}.

Definition wordsJsonWith (status : bytes → outcome (apiResponse (option NetworkStatus)))
    (block : bytes → outcome (apiResponse (option apiBlock))) : ApiJson :=
  wordsJsonOver status block no_json no_json.

Definition wordsJson : ApiJson :=
  wordsJsonWith (read_number (λ z, Some (simpleStatus z z z "" 0)))
    (read_number (λ z, Some (mkApiBlock z [[None; Some [mkEvents (itoa (z mod 10)) "transfer" [[x01]; [x02]] []]]]))).

Lemma read_number_no_panic {D} (f : Z → D) b : read_number f b ≠ Panic.
Proof. unfold read_number. by destruct (bigint_SetString _). Qed.
