(* ===== verification/BaseProxy.v ===== *)
(** * The base proxy ([blockchain/baseProxy.go], [blockchain/shardCoordinator.go])

    [baseProxy] caches the network configuration for a while and reads the
    status of a shard.  The world [W] is reached through the interface
    [HttpClientWrapper] and read by [Clock]; routes come from [EndpointProvider],
    JSON from [ApiJson].  The base proxy is the [StatusProxy] the finality
    providers are built on. *)

From S2P Require Export Finality Http Responses.

(** ** [errors.go] *)

Definition ErrInvalidAddress : error := ErrVar "blockchain.ErrInvalidAddress".
Definition ErrNilAddress : error := ErrVar "blockchain.ErrNilAddress".
Definition ErrNilShardCoordinator : error := ErrVar "blockchain.ErrNilShardCoordinator".
Definition ErrNilNetworkConfigs : error := ErrVar "blockchain.ErrNilNetworkConfigs".
Definition ErrInvalidCacherDuration : error := ErrVar "blockchain.ErrInvalidCacherDuration".
Definition ErrInvalidAllowedDeltaToFinal : error := ErrVar "blockchain.ErrInvalidAllowedDeltaToFinal".
Definition ErrNilHTTPClientWrapper : error := ErrVar "blockchain.ErrNilHTTPClientWrapper".
Definition ErrHTTPStatusCodeIsNotOK : error := ErrVar "blockchain.ErrHTTPStatusCodeIsNotOK".
Definition ErrNilEndpointProvider : error := ErrVar "blockchain.ErrNilEndpointProvider".
Definition ErrInvalidEndpointProvider : error := ErrVar "blockchain.ErrInvalidEndpointProvider".
Definition ErrShardIDMismatch : error := ErrVar "blockchain.ErrShardIDMismatch".
Definition ErrNoShardOrAddressesProvided : error := ErrVar "blockchain.ErrNoShardOrAddressesProvided".
Definition ErrAddressesFromDifferentShards : error := ErrVar "blockchain.ErrAddressesFromDifferentShards".
Definition ErrNilNetworkStatus : error := ErrVar "blockchain.ErrNilNetworkStatus".
Definition ErrNilRequest : error := ErrVar "blockchain.ErrNilRequest".
Definition ErrNilProxy : error := ErrVar "blockchain.ErrNilProxy".
Definition ErrNotUint64Bytes : error := ErrVar "blockchain.ErrNotUint64Bytes".
Definition ErrInvalidBlockRange : error := ErrVar "blockchain.ErrInvalidBlockRange".
Definition ErrNoBlockRangeProvided : error := ErrVar "blockchain.ErrNoBlockRangeProvided".

(** The status code and its text are part of the message, which is not kept. *)
Definition createHTTPStatusError (httpStatusCode : Z) (err : option error) : error :=
  ErrWrap (default ErrHTTPStatusCodeIsNotOK err) ", returned http status: %d, %s".

(** ** Requests

    The pattern of every request: the transport's error or a status other than
    200 is wrapped with the code; then the body is decoded, and the error text
    of the envelope is returned as an error. *)

Section Requests.
Context {W : Type} `{HttpClientWrapper W}.

Definition checkHTTP (r : bytes * Z * option error) : outcome bytes :=
  let '(buff, code, err) := r in
  match err with
  | Some _ => Fail (createHTTPStatusError code err)
  | None => if code =? StatusOK then Ok buff else Fail (createHTTPStatusError code None)
  end.

Definition getBytes (endpoint : string) : M W bytes := λ w,
  let '(r, w) := http_GetHTTP endpoint w in (checkHTTP r, w).

Definition postBytes (endpoint : string) (data : bytes) : M W bytes := λ w,
  let '(r, w) := http_PostHTTP endpoint data w in (checkHTTP r, w).

Definition unwrapResponse {D} (response : apiResponse D) : outcome D :=
  if negb (String.eqb (ar_Error response) "") then Fail (ErrText (ar_Error response))
  else Ok (ar_Data response).

Definition getResponse {D} (json_Unmarshal : bytes → outcome (apiResponse D)) (endpoint : string) : M W D :=
  buff ← getBytes endpoint;
  response ← lift (json_Unmarshal buff);
  lift (unwrapResponse response).

Definition postResponse {D} (json_Unmarshal : bytes → outcome (apiResponse D)) (endpoint : string) (data : bytes) : M W D :=
  buff ← postBytes endpoint data;
  response ← lift (json_Unmarshal buff);
  lift (unwrapResponse response).
End Requests.

(** ** The shard coordinator

    [sharding.Coordinator] belongs to mx-chain-go. *)

Class ShardingCoordinator := {
  Coordinator : Type;
  NewMultiShardCoordinator : Z → Z → outcome Coordinator;
  ComputeId : Coordinator → bytes → Z }.

Section Sharding.
Context `{ShardingCoordinator}.

Record shardCoordinator := mkShardCoordinator { coordinator : Coordinator }.

Definition NewShardCoordinator (numOfShardsWithoutMeta currentShard : Z) : outcome shardCoordinator :=
  coord ← NewMultiShardCoordinator numOfShardsWithoutMeta currentShard;
  Ok (mkShardCoordinator coord).

Definition ComputeShardId (sc : shardCoordinator) (a : option address) : outcome Z :=
  match a with
  | None => Fail ErrNilAddress
  | Some a =>
    if Nat.eqb (length (AddressBytes a)) 0 then Fail ErrInvalidAddress
    else Ok (ComputeId (coordinator sc) (AddressBytes a))
  end.
End Sharding.

(** ** The base proxy *)

(** [time.Second] *)
Definition minimumCachingInterval : Z := 1000000000.

Record argsBaseProxy := mkArgsBaseProxy {
  arg_expirationTime : Z;
  arg_httpClientWrapper_nil : bool;
  arg_endpointProvider_nil : bool }.

Record baseProxy := mkBaseProxy {
  fetchedConfigs : option NetworkConfig;
  lastFetchedTime : gtime;
  cacheExpiryDuration : Z }.

Definition checkArgsBaseProxy (args : argsBaseProxy) : outcome () :=
  if arg_expirationTime args <? minimumCachingInterval then
    Fail (ErrWrap ErrInvalidCacherDuration ", provided: %v, minimum: %v")
  else if arg_httpClientWrapper_nil args then Fail ErrNilHTTPClientWrapper
  else if arg_endpointProvider_nil args then Fail ErrNilEndpointProvider
  else Ok ().

Definition newBaseProxy (args : argsBaseProxy) : outcome baseProxy :=
  checkArgsBaseProxy args ;; Ok (mkBaseProxy None (mkTime 0 0) (arg_expirationTime args)).

Section BaseProxy.
Context {W : Type} `{HttpClientWrapper W} `{Clock W} `{EndpointProvider} `{ApiJson}.
Abbreviation St := (baseProxy * W)%type.

Definition since (t : gtime) (w : W) : Z := time_Sub (time_Now w) t.

Definition getCachedConfigs : M St (option NetworkConfig) := gets (λ '(p, w),
  if cacheExpiryDuration p <? since (lastFetchedTime p) w then None else fetchedConfigs p).

Definition getNetworkConfigFromSource : M W (option NetworkConfig) :=
  getResponse json_NetworkConfigResponse ep_GetNetworkConfig.

Definition cacheConfigs : M St (option NetworkConfig) :=
  cachedConfig ← getCachedConfigs;
  match cachedConfig with
  | Some c => mret (Some c)
  | None =>
    configs ← onsnd getNetworkConfigFromSource;
    modify (λ '(p, w), (mkBaseProxy configs (time_Now w) (cacheExpiryDuration p), w)) ;;
    mret configs
  end.

Definition GetNetworkConfig : M St (option NetworkConfig) :=
  cachedConfigs ← getCachedConfigs;
  match cachedConfigs with
  | Some c => mret (Some c)
  | None => cacheConfigs
  end.

Definition GetShardOfAddress `{PubkeyConverter} `{ShardingCoordinator} (bech32Address : string) : M St Z :=
  addr ← lift (NewAddressFromBech32String bech32Address);
  networkConfigs ← GetNetworkConfig;
  networkConfigs ← deref networkConfigs;
  shardCoordinatorInstance ← lift (NewShardCoordinator (nc_NumShardsWithoutMeta networkConfigs) 0);
  lift (ComputeShardId shardCoordinatorInstance (Some addr)).

Definition checkReceivedNodeStatus (networkStatus : option NetworkStatus) (shardID : Z) : outcome () :=
  match networkStatus with
  | None => Fail (ErrWrap ErrNilNetworkStatus ", requested from %d")
  | Some networkStatus =>
    if negb ep_ShouldCheckShardIDForNodeStatus then Ok ()
    else if ns_ShardID networkStatus =? shardID then Ok ()
    else Fail (ErrWrap ErrShardIDMismatch ", requested from %d, got response from %d")
  end.

Definition getNetworkStatus (buff : bytes) (shardID : Z) : outcome (option NetworkStatus) :=
  response ← json_NetworkStatusResponse buff;
  status ← unwrapResponse response;
  checkReceivedNodeStatus status shardID ;;
  Ok status.

Definition getNodeStatus (buff : bytes) (shardID : Z) : outcome (option NetworkStatus) :=
  response ← json_NodeStatusResponse buff;
  status ← unwrapResponse response;
  checkReceivedNodeStatus status shardID ;;
  Ok status.

Definition GetNetworkStatus (shardID : Z) : M W (option NetworkStatus) :=
  let endpoint := ep_GetNodeStatus shardID in
  buff ← getBytes endpoint;
  match ep_GetRestAPIEntityType with
  | Proxy => lift (getNetworkStatus buff shardID)
  | ObserverNode => lift (getNodeStatus buff shardID)
  | OtherEntity _ => throw ErrInvalidEndpointProvider
  end.

Definition GetRestAPIEntityType : RestAPIEntityType := ep_GetRestAPIEntityType.

(** [fmt.Errorf] with [%w] and a nil error gives an error that wraps none. *)
Definition ProcessTransactionStatus (hexTxHash : string) : M W string := λ w,
  let endpoint := ep_GetProcessedTransactionStatus hexTxHash in
  let '((buff, code, err), w) := http_GetHTTP endpoint w in
  match checkHTTP (buff, code, err) with
  | Ok buff =>
    (response ← json_ProcessedTransactionStatus buff; unwrapResponse response, w)
  | _ =>
    let wrappedErr :=
      match err with
      | Some e => ErrWrap e ", please make sure you run the proxy version v1.1.38 or higher"
      | None => ErrText "%!w(<nil>), please make sure you run the proxy version v1.1.38 or higher"
      end in
    (Fail (createHTTPStatusError code (Some wrappedErr)), w)
  end.

#[export] Instance baseProxy_StatusProxy : StatusProxy W := {|
  sp_GetNetworkStatus := GetNetworkStatus;
  sp_GetRestAPIEntityType := GetRestAPIEntityType |}.
End BaseProxy.

(** ** The configuration cache *)

Section Cache.
Context {W : Type} `{HttpClientWrapper W} `{Clock W} `{EndpointProvider} `{ApiJson}.

Definition config_expired (p : baseProxy) (w : W) : Prop :=
  cacheExpiryDuration p < since (lastFetchedTime p) w ∨ fetchedConfigs p = None.

Lemma getCachedConfigs_expired p w : config_expired p w → getCachedConfigs (p, w) = (Ok None, (p, w)).
Proof.
  intros He. unfold getCachedConfigs, gets. destruct (Z.ltb_spec (cacheExpiryDuration p) (since (lastFetchedTime p) w)); [done|].
  destruct He as [|E]; [lia|]. by rewrite E.
Qed.

Lemma GetNetworkConfig_fetches p w :
  config_expired p w →
  GetNetworkConfig (p, w) =
  match getNetworkConfigFromSource w with
  | (Ok configs, w') => (Ok configs, (mkBaseProxy configs (time_Now w') (cacheExpiryDuration p), w'))
  | (Fail e, w') => (Fail e, (p, w'))
  | (Panic, w') => (Panic, (p, w'))
  end.
Proof.
  intros He. unfold GetNetworkConfig, cacheConfigs, mbind, M_bind, mret, M_ret, onsnd, modify.
  rewrite !(getCachedConfigs_expired _ _ He). by destruct (getNetworkConfigFromSource w) as [[c|e|] w'].
Qed.

Lemma GetNetworkConfig_cached p w c :
  fetchedConfigs p = Some c → since (lastFetchedTime p) w ≤ cacheExpiryDuration p →
  GetNetworkConfig (p, w) = (Ok (Some c), (p, w)).
Proof.
  intros Ec Ht. unfold GetNetworkConfig, getCachedConfigs, gets, mbind, M_bind, mret, M_ret.
  destruct (Z.ltb_spec (cacheExpiryDuration p) (since (lastFetchedTime p) w)); [lia|]. by rewrite Ec.
Qed.

(** the network configuration is fetched once per expiry interval: a call
    that finds no valid configuration makes one request; what it fetches is
    then returned by every later call that comes within the expiry duration,
    without a request and without a change of the proxy, and the first call
    after it fetches again.  A failed fetch leaves the proxy as it was. *)
Theorem GetNetworkConfig_caches p w :
  config_expired p w →
  (∀ c w1, getNetworkConfigFromSource w = (Ok (Some c), w1) →
     ∃ p1, GetNetworkConfig (p, w) = (Ok (Some c), (p1, w1)) ∧
       ∀ w2, let age := time_Sub (time_Now w2) (time_Now w1) in
         (age ≤ cacheExpiryDuration p → GetNetworkConfig (p1, w2) = (Ok (Some c), (p1, w2))) ∧
         (cacheExpiryDuration p < age →
            (GetNetworkConfig (p1, w2)).1 = (getNetworkConfigFromSource w2).1 ∧
            (GetNetworkConfig (p1, w2)).2.2 = (getNetworkConfigFromSource w2).2)) ∧
  (∀ e w1, getNetworkConfigFromSource w = (Fail e, w1) → GetNetworkConfig (p, w) = (Fail e, (p, w1))).
Proof.
  intros He. split.
  - intros c w1 E. exists (mkBaseProxy (Some c) (time_Now w1) (cacheExpiryDuration p)).
    split; [by rewrite GetNetworkConfig_fetches, E|]. intros w2 age. split; intros Ha.
    + by apply GetNetworkConfig_cached.
    + rewrite GetNetworkConfig_fetches by (left; exact Ha).
      by destruct (getNetworkConfigFromSource w2) as [[c'|e|] w3].
  - intros e w1 E. by rewrite GetNetworkConfig_fetches, E.
Qed.

(** ** The status of a shard *)

(** a status answered by [GetNetworkStatus] is never nil, and when it comes
    from an observer node it is the status of the shard that was asked for. *)
Theorem GetNetworkStatus_checked shardID w st w' :
  GetNetworkStatus shardID w = (Ok st, w') →
  ∃ s, st = Some s ∧ (ep_ShouldCheckShardIDForNodeStatus = true → ns_ShardID s = shardID).
Proof.
  assert (Hc : ∀ o, checkReceivedNodeStatus o shardID = Ok () →
            ∃ s, o = Some s ∧ (ep_ShouldCheckShardIDForNodeStatus = true → ns_ShardID s = shardID)).
  { intros [s|]; cbn; [|done]. intros Hs. exists s. split; [done|]. intros Ht. rewrite Ht in Hs. cbn in Hs.
    by destruct (Z.eqb_spec (ns_ShardID s) shardID). }
  unfold GetNetworkStatus, getNetworkStatus, getNodeStatus, lift, throw, mbind, M_bind, outcome_bind.
  destruct (getBytes _ w) as [[b|e|] w1]; [|done..].
  destruct ep_GetRestAPIEntityType; [| |done];
    [destruct (json_NodeStatusResponse b) as [r|e|]|destruct (json_NetworkStatusResponse b) as [r|e|]]; try done;
    destruct (unwrapResponse r) as [o|e|]; try done;
    destruct (checkReceivedNodeStatus o shardID) as [[]|e|] eqn:E; try done; intros [= <- <-]; by apply Hc.
Qed.

Lemma GetNetworkStatus_not_nil shardID w w' : GetNetworkStatus shardID w ≠ (Ok None, w').
Proof.
  unfold GetNetworkStatus, getNetworkStatus, getNodeStatus, checkReceivedNodeStatus, lift, throw, mbind, M_bind, outcome_bind.
  destruct (getBytes _ w) as [[b|e|] w1]; [|done..].
  destruct ep_GetRestAPIEntityType; [| |done];
    [destruct (json_NodeStatusResponse b) as [r|e|]|destruct (json_NetworkStatusResponse b) as [r|e|]]; try done;
    destruct (unwrapResponse r) as [[o|]|e|]; try done; repeat case_match; congruence.
Qed.

Section Safe.
Hypothesis json_NodeStatus_no_panic : ∀ b, json_NodeStatusResponse b ≠ Panic.
Hypothesis json_NetworkStatus_no_panic : ∀ b, json_NetworkStatusResponse b ≠ Panic.

Lemma GetNetworkStatus_no_panic shardID : no_panic (GetNetworkStatus shardID).
Proof.
  intros w. unfold GetNetworkStatus, getNetworkStatus, getNodeStatus, getBytes, checkHTTP, unwrapResponse,
    checkReceivedNodeStatus, lift, throw, mbind, M_bind, outcome_bind.
  destruct (http_GetHTTP _ w) as [[[buff code] [e|]] w1]; [done|]. destruct (code =? StatusOK); [|done].
  pose proof (json_NodeStatus_no_panic buff). pose proof (json_NetworkStatus_no_panic buff). by repeat case_match.
Qed.

Lemma status_deref_no_panic {A} shardID (f : NetworkStatus → M W A) :
  (∀ st, no_panic (f st)) → no_panic (o ← sp_GetNetworkStatus shardID; st ← deref o; f st).
Proof.
  apply no_panic_deref; [apply GetNetworkStatus_no_panic|]. intros w w'. apply GetNetworkStatus_not_nil.
Qed.

(** the finality checks built on a base proxy never dereference a nil status:
    whatever the network answers, they return an error or nil. *)
Theorem CheckShardFinalization_safe (fp : FinalityProvider W) checkFinality shard delta :
  CreateFinalityProvider checkFinality = Ok fp → no_panic (fp_CheckShardFinalization shard delta).
Proof.
  unfold CreateFinalityProvider. destruct checkFinality; cbn [negb]; [|intros [= <-]; apply no_panic_ret].
  destruct sp_GetRestAPIEntityType; [| |done]; intros [= <-]; cbn [fp_CheckShardFinalization].
  - unfold node_CheckShardFinalization, getNonces. apply no_panic_if; [apply no_panic_throw|].
    apply no_panic_bind; [apply status_deref_no_panic|]; auto with panic.
  - unfold proxy_CheckShardFinalization, getNoncesFromMetaAndShard.
    do 2 (apply no_panic_if; [auto with panic|]). apply no_panic_bind; [|intros []; auto with panic].
    apply status_deref_no_panic. intros st. apply no_panic_bind; [apply no_panic_lift, extract_no_panic|].
    intros m. apply status_deref_no_panic. auto with panic.
Qed.
End Safe.

(** ** The error for a bad status code *)

(** a request answered with a status other than 200 and no transport error
    fails with an error that wraps [ErrHTTPStatusCodeIsNotOK], but not in
    [ProcessTransactionStatus], which wraps the nil error instead and loses
    the sentinel. *)
Theorem ProcessTransactionStatus_loses_sentinel hash w buff code w' :
  http_GetHTTP (ep_GetProcessedTransactionStatus hash) w = ((buff, code, None), w') →
  code ≠ StatusOK →
  (∃ e, getBytes (ep_GetProcessedTransactionStatus hash) w = (Fail e, w') ∧
        errors_Is e ErrHTTPStatusCodeIsNotOK = true) ∧
  (∃ e, ProcessTransactionStatus hash w = (Fail e, w') ∧ errors_Is e ErrHTTPStatusCodeIsNotOK = false).
Proof.
  intros E Hc%Z.eqb_neq. unfold getBytes, ProcessTransactionStatus, checkHTTP. rewrite E, Hc.
  split; by eexists.
Qed.
End Cache.

(** ** Concrete runs: a table of pages, one second per request *)

Definition web_clock : Clock web := {| time_Now w := time_Unix (Z.of_nat (length (web_log w))) |}.

Definition somePages : web := mkWeb
  [ ("network/config", (bytes_of_string "3", 200, None));
    ("node/status", (bytes_of_string "77", 200, None));
    ("transaction/ab/process-status", ([], 404, None)) ] [].

Module BaseRun.
#[local] Existing Instance web_client.
#[local] Existing Instance web_clock.
#[local] Existing Instance nodeEndpointProvider.
#[local] Existing Instance wordsJson.

Definition fresh_proxy : baseProxy := mkBaseProxy None (mkTime 0 0) (10 * 10 ^ 9).
Definition after_get (endpoint : string) (w : web) : web := mkWeb (web_pages w) (web_log w ++ [(endpoint, [])]).

Lemma GetNetworkConfig_caches_witness :
  let w1 := after_get "network/config" somePages in
  let c := simpleConfig "T" 1500 50000 1000 1 3 in
  ∃ p1, GetNetworkConfig (fresh_proxy, somePages) = (Ok (Some c), (p1, w1)) ∧
       ∀ w2, let age := time_Sub (time_Now w2) (time_Now w1) in
         (age ≤ cacheExpiryDuration fresh_proxy → GetNetworkConfig (p1, w2) = (Ok (Some c), (p1, w2))) ∧
         (cacheExpiryDuration fresh_proxy < age →
            (GetNetworkConfig (p1, w2)).1 = (getNetworkConfigFromSource w2).1 ∧
            (GetNetworkConfig (p1, w2)).2.2 = (getNetworkConfigFromSource w2).2).
Proof.
  refine (proj1 (GetNetworkConfig_caches fresh_proxy somePages _) _ _ _).
  - right. reflexivity.
  - vm_compute. reflexivity.
Defined.

Lemma GetNetworkStatus_checked_witness :
  ∃ s, Some (simpleStatus 77 77 77 "" 0) = Some s ∧ (ep_ShouldCheckShardIDForNodeStatus = true → ns_ShardID s = 0).
Proof.
  apply (GetNetworkStatus_checked 0 somePages _ (after_get "node/status" somePages)). vm_compute. reflexivity.
Defined.

Lemma CheckShardFinalization_safe_witness :
  no_panic (S := web) (node_CheckShardFinalization 0 1).
Proof.
  refine (CheckShardFinalization_safe _ _ {| fp_CheckShardFinalization := node_CheckShardFinalization |} true 0 1 _).
  - intros b. apply read_number_no_panic.
  - intros b. apply read_number_no_panic.
  - reflexivity.
Defined.

Lemma ProcessTransactionStatus_loses_sentinel_witness :
  let w' := after_get "transaction/ab/process-status" somePages in
  (∃ e, getBytes (ep_GetProcessedTransactionStatus "ab") somePages = (Fail e, w') ∧
        errors_Is e ErrHTTPStatusCodeIsNotOK = true) ∧
  (∃ e, ProcessTransactionStatus "ab" somePages = (Fail e, w') ∧ errors_Is e ErrHTTPStatusCodeIsNotOK = false).
Proof.
  apply (ProcessTransactionStatus_loses_sentinel "ab" somePages [] 404); [vm_compute; reflexivity|discriminate].
Defined.
End BaseRun.
