(* ===== verification/AddressGenerator.v ===== *)
(** * Addresses computed with the node's rules ([blockchain/addressGenerator.go])

    The rules are those of the blockchain hook of mx-chain-go and the hasher is
    its keccak: both are parameters, with the documented form of a new contract
    address as the law of the hook. *)

From S2P Require Export BaseProxy.

(** ** The node's libraries *)

Class BlockChainHooks := {
  BlockChainHook : Type;
  hooks_NewBlockChainHookImpl : outcome BlockChainHook;
  hook_NewAddress : BlockChainHook → bytes → Z → bytes → outcome bytes;
  WasmVirtualMachine : bytes;
  keccak_Compute : string → bytes }.

(** A new address has the length of its creator's and, so that a contract lives
    in the shard of its creator, ends in the same two bytes. *)
Class BlockChainHooksLaws `{BlockChainHooks} := {
  NewAddress_form hook creator nonce vm a : hook_NewAddress hook creator nonce vm = Ok a →
    length a = length creator ∧ drop (length a - 2) a = drop (length creator - 2) creator;
  keccak_length s : length (keccak_Compute s) = 32%nat }.

(** ** [addressGenerator.go] *)

Definition accountStartNonce : Z := 0.

Definition initialDNSAddress : bytes := replicate 32 x01.

(** [mxChainCore.ShardIdentiferLen] *)
Definition ShardIdentiferLen : nat := 2.

Section AddressGenerator.
Context `{ShardingCoordinator} `{BlockChainHooks}.

Record addressGenerator := mkGenerator {
  ag_coordinator : shardCoordinator;
  ag_blockChainHook : BlockChainHook }.

Definition NewAddressGenerator (coordinator : option shardCoordinator) : outcome addressGenerator :=
  match coordinator with
  | None => Fail ErrNilShardCoordinator
  | Some coordinator => blockchainHook ← hooks_NewBlockChainHookImpl; Ok (mkGenerator coordinator blockchainHook)
  end.

Definition CompatibleDNSAddress (ag : addressGenerator) (shardId : byte) : outcome address :=
  let addressLen := length initialDNSAddress in
  let shardInBytes := [x00; shardId] in
  let newDNSPk := take (addressLen - ShardIdentiferLen) initialDNSAddress ++ shardInBytes in
  newDNSAddress ← hook_NewAddress (ag_blockChainHook ag) newDNSPk accountStartNonce WasmVirtualMachine;
  Ok (NewAddressFromBytes newDNSAddress).

(** The index of the last byte is out of range for an empty hash. *)
Definition CompatibleDNSAddressFromUsername (ag : addressGenerator) (username : string) : outcome address :=
  match last (keccak_Compute username) with
  | Some lastByte => CompatibleDNSAddress ag lastByte
  | None => Panic
  end.

Definition ComputeWasmVMScAddress (ag : addressGenerator) (addr : option address) (nonce : Z) : outcome address :=
  match addr with
  | None => Fail ErrNilAddress
  | Some a =>
    scAddressBytes ← hook_NewAddress (ag_blockChainHook ag) (AddressBytes a) nonce WasmVirtualMachine;
    Ok (NewAddressFromBytes scAddressBytes)
  end.

Section Theorems.
Context `{!BlockChainHooksLaws}.

Lemma CompatibleDNSAddress_form ag shardId a : CompatibleDNSAddress ag shardId = Ok a →
  IsValid a = true ∧ drop 30 (AddressBytes a) = [x00; shardId].
Proof.
  unfold CompatibleDNSAddress. destruct (hook_NewAddress _ _ _ _) as [b| |] eqn:E; [|done..].
  intros [= <-]. apply NewAddress_form in E as [Hl Hd]. cbn in Hl, Hd. unfold IsValid. cbn.
  rewrite Hl in Hd |- *. done.
Qed.

(** A username has an answer as soon as the hook has one for every shard. *)
Lemma CompatibleDNSAddressFromUsername_byte ag username :
  ∃ b, last (keccak_Compute username) = Some b ∧
       CompatibleDNSAddressFromUsername ag username = CompatibleDNSAddress ag b.
Proof.
  unfold CompatibleDNSAddressFromUsername. pose proof (keccak_length username) as Hl.
  destruct (last (keccak_Compute username)) as [b|] eqn:E; [by eauto|].
  apply last_None in E. by rewrite E in Hl.
Qed.

(** The names are spread over 256 contracts: the DNS address of a username is
    a valid address that ends in a zero byte and the last byte of the hash of the
    name, so that two names share a contract exactly when their hashes end in the
    same byte. *)
Theorem DNS_address_of_username (ag : addressGenerator) (username username' : string) (a a' : address) :
  CompatibleDNSAddressFromUsername ag username = Ok a →
  CompatibleDNSAddressFromUsername ag username' = Ok a' →
  IsValid a = true ∧ Some (drop 30 (AddressBytes a)) = (λ b, [x00; b]) <$> last (keccak_Compute username) ∧
  (a = a' ↔ last (keccak_Compute username) = last (keccak_Compute username')).
Proof.
  destruct (CompatibleDNSAddressFromUsername_byte ag username) as (b & Hb & ->).
  destruct (CompatibleDNSAddressFromUsername_byte ag username') as (b' & Hb' & ->).
  intros Ha Ha'. pose proof (CompatibleDNSAddress_form _ _ _ Ha) as [Hv Hd].
  pose proof (CompatibleDNSAddress_form _ _ _ Ha') as [_ Hd'].
  rewrite Hb, Hb', Hd. split_and!; [done..|]. split.
  - intros <-. congruence.
  - intros [= <-]. congruence.
Qed.

Lemma ComputeWasmVMScAddress_shard ag owner nonce a : ComputeWasmVMScAddress ag (Some owner) nonce = Ok a →
  length (AddressBytes a) = length (AddressBytes owner) ∧
  drop (length (AddressBytes a) - 2) (AddressBytes a) = drop (length (AddressBytes owner) - 2) (AddressBytes owner).
Proof.
  unfold ComputeWasmVMScAddress. destruct (hook_NewAddress _ _ _ _) as [b| |] eqn:E; [|done..].
  intros [= <-]. by apply NewAddress_form in E.
Qed.
End Theorems.
End AddressGenerator.

(** ** Concrete runs *)

Module GeneratorRun.

(** One shard, a hook that keeps the shard bytes, a hash that ends in the first
    byte of the name. *)
#[local] Instance toy_sharding : ShardingCoordinator := {|
  Coordinator := (); NewMultiShardCoordinator _ _ := Ok (); ComputeId _ _ := 0 |}.
#[local] Instance toy_hooks : BlockChainHooks := {|
  BlockChainHook := ();
  hooks_NewBlockChainHookImpl := Ok ();
  hook_NewAddress _ creator nonce vm := Ok (replicate (length creator - 2) x00 ++ drop (length creator - 2) creator);
  WasmVirtualMachine := [x05; x00];
  keccak_Compute s := replicate 31 x00 ++ [default x00 (head (bytes_of_string s))] |}.

#[local] Instance toy_hooks_laws : BlockChainHooksLaws.
Proof.
  split; cbn.
  - intros _ creator _ _ a [= <-].
    assert (Hl : length (replicate (length creator - 2) x00 ++ drop (length creator - 2) creator) = length creator)
      by (rewrite length_app, length_replicate, length_drop; lia).
    split; [done|]. rewrite Hl. by rewrite drop_app_length' by (by rewrite length_replicate).
  - done.
Qed.

Definition ag : addressGenerator := mkGenerator (mkShardCoordinator ()) ().
Definition dns (b : byte) : address := mkAddress (replicate 31 x00 ++ [b]).

Lemma DNS_address_of_username_witness :
  CompatibleDNSAddressFromUsername ag "alice" = Ok (dns x61) ∧
  (dns x61 = dns x62 ↔ last (keccak_Compute "alice") = last (keccak_Compute "bob")).
Proof.
  split; [reflexivity|].
  apply (DNS_address_of_username ag "alice" "bob" (dns x61) (dns x62)); reflexivity.
Defined.
End GeneratorRun.
