(* ===== verification/Api.v ===== *)
(** * URLs with query options ([core/api.go])

    [net/url]: a relative URL made of a path and of query values. *)

From stdpp Require Export sorting.
From S2P Require Export GoStd.

(** ** [net/url] *)

(** The characters a path keeps; the others are written [%XX]. *)
Definition path_char (c : ascii) : bool :=
  let n := N_of_ascii c in
  is_digit c || ((65 <=? n)%N && (n <=? 90)%N) || ((97 <=? n)%N && (n <=? 122)%N)
  || existsb (Ascii.eqb c) ["-"; "_"; "."; "~"; "$"; "&"; "+"; ","; "/"; ":"; ";"; "="; "@"]%char.

Fixpoint path_escape (s : string) : string :=
  match s with
  | EmptyString => EmptyString
  | String c s =>
    if path_char c then String c (path_escape s)
    else "%" +:+ strings_ToUpper (hex_EncodeToString [byte_of_ascii c]) +:+ path_escape s
  end.


Definition EscapedPath (path : string) : string := if String.eqb path "*" then "*" else path_escape path.

(** Query values: the last value set for each key. *)
Abbreviation url_Values := (gmap string string).

Definition key_le (a b : string * string) : Prop := String.leb a.1 b.1 = true.
#[export] Instance key_le_dec : RelDecision key_le.
Proof. intros a b. unfold key_le. apply _. Defined.

(** [Values.Encode]: sorted by key; nothing below needs escaping. *)
Definition Encode (query : url_Values) : string :=
  strings_Join "&" (map (λ kv, kv.1 +:+ "=" +:+ kv.2) (merge_sort key_le (map_to_list query))).

Definition url_String (path rawQuery : string) : string :=
  let path := EscapedPath path in
  let segment := default "" (head (strings_Split "/" path)) in
  (if strings_Contains segment ":" then "./" else "") +:+ path +:+
  (if String.eqb rawQuery "" then "" else "?" +:+ rawQuery).

(** ** [BuildUrlWithAccountQueryOptions] *)

Definition UrlParameterOnFinalBlock : string := "onFinalBlock".
Definition UrlParameterOnStartOfEpoch : string := "onStartOfEpoch".
Definition UrlParameterBlockNonce : string := "blockNonce".
Definition UrlParameterBlockHash : string := "blockHash".
Definition UrlParameterBlockRootHash : string := "blockRootHash".
Definition UrlParameterHintEpoch : string := "hintEpoch".

(** [api.AccountQueryOptions]; an optional number without a value is [None]. *)
Record AccountQueryOptions := mkQueryOptions {
  OnFinalBlock : bool;
  OnStartOfEpoch : option Z;
  BlockNonce : option Z;
  BlockHash : bytes;
  BlockRootHash : bytes;
  HintEpoch : option Z }.

Definition noOptions : AccountQueryOptions := mkQueryOptions false None None [] [] None.

Definition set_opt {A} (key : string) (o : option A) (f : A → string) (query : url_Values) : url_Values :=
  match o with Some a => <[key := f a]> query | None => query end.

Definition set_hash (key : string) (b : bytes) (query : url_Values) : url_Values :=
  if Nat.ltb 0 (length b) then <[key := hex_EncodeToString b]> query else query.

Definition accountQuery (options : AccountQueryOptions) : url_Values :=
  let query := ∅ in
  let query := if OnFinalBlock options then <[UrlParameterOnFinalBlock := "true"]> query else query in
  let query := set_opt UrlParameterOnStartOfEpoch (OnStartOfEpoch options) itoa query in
  let query := set_opt UrlParameterBlockNonce (BlockNonce options) itoa query in
  let query := set_hash UrlParameterBlockHash (BlockHash options) query in
  let query := set_hash UrlParameterBlockRootHash (BlockRootHash options) query in
  set_opt UrlParameterHintEpoch (HintEpoch options) itoa query.

Definition BuildUrlWithAccountQueryOptions (path : string) (options : AccountQueryOptions) : string :=
  url_String path (Encode (accountQuery options)).

Example build_url :
  BuildUrlWithAccountQueryOptions "/address/erd1alice"
    (mkQueryOptions true (Some 4) None [x01; xab] [] (Some 7))
  = "/address/erd1alice?blockHash=01ab&hintEpoch=7&onFinalBlock=true&onStartOfEpoch=4".
Proof. vm_compute. reflexivity. Qed.

(** ** The query is read back *)

(** [url.ParseQuery] of a query without escapes: pairs of one key and one value. *)
Definition parse_pair (s : string) : string * string :=
  match strings_Split "=" s with [k; v] => (k, v) | _ => (s, "") end.
Definition parse_query (s : string) : url_Values :=
  if String.eqb s "" then ∅ else list_to_map (map parse_pair (strings_Split "&" s)).

Definition clean (s : string) : Prop := lacks "&" s ∧ lacks "=" s.

Lemma parse_pair_print kv : clean kv.1 → clean kv.2 → parse_pair (kv.1 +:+ "=" +:+ kv.2) = kv.
Proof.
  destruct kv as [k v]. intros [_ Hk] [_ Hv]. cbn [fst snd] in *. unfold parse_pair.
  rewrite strings_Split_sep by done. by rewrite strings_Split_lacks.
Qed.

Lemma Join_nonempty_head sep c s l : strings_Join sep (String c s :: l) ≠ "".
Proof. by destruct l. Qed.

Lemma parse_query_Encode (q : url_Values) :
  (∀ k v, q !! k = Some v → clean k ∧ clean v) → parse_query (Encode q) = q.
Proof.
  intros Hq. unfold parse_query, Encode.
  pose proof (merge_sort_Permutation key_le (map_to_list q)) as Hp.
  set (l := merge_sort key_le (map_to_list q)) in *.
  assert (Hl : Forall (λ kv, clean kv.1 ∧ clean kv.2) l).
  { apply Forall_forall. intros [k v] Hin. apply Hq. apply elem_of_map_to_list. by rewrite <-Hp. }
  assert (Em : list_to_map l = q).
  { rewrite <-(list_to_map_to_list q). apply list_to_map_proper; [|done].
    rewrite Hp. apply NoDup_fst_map_to_list. }
  destruct l as [|e l]; [done|].
  assert (strings_Join "&" (map (λ kv, kv.1 +:+ "=" +:+ kv.2) (e :: l)) ≠ "") as Hn%String.eqb_neq.
  { destruct e as [[|c k] v]; apply Join_nonempty_head. }
  rewrite Hn, strings_Split_Join.
  - rewrite List.map_map, <-Em. f_equal. rewrite <-(List.map_id (e :: l)) at 2. apply List.map_ext_in.
    intros kv Hin%list_elem_of_In. rewrite Forall_forall in Hl. apply parse_pair_print; by apply Hl.
  - done.
  - apply Forall_forall. intros s Hin%list_elem_of_fmap. destruct Hin as (kv & -> & Hin).
    rewrite Forall_forall in Hl. destruct (Hl _ Hin) as [[H1 _] [H2 _]].
    by rewrite !string_forallb_app, H1, H2.
Qed.

Lemma itoa_clean z : clean (itoa z).
Proof. split; (eapply string_forallb_impl, itoa_chars; intros x Hx; cbn in Hx; destruct x as [[] [] [] [] [] [] [] []]; done). Qed.

Lemma hex_clean b : clean (hex_EncodeToString b).
Proof. split; (apply hex_chars_lack; [done|apply hex_Encode_chars]). Qed.

Lemma set_opt_lookup {A} k k' (o : option A) f (q : url_Values) :
  set_opt k o f q !! k' = if String.eqb k k' then match o with Some a => Some (f a) | None => q !! k' end else q !! k'.
Proof.
  unfold set_opt. destruct (String.eqb_spec k k') as [<-|]; destruct o; try done;
    [by apply lookup_insert_eq|by apply lookup_insert_ne].
Qed.

Lemma set_hash_lookup k k' b (q : url_Values) :
  set_hash k b q !! k' = if String.eqb k k' && Nat.ltb 0 (length b) then Some (hex_EncodeToString b) else q !! k'.
Proof.
  unfold set_hash. destruct (String.eqb_spec k k') as [<-|]; destruct (Nat.ltb 0 (length b)); try done;
    [by apply lookup_insert_eq|by apply lookup_insert_ne].
Qed.

(** every account query option that is set reaches the URL: parsing the query
    part gives exactly the options set, each under its own name, with numbers in
    decimal and hashes in hexadecimal. *)
Theorem account_query_roundtrip (options : AccountQueryOptions) :
  let q := parse_query (Encode (accountQuery options)) in
  q !! UrlParameterOnFinalBlock = (if OnFinalBlock options then Some "true" else None) ∧
  q !! UrlParameterOnStartOfEpoch = itoa <$> OnStartOfEpoch options ∧
  q !! UrlParameterBlockNonce = itoa <$> BlockNonce options ∧
  q !! UrlParameterBlockHash =
    (if Nat.ltb 0 (length (BlockHash options)) then Some (hex_EncodeToString (BlockHash options)) else None) ∧
  q !! UrlParameterBlockRootHash =
    (if Nat.ltb 0 (length (BlockRootHash options)) then Some (hex_EncodeToString (BlockRootHash options)) else None) ∧
  q !! UrlParameterHintEpoch = itoa <$> HintEpoch options.
Proof.
  cbv zeta. rewrite parse_query_Encode.
  - unfold accountQuery.
    assert (Hf : ∀ k, (if OnFinalBlock options then <[UrlParameterOnFinalBlock := "true"]> (∅ : url_Values) else ∅) !! k
              = if String.eqb UrlParameterOnFinalBlock k && OnFinalBlock options then Some "true" else None).
    { intros k. destruct (OnFinalBlock options); [|by rewrite andb_false_r].
      destruct (String.eqb_spec UrlParameterOnFinalBlock k) as [<-|]; [by rewrite lookup_insert_eq|by rewrite lookup_insert_ne]. }
    rewrite !set_opt_lookup, !set_hash_lookup, !set_opt_lookup, !Hf.
    cbv [String.eqb Ascii.eqb Bool.eqb andb UrlParameterOnFinalBlock UrlParameterOnStartOfEpoch UrlParameterBlockNonce
         UrlParameterBlockHash UrlParameterBlockRootHash UrlParameterHintEpoch].
    repeat split; by repeat case_match.
  - intros k v. unfold accountQuery, set_opt, set_hash. pose proof itoa_clean. pose proof hex_clean.
    assert (Hi : ∀ (q : url_Values) k' v', clean k' → clean v' → (q !! k = Some v → clean k ∧ clean v) →
      <[k' := v']> q !! k = Some v → clean k ∧ clean v).
    { intros q k' v' H1 H2 Hq [[<- <-]|[_ E]]%lookup_insert_Some; [done|by apply Hq]. }
    destruct (HintEpoch options), (Nat.ltb 0 (length (BlockRootHash options))), (Nat.ltb 0 (length (BlockHash options))),
      (BlockNonce options), (OnStartOfEpoch options), (OnFinalBlock options);
    repeat (apply Hi; [by vm_compute|auto; by vm_compute|]); by rewrite lookup_empty.
Qed.
