(* ===== verification/Proxy.v ===== *)
(** * The blockchain proxy ([blockchain/proxy.go])

    The client of the gateway's REST interface: getters, the submission of
    transactions and the log filter with its cache of blocks.  The state of a
    call is the block cache [C], the base proxy and the world [W]; the fixed
    settings are the record [proxy]. *)

From stdpp Require Export sorting.
From S2P Require Export BaseProxy Api Storage.

Definition withResultsQueryParam : string := "?withResults=true".
Definition withTxsAndLogs : string := "?withTxs=true&withLogs=true".
(** A variable of the package that nothing assigns. *)
Definition MaximumBlocksDelta : Z := 500.

Record ArgsProxy := mkArgsProxy {
  arg_SameScState : bool;
  arg_ShouldBeSynced : bool;
  arg_FinalityCheck : bool;
  arg_AllowedDeltaToFinal : Z;
  arg_CacheExpirationTime : Z;
  arg_EntityType : RestAPIEntityType }.

Record proxy := mkProxy {
  sameScState : bool;
  shouldBeSynced : bool;
  finalityCheck : bool;
  allowedDeltaToFinal : Z }.

Definition checkArgsProxy (args : ArgsProxy) : outcome () :=
  if arg_FinalityCheck args then
    if arg_AllowedDeltaToFinal args <? MinAllowedDeltaToFinal then
      Fail (ErrWrap ErrInvalidAllowedDeltaToFinal ", provided: %d, minimum: %d")
    else Ok ()
  else Ok ().

(** [NewProxy]: the routes, the base proxy, the finality provider (for the world
    behind a client wrapper [hw]) and the settings.  A nil block cache is
    replaced by [DisabledBlockDataCache]. *)
Definition NewProxy {W} `{ApiJson} (hw : HttpClientWrapper W) (args : ArgsProxy) :
  outcome (EndpointProvider * baseProxy * FinalityProvider W * proxy) :=
  checkArgsProxy args ;;
  endpointProvider ← CreateEndpointProvider (arg_EntityType args);
  baseProxyInstance ← newBaseProxy (mkArgsBaseProxy (arg_CacheExpirationTime args) false false);
  finalityProvider ← @CreateFinalityProvider W baseProxy_StatusProxy (arg_FinalityCheck args);
  Ok (endpointProvider, baseProxyInstance, finalityProvider,
      mkProxy (arg_SameScState args) (arg_ShouldBeSynced args) (arg_FinalityCheck args) (arg_AllowedDeltaToFinal args)).

(** A value of the block cache: bytes, or something else. *)
Inductive blockData := BBytes (b : bytes) | BOther.

(** [DisabledBlockDataCache] *)
Definition disabled_Get (_ : bytes) (_ : ()) : option blockData := None.
Definition disabled_Put (_ : bytes) (_ : blockData) (_ : Z) (_ : ()) : () * bool := ((), false).
Definition DisabledBlockDataCache : Cacher blockData () := {|
  cacher_Get := disabled_Get;
  cacher_Put := disabled_Put |}.

(** [core.FilterQuery]; a nil hash is [None]. *)
Record FilterQuery := mkFilter {
  f_BlockHash : option bytes;
  f_FromBlock : option Z;
  f_ToBlock : option Z;
  f_Addresses : list string;
  f_ShardID : option Z;
  f_Topics : list bytes }.

(** ** The pure part of the log filter *)

Fixpoint contains_loop (addresses : list string) (address : string) : bool :=
  match addresses with
  | [] => false
  | a :: addresses => if String.eqb a address then true else contains_loop addresses address
  end.

Definition contains (addresses : list string) (address : string) : bool :=
  if Nat.eqb (length addresses) 0 then true else contains_loop addresses address.

(** The loop of [topicsMatch]; [eventTopics] is indexed by the loop counter. *)
Fixpoint topics_loop (filterTopics eventTopics : list bytes) (i : nat) : bool :=
  match filterTopics with
  | [] => true
  | filterTopic :: filterTopics =>
    match eventTopics !! i with
    | Some t => if negb (bool_decide (filterTopic = t)) then false else topics_loop filterTopics eventTopics (S i)
    | None => false
    end
  end.

Definition topicsMatch (filterTopics eventTopics : list bytes) : bool :=
  if Nat.ltb (length eventTopics) (length filterTopics) then false
  else topics_loop filterTopics eventTopics 0.

Definition matchesFilter (filter : FilterQuery) (event : Events) : bool :=
  if negb (contains (f_Addresses filter) (ev_Address event)) then false
  else if Nat.ltb 0 (length (f_Topics filter)) && negb (topicsMatch (f_Topics filter) (ev_Topics event)) then false
  else true.

(** The three nested loops, appending to [matchingEvents]. *)
Definition extractMatchingEvents (block : apiBlock) (filter : FilterQuery) : list Events :=
  foldl (λ matchingEvents miniblock,
    foldl (λ matchingEvents tx,
      match tx with
      | None => matchingEvents
      | Some events =>
        foldl (λ matchingEvents event,
          if matchesFilter filter event then matchingEvents ++ [event] else matchingEvents) matchingEvents events
      end) matchingEvents miniblock) [] (bl_MiniBlocks block).

Definition resolveBlockRange (filter : FilterQuery) (latestBlock : Z) : outcome (Z * Z) :=
  let genesisBlock := 0 in
  let tooMany := ErrText "invalid block range: too many blocks to process" in
  match f_FromBlock filter, f_ToBlock filter with
  | from, Some to =>
    if latestBlock <? to then Fail (ErrText "toBlock is greater than the latest block")
    else
      match from with
      | Some from => if u64 (to - from) <=? MaximumBlocksDelta then Ok (from, to) else Fail tooMany
      | None => let fromBlock := genesisBlock in
                if u64 (to - fromBlock) <=? MaximumBlocksDelta then Ok (fromBlock, to) else Fail tooMany
      end
  | Some from, None =>
    let toBlock := latestBlock in
    if u64 (toBlock - from) <=? MaximumBlocksDelta then Ok (from, toBlock) else Fail tooMany
  | None, None => Fail (ErrText "no block range specified")
  end.

(** [binary.BigEndian.PutUint64] *)
Definition cacheKeyOf (nonce : Z) : bytes := be_of_Z 8 nonce.

(** ** The methods *)

Section Proxy.
Context {C W : Type} `{HttpClientWrapper W} `{Clock W} `{EndpointProvider} `{ApiJson} `{FinalityProvider W}
  `{PubkeyConverter} `{ShardingCoordinator} `{Cacher blockData C} `{MapRangeZ string}.
Variable ep : proxy.

(** The base proxy and the world; the block cache in front of them. *)
Abbreviation St := (baseProxy * W)%type.
Abbreviation CSt := (C * (baseProxy * W))%type.

Definition checkFinalState (address : string) : M St () :=
  if negb (finalityCheck ep) then mret ()
  else
    targetShardID ← GetShardOfAddress address;
    onsnd (fp_CheckShardFinalization targetShardID (u64 (allowedDeltaToFinal ep))).

(** The request pointer may be nil; a nil [Data] stays nil in the result. *)
Definition ExecuteVMQuery (vmRequest : option VmValueRequest) : M St (option VMOutputApi) :=
  vmRequest ← deref vmRequest;
  checkFinalState (vvr_Address vmRequest) ;;
  jsonVMRequest ← lift (json_Marshal_VmRequest (mkVmRequestOpt vmRequest (sameScState ep) (shouldBeSynced ep)));
  onsnd (postResponse json_ResponseVmValue ep_GetVmValues jsonVMRequest).

Definition GetNetworkEconomics : M W (option NetworkEconomics) :=
  getResponse json_NetworkEconomicsResponse ep_GetNetworkEconomics.

(** The address checks of the account getters. *)
Definition validBech32 (a : option address) : outcome string :=
  match a with
  | None => Fail ErrNilAddress
  | Some a => if negb (IsValid a) then Fail ErrInvalidAddress else AddressAsBech32String a
  end.

Definition GetAccount (a : option address) : M St (option Account) :=
  addressAsBech32 ← lift (validBech32 a);
  checkFinalState addressAsBech32 ;;
  onsnd (getResponse json_AccountResponse (ep_GetAccount addressAsBech32)).

Definition GetDefaultTransactionArguments (a : option address) (networkConfigs : option NetworkConfig) :
  M St (FrontendTransaction * string) :=
  match networkConfigs, a with
  | None, _ => throw ErrNilNetworkConfigs
  | _, None => throw ErrNilAddress
  | Some networkConfigs, Some a =>
    account ← GetAccount (Some a);
    addressAsBech32String ← lift (AddressAsBech32String a);
    account ← deref account;
    mret (mkTx (acc_Nonce account) "" "" addressAsBech32String (nc_MinGasPrice networkConfigs)
            (nc_MinGasLimit networkConfigs) [] "" (nc_ChainID networkConfigs)
            (nc_MinTransactionVersion networkConfigs) 0 "" "", acc_Balance account)
  end.

(** The status code is not looked at here. *)
Definition SendTransaction (tx : FrontendTransaction) : M W string :=
  jsonTx ← lift (json_Marshal_Tx tx);
  buff ← (λ w, let '((buff, code, err), w) := http_PostHTTP ep_GetSendTransaction jsonTx w in
                match err with
                | Some _ => (Fail (createHTTPStatusError code err), w)
                | None => (Ok buff, w)
                end);
  response ← lift (json_SendTransactionResponse buff);
  lift (unwrapResponse response).

Definition postProcessSendMultipleTxsResult (response : sentTransactions) : list string :=
  let indexes := (rangeZ (TxsHashes response)).*1 in
  let indexes := merge_sort Z.le indexes in
  map (λ idx, default "" (TxsHashes response !! idx)) indexes.

Definition SendTransactions (txs : list FrontendTransaction) : M W (list string) :=
  jsonTx ← lift (json_Marshal_Txs txs);
  response ← postResponse json_SendTransactionsResponse ep_GetSendMultipleTransactions jsonTx;
  mret (postProcessSendMultipleTxsResult response).

Definition GetTransactionStatus (hash : string) : M W string :=
  getResponse json_TransactionStatus (ep_GetTransactionStatus hash).

Definition getTransactionInfo (hash : string) (withResults : bool) : M W TransactionOnNetwork :=
  let endpoint := ep_GetTransactionInfo hash in
  let endpoint := if withResults then endpoint +:+ withResultsQueryParam else endpoint in
  getResponse json_TransactionInfo endpoint.

Definition GetTransactionInfo (hash : string) : M W TransactionOnNetwork := getTransactionInfo hash false.
Definition GetTransactionInfoWithResults (hash : string) : M W TransactionOnNetwork := getTransactionInfo hash true.

Definition RequestTransactionCost (tx : FrontendTransaction) : M W TxCostResponseData :=
  jsonTx ← lift (json_Marshal_Tx tx);
  postResponse json_ResponseTxCost ep_GetCostTransaction jsonTx.

Definition GetLatestHyperBlockNonce : M W Z :=
  response ← GetNetworkStatus MetachainShardId;
  response ← deref response;
  mret (ns_Nonce response).

Definition getHyperBlock (endpoint : string) : M W HyperBlock := getResponse json_HyperBlockResponse endpoint.
Definition GetHyperBlockByNonce (nonce : Z) : M W HyperBlock := getHyperBlock (ep_GetHyperBlockByNonce nonce).
Definition GetHyperBlockByHash (hash : string) : M W HyperBlock := getHyperBlock (ep_GetHyperBlockByHash hash).

Definition getRawBlock (endpoint : string) : M W bytes := getResponse json_RawBlockRespone endpoint.
Definition GetRawBlockByHash (shardId : Z) (hash : string) : M W bytes := getRawBlock (ep_GetRawBlockByHash shardId hash).
Definition GetRawBlockByNonce (shardId nonce : Z) : M W bytes := getRawBlock (ep_GetRawBlockByNonce shardId nonce).
Definition GetRawStartOfEpochMetaBlock (epoch : Z) : M W bytes := getRawBlock (ep_GetRawStartOfEpochMetaBlock epoch).

Definition getRawMiniBlock (endpoint : string) : M W bytes := getResponse json_RawMiniBlockRespone endpoint.
Definition GetRawMiniBlockByHash (shardId : Z) (hash : string) (epoch : Z) : M W bytes :=
  getRawMiniBlock (ep_GetRawMiniBlockByHash shardId hash epoch).

Definition GetNonceAtEpochStart (shardId : Z) : M W Z :=
  response ← GetNetworkStatus shardId;
  response ← deref response;
  mret (ns_NonceAtEpochStart response).

Definition GetRatingsConfig : M W (option RatingsConfig) := getResponse json_RatingsConfigResponse ep_GetRatingsConfig.
Definition GetEnableEpochsConfig : M W (option EnableEpochsConfig) :=
  getResponse json_EnableEpochsConfigResponse ep_GetEnableEpochsConfig.
Definition GetGenesisNodesPubKeys : M W (option GenesisNodes) :=
  getResponse json_GenesisNodesResponse ep_GetGenesisNodesConfig.
Definition GetValidatorsInfoByEpoch (epoch : Z) : M W (list ShardValidatorInfo) :=
  getResponse json_ValidatorsInfoResponse (ep_GetValidatorsInfo epoch).

Definition GetESDTTokenData (a : option address) (tokenIdentifier : string) (queryOptions : AccountQueryOptions) :
  M W (option ESDTFungibleTokenData) :=
  addressAsBech32String ← lift (validBech32 a);
  let endpoint := ep_GetESDTTokenData addressAsBech32String tokenIdentifier in
  let endpoint := BuildUrlWithAccountQueryOptions endpoint queryOptions in
  getResponse json_ESDTFungibleResponse endpoint.

Definition GetNFTTokenData (a : option address) (tokenIdentifier : string) (nonce : Z) (queryOptions : AccountQueryOptions) :
  M W (option ESDTNFTTokenData) :=
  addressAsBech32String ← lift (validBech32 a);
  let endpoint := ep_GetNFTTokenData addressAsBech32String tokenIdentifier nonce in
  let endpoint := BuildUrlWithAccountQueryOptions endpoint queryOptions in
  getResponse json_ESDTNFTResponse endpoint.

Definition GetGuardianData (a : option address) : M St (option GuardianData) :=
  bech32Address ← lift (validBech32 a);
  checkFinalState bech32Address ;;
  onsnd (getResponse json_GuardianDataResponse (ep_GetGuardianData bech32Address)).

Definition IsDataTrieMigrated (a : option address) : M W bool :=
  match a with
  | None => throw ErrNilAddress
  | Some a =>
    bech32Address ← lift (AddressAsBech32String a);
    data ← getResponse json_IsDataTrieMigratedResponse (ep_IsDataTrieMigrated bech32Address);
    lift (of_option (ErrText "isMigrated key not found in response map") (data !! "isMigrated"))
  end.

(** ** The log filter *)

Definition getBlockBytesByNonceWithTxsAndLogs (shardID nonce : Z) : M W bytes :=
  let endpoint := ep_GetBlockByNonce shardID nonce in
  getBytes (endpoint +:+ withTxsAndLogs).

Definition getBlockBytesByHashWithTxsAndLogs (shardID : Z) (hash : string) : M W bytes :=
  let endpoint := ep_GetBlockByHash shardID hash in
  getBytes (endpoint +:+ withTxsAndLogs).

Definition cachePut (cacheKey buff : bytes) : M (C * W) () := λ '(c, w),
  (Ok (), ((cacher_Put cacheKey (BBytes buff) (Z.of_nat (length buff)) c).1, w)).

Definition getBlockBytesByNonce (shardID nonce : Z) : M (C * W) bytes :=
  let cacheKey := cacheKeyOf nonce in
  let fetch :=
    buff ← onsnd (getBlockBytesByNonceWithTxsAndLogs shardID nonce);
    cachePut cacheKey buff ;;
    mret buff in
  cachedResponse ← gets (λ cw, cacher_Get cacheKey cw.1);
  match cachedResponse with
  | Some (BBytes cachedBuff) => if Nat.ltb 0 (length cachedBuff) then mret cachedBuff else fetch
  | _ => fetch
  end.

Definition getLogsFromBlock (shardID blockNum : Z) (filter : FilterQuery) : M (C * W) (list Events) :=
  buff ← getBlockBytesByNonce shardID blockNum;
  response ← lift (json_BlockResponse buff);
  block ← lift (unwrapResponse response);
  block ← deref block;
  mret (extractMatchingEvents block filter).

(** The error text of the answer is not looked at here. *)
Definition getBlockNumberByHash (shardID : Z) (blockHash : bytes) : M (C * W) Z :=
  let blockHashStr := hex_EncodeToString blockHash in
  buff ← onsnd (getBlockBytesByHashWithTxsAndLogs shardID blockHashStr);
  response ← lift (json_BlockResponse buff);
  block ← deref (ar_Data response);
  let blockNonce := bl_Nonce block in
  (if Nat.ltb 0 (length buff) then cachePut (cacheKeyOf blockNonce) buff else mret ()) ;;
  mret blockNonce.

Definition computeFromToBlocksForFilter (filter : FilterQuery) (shardID latestBlock : Z) : M (C * W) (Z * Z) :=
  match f_BlockHash filter with
  | Some blockHash =>
    blockNum ← getBlockNumberByHash shardID blockHash;
    mret (blockNum, blockNum)
  | None => lift (resolveBlockRange filter latestBlock)
  end.

Fixpoint computeShardId_loop (addresses : list string) (shardId : Z) : M St Z :=
  match addresses with
  | [] => mret shardId
  | address :: addresses =>
    addressShardId ← GetShardOfAddress address;
    if negb (addressShardId =? shardId) then throw ErrAddressesFromDifferentShards
    else computeShardId_loop addresses shardId
  end.

Definition computeShardIdFromAddresses (addresses : list string) : M St Z :=
  match addresses with
  | [] => panic
  | address0 :: _ =>
    shardId ← GetShardOfAddress address0;
    computeShardId_loop addresses shardId
  end.

Definition computeShardId (filter : FilterQuery) : M St Z :=
  if negb (Nat.eqb (length (f_Addresses filter)) 0) then
    shardIdFromAddresses ← computeShardIdFromAddresses (f_Addresses filter);
    match f_ShardID filter with
    | Some v => if negb (v =? shardIdFromAddresses) then throw (ErrWrap ErrShardIDMismatch ", computed %d, provided %d")
                else mret v
    | None => mret shardIdFromAddresses
    end
  else
    match f_ShardID filter with
    | Some v => mret v
    | None => throw ErrNoShardOrAddressesProvided
    end.

(** [for blockNum := fromBlock; blockNum <= toBlock; blockNum++], a loop on a
    64 bit counter; a run out of fuel is a panic. *)
Fixpoint filterLoop (fuel : nat) (shardID blockNum toBlock : Z) (filter : FilterQuery) (matchingEvents : list Events) :
  M (C * W) (list Events) :=
  if negb (blockNum <=? toBlock) then mret matchingEvents
  else
    match fuel with
    | O => panic
    | S fuel =>
      blockLogs ← getLogsFromBlock shardID blockNum filter;
      filterLoop fuel shardID (u64 (blockNum + 1)) toBlock filter (matchingEvents ++ blockLogs)
    end.

(** The cache and the world, with the base proxy aside. *)
Definition past_base {A} (m : M (C * W) A) : M CSt A := λ '(c, (b, w)),
  let '(r, (c, w)) := m (c, w) in (r, (c, (b, w))).

(** The number of blocks a run can visit. *)
Definition filterFuel : nat := Z.to_nat (MaximumBlocksDelta + 1).

Definition FilterLogs (filter : FilterQuery) : M CSt (list Events) :=
  shardID ← onsnd (computeShardId filter);
  status ← onsnd (onsnd (GetNetworkStatus shardID));
  status ← deref status;
  '(fromBlock, toBlock) ← past_base (computeFromToBlocksForFilter filter shardID (ns_Nonce status));
  past_base (filterLoop filterFuel shardID fromBlock toBlock filter []).
End Proxy.
