(* ===== verification/FilterLogs.v ===== *)
(** * What the log filter returns

    The filter against its reference: the events of the blocks of a range that
    match, in order, with and without a cache of blocks; the bounds of the
    range; the shard; and what a cache keyed by the nonce alone gets wrong. *)

From S2P Require Export Proxy.

(** ** Matching *)

(** The reference: the emitter is one of the addresses, if any is given, and the
    topics of the filter are the first topics of the event. *)
Definition event_matches (filter : FilterQuery) (event : Events) : Prop :=
  (f_Addresses filter = [] ∨ ev_Address event ∈ f_Addresses filter) ∧
  f_Topics filter `prefix_of` ev_Topics event.

#[export] Instance event_matches_dec filter event : Decision (event_matches filter event).
Proof. unfold event_matches. apply _. Defined.

(** The events of a block: of every transaction that has logs, in order. *)
Definition block_events (b : apiBlock) : list Events :=
  concat (map (λ tx, default [] tx) (concat (bl_MiniBlocks b))).

Lemma contains_spec l a : contains l a = bool_decide (l = [] ∨ a ∈ l).
Proof.
  unfold contains. destruct l as [|x l]; [done|]. cbn [length Nat.eqb].
  assert (E : ∀ l, contains_loop l a = bool_decide (a ∈ l)).
  { clear. induction l as [|y l IH]; [done|]. cbn [contains_loop].
    destruct (String.eqb_spec y a) as [->|Hne].
    - symmetry. apply bool_decide_eq_true. by left.
    - rewrite IH. apply bool_decide_ext. rewrite elem_of_cons. intuition congruence. }
  rewrite E. apply bool_decide_ext. intuition congruence.
Qed.

Lemma topics_loop_spec ft et i :
  (i + length ft ≤ length et)%nat → topics_loop ft et i = bool_decide (ft `prefix_of` drop i et).
Proof.
  revert i. induction ft as [|t ft IH]; intros i Hl; cbn [topics_loop].
  - symmetry. apply bool_decide_eq_true. apply prefix_nil.
  - cbn [length] in Hl. destruct (lookup_lt_is_Some_2 et i) as [x Ex]; [lia|].
    rewrite Ex, (drop_S _ _ _ Ex). rewrite IH by lia. destruct (decide (t = x)) as [->|Hne].
    + rewrite bool_decide_true by done. cbn. apply bool_decide_ext. split; [apply prefix_cons|apply prefix_cons_inv_2].
    + rewrite bool_decide_false by done. cbn. symmetry. apply bool_decide_eq_false. intros Hp%prefix_cons_inv_1. done.
Qed.

Lemma topicsMatch_spec ft et : topicsMatch ft et = bool_decide (ft `prefix_of` et).
Proof.
  unfold topicsMatch. destruct (Nat.ltb_spec (length et) (length ft)) as [Hl|Hl].
  - symmetry. apply bool_decide_eq_false. intros Hp%prefix_length. lia.
  - by rewrite topics_loop_spec.
Qed.

Lemma matchesFilter_spec filter event : matchesFilter filter event = bool_decide (event_matches filter event).
Proof.
  unfold matchesFilter. rewrite contains_spec, topicsMatch_spec.
  destruct (bool_decide_reflect (event_matches filter event)) as [[H1 H2]|Hn].
  - rewrite !bool_decide_true by done. by rewrite andb_false_r.
  - case_bool_decide as Ha; [|done]. case_bool_decide as Hb; [by destruct Hn|].
    destruct (f_Topics filter); [by destruct Hb; apply prefix_nil|done].
Qed.

Lemma extractMatchingEvents_spec b filter :
  extractMatchingEvents b filter = List.filter (matchesFilter filter) (block_events b).
Proof.
  unfold extractMatchingEvents, block_events.
  assert (E1 : ∀ es acc, foldl (λ matchingEvents event,
      if matchesFilter filter event then matchingEvents ++ [event] else matchingEvents) acc es
      = acc ++ List.filter (matchesFilter filter) es).
  { induction es as [|e es IH]; intros acc; cbn; [by rewrite app_nil_r|]. rewrite IH.
    destruct (matchesFilter filter e); [|done]. by rewrite <-app_assoc. }
  assert (E2 : ∀ txs acc, foldl (λ matchingEvents tx, match tx with None => matchingEvents
      | Some events => foldl (λ matchingEvents event,
          if matchesFilter filter event then matchingEvents ++ [event] else matchingEvents) matchingEvents events end) acc txs
      = acc ++ List.filter (matchesFilter filter) (concat (map (λ tx, default [] tx) txs))).
  { induction txs as [|[es|] txs IH]; intros acc; cbn; [by rewrite app_nil_r| |by rewrite IH].
    by rewrite IH, E1, List.filter_app, app_assoc. }
  assert (E3 : ∀ mbs acc, foldl (λ matchingEvents miniblock, foldl (λ matchingEvents tx, match tx with None => matchingEvents
      | Some events => foldl (λ matchingEvents event,
          if matchesFilter filter event then matchingEvents ++ [event] else matchingEvents) matchingEvents events end)
          matchingEvents miniblock) acc mbs
      = acc ++ List.filter (matchesFilter filter) (concat (map (λ tx, default [] tx) (concat mbs)))).
  { induction mbs as [|mb mbs IH]; intros acc; cbn [foldl]; [by rewrite app_nil_r|].
    rewrite IH, E2. cbn [concat]. by rewrite List.map_app, List.concat_app, List.filter_app, app_assoc. }
  apply E3.
Qed.

Lemma extract_filter (b : apiBlock) (filter : FilterQuery) :
  extractMatchingEvents b filter = base.filter (event_matches filter) (block_events b).
Proof.
  rewrite extractMatchingEvents_spec. induction (block_events b) as [|e es IH]; [done|].
  cbn [List.filter]. rewrite filter_cons, <-IH, matchesFilter_spec. by case_decide; [rewrite bool_decide_true|rewrite bool_decide_false].
Qed.

(** C27: the events taken from a block are exactly its events that match, in the
    order of the block: emitted by one of the filter's addresses (any, when it
    names none), with the filter's topics as a prefix of their own. *)
Theorem extractMatchingEvents_reference (b : apiBlock) (filter : FilterQuery) :
  extractMatchingEvents b filter = base.filter (event_matches filter) (block_events b).
Proof. apply extract_filter. Qed.

(** ** The range of blocks *)

Lemma resolve_spec (filter : FilterQuery) (latest a b : Z) :
  0 ≤ latest < 2 ^ 63 →
  (∀ z, f_FromBlock filter = Some z ∨ f_ToBlock filter = Some z → 0 ≤ z < 2 ^ 63) →
  resolveBlockRange filter latest = Ok (a, b) ↔
  (is_Some (f_FromBlock filter) ∨ is_Some (f_ToBlock filter)) ∧
  a = default 0 (f_FromBlock filter) ∧ b = default latest (f_ToBlock filter) ∧
  a ≤ b ≤ latest ∧ b - a ≤ MaximumBlocksDelta.
Proof.
  intros Hl Hz. unfold resolveBlockRange.
  assert (Hu : ∀ x y, 0 ≤ x < 2 ^ 63 → 0 ≤ y < 2 ^ 63 → (u64 (y - x) <=? MaximumBlocksDelta) = true ↔ x ≤ y ∧ y - x ≤ MaximumBlocksDelta).
  { intros x y Hx Hy. unfold u64, MaximumBlocksDelta. rewrite Z.leb_le. split; [|intros; rewrite Z.mod_small; lia].
    destruct (decide (x ≤ y)); [rewrite Z.mod_small by lia; lia|].
    replace ((y - x) mod 2 ^ 64) with (y - x + 2 ^ 64); [lia|]. apply (Z.mod_unique_pos _ _ (-1)); lia. }
  destruct (f_FromBlock filter) as [x|], (f_ToBlock filter) as [y|]; cbn [default];
    repeat match goal with |- context [?p <? ?q] => destruct (Z.ltb_spec p q) end;
    repeat match goal with |- context [u64 (?p - ?q) <=? _] =>
      let E := fresh in pose proof (Hu q p ltac:(auto with lia) ltac:(auto with lia)) as E; destruct (u64 (p - q) <=? MaximumBlocksDelta) end;
    split; intros Hx; simplify_eq; try (destruct Hx as ([?|?] & -> & -> & ? & ?)); cbn in *;
    try (split; [eauto|]); try done; intuition (eauto; try done; try lia).
  all: try (exfalso; destruct H1; done).
Qed.

(** C26: with numbers below [2^63], a range is accepted exactly when at least one
    end is given, the missing start is 0, the missing end is the latest block,
    the end is at most the latest block, the start at most the end, and at
    most 501 blocks are visited; everything else is an error. *)
Theorem resolveBlockRange_spec (filter : FilterQuery) (latest a b : Z) :
  0 ≤ latest < 2 ^ 63 →
  (∀ z, f_FromBlock filter = Some z ∨ f_ToBlock filter = Some z → 0 ≤ z < 2 ^ 63) →
  resolveBlockRange filter latest = Ok (a, b) ↔
  (is_Some (f_FromBlock filter) ∨ is_Some (f_ToBlock filter)) ∧
  a = default 0 (f_FromBlock filter) ∧ b = default latest (f_ToBlock filter) ∧
  a ≤ b ≤ latest ∧ b - a ≤ MaximumBlocksDelta.
Proof. apply resolve_spec. Qed.

(** ** The filter against the chain

    One shard of the chain as the network serves it: the bytes of each block and
    the block they decode to. *)

Section Reference.
Context {C W : Type} `{HttpClientWrapper W} `{Clock W} `{EndpointProvider} `{ApiJson}
  `{PubkeyConverter} `{ShardingCoordinator} `{CacherLaws blockData C}.

Record serves (shard : Z) (raw : Z → bytes) (blk : Z → apiBlock) : Prop := {
  serves_get n w : ∃ w', http_GetHTTP (ep_GetBlockByNonce shard n +:+ withTxsAndLogs) w = ((raw n, StatusOK, None), w');
  serves_json n : ∃ code, json_BlockResponse (raw n) = Ok (mkResp (Some (blk n)) "" code) }.

(** The blocks in the cache are those of the shard. *)
Definition coherent (raw : Z → bytes) (c : C) : Prop :=
  ∀ n b, is_u64 n → cacher_Get (cacheKeyOf n) c = Some (BBytes b) → b = [] ∨ b = raw n.

Lemma cacheKeyOf_inj n m : is_u64 n → is_u64 m → cacheKeyOf n = cacheKeyOf m → n = m.
Proof.
  intros Hn Hm E%(f_equal be_to_Z). unfold cacheKeyOf in E. rewrite !be_to_Z_of_Z in E.
  unfold is_u64 in *. rewrite !Z.mod_small in E by (cbn; lia). done.
Qed.

Lemma coherent_Put raw c n size : is_u64 n → coherent raw c →
  coherent raw (cacher_Put (cacheKeyOf n) (BBytes (raw n)) size c).1.
Proof.
  intros Hn Hc m b Hm Hg. apply cacher_Get_Put in Hg as [[Ek [= ->]]|Hg]; [|by apply (Hc m)].
  apply cacheKeyOf_inj in Ek as ->; [by right|done..].
Qed.

Section Chain.
Context (shard : Z) (raw : Z → bytes) (blk : Z → apiBlock) (Hs : serves shard raw blk).

Lemma getBlockBytesByNonce_run n c w : is_u64 n → coherent raw c →
  ∃ c' w', getBlockBytesByNonce shard n (c, w) = (Ok (raw n), (c', w')) ∧ coherent raw c'.
Proof.
  intros Hn Hc.
  assert (Hf : ∃ c' w', (buff ← onsnd (getBlockBytesByNonceWithTxsAndLogs shard n);
      cachePut (cacheKeyOf n) buff ;; mret buff) (c, w) = (Ok (raw n), (c', w')) ∧ coherent raw c').
  { destruct (serves_get _ _ _ Hs n w) as [w' E].
    exists (cacher_Put (cacheKeyOf n) (BBytes (raw n)) (Z.of_nat (length (raw n))) c).1, w'. split; [|by apply coherent_Put].
    unfold mbind, M_bind, onsnd, getBlockBytesByNonceWithTxsAndLogs, getBytes, cachePut. rewrite E. done. }
  unfold getBlockBytesByNonce. unfold mbind at 1, M_bind at 1, gets. cbn beta iota zeta. cbn [fst].
  destruct (cacher_Get (cacheKeyOf n) c) as [[b|]|] eqn:Eg; [|exact Hf..].
  destruct (Hc n b Hn Eg) as [->| ->]; [exact Hf|].
  destruct (Nat.ltb 0 (length (raw n))); [by exists c, w|exact Hf].
Qed.

Lemma getLogsFromBlock_run n filter c w : is_u64 n → coherent raw c →
  ∃ c' w', getLogsFromBlock shard n filter (c, w) = (Ok (extractMatchingEvents (blk n) filter), (c', w')) ∧ coherent raw c'.
Proof.
  intros Hn Hc. destruct (getBlockBytesByNonce_run n c w Hn Hc) as (c' & w' & E & Hc').
  destruct (serves_json _ _ _ Hs n) as [code Ej]. exists c', w'. split; [|done].
  unfold getLogsFromBlock, mbind, M_bind, lift, deref, mret, M_ret. rewrite E, Ej. done.
Qed.

Lemma filterLoop_run fuel from to filter acc c w :
  0 ≤ from → to < 2 ^ 64 - 1 → to - from + 1 ≤ Z.of_nat fuel → coherent raw c →
  ∃ c' w', filterLoop fuel shard from to filter acc (c, w) =
    (Ok (acc ++ concat (map (λ n, extractMatchingEvents (blk n) filter) (seqZ from (to - from + 1)))), (c', w')) ∧
    coherent raw c'.
Proof.
  revert from acc c w. induction fuel as [|fuel IH]; intros from acc c w Hf Ht Hl Hc;
    cbn [filterLoop]; (destruct (Z.leb_spec from to) as [Hle|Hgt]; cbn [negb]; [|exists c, w; split; [|done];
      rewrite (seqZ_nil from) by lia; unfold mret, M_ret; cbn; by rewrite app_nil_r]); [lia|].
  destruct (getLogsFromBlock_run from filter c w) as (c1 & w1 & E & Hc1); [unfold is_u64; lia|done|].
  rewrite u64_small by (unfold is_u64; lia).
  destruct (IH (from + 1) (acc ++ extractMatchingEvents (blk from) filter) c1 w1) as (c2 & w2 & E2 & Hc2); [lia..|done|].
  exists c2, w2. split; [|done]. unfold mbind, M_bind. rewrite E, E2.
  rewrite (seqZ_cons from) by lia. cbn [map concat]. rewrite <-app_assoc.
  by replace (Z.pred (to - from + 1)) with (to - (from + 1) + 1) by lia.
Qed.

(** C9: the filter returns what a search of the chain would: for a shard whose
    blocks the network serves, and a cache that holds blocks of that shard only
    (an empty one in particular), [FilterLogs] on a block range answers the
    matching events of every block of the range, from the first to the last -
    whatever part of them comes from the cache - and leaves such a cache. *)
Theorem FilterLogs_reference filter c b w b1 w1 w2 st from to :
  coherent raw c →
  computeShardId filter (b, w) = (Ok shard, (b1, w1)) →
  GetNetworkStatus shard w1 = (Ok (Some st), w2) →
  f_BlockHash filter = None →
  0 ≤ ns_Nonce st < 2 ^ 63 →
  (∀ z, f_FromBlock filter = Some z ∨ f_ToBlock filter = Some z → 0 ≤ z < 2 ^ 63) →
  resolveBlockRange filter (ns_Nonce st) = Ok (from, to) →
  ∃ c' w', FilterLogs filter (c, (b, w)) =
    (Ok (concat (map (λ n, base.filter (event_matches filter) (block_events (blk n))) (seqZ from (to - from + 1)))),
     (c', (b1, w'))) ∧ coherent raw c'.
Proof.
  intros Hc E1 E2 Eh Hn Hz Er. pose proof (proj1 (resolve_spec filter _ from to Hn Hz) Er) as (_ & Ea & _ & Hle & Hd).
  assert (0 ≤ from). { subst from. destruct (f_FromBlock filter) as [z|] eqn:Ez; cbn; [|lia]. apply (Hz z). by left. }
  destruct (filterLoop_run filterFuel from to filter [] c w2) as (c' & w' & E & Hc'); [lia..| |done|].
  { unfold filterFuel, MaximumBlocksDelta in *. lia. }
  exists c', w'. split; [|done].
  unfold FilterLogs, computeFromToBlocksForFilter, mbind, M_bind, onsnd, past_base, deref, lift.
  rewrite E1, E2, Eh, Er, E. cbn [app]. do 3 f_equal. apply List.map_ext. intros n. apply extract_filter.
Qed.
End Chain.

(** ** A cache keyed by the nonce alone *)

(** the block cache does not tell shards apart: once the bytes of a block of
    one shard are cached, a search of any other shard at the same nonce is
    answered with those bytes, without a request.  (The routes do tell shards
    apart; only the key leaves the shard out.) *)
Theorem block_cache_mixes_shards s1 s2 n buff c w c1 w1 w2 :
  cacher_Get (cacheKeyOf n) c = None →
  (∀ v size, cacher_Get (cacheKeyOf n) (cacher_Put (cacheKeyOf n) v size c).1 = Some v) →
  getBlockBytesByNonce s1 n (c, w) = (Ok buff, (c1, w1)) →
  buff ≠ [] →
  getBlockBytesByNonce s2 n (c1, w2) = (Ok buff, (c1, w2)).
Proof.
  intros Hn Hk E Hb. unfold getBlockBytesByNonce, mbind, M_bind, gets, mret, M_ret, onsnd, cachePut in *. cbn [fst] in *.
  rewrite Hn in E. destruct (getBlockBytesByNonceWithTxsAndLogs s1 n w) as [[b|e|] w']; simplify_eq.
  rewrite Hk. by destruct buff.
Qed.

(** ** The shard of a filter *)

(** when the shard of every address is known (a cached configuration), a
    filter is searched in the shard of its addresses, which must agree with each
    other and with the shard given, if any; a filter without addresses is
    searched in the shard given; anything else is an error. *)
Theorem computeShardId_spec (shard_of : string → Z) filter s :
  (∀ a, a ∈ f_Addresses filter → GetShardOfAddress a s = (Ok (shard_of a), s)) →
  ∀ v, computeShardId filter s = (Ok v, s) ↔
    (∀ a, a ∈ f_Addresses filter → shard_of a = v) ∧
    (∀ v', f_ShardID filter = Some v' → v' = v) ∧
    (f_Addresses filter ≠ [] ∨ is_Some (f_ShardID filter)).
Proof.
  intros Hs v. unfold computeShardId. destruct (f_Addresses filter) as [|a0 l] eqn:El; cbn [length Nat.eqb negb].
  - destruct (f_ShardID filter) as [v'|]; unfold mret, M_ret, throw; split.
    + intros [= ->]. repeat split; [by intros a ?%not_elem_of_nil|congruence|by right; eauto].
    + intros (_ & Hv & _). by rewrite (Hv v').
    + done.
    + by intros (_ & _ & [?|[? ?]]).
  - assert (Hloop : ∀ l sh, (∀ a, a ∈ l → GetShardOfAddress a s = (Ok (shard_of a), s)) →
      computeShardId_loop l sh s = (if forallb (λ a, shard_of a =? sh) l then Ok sh else Fail ErrAddressesFromDifferentShards, s)).
    { clear. induction l as [|a l IH]; intros sh Hl; [done|]. cbn [computeShardId_loop forallb].
      unfold mbind, M_bind. rewrite Hl by (by left). destruct (Z.eqb_spec (shard_of a) sh); cbn [negb andb]; [|done].
      apply IH. intros b Hb. apply Hl. by right. }
    unfold computeShardIdFromAddresses, mbind, M_bind. rewrite (Hs a0) by (by left). rewrite Hloop by done.
    assert (Hall : forallb (λ a, shard_of a =? shard_of a0) (a0 :: l) = true ↔ ∀ a, a ∈ a0 :: l → shard_of a = shard_of a0).
    { rewrite forallb_forall. setoid_rewrite <-list_elem_of_In. split; intros Ha a Hin; apply Z.eqb_eq; by apply Ha. }
    destruct (forallb _ (a0 :: l)).
    + pose proof (proj1 Hall eq_refl) as Ha. destruct (f_ShardID filter) as [v'|]; unfold mret, M_ret, throw; split.
      * destruct (Z.eqb_spec v' (shard_of a0)) as [->|]; cbn; [|done]. intros [= <-].
        repeat split; [done|congruence|by left].
      * intros (Hv & Hv' & _). rewrite (Hv' v') by done. rewrite (Hv a0) by (by left). by rewrite Z.eqb_refl.
      * intros [= <-]. repeat split; [done|done|by left].
      * intros (Hv & _). by rewrite (Hv a0) by (by left).
    + split; [done|]. intros (Hv & _). exfalso. enough (false = true) by done. apply Hall. intros a Hin.
      by rewrite (Hv a), (Hv a0) by (done || by left).
Qed.
End Reference.

(** ** Several transactions at once *)

Lemma seqZ_Sorted x n : Sorted Z.le (seqZ x n).
Proof.
  destruct (decide (0 ≤ n)); [|rewrite seqZ_nil by lia; constructor].
  rewrite <-(Z2Nat.id n) by done. generalize (Z.to_nat n) as k. intros k. revert x.
  induction k as [|k IH]; intros x; [rewrite seqZ_nil by lia; constructor|].
  rewrite seqZ_cons by lia. replace (Z.pred (Z.of_nat (S k))) with (Z.of_nat k) by lia.
  constructor; [apply IH|]. destruct k; [by constructor|]. rewrite (seqZ_cons (Z.succ x)) by lia. constructor. lia.
Qed.

Lemma merge_sort_seqZ {V} `{MapRangeZ V} (m : gmap Z V) (n : Z) :
  (∀ i, is_Some (m !! i) ↔ 0 ≤ i < n) → merge_sort Z.le (rangeZ m).*1 = seqZ 0 n.
Proof.
  intros Hm. apply (Sorted_unique Z.le).
  - apply Sorted_merge_sort. intros x y. lia.
  - apply seqZ_Sorted.
  - rewrite merge_sort_Permutation. apply NoDup_Permutation; [apply map_rangeZ_NoDup|apply NoDup_seqZ|].
    intros i. rewrite list_elem_of_fmap, elem_of_seqZ. rewrite Z.add_0_l, <-Hm. split.
    + intros ([j v] & -> & Hin%map_rangeZ_elem). by exists v.
    + intros [v Ev]. exists (i, v). split; [done|]. by apply map_rangeZ_elem.
Qed.

(** when the network answers a hash for each of the [n] transactions sent
    together, under its index, the result is the list of the hashes in the order
    of the transactions, whatever the order the answer's map is walked in. *)
Theorem SendTransactions_in_order `{MapRangeZ string} (num : Z) (m : gmap Z string) (hashes : list string) :
  (∀ i, m !! i = if decide (0 ≤ i) then hashes !! Z.to_nat i else None) →
  postProcessSendMultipleTxsResult (mkSentTransactions num m) = hashes.
Proof.
  intros Hm. unfold postProcessSendMultipleTxsResult. cbn. rewrite (merge_sort_seqZ m (Z.of_nat (length hashes))).
  - apply list_eq. intros i. change (map ?f ?l) with (f <$> l). rewrite list_lookup_fmap.
    destruct (decide (i < length hashes)%nat) as [Hi|Hi].
    + rewrite lookup_seqZ_lt by lia. cbn. rewrite Z.add_0_l, Hm, decide_True by lia. rewrite Nat2Z.id.
      by destruct (lookup_lt_is_Some_2 hashes i Hi) as [h ->].
    + rewrite lookup_seqZ_ge by lia. cbn. symmetry. apply lookup_ge_None. lia.
  - intros i. rewrite Hm. case_decide; [|split; [by intros []|lia]]. rewrite lookup_lt_is_Some. lia.
Qed.

(** ** Concrete runs

    A network that answers every route with the route itself, and blocks with one
    event that holds the bytes of the answer. *)

Module FilterRun.
Definition echo_client : HttpClientWrapper nat := {|
  http_GetHTTP endpoint w := ((bytes_of_string endpoint, StatusOK, None), S w);
  http_PostHTTP endpoint data w := ((data, StatusOK, None), S w) |}.
#[local] Existing Instance echo_client.
Definition still : Clock nat := {| time_Now _ := time_Unix 0 |}.
#[local] Existing Instance still.
#[local] Existing Instance proxyEndpointProvider.
Definition echo_block (b : bytes) : apiBlock := mkApiBlock 7 [[None; Some [mkEvents "sc" "transfer" [[x01]; [x02]] b]]].
Definition echoJson : ApiJson :=
  wordsJsonWith (λ _, Ok (mkResp (Some (simpleStatus 7 7 7 "" 0)) "" ""))
                (λ b, Ok (mkResp (Some (echo_block b)) "" "")).
#[local] Existing Instance echoJson.
#[local] Existing Instance hexConverter.
Definition modCoordinator : ShardingCoordinator := {|
  Coordinator := Z; NewMultiShardCoordinator n _ := Ok n; ComputeId n b := be_to_Z b mod n |}.
#[local] Existing Instance modCoordinator.

Definition filter57 : FilterQuery := mkFilter None (Some 5) None [] (Some 0) [[x01]].
Definition raw_of (shard n : Z) : bytes := bytes_of_string (ep_GetBlockByNonce shard n +:+ withTxsAndLogs).
Definition cached_proxy : baseProxy :=
  mkBaseProxy (Some (simpleConfig "T" 1500 50000 1000 1 3)) (time_Unix 0) (10 ^ 9).

Lemma echo_serves shard : serves shard (raw_of shard) (λ n, echo_block (raw_of shard n)).
Proof. split; [intros n w; by eexists|intros n; by eexists]. Qed.

Lemma resolveBlockRange_spec_witness :
  resolveBlockRange filter57 7 = Ok (5, 7) ↔
  (is_Some (f_FromBlock filter57) ∨ is_Some (f_ToBlock filter57)) ∧
  5 = default 0 (f_FromBlock filter57) ∧ 7 = default 7 (f_ToBlock filter57) ∧
  5 ≤ 7 ≤ 7 ∧ 7 - 5 ≤ MaximumBlocksDelta.
Proof.
  apply resolveBlockRange_spec; [lia|]. intros z [[= <-]|?]; [lia|discriminate].
Defined.

Lemma FilterLogs_reference_witness :
  (∃ c' w', FilterLogs filter57 (NewMapCacher (V := blockData), (cached_proxy, 0%nat)) =
    (Ok (concat (map (λ n, base.filter (event_matches filter57) (block_events (echo_block (raw_of 0 n)))) (seqZ 5 (7 - 5 + 1)))),
     (c', (cached_proxy, w'))) ∧ coherent (raw_of 0) c') ∧
  length (concat (map (λ n, base.filter (event_matches filter57) (block_events (echo_block (raw_of 0 n)))) (seqZ 5 (7 - 5 + 1)))) = 3%nat.
Proof.
  split; [|vm_compute; reflexivity].
  apply (FilterLogs_reference 0 (raw_of 0) (λ n, echo_block (raw_of 0 n)) (echo_serves 0) filter57 NewMapCacher
           cached_proxy 0%nat cached_proxy 0%nat 1%nat (simpleStatus 7 7 7 "" 0) 5 7).
  - intros n b _ E. vm_compute in E. discriminate.
  - reflexivity.
  - reflexivity.
  - reflexivity.
  - cbn. lia.
  - intros z [[= <-]|?]; [lia|discriminate].
  - vm_compute. reflexivity.
Defined.

(** Block 5 of shard 0 answers the search of shard 1. *)
Lemma block_cache_mixes_shards_witness :
  let c1 := (Put (cacheKeyOf 5) (BBytes (raw_of 0 5)) (Z.of_nat (length (raw_of 0 5))) NewMapCacher).1 in
  getBlockBytesByNonce 1 5 (c1, 3%nat) = (Ok (raw_of 0 5), (c1, 3%nat)).
Proof.
  intros c1. apply (block_cache_mixes_shards 0 1 5 (raw_of 0 5) NewMapCacher 0%nat c1 1%nat 3%nat).
  - reflexivity.
  - intros v size. cbn. apply lookup_insert_eq.
  - reflexivity.
  - discriminate.
Defined.

Lemma computeShardId_spec_witness :
  let a := hex_EncodeToString (replicate 31 x00 ++ [x05]) in
  let filter := mkFilter None None None [a] (Some 2) [] in
  computeShardId filter (cached_proxy, 0%nat) = (Ok 2, (cached_proxy, 0%nat)) ↔
    (∀ x, x ∈ f_Addresses filter → 2 = 2) ∧
    (∀ v', f_ShardID filter = Some v' → v' = 2) ∧
    (f_Addresses filter ≠ [] ∨ is_Some (f_ShardID filter)).
Proof.
  intros a filter. apply (computeShardId_spec (λ _, 2) filter (cached_proxy, 0%nat)).
  intros x Hx. apply list_elem_of_singleton in Hx as ->. vm_compute. reflexivity.
Defined.

Lemma SendTransactions_in_order_witness :
  @postProcessSendMultipleTxsResult (map_to_list_rangeZ string) (mkSentTransactions 2 (<[1 := "b"]> {[ 0 := "a" ]})) = ["a"; "b"].
Proof.
  apply (@SendTransactions_in_order (map_to_list_rangeZ string)). intros i.
  destruct (decide (0 ≤ i)).
  - destruct (decide (i = 0)) as [->|]; [reflexivity|]. destruct (decide (i = 1)) as [->|]; [reflexivity|].
    rewrite lookup_insert_ne, lookup_singleton_ne by lia. symmetry. apply lookup_ge_None. cbn. lia.
  - rewrite lookup_insert_ne, lookup_singleton_ne by lia. reflexivity.
Defined.
End FilterRun.
