(* ===== verification/VmQueryGetter.v ===== *)
(** * Typed contract queries ([blockchain/vmQueryGetter.go],
    [blockchain/queryResponseError.go])

    [vmQueryGetter] runs a query through a proxy and reads the first returned
    value as bytes, a boolean or a number. *)

From S2P Require Export Proxy.

Definition okCodeAfterExecution : string := "ok".
Definition internalError : string := "internal error".

(** ** The error *)

Record queryResponseError := mkQueryResponseError {
  qre_code : string;
  qre_message : string;
  qre_function : string;
  qre_arguments : list string;
  qre_address : string }.

Definition NewQueryResponseError (code message function address : string) (arguments : list string) : queryResponseError :=
  mkQueryResponseError code message function arguments address.

(** A list of strings is printed by [%v] between brackets, with spaces. *)
Definition Error (err : queryResponseError) : string :=
  fmt_Sprintf "got response code '%s' and message '%s' while querying function '%s' with arguments %s and address %s"
    [FStr (qre_code err); FStr (qre_message err); FStr (qre_function err);
     FStr ("[" +:+ strings_Join " " (qre_arguments err) +:+ "]"); FStr (qre_address err)].

Definition query_error (err : queryResponseError) : error := ErrText (Error err).

(** ** [strconv.ParseBool] *)

Definition strconv_ParseBool (s : string) : option bool :=
  if bool_decide (s ∈ ["1"; "t"; "T"; "TRUE"; "true"; "True"]) then Some true
  else if bool_decide (s ∈ ["0"; "f"; "F"; "FALSE"; "false"; "False"]) then Some false
  else None.

(** ** The proxy it needs *)

Class VmQueryProxy (W : Type) := {
  vq_ExecuteVMQuery : option VmValueRequest → M W (option VMOutputApi) }.

(** The blockchain proxy is one. *)
Definition proxy_VmQueryProxy {W} `{HttpClientWrapper W} `{Clock W} `{EndpointProvider} `{ApiJson}
  `{FinalityProvider W} `{PubkeyConverter} `{ShardingCoordinator} (ep : proxy) : VmQueryProxy (baseProxy * W) :=
  {| vq_ExecuteVMQuery := ExecuteVMQuery ep |}.

(** The flags tell which argument is nil. *)
Definition NewVmQueryGetter (proxy_nil log_nil : bool) : outcome () :=
  if proxy_nil then Fail ErrNilProxy
  else if log_nil then Fail (ErrVar "core.ErrNilLogger")
  else Ok ().

Section Getter.
Context {W : Type} `{VmQueryProxy W}.

(** The log line reads the answer's data, which may be nil. *)
Definition ExecuteQueryReturningBytes (request : option VmValueRequest) : M W (list bytes) :=
  match request with
  | None => throw ErrNilRequest
  | Some request =>
    response ← vq_ExecuteVMQuery (Some request);
    data ← deref response;
    if negb (String.eqb (vmo_ReturnCode data) okCodeAfterExecution) then
      throw (query_error (NewQueryResponseError (vmo_ReturnCode data) (vmo_ReturnMessage data)
                            (vvr_FuncName request) (vvr_Address request) (vvr_Args request)))
    else mret (vmo_ReturnData data)
  end.

Definition parseBool (buff : bytes) (funcName address : string) (args : list string) : outcome bool :=
  match buff with
  | [] => Ok false
  | b0 :: _ =>
    match strconv_ParseBool (itoa (byte_Z b0)) with
    | None => Fail (query_error (NewQueryResponseError internalError
                "error converting the received bytes to bool, invalid syntax" funcName address args))
    | Some result => Ok result
    end
  end.

Definition ExecuteQueryReturningBool (request : option VmValueRequest) : M W bool :=
  response ← ExecuteQueryReturningBytes request;
  match response with
  | [] => mret false
  | r0 :: _ =>
    request ← deref request;
    lift (parseBool r0 (vvr_FuncName request) (vvr_Address request) (vvr_Args request))
  end.

Definition parseUInt64FromByteSlice (b : bytes) : outcome Z :=
  let num := be_to_Z b in
  if negb ((0 <=? num) && (num <=? MaxUint64)) then Fail ErrNotUint64Bytes else Ok num.

Definition ExecuteQueryReturningUint64 (request : option VmValueRequest) : M W Z :=
  response ← ExecuteQueryReturningBytes request;
  match response with
  | [] => mret 0
  | [] :: _ => mret 0
  | r0 :: _ =>
    request ← deref request;
    match parseUInt64FromByteSlice r0 with
    | Ok num => mret num
    | _ => throw (query_error (NewQueryResponseError internalError
             "provided bytes do not represent a valid uint64 number"
             (vvr_FuncName request) (vvr_Address request) (vvr_Args request)))
    end
  end.

(** The builder's request, or its error. *)
Definition ExecuteQueryFromBuilder (builder : outcome VmValueRequest) : M W (list bytes) :=
  vmValuesRequest ← lift builder;
  ExecuteQueryReturningBytes (Some vmValuesRequest).

Definition ExecuteQueryUint64FromBuilder (builder : outcome VmValueRequest) : M W Z :=
  vmValuesRequest ← lift builder;
  ExecuteQueryReturningUint64 (Some vmValuesRequest).

Definition ExecuteQueryBoolFromBuilder (builder : outcome VmValueRequest) : M W bool :=
  vmValuesRequest ← lift builder;
  ExecuteQueryReturningBool (Some vmValuesRequest).

(** ** What the numbers mean *)

Lemma ReturningBytes_run req w data w' :
  vq_ExecuteVMQuery (Some req) w = (Ok (Some data), w') →
  ExecuteQueryReturningBytes (Some req) w =
    (if String.eqb (vmo_ReturnCode data) okCodeAfterExecution then Ok (vmo_ReturnData data)
     else Fail (query_error (NewQueryResponseError (vmo_ReturnCode data) (vmo_ReturnMessage data)
                  (vvr_FuncName req) (vvr_Address req) (vvr_Args req))), w').
Proof.
  intros E. unfold ExecuteQueryReturningBytes, mbind, M_bind, deref, mret, M_ret, throw. rewrite E.
  by destruct (String.eqb _ _).
Qed.

(** a query answered by the contract with code "ok" reads as a number exactly
    when the first returned value, as a big endian number, fits 64 bits, and
    then as that number; no value and an empty value read as 0.  A query with
    another code is an error whatever was returned. *)
Theorem ExecuteQueryReturningUint64_spec req w data w' :
  vq_ExecuteVMQuery (Some req) w = (Ok (Some data), w') →
  ∃ r, ExecuteQueryReturningUint64 (Some req) w = (r, w') ∧ r ≠ Panic ∧
  ∀ n, r = Ok n ↔ vmo_ReturnCode data = "ok" ∧
                  n = be_to_Z (default [] (head (vmo_ReturnData data))) ∧ is_u64 n.
Proof.
  intros E. unfold ExecuteQueryReturningUint64. unfold mbind, M_bind. rewrite (ReturningBytes_run _ _ _ _ E).
  unfold okCodeAfterExecution. destruct (String.eqb_spec (vmo_ReturnCode data) "ok") as [Ec|Ec].
  2:{ eexists. split; [done|]. split; [done|]. intros n. split; [done|]. by intros (? & _). }
  unfold mret, M_ret, deref, throw, parseUInt64FromByteSlice, is_u64.
  destruct (vmo_ReturnData data) as [|[|b0 bs] rest]; cbn [head default].
  1,2: exists (Ok 0); (split; [done|]); (split; [done|]); intros n;
    (split; [intros [= <-]; repeat split; done|intros (_ & -> & _); done]).
  pose proof (be_to_Z_bound (b0 :: bs)) as Hb.
  destruct ((0 <=? be_to_Z (b0 :: bs)) && (be_to_Z (b0 :: bs) <=? MaxUint64)) eqn:Eu; cbn [negb]; eexists; (split; [done|]); (split; [done|]).
  - apply andb_true_iff in Eu as [_ Eu%Z.leb_le]. unfold MaxUint64 in Eu. intros n. split.
    + intros En. assert (n = be_to_Z (b0 :: bs)) as -> by congruence. repeat split; [done|lia|lia].
    + intros (_ & -> & _). done.
  - intros n. split; [done|]. intros (_ & -> & Hn). exfalso.
    pose proof (Hn : 0 ≤ be_to_Z (b0 :: bs) < 2 ^ 64) as Hn'. revert Eu. apply not_false_iff_true.
    apply andb_true_iff. rewrite !Z.leb_le. unfold MaxUint64. lia.
Qed.
End Getter.

Definition table_vm : VmQueryProxy (list VMOutputApi) := {|
  vq_ExecuteVMQuery _ := λ w, match w with [] => (Fail (ErrText "done"), []) | d :: w => (Ok (Some d), w) end |}.

Lemma ExecuteQueryReturningUint64_spec_witness :
  let data := mkVMOutput [[x00; x01; x02]; [x05]] "ok" "" in
  let req := mkVmValueRequest "sc" "get" "" "" [] in
  ∃ r, @ExecuteQueryReturningUint64 _ table_vm (Some req) [data] = (r, []) ∧ r ≠ Panic ∧
  ∀ n, r = Ok n ↔ vmo_ReturnCode data = "ok" ∧
                  n = be_to_Z (default [] (head (vmo_ReturnData data))) ∧ is_u64 n.
Proof. apply (@ExecuteQueryReturningUint64_spec _ table_vm). reflexivity. Defined.
