(* ===== verification/Workflows.v ===== *)
(** * Workflows ([workflows/])

    [addressesAccumulator] collects the addresses that received a deposit;
    [walletTracker] walks the chain hyper block by hyper block and fills it;
    [moveBalanceHandler] empties such addresses towards one receiver.  The proxy,
    the nonce store and the transaction interactor are interfaces; the calls
    made to the deposit handler are logged in the tracker's state.  The timer of
    [processLoop] and the log are left out: a tick is one call of
    [fetchAndProcessHyperBlocks]. *)

From S2P Require Export Crypto.

Definition ErrInvalidTransactionValue : error := ErrVar "workflows.ErrInvalidTransactionValue".
Definition ErrInvalidAvailableBalanceValue : error := ErrVar "workflows.ErrInvalidAvailableBalanceValue".
Definition ErrNilTrackableAddressesProvider : error := ErrVar "workflows.ErrNilTrackableAddressesProvider".
Definition ErrNilProxy : error := ErrVar "workflows.ErrNilProxy".
Definition ErrNilLastProcessedNonceHandler : error := ErrVar "workflows.ErrNilLastProcessedNonceHandler".
Definition ErrNilMinimumBalance : error := ErrVar "workflows.ErrNilMinimumBalance".
Definition ErrNilTransactionInteractor : error := ErrVar "workflows.ErrNilTransactionInteractor".

(** ** Interfaces ([interface.go]) *)

Class TrackableAddressesProvider := {
  tap_IsTrackableAddresses : string → bool;
  tap_PrivateKeyOfBech32Address : string → bytes }.

Class LastProcessedNonceHandler (W : Type) := {
  nh_ProcessedNonce : Z → W → W;
  nh_GetLastProcessedNonce : W → Z }.

Class ProxyHandler (W : Type) := {
  ph_GetLatestHyperBlockNonce : M W Z;
  ph_GetHyperBlockByNonce : Z → M W (option HyperBlock);
  ph_GetDefaultTransactionArguments : address → NetworkConfig → M W (FrontendTransaction * string);
  ph_GetNetworkConfig : M W (option NetworkConfig) }.

Class TransactionInteractor `{Crypto} (W : Type) := {
  tri_AddTransaction : FrontendTransaction → W → W;
  tri_ApplyUserSignature : cryptoComponentsHolder → FrontendTransaction → outcome FrontendTransaction }.

(** ** [addressesAccumulator.go] *)

Record addressesAccumulator := mkAccumulator { addressesMap : gmap string () }.

Definition newAddressesAccumulator : addressesAccumulator := mkAccumulator ∅.

Definition push (address : string) (aa : addressesAccumulator) : addressesAccumulator :=
  mkAccumulator (<[address := ()]> (addressesMap aa)).

Definition pop `{MapRange ()} (aa : addressesAccumulator) : list string * addressesAccumulator :=
  ((range (addressesMap aa)).*1, mkAccumulator ∅).

(** ** [walletsTracker.go] *)

Record walletTracker := mkTracker {
  accumulator : addressesAccumulator;
  minimumBalance : Z;
  handlerNewDepositTransaction : bool;  (* whether a handler is set *)
  deposits : list TransactionOnNetwork  (* the calls it received *) }.

(** The flags tell which argument is nil. *)
Definition NewWalletTracker (tap_nil proxy_nil nonce_nil : bool) (MinimumBalance : option Z) : outcome walletTracker :=
  if tap_nil then Fail ErrNilTrackableAddressesProvider
  else if proxy_nil then Fail ErrNilProxy
  else if nonce_nil then Fail ErrNilLastProcessedNonceHandler
  else match MinimumBalance with
       | None => Fail ErrNilMinimumBalance
       | Some m => Ok (mkTracker newAddressesAccumulator m false [])
       end.

Section Tracker.
Context {W : Type} `{TrackableAddressesProvider} `{ProxyHandler W} `{LastProcessedNonceHandler W}.

Definition notifyNewDepositTransactionFound (tx : TransactionOnNetwork) (wt : walletTracker) : walletTracker :=
  if handlerNewDepositTransaction wt then
    mkTracker (accumulator wt) (minimumBalance wt) (handlerNewDepositTransaction wt) (deposits wt ++ [tx])
  else wt.

Definition processTransaction (tx : TransactionOnNetwork) : M walletTracker () := λ wt,
  match bigint_SetString (ton_Value tx) with
  | None => (Fail ErrInvalidTransactionValue, wt)
  | Some value =>
    if negb (tap_IsTrackableAddresses (ton_Receiver tx)) then (Ok (), wt)
    else if value <? minimumBalance wt then (Ok (), wt)
    else
      let wt := notifyNewDepositTransactionFound tx wt in
      (Ok (), mkTracker (push (ton_Receiver tx) (accumulator wt)) (minimumBalance wt)
                (handlerNewDepositTransaction wt) (deposits wt))
  end.

(** An error is logged and the loop goes on. *)
Definition processHyperBlock (block : HyperBlock) (wt : walletTracker) : walletTracker :=
  foldl (λ wt tx, (processTransaction tx wt).2) wt (hb_Transactions block).

Definition fetchAndProcessHyperBlock (nonce : Z) : M (walletTracker * W) () :=
  block ← onsnd (ph_GetHyperBlockByNonce nonce);
  block ← deref block;
  onfst (modify (processHyperBlock block)).

(** [for nonce := last + 1; nonce <= networkNonce; nonce++] on a 64 bit counter;
    a run out of fuel is a panic. *)
Fixpoint process_loop (fuel : nat) (nonce networkNonce : Z) : M (walletTracker * W) () :=
  if negb (nonce <=? networkNonce) then mret ()
  else
    match fuel with
    | O => panic
    | S fuel =>
      fetchAndProcessHyperBlock nonce ;;
      onsnd (modify (nh_ProcessedNonce nonce)) ;;
      process_loop fuel (u64 (nonce + 1)) networkNonce
    end.

Definition fetchAndProcessHyperBlocks : M (walletTracker * W) () :=
  lastProcessedNonce ← onsnd (gets nh_GetLastProcessedNonce);
  networkNonce ← onsnd ph_GetLatestHyperBlockNonce;
  let nonce := u64 (lastProcessedNonce + 1) in
  process_loop (Z.to_nat (networkNonce - nonce + 1)) nonce networkNonce.

Definition SetHandlerForNewDepositTransactionFound (handler_nil : bool) (wt : walletTracker) : walletTracker :=
  if handler_nil then wt
  else mkTracker (accumulator wt) (minimumBalance wt) true (deposits wt).

Definition GetLatestTrackedAddresses `{MapRange ()} (wt : walletTracker) : list string * walletTracker :=
  let '(addresses, aa) := pop (accumulator wt) in
  (addresses, mkTracker aa (minimumBalance wt) (handlerNewDepositTransaction wt) (deposits wt)).
End Tracker.

(** ** [moveBalanceHandler.go] *)

Record moveBalanceHandler := mkMoveBalance {
  cachedNetConfigs : option NetworkConfig;
  receiverAddress : string;
  mb_minimumBalance : Z }.

Definition NewMoveBalanceHandler (tap_nil proxy_nil ti_nil : bool) (ReceiverAddress : string) (MinimumBalance : option Z) :
  outcome moveBalanceHandler :=
  if tap_nil then Fail ErrNilTrackableAddressesProvider
  else if proxy_nil then Fail ErrNilProxy
  else if ti_nil then Fail ErrNilTransactionInteractor
  else match MinimumBalance with
       | None => Fail ErrNilMinimumBalance
       | Some m => Ok (mkMoveBalance None ReceiverAddress m)
       end.

(** A product of two [int64] conversions, as big integers. *)
Definition computeTxFee (networkConfigs : NetworkConfig) (tx : FrontendTransaction) : Z :=
  let gasLimit := u64 (nc_MinGasLimit networkConfigs
                       + u64 (Z.of_nat (length (tx_Data tx)) * nc_GasPerDataByte networkConfigs)) in
  i64 (tx_GasPrice tx) * i64 gasLimit.

Section MoveBalance.
Context {W : Type} `{PubkeyConverter} `{Crypto} `{TrackableAddressesProvider} `{ProxyHandler W}
  `{!TransactionInteractor W}.
Abbreviation St := (moveBalanceHandler * W)%type.

Definition CacheNetworkConfigs : M St () :=
  cachedNetConfigs ← onsnd ph_GetNetworkConfig;
  onfst (modify (λ mbh, mkMoveBalance cachedNetConfigs (receiverAddress mbh) (mb_minimumBalance mbh))).

Definition generateTransaction (address : string) : M St () :=
  addressHandler ← lift (NewAddressFromBech32String address);
  mbh ← gets fst;
  match cachedNetConfigs mbh with
  | None => throw (ErrText "nil cached configs")
  | Some networkConfigs =>
    '(tx, availableBalanceString) ← onsnd (ph_GetDefaultTransactionArguments addressHandler networkConfigs);
    match bigint_SetString availableBalanceString with
    | None => throw ErrInvalidAvailableBalanceValue
    | Some availableBalance =>
      if availableBalance <? mb_minimumBalance mbh then mret ()
      else
        let tx := tx_setData [] tx in
        let tx := tx_setReceiver (receiverAddress mbh) tx in
        let value := availableBalance - computeTxFee networkConfigs tx in
        let tx := tx_setValue (itoa value) tx in
        let skBytes := tap_PrivateKeyOfBech32Address address in
        cryptoHolder ← lift (NewCryptoComponentsHolder skBytes);
        tx ← lift (tri_ApplyUserSignature cryptoHolder tx);
        onsnd (modify (tri_AddTransaction tx))
    end
  end.

(** An error is logged and the loop goes on. *)
Definition generateTransactionAndHandleErrors (address : string) : M St () :=
  try (generateTransaction address) ;; mret ().

Definition GenerateMoveBalanceTransactions (addresses : list string) : M St () :=
  mfor addresses generateTransactionAndHandleErrors.
End MoveBalance.

(** ** What the tracker collects *)

(** What each component promises the tracker: the nonce store returns what was
    stored, and the proxy, whose blocks are those of one chain [blk], leaves the
    store alone. *)
Class TrackerLaws (W : Type) `{ProxyHandler W} `{LastProcessedNonceHandler W} (blk : Z → HyperBlock) := {
  nh_stored n w : nh_GetLastProcessedNonce (nh_ProcessedNonce n w) = n;
  ph_latest_store w : nh_GetLastProcessedNonce (ph_GetLatestHyperBlockNonce w).2 = nh_GetLastProcessedNonce w;
  ph_block_store n w : nh_GetLastProcessedNonce (ph_GetHyperBlockByNonce n w).2 = nh_GetLastProcessedNonce w;
  ph_block_chain n w o w' : ph_GetHyperBlockByNonce n w = (Ok o, w') → o = Some (blk n);
  ph_block_no_panic n : no_panic (ph_GetHyperBlockByNonce n) }.

Section Deposits.
Context {W : Type} `{TrackableAddressesProvider} `{TrackerLaws W blk}.

(** The reference: a transfer to a tracked address of at least the minimum. *)
Definition is_deposit (minimum : Z) (tx : TransactionOnNetwork) : bool :=
  match bigint_SetString (ton_Value tx) with
  | Some value => tap_IsTrackableAddresses (ton_Receiver tx) && (minimum <=? value)
  | None => false
  end.

Definition deposits_of (minimum : Z) (b : HyperBlock) : list TransactionOnNetwork :=
  List.filter (is_deposit minimum) (hb_Transactions b).

(** The deposits of the blocks [from], [from + 1], ..., [from + count - 1]. *)
Definition deposits_between (minimum from count : Z) : list TransactionOnNetwork :=
  concat (map (λ n, deposits_of minimum (blk n)) (seqZ from count)).

(** A tracker that has seen some more deposits. *)
Record saw (txs : list TransactionOnNetwork) (wt wt' : walletTracker) : Prop := {
  saw_minimum : minimumBalance wt' = minimumBalance wt;
  saw_handler : handlerNewDepositTransaction wt' = handlerNewDepositTransaction wt;
  saw_deposits : deposits wt' = deposits wt ++ (if handlerNewDepositTransaction wt then txs else []);
  saw_addresses a : is_Some (addressesMap (accumulator wt') !! a) ↔
       is_Some (addressesMap (accumulator wt) !! a) ∨ a ∈ map ton_Receiver txs }.

Lemma saw_nil wt : saw [] wt wt.
Proof.
  split; [done..|by destruct (handlerNewDepositTransaction wt); rewrite app_nil_r|].
  intros a. split; [by left|]. intros [?|?%not_elem_of_nil]; done.
Qed.

Lemma saw_app txs1 txs2 wt1 wt2 wt3 : saw txs1 wt1 wt2 → saw txs2 wt2 wt3 → saw (txs1 ++ txs2) wt1 wt3.
Proof.
  intros [M1 N1 D1 A1] [M2 N2 D2 A2]. split; [congruence..| |].
  - rewrite D2, D1, N1. destruct (handlerNewDepositTransaction wt1); [by rewrite <-app_assoc|by rewrite !app_nil_r].
  - intros a. rewrite A2, A1, List.map_app, elem_of_app. tauto.
Qed.

Lemma processTransaction_saw tx wt :
  saw (if is_deposit (minimumBalance wt) tx then [tx] else []) wt (processTransaction tx wt).2.
Proof.
  unfold processTransaction, is_deposit. destruct (bigint_SetString (ton_Value tx)) as [v|]; [|apply saw_nil].
  destruct (tap_IsTrackableAddresses (ton_Receiver tx)); cbn [negb andb]; [|apply saw_nil].
  rewrite Z.leb_antisym. destruct (v <? minimumBalance wt); cbn [negb]; [apply saw_nil|].
  unfold notifyNewDepositTransactionFound. destruct wt as [[m] mb [] ds]; split; cbn; rewrite ?app_nil_r; try done;
    intros a; rewrite list_elem_of_singleton; destruct (decide (a = ton_Receiver tx)) as [->|];
    rewrite ?lookup_insert_eq, ?lookup_insert_ne by done; intuition eauto.
Qed.

Lemma processHyperBlock_saw b wt : saw (deposits_of (minimumBalance wt) b) wt (processHyperBlock b wt).
Proof.
  unfold processHyperBlock, deposits_of. revert wt. induction (hb_Transactions b) as [|tx txs IH]; intros wt; [apply saw_nil|].
  cbn [foldl List.filter]. pose proof (processTransaction_saw tx wt) as Hd1.
  pose proof (IH (processTransaction tx wt).2) as Hd2. rewrite (saw_minimum _ _ _ Hd1) in Hd2.
  destruct (is_deposit (minimumBalance wt) tx); [apply (saw_app [tx] _ _ _ _ Hd1 Hd2)|apply (saw_app [] _ _ _ _ Hd1 Hd2)].
Qed.

Lemma deposits_between_cons m n k : 0 < k →
  deposits_between m n k = deposits_of m (blk n) ++ deposits_between m (n + 1) (k - 1).
Proof. intros Hk. unfold deposits_between. rewrite seqZ_cons by lia. done. Qed.

(** Where a run of the loop from [n] stops, and with what. *)
Definition loop_stops (n N : Z) (wt : walletTracker) (r : outcome ()) (wt' : walletTracker) (k : Z) : Prop :=
  n - 1 ≤ k ≤ Z.max (n - 1) N ∧ saw (deposits_between (minimumBalance wt) n (k - (n - 1))) wt wt' ∧
  (r = Ok () ↔ k = Z.max (n - 1) N) ∧ r ≠ Panic.

Lemma loop_stops_here n N wt r :
  r ≠ Panic → (r = Ok () ↔ N < n) → loop_stops n N wt r wt (n - 1).
Proof.
  intros Hp Hr. unfold loop_stops, deposits_between. rewrite seqZ_nil by lia.
  split_and!; [lia|lia|apply saw_nil|rewrite Hr; lia|done].
Qed.

Lemma process_loop_saw fuel n N wt w :
  0 ≤ n → N < 2 ^ 64 - 1 → N - n + 1 ≤ Z.of_nat fuel → nh_GetLastProcessedNonce w = n - 1 →
  ∃ r wt' w', process_loop fuel n N (wt, w) = (r, (wt', w')) ∧
    loop_stops n N wt r wt' (nh_GetLastProcessedNonce w').
Proof.
  revert n wt w. induction fuel as [|fuel IH]; intros n wt w Hn HN Hf Hl; cbn [process_loop];
    (destruct (Z.leb_spec n N) as [Hle|Hgt]; cbn [negb];
     [|exists (Ok ()), wt, w; split; [done|]; rewrite Hl; by apply loop_stops_here]); [lia|].
  unfold fetchAndProcessHyperBlock, mbind, M_bind, onsnd, onfst, deref, modify.
  pose proof (ph_block_store n w) as Hs. pose proof (ph_block_no_panic n w) as Hp.
  destruct (ph_GetHyperBlockByNonce n w) as [[o|e|] w1] eqn:E; cbn [fst snd] in *; [| |done].
  - rewrite (ph_block_chain _ _ _ _ E). pose proof (processHyperBlock_saw (blk n) wt) as Hsaw.
    set (wt1 := processHyperBlock (blk n) wt) in *. rewrite u64_small by (unfold is_u64; lia).
    destruct (IH (n + 1) wt1 (nh_ProcessedNonce n w1)) as (r & wt' & w' & Er & Hk & Hsaw' & Hr & Hnp);
      [lia..|rewrite nh_stored; lia|].
    exists r, wt', w'. unfold mbind, M_bind, onsnd in Er. rewrite Er. split; [done|].
    rewrite (saw_minimum _ _ _ Hsaw) in Hsaw'.
    split_and!; [lia|lia| |rewrite Hr; lia|done].
    rewrite deposits_between_cons by lia. replace (nh_GetLastProcessedNonce w' - (n - 1) - 1)
      with (nh_GetLastProcessedNonce w' - (n + 1 - 1)) by lia. by eapply saw_app.
  - exists (Fail e), wt, w1. split; [done|]. rewrite Hs, Hl. apply loop_stops_here; [done|]. split; [done|lia].
Qed.

(** C12: every hyper block is processed once and in order, across ticks and errors:
    a tick starts at the block after the stored nonce and ends with a stored
    nonce [k], where it has seen exactly the deposits of the blocks up to [k]:
    each was reported to the handler, in order, and its receiver accumulated.
    The tick ends without an error exactly when it reached the latest block;
    after an error the next tick goes on at [k + 1]. The latest block and the stored
    nonce are below [2^64 - 1], where the loop of the code would not end. *)
Theorem fetchAndProcessHyperBlocks_once wt w N w0 :
  ph_GetLatestHyperBlockNonce w = (Ok N, w0) →
  N < 2 ^ 64 - 1 → 0 ≤ nh_GetLastProcessedNonce w < 2 ^ 64 - 1 →
  ∃ r wt' w', fetchAndProcessHyperBlocks (wt, w) = (r, (wt', w')) ∧ r ≠ Panic ∧
    let last := nh_GetLastProcessedNonce w in
    let k := nh_GetLastProcessedNonce w' in
    last ≤ k ≤ Z.max last N ∧ (r = Ok () ↔ k = Z.max last N) ∧
    let txs := deposits_between (minimumBalance wt) (last + 1) (k - last) in
    deposits wt' = deposits wt ++ (if handlerNewDepositTransaction wt then txs else []) ∧
    (∀ a, is_Some (addressesMap (accumulator wt') !! a) ↔
          is_Some (addressesMap (accumulator wt) !! a) ∨ a ∈ map ton_Receiver txs).
Proof.
  intros E HN Hl. pose proof (ph_latest_store w) as Hs. rewrite E in Hs. cbn [snd] in Hs.
  set (last := nh_GetLastProcessedNonce w) in *.
  destruct (process_loop_saw (Z.to_nat (N - (last + 1) + 1)) (last + 1) N wt w0) as (r & wt' & w' & Er & Hk & Hsaw & Hr & Hp); [lia..|].
  exists r, wt', w'. unfold fetchAndProcessHyperBlocks, mbind, M_bind, onsnd, gets.
  rewrite E. fold last. rewrite u64_small by (unfold is_u64; lia). unfold mbind, M_bind, onsnd in Er. rewrite Er.
  replace (last + 1 - 1) with last in * by lia. destruct Hsaw as [_ _ Hd Ha].
  split_and!; [done|done|lia|lia|done|exact Hd|exact Ha].
Qed.
End Deposits.

(** what is accumulated is handed out once: the addresses popped are those
    pushed since the last pop, each one time however often it was pushed and in
    whatever order the map is walked, and nothing is left for the next pop. *)
Theorem pop_gives_pushed_once `{MapRange ()} (pushed : list string) :
  let aa := foldl (λ aa a, push a aa) newAddressesAccumulator pushed in
  NoDup (pop aa).1 ∧ (∀ a, a ∈ (pop aa).1 ↔ a ∈ pushed) ∧ (pop (pop aa).2).1 = [].
Proof.
  intros aa. unfold pop. cbn [fst snd]. split_and!.
  - apply map_range_NoDup.
  - intros a. rewrite list_elem_of_fmap.
    assert (Hg : ∀ l aa, (addressesMap (foldl (λ aa a, push a aa) aa l) !! a = Some ()) ↔ addressesMap aa !! a = Some () ∨ a ∈ l).
    { clear. induction l as [|x l IH]; intros aa; cbn [foldl].
      - split; [by left|]. intros [?|?%not_elem_of_nil]; done.
      - rewrite IH, elem_of_cons. unfold push. cbn [addressesMap]. destruct (decide (x = a)) as [->|Hne].
        + rewrite lookup_insert_eq. tauto.
        + rewrite lookup_insert_ne by done. intuition congruence. }
    assert (He : addressesMap aa !! a = Some () ↔ a ∈ pushed).
    { unfold aa. rewrite Hg. cbn [newAddressesAccumulator addressesMap]. rewrite lookup_empty. intuition congruence. }
    rewrite <-He. split.
    + intros ([x []] & -> & Hin). by apply map_range_elem.
    + intros E. exists (a, ()). split; [done|]. by apply map_range_elem.
  - pose proof (range_perm (∅ : gmap string ())) as E. cbn [addressesMap].
    rewrite map_to_list_empty in E. apply Permutation_nil_r in E. by rewrite E.
Qed.

(** ** What the mover sends *)

Section Moves.
Context {W : Type} `{PubkeyConverter} `{Crypto} `{TrackableAddressesProvider} `{ProxyHandler W}
  `{!TransactionInteractor W}.

(** The transaction handed over to be signed, for one address. *)
Definition moved (mbh : moveBalanceHandler) (c : NetworkConfig) (tx : FrontendTransaction) (balance : Z) : FrontendTransaction :=
  let tx := tx_setReceiver (receiverAddress mbh) (tx_setData [] tx) in
  tx_setValue (itoa (balance - computeTxFee c tx)) tx.

(** emptying an address: for an account whose balance is at least the minimum,
    the transaction added carries a value that together with its fee is the whole
    balance, goes to the configured receiver without data, and is signed with
    the key of the address; it is added once, after it is signed.  The value is
    not negative when the minimum covers the fee.  Below the minimum nothing is
    added and no error is reported. *)
Theorem generateTransaction_empties mbh w a addr c tx s balance w1 :
  NewAddressFromBech32String a = Ok addr →
  cachedNetConfigs mbh = Some c →
  ph_GetDefaultTransactionArguments addr c w = (Ok (tx, s), w1) →
  bigint_SetString s = Some balance →
  (balance < mb_minimumBalance mbh → generateTransaction a (mbh, w) = (Ok (), (mbh, w1))) ∧
  (mb_minimumBalance mbh ≤ balance →
    let m := moved mbh c tx balance in
    (∃ v, bigint_SetString (tx_Value m) = Some v ∧ v + computeTxFee c m = balance ∧
          (computeTxFee c m ≤ mb_minimumBalance mbh → 0 ≤ v)) ∧
    tx_Receiver m = receiverAddress mbh ∧ tx_Data m = [] ∧ tx_Nonce m = tx_Nonce tx ∧
    generateTransaction a (mbh, w) =
      match holder ← NewCryptoComponentsHolder (tap_PrivateKeyOfBech32Address a); tri_ApplyUserSignature holder m with
      | Ok signed => (Ok (), (mbh, tri_AddTransaction signed w1))
      | Fail e => (Fail e, (mbh, w1))
      | Panic => (Panic, (mbh, w1))
      end).
Proof.
  intros Ea Ec Ed Es.
  assert (Eg : generateTransaction a (mbh, w) =
    if balance <? mb_minimumBalance mbh then (Ok (), (mbh, w1))
    else match holder ← NewCryptoComponentsHolder (tap_PrivateKeyOfBech32Address a);
                tri_ApplyUserSignature holder (moved mbh c tx balance) with
         | Ok signed => (Ok (), (mbh, tri_AddTransaction signed w1))
         | Fail e => (Fail e, (mbh, w1))
         | Panic => (Panic, (mbh, w1))
         end).
  { unfold generateTransaction, mbind, M_bind, lift, gets, onsnd. rewrite Ea. cbn [fst]. rewrite Ec, Ed, Es.
    destruct (balance <? mb_minimumBalance mbh); [done|]. fold (moved mbh c tx balance). unfold outcome_bind, modify.
    destruct (NewCryptoComponentsHolder _) as [h|e|]; [|done..]. by destruct (tri_ApplyUserSignature _ _). }
  rewrite Eg. split; intros Hb.
  - by destruct (Z.ltb_spec balance (mb_minimumBalance mbh)); [|lia].
  - intros m. destruct (Z.ltb_spec balance (mb_minimumBalance mbh)); [lia|].
    split_and!; [|done..]. exists (balance - computeTxFee c m). split_and!; [|lia|lia].
    unfold m, moved. cbn [tx_Value tx_setValue]. by rewrite bigint_SetString_itoa.
Qed.
End Moves.

(** ** Concrete runs *)

Module WorkflowsRun.
(** Odd blocks hold a deposit; the world is the stored nonce and the transactions added. *)
Definition track_all : TrackableAddressesProvider := {|
  tap_IsTrackableAddresses _ := true; tap_PrivateKeyOfBech32Address _ := replicate 32 x07 |}.
#[local] Existing Instance track_all.
Definition world : Type := Z * list FrontendTransaction.
Definition store : LastProcessedNonceHandler world := {|
  nh_ProcessedNonce n w := (n, w.2); nh_GetLastProcessedNonce w := w.1 |}.
#[local] Existing Instance store.
Definition chain (n : Z) : HyperBlock :=
  simpleHyperBlock n "" (if Z.odd n then [simpleTon (itoa n) "100" "a" "b"; simpleTon "small" "1" "a" "c"] else []).
Definition chain_proxy : ProxyHandler world := {|
  ph_GetLatestHyperBlockNonce := mret 7;
  ph_GetHyperBlockByNonce n := mret (Some (chain n));
  ph_GetDefaultTransactionArguments _ c := mret (tx_setGasPrice (nc_MinGasPrice c) (tx_setNonce 3 emptyTx), "90000000");
  ph_GetNetworkConfig := mret (Some (simpleConfig "T" 1500 50000 1000 1 3)) |}.
#[local] Existing Instance chain_proxy.
Lemma chain_laws : TrackerLaws world chain.
Proof. split; try done. intros n w o w'. cbn. unfold mret, M_ret. congruence. Qed.

Lemma fetchAndProcessHyperBlocks_once_witness :
  let wt := mkTracker newAddressesAccumulator 50 true [] in
  let w : world := (4, []) in
  (∃ r wt' w', fetchAndProcessHyperBlocks (wt, w) = (r, (wt', w')) ∧ r ≠ Panic ∧
    let last := nh_GetLastProcessedNonce w in
    let k := nh_GetLastProcessedNonce w' in
    last ≤ k ≤ Z.max last 7 ∧ (r = Ok () ↔ k = Z.max last 7) ∧
    let txs := deposits_between (blk := chain) (minimumBalance wt) (last + 1) (k - last) in
    deposits wt' = deposits wt ++ (if handlerNewDepositTransaction wt then txs else []) ∧
    (∀ a, is_Some (addressesMap (accumulator wt') !! a) ↔
          is_Some (addressesMap (accumulator wt) !! a) ∨ a ∈ map ton_Receiver txs)) ∧
  map ton_Hash (deposits (fetchAndProcessHyperBlocks (wt, w)).2.1) = ["5"; "7"].
Proof.
  split; [|vm_compute; reflexivity].
  apply (@fetchAndProcessHyperBlocks_once world _ _ _ chain chain_laws _ _ 7 (4, [])); [reflexivity|lia|cbn; lia].
Defined.

#[local] Existing Instance hexConverter.
#[local] Existing Instance toyCrypto.
Definition interactor : TransactionInteractor world := {|
  tri_AddTransaction tx w := (w.1, w.2 ++ [tx]);
  tri_ApplyUserSignature h tx := Ok (tx_setSignature (bech32Address h) tx) |}.
#[local] Existing Instance interactor.

Lemma generateTransaction_empties_witness :
  let c := simpleConfig "T" 1500 50000 1000 1 3 in
  let mbh := mkMoveBalance (Some c) "hot" 60000000 in
  let a := hex_EncodeToString (replicate 32 x07) in
  let tx := tx_setGasPrice 1000 (tx_setNonce 3 emptyTx) in
  let m := moved mbh c tx 90000000 in
  (∃ v, bigint_SetString (tx_Value m) = Some v ∧ v + computeTxFee c m = 90000000 ∧
          (computeTxFee c m ≤ mb_minimumBalance mbh → 0 ≤ v)) ∧
  generateTransaction a (mbh, (0, [])) = (Ok (), (mbh, (0, [tx_setSignature a m]))) ∧ tx_Value m = "40000000".
Proof.
  intros c mbh a tx m.
  pose proof (proj2 (generateTransaction_empties mbh ((0, []) : world) a (mkAddress (replicate 32 x07)) c tx "90000000" 90000000
    (0, []) eq_refl eq_refl eq_refl eq_refl)) as Hm.
  destruct (Hm ltac:(cbn; lia)) as (Hv & _ & _ & _ & E). split; [exact Hv|]. split; [exact E|vm_compute; reflexivity].
Defined.

(** A minimum below the fee: the value of the transaction is negative. *)
Example generateTransaction_negative :
  let c := simpleConfig "T" 1500 50000 100000 1 3 in
  let mbh := mkMoveBalance (Some c) "hot" 1 in
  let a := hex_EncodeToString (replicate 32 x07) in
  map tx_Value (generateTransaction a (mbh, ((0, []) : world))).2.2.2 = ["-4910000000"].
Proof. vm_compute. reflexivity. Qed.
End WorkflowsRun.
