(* ===== verification/Loops.v ===== *)
(** * Counting loops ([blockchain/proxy.go] FilterLogs, [workflows/walletsTracker.go])

    [for i := a; i <= b; i++] on a [uint64] ends for every [b] but the greatest
    one, where [i <= b] is always true.  The runs of such a loop are an inductive
    relation, free of fuel; the loops of the development are proved to compute
    them, so that the fuel they are given is no part of their meaning. *)

From S2P Require Import FilterLogs Workflows.

(** ** Runs of a loop

    [a] is what the loop accumulates; an error or a panic of the body leaves it. *)

Section ForLoop.
Context {S A : Type} (body : Z → A → M S A) (hi : Z).

Inductive for_runs : Z → A → S → outcome A * S → Prop :=
  | for_stop i a s : hi < i → for_runs i a s (Ok a, s)
  | for_next i a s a' s' r : i ≤ hi → body i a s = (Ok a', s') →
      for_runs (u64 (i + 1)) a' s' r → for_runs i a s r
  | for_fail i a s e s' : i ≤ hi → body i a s = (Fail e, s') → for_runs i a s (Fail e, s')
  | for_panic i a s s' : i ≤ hi → body i a s = (Panic, s') → for_runs i a s (Panic, s').

Lemma for_runs_det i a s r r' : for_runs i a s r → for_runs i a s r' → r = r'.
Proof.
  intros Hr. revert r'.
  induction Hr as [i a s Hlt|i a s a' s' r Hle E Hr IH|i a s e s' Hle E|i a s s' Hle E]; intros r' Hr';
    inversion Hr'; subst; try lia; try done;
    match goal with H1 : body _ _ _ = _, H2 : body _ _ _ = _ |- _ => rewrite H1 in H2 end; simplify_eq; auto.
Qed.

(** A loop with fuel, whatever it does when the fuel is spent. *)
Fixpoint for_fuel (fuel : nat) (i : Z) (a : A) : M S A := λ s,
  if negb (i <=? hi) then (Ok a, s)
  else match fuel with
       | O => (Panic, s)
       | Datatypes.S fuel => (body i a ≫= for_fuel fuel (u64 (i + 1))) s
       end.

Lemma for_fuel_runs fuel i a s :
  0 ≤ i → hi < 2 ^ 64 - 1 → hi - i + 1 ≤ Z.of_nat fuel → for_runs i a s (for_fuel fuel i a s).
Proof.
  revert i a s. induction fuel as [|fuel IH]; intros i a s Hi Hhi Hf; cbn [for_fuel];
    (destruct (Z.leb_spec i hi) as [Hle|Hgt]; cbn [negb]; [|by apply for_stop]); [lia|].
  unfold mbind, M_bind. destruct (body i a s) as [[a'|e|] s'] eqn:E.
  - eapply for_next; [done|exact E|]. apply IH; [apply u64_range|done|]. rewrite u64_small by (unfold is_u64; lia). lia.
  - by eapply for_fail.
  - by eapply for_panic.
Qed.

(** Up to the greatest number no run ends, as long as the body goes on. *)
Lemma for_runs_forever (I : S → Prop) i a s r :
  hi = 2 ^ 64 - 1 →
  (∀ i a s, is_u64 i → I s → ∃ a' s', body i a s = (Ok a', s') ∧ I s') →
  is_u64 i → I s → ¬ for_runs i a s r.
Proof.
  intros Hhi Hbody Hi HI Hr. induction Hr as [i a s Hlt|i a s a' s' r _ E _ IH|i a s e s' _ E|i a s s' _ E].
  - unfold is_u64 in Hi. lia.
  - destruct (Hbody i a s Hi HI) as (? & ? & E' & ?). rewrite E in E'. simplify_eq. apply IH; [apply u64_range|done].
  - destruct (Hbody i a s Hi HI) as (? & ? & E' & ?). congruence.
  - destruct (Hbody i a s Hi HI) as (? & ? & E' & ?). congruence.
Qed.
End ForLoop.

(** ** The search of the logs *)

Section Filter.
Context {C W : Type} `{HttpClientWrapper W} `{Clock W} `{EndpointProvider} `{ApiJson}
  `{PubkeyConverter} `{ShardingCoordinator} `{CacherLaws blockData C}.

(** The body of the loop of [FilterLogs]. *)
Definition visitBlock (shardID : Z) (filter : FilterQuery) (blockNum : Z) (matchingEvents : list Events) :
  M (C * W) (list Events) :=
  blockLogs ← getLogsFromBlock shardID blockNum filter; mret (matchingEvents ++ blockLogs).

Lemma filterLoop_fuel fuel shardID from to filter acc s :
  filterLoop fuel shardID from to filter acc s = for_fuel (visitBlock shardID filter) to fuel from acc s.
Proof.
  revert from acc s. induction fuel as [|fuel IH]; intros from acc s; cbn [filterLoop for_fuel]; [by destruct (from <=? to)|].
  destruct (from <=? to); [|done]. cbn [negb]. unfold visitBlock, mbind, M_bind, mret, M_ret.
  destruct (getLogsFromBlock shardID from filter s) as [[logs|e|] s']; [apply IH|done..].
Qed.

(** A range that is accepted has at most 501 blocks, or none. *)
Lemma resolveBlockRange_width filter latest from to :
  is_u64 latest → (∀ z, f_FromBlock filter = Some z ∨ f_ToBlock filter = Some z → is_u64 z) →
  resolveBlockRange filter latest = Ok (from, to) →
  is_u64 from ∧ to ≤ latest ∧ to - from ≤ MaximumBlocksDelta.
Proof.
  intros Hl Hz. unfold resolveBlockRange.
  assert (Hw : ∀ x y, is_u64 x → is_u64 y → (u64 (y - x) <=? MaximumBlocksDelta) = true → y - x ≤ MaximumBlocksDelta).
  { unfold is_u64. intros x y Hx Hy Hd%Z.leb_le. destruct (decide (x ≤ y)); [|unfold MaximumBlocksDelta; lia].
    by rewrite u64_small in Hd by (unfold is_u64; lia). }
  assert (Hzero : is_u64 0) by (unfold is_u64; lia).
  destruct (f_FromBlock filter) as [x|], (f_ToBlock filter) as [y|]; [| | |done].
  all: repeat (destruct (Z.ltb_spec latest y); [done|]).
  all: destruct (u64 _ <=? MaximumBlocksDelta) eqn:E; [|done]; intros [= <- <-].
  all: split_and!; [auto|lia|by apply Hw; auto].
Qed.

(** C40: a search ends: for any filter, shard and chain below the block number
    [2^64 - 1], the loop of [FilterLogs] over the range that
    [computeFromToBlocksForFilter] answers has a run, it is the only one, and it
    is what the loop of the model computes with its fuel of 501 blocks. *)
Theorem FilterLogs_terminates (filter : FilterQuery) (shardID latest from to : Z) (s s' : C * W) :
  is_u64 latest → (∀ z, f_FromBlock filter = Some z ∨ f_ToBlock filter = Some z → is_u64 z) →
  computeFromToBlocksForFilter filter shardID latest s = (Ok (from, to), s') →
  0 ≤ from → to < 2 ^ 64 - 1 →
  ∀ r, for_runs (visitBlock shardID filter) to from [] s' r ↔ r = filterLoop filterFuel shardID from to filter [] s'.
Proof.
  intros Hl Hz E Hfrom Hto r. rewrite filterLoop_fuel.
  assert (Hw : to - from + 1 ≤ Z.of_nat filterFuel).
  { revert E. unfold computeFromToBlocksForFilter. destruct (f_BlockHash filter) as [hash|].
    - unfold mbind, M_bind, mret, M_ret. destruct (getBlockNumberByHash shardID hash s) as [[n|e|] s1]; [|done..].
      intros [= <- <- <-]. unfold filterFuel, MaximumBlocksDelta. lia.
    - unfold lift. intros [= E <-]. apply resolveBlockRange_width in E as (_ & _ & Hd); [|done..].
      unfold filterFuel, MaximumBlocksDelta in *. lia. }
  pose proof (for_fuel_runs (visitBlock shardID filter) to filterFuel from [] s' Hfrom Hto Hw) as Hr.
  split; [|by intros ->]. intros Hr'. by eapply for_runs_det.
Qed.

(** The block number found by a hash is not bounded by the latest block: a block
    that says to be the last possible one makes the search endless. *)
Theorem FilterLogs_endless (shard : Z) (raw : Z → bytes) (blk : Z → apiBlock) filter from c w r :
  serves shard raw blk → coherent raw c → is_u64 from →
  ¬ for_runs (visitBlock shard filter) (2 ^ 64 - 1) from [] (c, w) r.
Proof.
  intros Hs Hc Hfrom. apply (for_runs_forever _ _ (λ s, coherent raw s.1)); [done| |done|done].
  intros i a [c1 w1] Hi Hc1. destruct (getLogsFromBlock_run _ raw blk Hs i filter c1 w1 Hi Hc1) as (c2 & w2 & E & Hc2).
  exists (a ++ extractMatchingEvents (blk i) filter), (c2, w2). split; [|done].
  unfold visitBlock, mbind, M_bind. by rewrite E.
Qed.
End Filter.

(** ** The tick of the tracker *)

Section Tracker.
Context {W : Type} `{ProxyHandler W} `{LastProcessedNonceHandler W} `{!TrackableAddressesProvider}.

Definition processNonce (nonce : Z) (_ : ()) : M (walletTracker * W) () :=
  fetchAndProcessHyperBlock nonce ;; onsnd (modify (nh_ProcessedNonce nonce)).

Lemma process_loop_fuel fuel nonce networkNonce s :
  process_loop fuel nonce networkNonce s = for_fuel processNonce networkNonce fuel nonce () s.
Proof.
  revert nonce s. induction fuel as [|fuel IH]; intros nonce s; cbn [process_loop for_fuel]; [by destruct (nonce <=? networkNonce)|].
  destruct (nonce <=? networkNonce); [|done]. cbn [negb]. unfold processNonce, mbind, M_bind.
  destruct (fetchAndProcessHyperBlock nonce s) as [[u|e|] s']; [|done..].
  destruct (onsnd (modify (nh_ProcessedNonce nonce)) s') as [[[]|e|] s2]; [apply IH|done..].
Qed.

(** A tick ends for any latest nonce but the greatest one. *)
Lemma process_loop_terminates nonce networkNonce s :
  0 ≤ nonce → networkNonce < 2 ^ 64 - 1 → ∀ r,
  for_runs processNonce networkNonce nonce () s r ↔
  r = process_loop (Z.to_nat (networkNonce - nonce + 1)) nonce networkNonce s.
Proof.
  intros Hn HN r. rewrite process_loop_fuel.
  pose proof (for_fuel_runs processNonce networkNonce (Z.to_nat (networkNonce - nonce + 1)) nonce () s Hn HN ltac:(lia)) as Hr.
  split; [|by intros ->]. intros Hr'. by eapply for_runs_det.
Qed.
End Tracker.

(** ** Concrete runs *)

Module LoopsRun.
Import FilterRun.
#[local] Existing Instances echo_client still proxyEndpointProvider echoJson hexConverter modCoordinator.

Lemma FilterLogs_terminates_witness :
  for_runs (visitBlock 0 filter57) 7 5 [] (NewMapCacher (V := blockData), 3%nat)
    (filterLoop filterFuel 0 5 7 filter57 [] (NewMapCacher (V := blockData), 3%nat)).
Proof.
  eapply (FilterLogs_terminates filter57 0 7 5 7 (NewMapCacher (V := blockData), 3%nat)); [unfold is_u64; lia| | |lia|lia|].
  - intros z [[= <-]|?]; [unfold is_u64; lia|discriminate].
  - reflexivity.
  - reflexivity.
Defined.

(** A network that serves every block, the last possible one included. *)
Example search_from_the_last_block : ∀ r,
  ¬ for_runs (visitBlock 0 filter57) (2 ^ 64 - 1) (2 ^ 64 - 1) [] (NewMapCacher (V := blockData), 0%nat) r.
Proof.
  intros r. apply (FilterLogs_endless 0 (raw_of 0) _ filter57 (2 ^ 64 - 1) NewMapCacher 0%nat r (echo_serves 0)).
  - intros n b _ E. vm_compute in E. discriminate.
  - unfold is_u64. lia.
Qed.
End LoopsRun.
