(* ===== verification/Polling.v ===== *)
(** * The polling handler ([core/polling/pollingHandler.go])

    A handler runs an executor in a goroutine of its own, again and again, until
    [Close].  The handler, its goroutines and its callers are a step relation:
    a goroutine is known by the context it was started with, and is at one of
    the points where it can be interrupted. *)

From S2P Require Export GoStd.

Definition ErrNilLogger : error := ErrVar "polling.ErrNilLogger".
Definition ErrInvalidValue : error := ErrVar "polling.ErrInvalidValue".
Definition ErrNilExecutor : error := ErrVar "polling.ErrNilExecutor".
Definition ErrLoopAlreadyStarted : error := ErrVar "polling.ErrLoopAlreadyStarted".

(** [time.Millisecond] *)
Definition minimumPollingInterval : Z := 1000000.

Record ArgsPollingHandler := mkArgsPolling {
  arg_Log_nil : bool;
  arg_PollingInterval : Z;
  arg_PollingWhenError : Z;
  arg_Executor_nil : bool }.

Definition checkArgs (args : ArgsPollingHandler) : outcome () :=
  if arg_Log_nil args then Fail ErrNilLogger
  else if arg_PollingInterval args <? minimumPollingInterval then Fail (ErrWrap ErrInvalidValue " for PollingInterval")
  else if arg_PollingWhenError args <? minimumPollingInterval then Fail (ErrWrap ErrInvalidValue " for PollingWhenError")
  else if arg_Executor_nil args then Fail ErrNilExecutor
  else Ok ().

(** Where a goroutine of [processLoop] is: about to call the executor; waiting
    for its timer, which was set to an interval; or past the loop, with
    [cleanup] still to run. *)
Inductive loop_state := Executing | Waiting (interval : Z) | Leaving.

(** Contexts are numbered in the order they are made.  [cancel] is the context
    that the handler's cancel function cancels, if it is set. *)
Record pollingHandler := mkPolling {
  pollingInterval : Z;
  pollingWhenError : Z;
  cancel : option nat;
  next_ctx : nat;
  cancelled : list nat;
  loops : list (nat * loop_state);
  executions : list nat  (* the context of every call of the executor *) }.

Definition NewPollingHandler (args : ArgsPollingHandler) : outcome pollingHandler :=
  checkArgs args ;;
  Ok (mkPolling (arg_PollingInterval args) (arg_PollingWhenError args) None 0 [] [] []).

Definition StartProcessingLoop (ph : pollingHandler) : outcome () * pollingHandler :=
  match cancel ph with
  | Some _ => (Fail ErrLoopAlreadyStarted, ph)
  | None =>
    let ctx := next_ctx ph in
    (Ok (), mkPolling (pollingInterval ph) (pollingWhenError ph) (Some ctx) (S ctx) (cancelled ph)
              (loops ph ++ [(ctx, Executing)]) (executions ph))
  end.

Definition IsRunning (ph : pollingHandler) : bool :=
  match cancel ph with Some _ => true | None => false end.

(** Cancelling twice is cancelling once. *)
Definition Close (ph : pollingHandler) : outcome () * pollingHandler :=
  match cancel ph with
  | None => (Ok (), ph)
  | Some ctx => (Ok (), mkPolling (pollingInterval ph) (pollingWhenError ph) (cancel ph) (next_ctx ph)
                          (ctx :: cancelled ph) (loops ph) (executions ph))
  end.

(** The deferred [cleanup]; the goroutine ends with it. *)
Definition cleanup (i : nat) (ph : pollingHandler) : pollingHandler :=
  mkPolling (pollingInterval ph) (pollingWhenError ph) None (next_ctx ph) (cancelled ph)
    (delete i (loops ph)) (executions ph).

Definition set_loop (i : nat) (l : nat * loop_state) (ph : pollingHandler) : pollingHandler :=
  mkPolling (pollingInterval ph) (pollingWhenError ph) (cancel ph) (next_ctx ph) (cancelled ph)
    (<[i := l]> (loops ph)) (executions ph).

(** One turn of the loop: the executor is called and the timer set. *)
Definition execute (i ctx : nat) (failed : bool) (ph : pollingHandler) : pollingHandler :=
  let interval := if failed then pollingWhenError ph else pollingInterval ph in
  mkPolling (pollingInterval ph) (pollingWhenError ph) (cancel ph) (next_ctx ph) (cancelled ph)
    (<[i := (ctx, Waiting interval)]> (loops ph)) (executions ph ++ [ctx]).

(** The steps: a caller's call, or a goroutine that moves.  When both cases of a
    [select] are ready Go takes either. *)
Inductive pstep : pollingHandler → pollingHandler → Prop :=
  | P_Start ph : pstep ph (StartProcessingLoop ph).2
  | P_Close ph : pstep ph (Close ph).2
  | P_Execute i ctx failed ph : loops ph !! i = Some (ctx, Executing) → pstep ph (execute i ctx failed ph)
  | P_Timer i ctx d ph : loops ph !! i = Some (ctx, Waiting d) → pstep ph (set_loop i (ctx, Executing) ph)
  | P_Done i ctx d ph : loops ph !! i = Some (ctx, Waiting d) → ctx ∈ cancelled ph → pstep ph (set_loop i (ctx, Leaving) ph)
  | P_Cleanup i ctx ph : loops ph !! i = Some (ctx, Leaving) → pstep ph (cleanup i ph).

Definition new_handler (interval when_error : Z) : pollingHandler := mkPolling interval when_error None 0 [] [] [].

Definition reachable (ph : pollingHandler) : Prop :=
  ∃ interval when_error, rtc pstep (new_handler interval when_error) ph.

(** ** At most one loop *)

(** The invariant: the cancel function is set exactly while there is a
    goroutine, there is one at most, and it is the one the function cancels; a
    goroutine leaves only when it was cancelled. *)
Definition one_loop (ph : pollingHandler) : Prop :=
  match cancel ph with
  | None => loops ph = []
  | Some ctx => ∃ st, loops ph = [(ctx, st)] ∧ (st = Leaving → ctx ∈ cancelled ph)
  end ∧
  (∀ c, cancel ph = Some c → (c < next_ctx ph)%nat) ∧
  (∀ c, c ∈ cancelled ph → (c < next_ctx ph)%nat).

Lemma one_loop_at ph i ctx st :
  one_loop ph → loops ph !! i = Some (ctx, st) → i = 0%nat ∧ loops ph = [(ctx, st)] ∧ cancel ph = Some ctx.
Proof.
  intros (Hc & _) Hi. destruct (cancel ph) as [c|]; [|by rewrite Hc in Hi].
  destruct Hc as (st' & E & _). rewrite E in Hi. destruct i as [|i]; [|done]. simplify_eq/=. done.
Qed.

Lemma one_loop_step ph ph' : pstep ph ph' → one_loop ph → one_loop ph'.
Proof.
  intros Hs Hi. destruct Hs as [ph|ph|i ctx failed ph E|i ctx d ph E|i ctx d ph E Hin|i ctx ph E].
  - destruct Hi as (Hc & Hn & Hx). unfold StartProcessingLoop. destruct (cancel ph) as [c|] eqn:Ec; cbn [snd].
    + split; [by rewrite Ec|]. split; [rewrite Ec; exact Hn|exact Hx].
    + split; [|split]; cbn.
      * exists Executing. rewrite Hc. done.
      * intros c [= <-]. lia.
      * intros c Hin. specialize (Hx c Hin). lia.
  - destruct Hi as (Hc & Hn & Hx). unfold Close. destruct (cancel ph) as [c|] eqn:Ec; cbn [snd].
    + destruct Hc as (st & El & Hl). split; [|split]; cbn; rewrite ?Ec.
      * exists st. split; [done|]. intros _. by left.
      * exact Hn.
      * intros c' [->|Hin]%elem_of_cons; [by apply Hn|by apply Hx].
    + split; [by rewrite Ec|]. split; [rewrite Ec; exact Hn|exact Hx].
  - destruct (one_loop_at _ _ _ _ Hi E) as (-> & El & Ec). destruct Hi as (_ & Hn & Hx).
    unfold execute, one_loop. cbn. rewrite Ec, El. split; [by eexists|]. rewrite Ec in Hn. done.
  - destruct (one_loop_at _ _ _ _ Hi E) as (-> & El & Ec). destruct Hi as (_ & Hn & Hx).
    unfold set_loop, one_loop. cbn. rewrite Ec, El. split; [by eexists|]. rewrite Ec in Hn. done.
  - destruct (one_loop_at _ _ _ _ Hi E) as (-> & El & Ec). destruct Hi as (_ & Hn & Hx).
    unfold set_loop, one_loop. cbn. rewrite Ec, El. split; [by eexists|]. rewrite Ec in Hn. done.
  - destruct (one_loop_at _ _ _ _ Hi E) as (-> & El & Ec). destruct Hi as (_ & Hn & Hx).
    unfold cleanup, one_loop. cbn. rewrite El. split; [done|]. split; [done|exact Hx].
Qed.

Lemma reachable_one_loop ph : reachable ph → one_loop ph.
Proof.
  intros (a & b & Hr). remember (new_handler a b) as s eqn:Es.
  assert (one_loop s) as Hs. { subst s. split; [done|]. split; [done|]. intros c []%not_elem_of_nil. }
  clear Es. induction Hr as [|s1 s2 s3 H12 _ IH]; [done|]. apply IH. by eapply one_loop_step.
Qed.

(** C24: a polling handler never runs two loops: in every state its callers and its
    goroutines can reach, there is at most one goroutine, there is one exactly
    when [IsRunning] says so, and starting then is refused and changes nothing;
    while none is left, starting works. *)
Theorem polling_one_loop ph :
  reachable ph →
  (length (loops ph) ≤ 1)%nat ∧ (IsRunning ph = true ↔ loops ph ≠ []) ∧
  (IsRunning ph = true → StartProcessingLoop ph = (Fail ErrLoopAlreadyStarted, ph)) ∧
  (IsRunning ph = false → (StartProcessingLoop ph).1 = Ok ()).
Proof.
  intros (Hc & _)%reachable_one_loop. unfold IsRunning, StartProcessingLoop.
  destruct (cancel ph) as [c|].
  - destruct Hc as (st & -> & _). split_and!; [done| |done|done]. split; done.
  - rewrite Hc. split_and!; [cbn; lia| |done|done]. split; [done|by intros []].
Qed.

(** C25: [Close] lets the loop end: after it, from any state that can be reached and
    whatever the goroutine was doing, the goroutine can run to its end with at
    most one more call of the executor, after which the handler is not running
    and can be started again. *)
Theorem polling_Close_stops ph :
  reachable ph → IsRunning ph = true →
  ∃ ph', rtc pstep (Close ph).2 ph' ∧ loops ph' = [] ∧ IsRunning ph' = false ∧
    (length (executions ph') ≤ S (length (executions ph)))%nat ∧ (StartProcessingLoop ph').1 = Ok ().
Proof.
  intros Hr Hrun. pose proof (reachable_one_loop _ Hr) as (Hc & _). unfold IsRunning in Hrun. unfold Close.
  destruct (cancel ph) as [c|] eqn:Ec; [|done]. destruct Hc as (st & El & _). cbn [snd].
  assert (Hleave : ∀ p, loops p = [(c, Leaving)] → ∃ p', rtc pstep p p' ∧ loops p' = [] ∧ cancel p' = None ∧ executions p' = executions p).
  { intros p E. exists (cleanup 0 p). split; [apply rtc_once; eapply P_Cleanup; by rewrite E|]. cbn. by rewrite E. }
  assert (Hwait : ∀ p d, loops p = [(c, Waiting d)] → c ∈ cancelled p →
    ∃ p', rtc pstep p p' ∧ loops p' = [] ∧ cancel p' = None ∧ executions p' = executions p).
  { intros p d E Hin. destruct (Hleave (set_loop 0 (c, Leaving) p)) as (p' & Hp & Hl' & Hc' & He); [cbn; by rewrite E|].
    exists p'. split; [|done]. eapply rtc_l; [|exact Hp]. eapply P_Done; [by rewrite E|done]. }
  set (ph1 := mkPolling _ _ _ _ _ _ _).
  assert (∃ p', rtc pstep ph1 p' ∧ loops p' = [] ∧ cancel p' = None ∧ (length (executions p') ≤ S (length (executions ph)))%nat)
    as (p' & Hp & Hl' & Hc' & He).
  { destruct st as [|d|].
    - destruct (Hwait (execute 0 c false ph1) (pollingInterval ph1)) as (p' & Hp & Hl' & Hc' & He);
        [cbn; by rewrite El|by left|].
      exists p'. split; [|split_and!; try done].
      + eapply rtc_l; [|exact Hp]. apply P_Execute. cbn. by rewrite El.
      + rewrite He. cbn. rewrite length_app. cbn. lia.
    - destruct (Hwait ph1 d) as (p' & Hp & Hl' & Hc' & He); [done|by left|]. exists p'. rewrite He. split_and!; try done. cbn. lia.
    - destruct (Hleave ph1) as (p' & Hp & Hl' & Hc' & He); [done|]. exists p'. rewrite He. split_and!; try done. cbn. lia. }
  exists p'. unfold IsRunning, StartProcessingLoop. rewrite Hc'. done.
Qed.

Definition started : pollingHandler := (StartProcessingLoop (new_handler 2000000 5000000)).2.

Lemma started_reachable : reachable started.
Proof. exists 2000000, 5000000. apply rtc_once, P_Start. Qed.

Lemma polling_one_loop_witness :
  StartProcessingLoop started = (Fail ErrLoopAlreadyStarted, started) ∧ length (loops started) = 1%nat.
Proof.
  split; [|reflexivity]. apply (polling_one_loop started started_reachable). reflexivity.
Defined.

Lemma polling_Close_stops_witness :
  ∃ ph', rtc pstep (Close started).2 ph' ∧ loops ph' = [] ∧ IsRunning ph' = false ∧
    (length (executions ph') ≤ S (length (executions started)))%nat ∧ (StartProcessingLoop ph').1 = Ok ().
Proof. apply (polling_Close_stops started started_reachable). reflexivity. Defined.
