(* ===== verification/HeaderCheck.v ===== *)
(** * The check of header signatures ([headerCheck/])

    [headerVerifier] fetches a raw header, sees that the validators of its
    epoch are known, and has its signature verified.  The headers, their
    encodings, the nodes coordinator and the signature verifier belong to
    mx-chain-go and mx-chain-core-go: they are the classes [Headers],
    [EpochsConfigUpdateHandler] and [HeaderSigVerifierHandler]. *)

From S2P Require Export Proxy.

Definition ErrNilProxy : error := ErrVar "headerCheck.ErrNilProxy".
Definition ErrNilNodesCoordinator : error := ErrVar "headerCheck.ErrNilNodesCoordinator".
Definition ErrNilHeaderSigVerifier : error := ErrVar "headerCheck.ErrNilHeaderSigVerifier".
Definition ErrNilRawHeaderHandler : error := ErrVar "headerCheck.ErrNilRawHeaderHandler".
Definition ErrNilMarshaller : error := ErrVar "headerCheck.ErrNilMarshaller".

(** ** The headers of the chain and what is asked of the node's libraries *)

Class Headers := {
  MetaBlock : Type;
  ShardHeader : Type;
  meta_GetEpoch : MetaBlock → Z;
  meta_GetPrevRandSeed : MetaBlock → bytes;
  shard_GetEpoch : ShardHeader → Z;
  meta_Unmarshal : bytes → outcome MetaBlock;
  UnmarshalShardHeader : bytes → outcome ShardHeader }.

(** The interface [coreData.HeaderHandler], by its two implementations. *)
Inductive HeaderHandler `{Headers} := HMeta (m : MetaBlock) | HShard (h : ShardHeader).

Definition GetEpoch `{Headers} (h : HeaderHandler) : Z :=
  match h with HMeta m => meta_GetEpoch m | HShard h => shard_GetEpoch h end.

(** The network behind the checks. *)
Class HeaderProxy (Info W : Type) := {
  hp_GetRawBlockByHash : Z → string → M W bytes;
  hp_GetRawStartOfEpochMetaBlock : Z → M W bytes;
  hp_GetValidatorsInfoByEpoch : Z → M W (list Info) }.

(** The nodes coordinator and the verifier share the state of the validators. *)
Class EpochsConfigUpdateHandler (Info C : Type) := {
  nc_IsEpochInConfig : Z → C → bool;
  nc_SetNodesConfigFromValidatorsInfo : Z → bytes → list Info → M C () }.
Class HeaderSigVerifierHandler `{Headers} (C : Type) := { hv_VerifySignature : HeaderHandler → C → outcome () }.

(** A configuration that was set is there. *)
Class EpochsConfigLaws (Info C : Type) `{EpochsConfigUpdateHandler Info C} := {
  set_is_in_config epoch r infos c c' :
    nc_SetNodesConfigFromValidatorsInfo epoch r infos c = (Ok (), c') → nc_IsEpochInConfig epoch c' = true }.

(** ** [rawHeaderHandler.go] *)

Definition NewRawHeaderHandler (proxyIsNil marshallerIsNil : bool) : outcome () :=
  guard_err proxyIsNil ErrNilProxy ;; guard_err marshallerIsNil ErrNilMarshaller.

Section HeaderCheck.
Context {Info W C : Type} `{Headers} `{HeaderProxy Info W} `{EpochsConfigUpdateHandler Info C} `{!HeaderSigVerifierHandler C}.

Definition GetMetaBlockByHash (hash : string) : M W MetaBlock :=
  metaBlockBytes ← hp_GetRawBlockByHash MetachainShardId hash;
  lift (meta_Unmarshal metaBlockBytes).

Definition GetShardBlockByHash (shardId : Z) (hash : string) : M W ShardHeader :=
  headerBytes ← hp_GetRawBlockByHash shardId hash;
  lift (UnmarshalShardHeader headerBytes).

Definition GetStartOfEpochMetaBlock (epoch : Z) : M W MetaBlock :=
  metaBlockBytes ← hp_GetRawStartOfEpochMetaBlock epoch;
  lift (meta_Unmarshal metaBlockBytes).

Definition GetValidatorsInfoPerEpoch (epoch : Z) : M W (list Info * bytes) :=
  metaBlock ← GetStartOfEpochMetaBlock epoch;
  let randomness := meta_GetPrevRandSeed metaBlock in
  validatorsInfoPerEpoch ← hp_GetValidatorsInfoByEpoch epoch;
  mret (validatorsInfoPerEpoch, randomness).

(** ** [headerCheck.go] *)

Definition checkArguments (handlerIsNil coordinatorIsNil verifierIsNil : bool) : outcome () :=
  guard_err handlerIsNil ErrNilRawHeaderHandler ;;
  guard_err coordinatorIsNil ErrNilNodesCoordinator ;;
  guard_err verifierIsNil ErrNilHeaderSigVerifier.

Definition NewHeaderVerifier (handlerIsNil coordinatorIsNil verifierIsNil : bool) : outcome () :=
  checkArguments handlerIsNil coordinatorIsNil verifierIsNil.

Abbreviation St := (C * W)%type.

Definition fetchHeaderByHashAndShard (shardId : Z) (hash : string) : M W HeaderHandler :=
  if shardId =? MetachainShardId then
    header ← GetMetaBlockByHash hash; mret (HMeta header)
  else
    header ← GetShardBlockByHash shardId hash; mret (HShard header).

Definition updateNodesConfigPerEpoch (epoch : Z) : M St () :=
  info ← onsnd (GetValidatorsInfoPerEpoch epoch);
  let '(validatorInfo, randomness) := info in
  onfst (nc_SetNodesConfigFromValidatorsInfo epoch randomness validatorInfo).

Definition VerifyHeaderSignatureByHash (shardId : Z) (hash : string) : M St bool :=
  header ← onsnd (fetchHeaderByHashAndShard shardId hash);
  let headerEpoch := GetEpoch header in
  isIn ← gets (λ s : St, nc_IsEpochInConfig (Info := Info) headerEpoch s.1);
  (if isIn : bool then mret () else updateNodesConfigPerEpoch headerEpoch) ;;
  c ← gets fst;
  lift (hv_VerifySignature header c) ;;
  mret true.

(** ** What a verdict means *)

Lemma fetch_run shardId hash w header w' :
  fetchHeaderByHashAndShard shardId hash w = (Ok header, w') →
  ∃ b, hp_GetRawBlockByHash shardId hash w = (Ok b, w') ∧
    match header with
    | HMeta m => shardId = MetachainShardId ∧ meta_Unmarshal b = Ok m
    | HShard h => shardId ≠ MetachainShardId ∧ UnmarshalShardHeader b = Ok h
    end.
Proof.
  unfold fetchHeaderByHashAndShard, GetMetaBlockByHash, GetShardBlockByHash, mbind, M_bind, mret, M_ret, lift.
  destruct (Z.eqb_spec shardId MetachainShardId) as [->|Hs].
  - destruct (hp_GetRawBlockByHash _ _ w) as [[b|e|] w1]; [|done..].
    destruct (meta_Unmarshal b) eqn:E; [|done..]. intros [= <- <-]. by exists b.
  - destruct (hp_GetRawBlockByHash _ _ w) as [[b|e|] w1]; [|done..].
    destruct (UnmarshalShardHeader b) eqn:E; [|done..]. intros [= <- <-]. by exists b.
Qed.

(** After the update the validators of the epoch are those the network gave,
    with the randomness of the start of the epoch. *)
Definition updated (epoch : Z) (c : C) (w : W) (c' : C) (w' : W) : Prop :=
  ∃ raw metaBlock infos w1,
    hp_GetRawStartOfEpochMetaBlock epoch w = (Ok raw, w1) ∧ meta_Unmarshal raw = Ok metaBlock ∧
    hp_GetValidatorsInfoByEpoch epoch w1 = (Ok infos, w') ∧
    nc_SetNodesConfigFromValidatorsInfo epoch (meta_GetPrevRandSeed metaBlock) infos c = (Ok (), c').

Lemma update_run epoch c w c' w' :
  updateNodesConfigPerEpoch epoch (c, w) = (Ok (), (c', w')) → updated epoch c w c' w'.
Proof.
  unfold updateNodesConfigPerEpoch, GetValidatorsInfoPerEpoch, GetStartOfEpochMetaBlock, mbind, M_bind, mret, M_ret, lift, onsnd, onfst.
  destruct (hp_GetRawStartOfEpochMetaBlock epoch w) as [[raw|e|] w1] eqn:E1; [|done..].
  destruct (meta_Unmarshal raw) as [m|e|] eqn:E2; [|done..].
  destruct (hp_GetValidatorsInfoByEpoch epoch w1) as [[infos|e|] w2] eqn:E3; [|done..].
  destruct (nc_SetNodesConfigFromValidatorsInfo _ _ _ c) as [r c2] eqn:E4. intros [= -> <- <-].
  by exists raw, m, infos, w1.
Qed.

(** C33: A header passes only when the verifier of the node accepts its signature while it knows
    the validators of the header's epoch: VerifyHeaderSignatureByHash answers true only for a header of
    the shard and the hash asked for, decoded by the kind of its shard, whose signature is good; the
    validators are fetched when the epoch is new, and only then. It never answers false without an
    error. *)
Theorem VerifyHeaderSignatureByHash_sound `{!EpochsConfigLaws Info C} (shardId : Z) (hash : string) (c c' : C) (w w' : W) (b : bool) :
  VerifyHeaderSignatureByHash shardId hash (c, w) = (Ok b, (c', w')) →
  b = true ∧
  ∃ raw header w1,
    hp_GetRawBlockByHash shardId hash w = (Ok raw, w1) ∧
    match header with
    | HMeta m => shardId = MetachainShardId ∧ meta_Unmarshal raw = Ok m
    | HShard h => shardId ≠ MetachainShardId ∧ UnmarshalShardHeader raw = Ok h
    end ∧
    nc_IsEpochInConfig (Info := Info) (GetEpoch header) c' = true ∧ hv_VerifySignature header c' = Ok () ∧
    (if nc_IsEpochInConfig (Info := Info) (GetEpoch header) c then c' = c ∧ w' = w1 else updated (GetEpoch header) c w1 c' w').
Proof.
  unfold VerifyHeaderSignatureByHash. unfold mbind at 1, M_bind at 1, onsnd at 1.
  destruct (fetchHeaderByHashAndShard shardId hash w) as [[header|e|] w1] eqn:Ef; [|done..].
  destruct (fetch_run _ _ _ _ _ Ef) as (raw & Hraw & Hkind).
  unfold gets, lift, mret, M_ret, mbind, M_bind. cbn [fst].
  destruct (nc_IsEpochInConfig (Info := Info) (GetEpoch header) c) eqn:Ein.
  - cbn [fst]. destruct (hv_VerifySignature header c) as [[]|e|] eqn:Ev; [|done..]. intros [= <- <- <-].
    split; [done|]. exists raw, header, w1. rewrite Ein. by split_and!.
  - destruct (updateNodesConfigPerEpoch (GetEpoch header) (c, w1)) as [[[]|e|] [c2 w2]] eqn:Eu; [|done..].
    cbn [fst]. destruct (hv_VerifySignature header c2) as [[]|e|] eqn:Ev; [|done..]. intros [= <- <- <-].
    pose proof (update_run _ _ _ _ _ Eu) as Hu. split; [done|]. exists raw, header, w1. rewrite Ein.
    split_and!; [done..| |done|done]. destruct Hu as (? & ? & ? & ? & _ & _ & _ & Hset). by eapply set_is_in_config.
Qed.
End HeaderCheck.

(** ** [factory/]

    The structures of mx-chain-go that the factory fills. *)

Record GeneralRatings := mkGeneralRatings {
  gen_StartRating : Z; gen_MaxRating : Z; gen_MinRating : Z; gen_SignedBlocksThreshold : Z;
  gen_SelectionChances : list SelectionChances }.
Record RatingSteps := mkRatingSteps {
  rs_HoursToMaxRatingFromStartRating : Z; rs_ProposerValidatorImportance : Z; rs_ProposerDecreaseFactor : Z;
  rs_ValidatorDecreaseFactor : Z; rs_ConsecutiveMissedBlocksPenalty : Z }.
Record NodeRatingsConfig := mkNodeRatings {
  nr_General : GeneralRatings; nr_ShardChain : RatingSteps; nr_MetaChain : RatingSteps }.

Definition createRatingsConfig (rd : RatingsConfig) : NodeRatingsConfig :=
  let selectionChances := (λ v, mkSelectionChances (sch_ChancePercent v) (sch_MaxThreshold v)) <$> rc_GeneralSelectionChances rd in
  mkNodeRatings
    (mkGeneralRatings (rc_GeneralStartRating rd) (rc_GeneralMaxRating rd) (rc_GeneralMinRating rd)
       (rc_GeneralSignedBlocksThreshold rd) selectionChances)
    (mkRatingSteps (rc_ShardchainHoursToMaxRatingFromStartRating rd) (rc_ShardchainProposerValidatorImportance rd)
       (rc_ShardchainProposerDecreaseFactor rd) (rc_ShardchainValidatorDecreaseFactor rd)
       (rc_ShardchainConsecutiveMissedBlocksPenalty rd))
    (mkRatingSteps (rc_MetachainHoursToMaxRatingFromStartRating rd) (rc_MetachainProposerValidatorImportance rd)
       (rc_MetachainProposerDecreaseFactor rd) (rc_MetachainValidatorDecreaseFactor rd)
       (rc_MetachainConsecutiveMissedBlocksPenalty rd)).

Record MaxNodesChangeConfig := mkMaxNodesChange { mn_EpochEnable : Z; mn_MaxNumNodes : Z; mn_NodesToShufflePerShard : Z }.
Record NodesShufflerArgs := mkShufflerArgs {
  sa_NodesShard : Z; sa_NodesMeta : Z; sa_Hysteresis : Z; sa_Adaptivity : bool; sa_ShuffleBetweenShards : bool;
  sa_MaxNodesEnableConfig : list MaxNodesChangeConfig }.

Definition createArgsNodesShuffler (maxNodesChangeEnableEpoch : list MaxNodesChangeConfig) (networkConfig : NetworkConfig) :
    NodesShufflerArgs :=
  let maxNodesChangeConfigs :=
    (λ conf, mkMaxNodesChange (mn_EpochEnable conf) (mn_MaxNumNodes conf) (mn_NodesToShufflePerShard conf)) <$> maxNodesChangeEnableEpoch in
  mkShufflerArgs (nc_NumNodesInShard networkConfig) (nc_NumMetachainNodes networkConfig) (nc_Hysteresys networkConfig)
    (nc_Adaptivity networkConfig) true maxNodesChangeConfigs.

Section Genesis.
Context {Validator : Type} `{PubkeyConverter} `{MapRangeZ (list string)}.
(** [nodesCoordinator.NewValidator] *)
Variable NewValidator : bytes → Z → Z → outcome Validator.

Definition defaultSelectionChances : Z := 1.

(** The inner loop, from place [i]. *)
Fixpoint genesisValidators (i : Z) (nodesPubKeys : list string) : outcome (list Validator) :=
  match nodesPubKeys with
  | [] => Ok []
  | pubKey :: rest =>
    pubKeyBytes ← pkc_Decode pubKey;
    validator ← NewValidator pubKeyBytes defaultSelectionChances (u32 i);
    validators ← genesisValidators (i + 1) rest;
    Ok (validator :: validators)
  end.

Fixpoint genesisShards (entries : list (Z * list string)) (validatorsMap : gmap Z (list Validator)) : outcome (gmap Z (list Validator)) :=
  match entries with
  | [] => Ok validatorsMap
  | (shardID, nodesPubKeys) :: rest =>
    validators ← genesisValidators 0 nodesPubKeys;
    genesisShards rest (<[shardID := validators]> validatorsMap)
  end.

Definition generateGenesisNodes (nodesConfig : gmap Z (list string)) : outcome (gmap Z (list Validator)) :=
  genesisShards (rangeZ nodesConfig) ∅.

(** One key at its place. *)
Definition validator_at (i : nat) (pubKey : string) : outcome Validator :=
  b ← pkc_Decode pubKey; NewValidator b defaultSelectionChances (u32 (Z.of_nat i)).

(** The validators of a list of keys, each from the key at its place. *)
Definition validators_of (keys : list string) (vs : list Validator) : Prop :=
  length vs = length keys ∧ ∀ i key, keys !! i = Some key → ∃ v, vs !! i = Some v ∧ validator_at i key = Ok v.

Lemma genesisValidators_run k keys vs :
  genesisValidators (Z.of_nat k) keys = Ok vs →
  length vs = length keys ∧ ∀ i key, keys !! i = Some key → ∃ v, vs !! i = Some v ∧ validator_at (k + i) key = Ok v.
Proof.
  revert k vs. induction keys as [|key keys IH]; intros k vs; [by intros [= <-]|]. cbn [genesisValidators].
  destruct (pkc_Decode key) as [b|e|] eqn:Eb; cbn [mbind outcome_bind]; [|done..].
  destruct (NewValidator b _ _) as [v|e|] eqn:Ev; cbn [mbind outcome_bind]; [|done..].
  replace (Z.of_nat k + 1) with (Z.of_nat (S k)) by lia.
  destruct (genesisValidators (Z.of_nat (S k)) keys) as [vs'|e|] eqn:Er; cbn [mbind outcome_bind]; [|done..].
  intros [= <-]. destruct (IH _ _ Er) as [Hl Hi]. split; [by cbn; rewrite Hl|].
  intros [|i] key' Hk; cbn in Hk.
  - injection Hk as <-. exists v. split; [done|]. unfold validator_at. by rewrite Eb, Nat.add_0_r.
  - destruct (Hi _ _ Hk) as (v' & Hv & Ha). exists v'. split; [done|]. by rewrite Nat.add_succ_r.
Qed.

Lemma genesisShards_run entries acc m :
  NoDup entries.*1 → genesisShards entries acc = Ok m →
  ∀ s, (m !! s = None ∧ (s ∉ entries.*1) ∧ acc !! s = None) ∨
    (∃ vs, m !! s = Some vs ∧ (((s ∉ entries.*1) ∧ acc !! s = Some vs) ∨ ∃ keys, ((s, keys) ∈ entries) ∧ validators_of keys vs)).
Proof.
  revert acc. induction entries as [|[s0 keys] entries IH]; intros acc Hnd; cbn [genesisShards].
  { intros [= <-] s. destruct (acc !! s) as [vs|] eqn:E; [|left; split_and!; [done|set_solver|done]].
    right. exists vs. split; [done|]. left. split; [set_solver|done]. }
  apply NoDup_cons in Hnd as [Hs0 Hnd].
  destruct (genesisValidators 0 keys) as [vs0|e|] eqn:E0; cbn [mbind outcome_bind]; [|done..]. intros Em s.
  pose proof (genesisValidators_run 0 keys vs0 E0) as Hv0.
  destruct (IH _ Hnd Em s) as [(Hm & Hn & Ha)|(vs & Hm & [[Hn Ha]|(keys' & Hin & Hv)])].
  - apply lookup_insert_None in Ha as [Ha Hne]. left. cbn in *. split_and!; [done|set_solver|done].
  - right. exists vs. split; [done|]. apply lookup_insert_Some in Ha as [[<- <-]|[Hne Ha]].
    + right. exists keys. split; [by left|exact Hv0].
    + left. cbn in *. split; [set_solver|done].
  - right. exists vs. split; [done|]. right. exists keys'. split; [by right|done].
Qed.

(** The genesis validators are those of the configuration: when generateGenesisNodes succeeds its
    map has exactly the shards of the configuration, each with one validator per key, in the order of the
    keys, made of the decoded key and its index, whatever the order in which the map is visited. *)
Theorem generateGenesisNodes_spec (nodesConfig : gmap Z (list string)) (m : gmap Z (list Validator)) :
  generateGenesisNodes nodesConfig = Ok m →
  (∀ s, m !! s = None ↔ nodesConfig !! s = None) ∧
  ∀ s keys vs, nodesConfig !! s = Some keys → m !! s = Some vs → validators_of keys vs.
Proof.
  intros Em. pose proof (genesisShards_run _ _ _ (map_rangeZ_NoDup nodesConfig) Em) as Hrun.
  assert (Hin : ∀ s, s ∈ (rangeZ nodesConfig).*1 ↔ is_Some (nodesConfig !! s)).
  { intros s. rewrite list_elem_of_fmap. split.
    - intros ([s' keys] & -> & Hk%map_rangeZ_elem). by exists keys.
    - intros [keys Hk]. exists (s, keys). split; [done|]. by apply map_rangeZ_elem. }
  split.
  - intros s. rewrite (eq_None_not_Some (nodesConfig !! s)), <-Hin.
    destruct (Hrun s) as [(Hm & Hn & _)|(vs & Hm & [[Hn Ha]|(keys & Hk & _)])].
    + by split.
    + by rewrite lookup_empty in Ha.
    + rewrite Hm. split; [done|]. intros []. apply list_elem_of_fmap. by exists (s, keys).
  - intros s keys vs Hk Hm. destruct (Hrun s) as [(Hm' & _)|(vs' & Hm' & [[Hn Ha]|(keys' & Hk' & Hv)])]; simplify_eq.
    apply map_rangeZ_elem in Hk'. by simplify_eq.
Qed.
End Genesis.

(** The proxy of this library is the network of the checks. *)
#[export] Instance proxy_HeaderProxy {W} `{HttpClientWrapper W} `{EndpointProvider} `{ApiJson} : HeaderProxy ShardValidatorInfo W := {|
  hp_GetRawBlockByHash := Proxy.GetRawBlockByHash;
  hp_GetRawStartOfEpochMetaBlock := Proxy.GetRawStartOfEpochMetaBlock;
  hp_GetValidatorsInfoByEpoch := Proxy.GetValidatorsInfoByEpoch |}.

(** ** Concrete runs *)

Module HeaderRun.
(** A header is its first byte, the epoch, and its second, the signature; it is
    signed when the second is the number of validators of the epoch. *)
Definition first (b : bytes) : Z := match b with x :: _ => byte_Z x | [] => 0 end.
Definition second (b : bytes) : Z := match b with _ :: y :: _ => byte_Z y | _ => 0 end.
#[local] Instance toy_headers : Headers := {|
  MetaBlock := bytes; ShardHeader := bytes; meta_GetEpoch := first; meta_GetPrevRandSeed b := b; shard_GetEpoch := first;
  meta_Unmarshal b := Ok b; UnmarshalShardHeader b := Ok b |}.

(** The network answers one header, and counts the validators it lists. *)
#[local] Instance toy_proxy : HeaderProxy nat Z := {|
  hp_GetRawBlockByHash _ _ := mret [x05; x03];
  hp_GetRawStartOfEpochMetaBlock _ := mret [x05];
  hp_GetValidatorsInfoByEpoch _ := modify (Z.add 1) ;; mret [7; 8; 9]%nat |}.

Definition epochs : Type := gmap Z (list nat).
#[local] Instance toy_coordinator : EpochsConfigUpdateHandler nat epochs := {|
  nc_IsEpochInConfig e c := bool_decide (is_Some (c !! e));
  nc_SetNodesConfigFromValidatorsInfo e _ infos := modify (λ c : epochs, <[e := infos]> c : epochs) |}.
#[local] Instance toy_verifier : HeaderSigVerifierHandler epochs := {|
  hv_VerifySignature h c :=
    let '(e, s) := match h with HMeta b | HShard b => (first b, second b) end in
    if Z.of_nat (length (default [] (c !! e))) =? s then Ok () else Fail (ErrText "wrong signature") |}.

#[local] Instance toy_laws : EpochsConfigLaws nat epochs.
Proof.
  split. intros epoch r infos c c'. cbn. unfold modify. intros [= <-]. apply bool_decide_true. exists infos. apply (lookup_insert_eq c).
Qed.

Definition known5 : epochs := {[5 := [7; 8; 9]%nat]}.

(** A second check of the epoch does not ask the network again. *)
Example two_checks : (VerifyHeaderSignatureByHash (Info := nat) 0 "aa" ;; VerifyHeaderSignatureByHash (Info := nat) 1 "bb") (∅ : epochs, 0)
  = (Ok true, (known5, 1)).
Proof. vm_compute. reflexivity. Qed.

Lemma VerifyHeaderSignatureByHash_sound_witness : nc_IsEpochInConfig (Info := nat) 5 known5 = true ∧
  ∃ header w1, hv_VerifySignature header known5 = Ok () ∧ updated (Info := nat) (GetEpoch header) (∅ : epochs) w1 known5 1.
Proof.
  destruct (VerifyHeaderSignatureByHash_sound (Info := nat) 0 "aa" (∅ : epochs) known5 0 1 true) as (_ & raw & header & w1 & Hr & _ & Hin & Hv & Hu);
    [vm_compute; reflexivity|].
  split; [vm_compute; reflexivity|]. exists header, w1. split; [exact Hv|].
  destruct (nc_IsEpochInConfig (Info := nat) (GetEpoch header) ∅) eqn:E; [|exact Hu].
  apply bool_decide_eq_true in E as [x Hx]. discriminate Hx.
Defined.

#[local] Existing Instance hexConverter.
#[local] Instance toy_rangeZ : MapRangeZ (list string) := map_to_list_rangeZ _.
Definition newValidator (b : bytes) (chances i : Z) : outcome (bytes * Z) := Ok (b, i).
Definition genesis : gmap Z (list string) :=
  {[0 := [hex_EncodeToString (replicate 32 x01); hex_EncodeToString (replicate 32 x02)]; MetachainShardId := [hex_EncodeToString (replicate 32 x03)]]}.
Definition genesisMap : gmap Z (list (bytes * Z)) :=
  {[0 := [(replicate 32 x01, 0); (replicate 32 x02, 1)]; MetachainShardId := [(replicate 32 x03, 0)]]}.

Lemma generateGenesisNodes_spec_witness :
  ∃ v, [(replicate 32 x01 : bytes, 0); (replicate 32 x02, 1)] !! 1%nat = Some v ∧
       validator_at newValidator 1 (hex_EncodeToString (replicate 32 x02)) = Ok v.
Proof.
  destruct (generateGenesisNodes_spec newValidator genesis genesisMap) as [_ Hall]; [vm_compute; reflexivity|].
  destruct (Hall 0 [hex_EncodeToString (replicate 32 x01); hex_EncodeToString (replicate 32 x02)]
    [(replicate 32 x01, 0); (replicate 32 x02, 1)]) as [_ Hat]; [vm_compute; reflexivity|vm_compute; reflexivity|].
  apply (Hat 1%nat). reflexivity.
Defined.
End HeaderRun.
