(* ===== verification/Wallet.v ===== *)
(** * The wallet ([interactors/wallet.go])

    Key derivation from a seed, encrypted key files and PEM files.  The hash
    functions, AES, scrypt, bip39, the random source and the encodings of JSON
    and PEM are libraries the source calls: they are the class [Primitives],
    with their documented laws in [PrimitivesLaws].  The file system is the
    class [Files]. *)

From S2P Require Export Crypto Interactors.

(** ** Constants and data *)

Definition mnemonicBitSize : Z := 256.
Definition egldCoinType : Z := 508.
Definition hardened : Z := 0x80000000.
Definition keystoreVersion : Z := 4.
Definition keyHeaderKDF : string := "scrypt".
Definition scryptN : Z := 4096.
Definition scryptR : Z := 8.
Definition scryptP : Z := 1.
Definition scryptDKLen : Z := 32.
Definition addressLen : nat := 32.
Definition mnemonicKind : string := "mnemonic".
(** [aes.BlockSize] *)
Definition BlockSize : nat := 16.

Abbreviation bip32Path := (list Z).
Record bip32 := mkBip32 { Key : bytes; ChainCode : bytes }.

Record encryptedKeyJSONV4 := mkKeystore {
  ks_Address : string;
  ks_Bech32 : string;
  ks_Kind : string;
  ks_Cipher : string;
  ks_CipherText : string;
  ks_IV : string;
  ks_KDF : string;
  ks_DkLen : Z;
  ks_Salt : string;
  ks_N : Z;
  ks_R : Z;
  ks_P : Z;
  ks_MAC : string;
  ks_Id : string;
  ks_Version : Z }.

Record pemBlock := mkPem { pem_Type : string; pem_Bytes : bytes }.

(** ** Libraries *)

Class Primitives := {
  hmac_sha512 : bytes → bytes → bytes;
  hmac_sha256 : bytes → bytes → bytes;
  (** the array behind the slice of [dkLen] bytes that [scrypt.Key] returns *)
  scrypt_Key : bytes → bytes → Z → Z → Z → Z → outcome bytes;
  aes_NewCipher : bytes → outcome ();
  ctr_XORKeyStream : bytes → bytes → bytes → bytes;
  bip39_NewMnemonic : bytes → outcome string;
  bip39_NewSeed : string → string → bytes;
  json_MarshalKeystore : encryptedKeyJSONV4 → outcome bytes;
  json_UnmarshalKeystore : bytes → outcome encryptedKeyJSONV4;
  pem_Encode : pemBlock → outcome bytes;
  pem_Decode : bytes → option pemBlock }.

Class PrimitivesLaws `{Primitives} := {
  hmac_sha512_length k m : length (hmac_sha512 k m) = 64%nat;
  scrypt_length pw salt n r p dk l : scrypt_Key pw salt n r p dk = Ok l → dk ≤ Z.of_nat (length l);
  ctr_involutive k iv m : ctr_XORKeyStream k iv (ctr_XORKeyStream k iv m) = m;
  keystore_roundtrip k b : json_MarshalKeystore k = Ok b → json_UnmarshalKeystore b = Ok k;
  (** the first block of a text is found whatever follows it *)
  pem_roundtrip blk b rest : pem_Encode blk = Ok b → pem_Decode (b ++ rest) = Some blk }.

(** The random source; [uuid.New] reads it too. *)
Class Random (W : Type) := {
  rand_Read : nat → M W bytes;
  uuid_New : M W string }.
Class RandomLaws (W : Type) `{Random W} := {
  rand_length n w b w' : rand_Read n w = (Ok b, w') → length b = n }.

(** Files: what a name holds, and the calls of [os] on it.  [os_OpenFile_Write]
    opens without truncating and writes from the start. *)
Class Files (W : Type) := {
  os_content : string → W → option bytes;
  os_ReadFile : string → M W bytes;
  os_WriteFile : string → bytes → M W ();
  os_OpenFile_Write : string → bytes → M W () }.
Class FilesLaws (W : Type) `{Files W} := {
  read_content f w b : os_content f w = Some b → ∃ w', os_ReadFile f w = (Ok b, w');
  write_content f b w w' : os_WriteFile f b w = (Ok (), w') → os_content f w' = Some b;
  overwrite_content f b w w' : os_OpenFile_Write f b w = (Ok (), w') →
    os_content f w' = Some (b ++ drop (length b) (default [] (os_content f w))) }.

(** A slice of a slice: its end may reach the capacity. *)
Definition subslice (l : bytes) (i j : nat) : outcome bytes :=
  if Nat.leb j (length l) then Ok (drop i (take j l)) else Panic.

Section Wallet.
Context `{Primitives} `{Crypto} `{PubkeyConverter}.

(** ** Derivation *)

(** [buff]: the padding, the key and the index, big endian. *)
Definition childMessage (key : bytes) (childIdx : Z) : bytes := [x00] ++ key ++ be_of_Z 4 childIdx.

(** The two halves of a digest of 64 bytes. *)
Definition splitDigest (intermediary : bytes) : bip32 :=
  let serializedKeyLen := 32%nat in
  mkBip32 (take serializedKeyLen intermediary) (drop serializedKeyLen intermediary).

Definition derivePrivateKey (seed : bytes) (path : bip32Path) : bip32 :=
  foldl (λ b childIdx, splitDigest (hmac_sha512 (ChainCode b) (childMessage (Key b) childIdx)))
    (splitDigest (hmac_sha512 (bytes_of_string "ed25519 seed") seed)) path.

Definition egldPath (account addressIndex : Z) : bip32Path :=
  [Z.lor 44 hardened; Z.lor egldCoinType hardened; Z.lor account hardened; hardened; Z.lor addressIndex hardened].

Definition GetPrivateKeyFromSeed (seed : bytes) (account addressIndex : Z) : bytes :=
  Key (derivePrivateKey seed (egldPath account addressIndex)).

Definition CreateSeedFromMnemonic (mnemonic : string) : bytes := bip39_NewSeed mnemonic "".

Definition GetPrivateKeyFromMnemonic (mnemonic : string) (account addressIndex : Z) : bytes :=
  let seed := CreateSeedFromMnemonic mnemonic in
  GetPrivateKeyFromSeed seed account addressIndex.

Definition GetAddressFromPrivateKey (privateKeyBytes : bytes) : outcome address :=
  privateKey ← PrivateKeyFromByteArray privateKeyBytes;
  let publicKey := GeneratePublic privateKey in
  publicKeyBytes ← ToByteArray publicKey;
  Ok (NewAddressFromBytes publicKeyBytes).

(** ** Key files *)

Definition secretKeyAfterChecks (key : encryptedKeyJSONV4) (secretKey : bytes) : outcome bytes :=
  let secretKey := if Nat.ltb 32 (length secretKey) then take 32 secretKey else secretKey in
  address ← GetAddressFromPrivateKey secretKey;
  addressAsBech32String ← AddressAsBech32String address;
  let isSameAccount := String.eqb (hex_EncodeToString (AddressBytes address)) (ks_Address key)
                       && String.eqb addressAsBech32String (ks_Bech32 key) in
  if negb isSameAccount then Fail ErrDifferentAccountRecovered else Ok secretKey.

Definition secretKeyFromMnemonic (mnemonic : bytes) : bytes := GetPrivateKeyFromMnemonic (string_of_bytes mnemonic) 0 0.

(** What the file's bytes and the password give. *)
Definition decryptKeystore (buff : bytes) (password : string) : outcome bytes :=
  key ← json_UnmarshalKeystore buff;
  mac ← hex_DecodeString (ks_MAC key);
  iv ← hex_DecodeString (ks_IV key);
  cipherText ← hex_DecodeString (ks_CipherText key);
  salt ← hex_DecodeString (ks_Salt key);
  derivedKey ← scrypt_Key (bytes_of_string password) salt (ks_N key) (ks_R key) (ks_P key) (ks_DkLen key);
  macKey ← subslice derivedKey 16 32;
  let sha := hmac_sha256 macKey cipherText in
  if negb (bool_decide (sha = mac)) then Fail ErrWrongPassword
  else
    encryptKey ← subslice derivedKey 0 16;
    aes_NewCipher encryptKey ;;
    if negb (Nat.eqb (length iv) BlockSize) then Panic
    else
      let decryptedData := ctr_XORKeyStream encryptKey iv cipherText in
      if negb (String.eqb (ks_Kind key) mnemonicKind) then secretKeyAfterChecks key decryptedData
      else Ok (secretKeyFromMnemonic decryptedData).

Definition LoadPrivateKeyFromPemData (buff : bytes) : outcome bytes :=
  match pem_Decode buff with
  | None => Fail ErrInvalidPemFile
  | Some blk =>
    let privKey := pem_Bytes blk in
    let privKey := if Nat.ltb (addressLen * 2) (length privKey) then take (addressLen * 2) privKey else privKey in
    hex_DecodeString (string_of_bytes privKey)
  end.

Section World.
Context {W : Type} `{Random W} `{Files W}.

Definition GenerateMnemonic : M W string :=
  entropy ← rand_Read (Z.to_nat (mnemonicBitSize / 8));
  lift (bip39_NewMnemonic entropy).

Definition LoadPrivateKeyFromJsonFile (filename password : string) : M W bytes :=
  buff ← os_ReadFile filename;
  lift (decryptKeystore buff password).

Definition SavePrivateKeyToJsonFile (privateKey : bytes) (password filename : string) : M W () :=
  salt ← rand_Read 32;
  derivedKey ← lift (scrypt_Key (bytes_of_string password) salt scryptN scryptR scryptP scryptDKLen);
  encryptKey ← lift (subslice derivedKey 0 16);
  iv ← rand_Read BlockSize;
  lift (aes_NewCipher encryptKey) ;;
  let cipherText := ctr_XORKeyStream encryptKey iv privateKey in
  macKey ← lift (subslice derivedKey 16 32);
  let mac := hmac_sha256 macKey cipherText in
  address ← lift (GetAddressFromPrivateKey privateKey);
  addressAsBech32String ← lift (AddressAsBech32String address);
  id ← uuid_New;
  let keystoreJson := mkKeystore (hex_EncodeToString (AddressBytes address)) addressAsBech32String "" "aes-128-ctr"
    (hex_EncodeToString cipherText) (hex_EncodeToString iv) keyHeaderKDF scryptDKLen (hex_EncodeToString salt)
    scryptN scryptR scryptP (hex_EncodeToString mac) id keystoreVersion in
  buff ← lift (json_MarshalKeystore keystoreJson);
  os_WriteFile filename buff.

Definition LoadPrivateKeyFromPemFile (filename : string) : M W bytes :=
  buff ← os_ReadFile filename;
  lift (LoadPrivateKeyFromPemData buff).

Definition SavePrivateKeyToPemFile (privateKey : bytes) (filename : string) : M W () :=
  address ← lift (GetAddressFromPrivateKey privateKey);
  let privateKey := if Nat.eqb (length privateKey) addressLen then privateKey ++ AddressBytes address else privateKey in
  addressAsBech32String ← lift (AddressAsBech32String address);
  blk ← lift (pem_Encode (mkPem ("PRIVATE KEY for " +:+ addressAsBech32String) (bytes_of_string (hex_EncodeToString privateKey))));
  os_OpenFile_Write filename blk.
End World.
End Wallet.

(** ** What is saved can be loaded *)

Lemma subslice_run l i j b : subslice l i j = Ok b → b = drop i (take j l).
Proof. unfold subslice. case_match; [by intros [= <-]|done]. Qed.

Lemma hex_take n b : take (n * 2) (bytes_of_string (hex_EncodeToString b)) = bytes_of_string (hex_EncodeToString (take n b)).
Proof. revert n. induction b as [|x b IH]; intros [|n]; [done..|]. cbn. do 2 f_equal. apply IH. Qed.

Lemma hex_length b : length (bytes_of_string (hex_EncodeToString b)) = (length b * 2)%nat.
Proof.
  unfold String.list_byte_of_string. rewrite length_map. induction b as [|x b IH]; [done|].
  cbn [hex_EncodeToString String.list_ascii_of_string length]. rewrite IH. cbn [length]. lia.
Qed.

Section Theorems.
Context `{PrimitivesLaws} `{Crypto} `{PubkeyConverter} {W : Type} `{RandomLaws W} `{FilesLaws W}.

(** The fields of a saved key file, and the file they are written to. *)
Lemma SavePrivateKey_run pk pw f w w' :
  SavePrivateKeyToJsonFile pk pw f w = (Ok (), w') →
  ∃ salt dk iv a bech id buff,
    length iv = BlockSize ∧
    scrypt_Key (bytes_of_string pw) salt scryptN scryptR scryptP scryptDKLen = Ok dk ∧ (32 ≤ length dk)%nat ∧
    aes_NewCipher (take 16 dk) = Ok () ∧ GetAddressFromPrivateKey pk = Ok a ∧ AddressAsBech32String a = Ok bech ∧
    os_content f w' = Some buff ∧
    let ct := ctr_XORKeyStream (take 16 dk) iv pk in
    json_UnmarshalKeystore buff = Ok (mkKeystore (hex_EncodeToString (AddressBytes a)) bech "" "aes-128-ctr"
      (hex_EncodeToString ct) (hex_EncodeToString iv) keyHeaderKDF scryptDKLen (hex_EncodeToString salt)
      scryptN scryptR scryptP (hex_EncodeToString (hmac_sha256 (drop 16 (take 32 dk)) ct)) id keystoreVersion).
Proof.
  unfold SavePrivateKeyToJsonFile, mbind, M_bind, lift. cbv zeta.
  destruct (rand_Read 32 w) as [[salt|e|] w1]; [|done..].
  destruct (scrypt_Key _ salt _ _ _ _) as [dk|e|] eqn:Edk; [|done..].
  destruct (subslice dk 0 16) as [ek|e|] eqn:Eek; [|done..].
  destruct (rand_Read BlockSize w1) as [[iv|e|] w2] eqn:Eiv; [|done..].
  destruct (aes_NewCipher ek) as [[]|e|] eqn:Eaes; [|done..].
  destruct (subslice dk 16 32) as [mk|e|] eqn:Emk; [|done..].
  destruct (GetAddressFromPrivateKey pk) as [a|e|] eqn:Ea; [|done..].
  destruct (AddressAsBech32String a) as [bech|e|] eqn:Eb; [|done..].
  destruct (uuid_New w2) as [[id|e|] w3]; [|done..].
  destruct (json_MarshalKeystore _) as [buff|e|] eqn:Ej; [|done..]. intros Ew.
  apply subslice_run in Eek, Emk. change (drop 0 (take 16 dk)) with (take 16 dk) in Eek. subst ek mk.
  pose proof (scrypt_length _ _ _ _ _ _ _ Edk) as Hlen. unfold scryptDKLen in Hlen.
  exists salt, dk, iv, a, bech, id, buff. split_and!; [by eapply rand_length|done|lia|done..|by eapply write_content|].
  by apply keystore_roundtrip.
Qed.

Lemma subslice_at (dk : bytes) i j : (j ≤ length dk)%nat → subslice dk i j = Ok (drop i (take j dk)).
Proof. intros Hj. unfold subslice. by rewrite (proj2 (Nat.leb_le _ _)). Qed.

(** C35: What SavePrivateKeyToJsonFile writes, LoadPrivateKeyFromJsonFile reads back with the same
    password: a private key of at most 32 bytes survives the encryption, whatever salt, initialization vector and
    identifier were drawn. *)
Theorem json_file_roundtrip (pk : bytes) (pw f : string) (w w' : W) :
  (length pk ≤ 32)%nat →
  SavePrivateKeyToJsonFile pk pw f w = (Ok (), w') →
  ∃ w'', LoadPrivateKeyFromJsonFile f pw w' = (Ok pk, w'').
Proof.
  intros Hpk (salt & dk & iv & a & bech & id & buff & Hiv & Edk & Hdk & Eaes & Ea & Eb & Hf & Ej)%SavePrivateKey_run.
  destruct (read_content _ _ _ Hf) as [w'' Er]. exists w''.
  unfold LoadPrivateKeyFromJsonFile, mbind, M_bind, lift. rewrite Er. f_equal.
  unfold decryptKeystore. rewrite Ej. cbn [mbind outcome_bind ks_MAC ks_IV ks_CipherText ks_Salt ks_N ks_R ks_P ks_DkLen ks_Kind].
  rewrite !hex_Decode_Encode. cbn [mbind outcome_bind]. rewrite Edk. cbn [mbind outcome_bind].
  rewrite !subslice_at by lia. cbn [mbind outcome_bind]. rewrite bool_decide_true by done. cbn [negb].
  change (drop 0 (take 16 dk)) with (take 16 dk). rewrite Eaes. cbn [mbind outcome_bind].
  rewrite Hiv, ctr_involutive, (proj2 (String.eqb_neq _ _)) by done. cbn [Nat.eqb BlockSize negb].
  unfold secretKeyAfterChecks. rewrite (proj2 (Nat.ltb_ge _ _)) by done.
  rewrite Ea. cbn [mbind outcome_bind]. rewrite Eb. cbn [mbind outcome_bind ks_Address ks_Bech32].
  by rewrite !String.eqb_refl.
Qed.

(** C36: A key file yields a key only when its code is good: whenever a file decrypts, the message
    authentication code in it is that of its ciphertext under the key derived from the password, and for a file
    that is not a mnemonic the key's own address is the one written in the file, in both forms. *)
Theorem decryptKeystore_sound (buff sk : bytes) (pw : string) :
  decryptKeystore buff pw = Ok sk →
  ∃ key ct mac salt dk,
    json_UnmarshalKeystore buff = Ok key ∧ hex_DecodeString (ks_CipherText key) = Ok ct ∧
    hex_DecodeString (ks_MAC key) = Ok mac ∧ hex_DecodeString (ks_Salt key) = Ok salt ∧
    scrypt_Key (bytes_of_string pw) salt (ks_N key) (ks_R key) (ks_P key) (ks_DkLen key) = Ok dk ∧
    hmac_sha256 (drop 16 (take 32 dk)) ct = mac ∧
    (ks_Kind key ≠ mnemonicKind → (length sk ≤ 32)%nat ∧
     ∃ a, GetAddressFromPrivateKey sk = Ok a ∧ hex_EncodeToString (AddressBytes a) = ks_Address key ∧
          AddressAsBech32String a = Ok (ks_Bech32 key)).
Proof.
  unfold decryptKeystore, mbind, outcome_bind.
  destruct (json_UnmarshalKeystore buff) as [key|e|]; [|done..].
  destruct (hex_DecodeString (ks_MAC key)) as [mac|e|] eqn:Emac; [|done..].
  destruct (hex_DecodeString (ks_IV key)) as [iv|e|]; [|done..].
  destruct (hex_DecodeString (ks_CipherText key)) as [ct|e|] eqn:Ect; [|done..].
  destruct (hex_DecodeString (ks_Salt key)) as [salt|e|] eqn:Esalt; [|done..].
  destruct (scrypt_Key _ _ _ _ _ _) as [dk|e|] eqn:Edk; [|done..].
  destruct (subslice dk 16 32) as [mk|e|] eqn:Emk; [|done..]. apply subslice_run in Emk as ->.
  case_bool_decide as Hmac; cbn [negb]; [|done].
  destruct (subslice dk 0 16) as [ek|e|]; [|done..]. destruct (aes_NewCipher ek) as [[]|e|]; [|done..].
  destruct (negb (Nat.eqb _ _)); [done|]. intros Hsk. exists key, ct, mac, salt, dk. split_and!; [done..|].
  intros Hkind. rewrite (proj2 (String.eqb_neq _ _)) in Hsk by done. cbn [negb] in Hsk.
  unfold secretKeyAfterChecks, mbind, outcome_bind in Hsk.
  set (k := if Nat.ltb _ _ then _ else _) in Hsk.
  assert (Hk : (length k ≤ 32)%nat).
  { subst k. destruct (Nat.ltb_spec 32 (length (ctr_XORKeyStream ek iv ct))); [rewrite length_take; lia|done]. }
  clearbody k. destruct (GetAddressFromPrivateKey k) as [a|e|] eqn:Ea; [|done..].
  destruct (AddressAsBech32String a) as [bech|e|] eqn:Eb; [|done..].
  destruct (String.eqb_spec (hex_EncodeToString (AddressBytes a)) (ks_Address key)); [|done].
  destruct (String.eqb_spec bech (ks_Bech32 key)) as [->|]; [|done]. cbn in Hsk. injection Hsk as <-.
  split; [done|]. by exists a.
Qed.

(** A PEM file reads back the key it was saved with: the first 32 bytes of any private key of at
    least 32 bytes, whatever the file held before, although the file is not truncated. *)
Theorem pem_file_roundtrip (sk : bytes) (f : string) (w w' : W) :
  (32 ≤ length sk)%nat →
  SavePrivateKeyToPemFile sk f w = (Ok (), w') →
  ∃ w'', LoadPrivateKeyFromPemFile f w' = (Ok (take 32 sk), w'').
Proof.
  intros Hlen. unfold SavePrivateKeyToPemFile, mbind, M_bind, lift.
  destruct (GetAddressFromPrivateKey sk) as [a|e|]; [|done..].
  destruct (AddressAsBech32String a) as [bech|e|]; [|done..].
  set (full := if Nat.eqb _ _ then _ else _).
  assert (Hfull : (32 ≤ length full)%nat ∧ take 32 full = take 32 sk).
  { subst full. destruct (Nat.eqb_spec (length sk) addressLen) as [E|]; [|done].
    split; [rewrite length_app; lia|]. rewrite take_app_le by lia. done. }
  clearbody full. destruct Hfull as [Hf Ht]. destruct (pem_Encode _) as [blk|e|] eqn:Eblk; [|done..].
  intros Hw%overwrite_content. destruct (read_content _ _ _ Hw) as [w'' Er]. exists w''.
  unfold LoadPrivateKeyFromPemFile, mbind, M_bind, lift. rewrite Er. f_equal.
  unfold LoadPrivateKeyFromPemData. rewrite (pem_roundtrip _ _ _ Eblk). cbn [pem_Bytes].
  set (h := bytes_of_string (hex_EncodeToString full)).
  assert (Eh : (if Nat.ltb (addressLen * 2) (length h) then take (addressLen * 2) h else h) = take (32 * 2) h).
  { unfold addressLen. destruct (Nat.ltb_spec (32 * 2) (length h)); [done|]. symmetry. apply take_ge. lia. }
  rewrite Eh. subst h. rewrite hex_take, string_of_bytes_of_string, Ht. apply hex_Decode_Encode.
Qed.
End Theorems.

(** ** The paths *)

Definition is_u32 (z : Z) : Prop := 0 ≤ z < 2 ^ 32.

Lemma hardened_bit i n : 0 ≤ n → Z.testbit (Z.lor i hardened) n = Z.testbit i n || (n =? 31).
Proof.
  intros Hn. change hardened with (Z.shiftl 1 31). rewrite Z.lor_spec, Z.shiftl_1_l, Z.pow2_bits_eqb by lia.
  by rewrite Z.eqb_sym.
Qed.

Lemma high_bit i n : is_u32 i → 32 ≤ n → Z.testbit i n = false.
Proof.
  intros [Hi Hlt] Hn. destruct (Z.eq_dec i 0) as [->|]; [apply Z.bits_0|].
  apply Z.bits_above_log2; [done|]. apply Z.log2_lt_pow2; [lia|]. eapply Z.lt_le_trans; [exact Hlt|]. apply Z.pow_le_mono_r; lia.
Qed.

(** Hardening keeps 31 bits of an index. *)
Lemma hardened_eq i j : is_u32 i → is_u32 j → (Z.lor i hardened = Z.lor j hardened ↔ i mod 2 ^ 31 = j mod 2 ^ 31).
Proof.
  intros Hi Hj. rewrite <-!Z.land_ones by lia. split; intros E; apply Z.bits_inj'; intros n Hn.
  - rewrite !Z.land_spec. destruct (Z.lt_ge_cases n 31).
    + assert (Eb := f_equal (λ z, Z.testbit z n) E). cbn beta in Eb. rewrite !hardened_bit in Eb by done.
      rewrite (proj2 (Z.eqb_neq n 31)), !orb_false_r in Eb by lia. by rewrite Eb.
    + rewrite Z.ones_spec_high by lia. by rewrite !andb_false_r.
  - rewrite !hardened_bit by done. destruct (Z.eqb_spec n 31); [by rewrite !orb_true_r|]. rewrite !orb_false_r.
    destruct (Z.lt_ge_cases n 31); [|by rewrite !high_bit by (done || lia)].
    assert (Eb := f_equal (λ z, Z.testbit z n) E). cbn beta in Eb.
    rewrite !Z.land_spec, Z.ones_spec_low, !andb_true_r in Eb by lia. done.
Qed.

(** Only the low 31 bits of an account and of an address index select a key: two pairs of 32 bit
    numbers walk the same path exactly when they agree on these bits, and then derive the same private key. *)
Theorem egldPath_low_bits `{Primitives} (seed : bytes) (account account' index index' : Z) :
  is_u32 account → is_u32 account' → is_u32 index → is_u32 index' →
  (egldPath account index = egldPath account' index' ↔
   account mod 2 ^ 31 = account' mod 2 ^ 31 ∧ index mod 2 ^ 31 = index' mod 2 ^ 31) ∧
  (account mod 2 ^ 31 = account' mod 2 ^ 31 → index mod 2 ^ 31 = index' mod 2 ^ 31 →
   GetPrivateKeyFromSeed seed account index = GetPrivateKeyFromSeed seed account' index').
Proof.
  intros Ha Ha' Hi Hi'.
  assert (Hiff : egldPath account index = egldPath account' index' ↔
    account mod 2 ^ 31 = account' mod 2 ^ 31 ∧ index mod 2 ^ 31 = index' mod 2 ^ 31).
  { rewrite <-!hardened_eq by done. unfold egldPath. split; [by intros [= -> ->]|by intros [-> ->]]. }
  split; [exact Hiff|]. intros Ea Ei. unfold GetPrivateKeyFromSeed. by rewrite (proj2 Hiff (conj Ea Ei)).
Qed.

(** ** Concrete runs *)

Module WalletRun.
#[local] Existing Instances toyCrypto hexConverter.

(** Texts for any countable data, with an end mark. *)
Fixpoint put_pos (p : positive) : bytes :=
  match p with xO p => x00 :: put_pos p | xI p => x01 :: put_pos p | xH => [x02] end.
Fixpoint get_pos (b : bytes) : option positive :=
  match b with
  | x00 :: b => xO <$> get_pos b
  | x01 :: b => xI <$> get_pos b
  | x02 :: _ => Some xH
  | _ => None
  end.

Lemma get_put_pos p rest : get_pos (put_pos p ++ rest) = Some p.
Proof. induction p as [p IH|p IH|]; cbn; [by rewrite IH..|done]. Qed.

Definition to_strings (k : encryptedKeyJSONV4) : list string :=
  [ks_Address k; ks_Bech32 k; ks_Kind k; ks_Cipher k; ks_CipherText k; ks_IV k; ks_KDF k; itoa (ks_DkLen k); ks_Salt k;
   itoa (ks_N k); itoa (ks_R k); itoa (ks_P k); ks_MAC k; ks_Id k; itoa (ks_Version k)].
Definition of_strings (l : list string) : option encryptedKeyJSONV4 :=
  match l with
  | [a; b; c; d; e; f; g; h; i; j; k; l; m; n; o] =>
    h ← bigint_SetString h; j ← bigint_SetString j; k ← bigint_SetString k; l ← bigint_SetString l; o ← bigint_SetString o;
    Some (mkKeystore a b c d e f g h i j k l m n o)
  | _ => None
  end.

Lemma of_to_strings k : of_strings (to_strings k) = Some k.
Proof. unfold of_strings, to_strings. rewrite !bigint_SetString_itoa. by destruct k. Qed.

(** The cipher reverses the data when the vector starts with 1. *)
#[local] Instance toy_primitives : Primitives := {|
  hmac_sha512 k m := take 64 (k ++ m ++ replicate 64 x00);
  hmac_sha256 k m := k ++ m;
  scrypt_Key pw salt _ _ _ dk := Ok (take (Z.to_nat (Z.max 32 dk)) (take 16 salt ++ pw ++ replicate (Z.to_nat (Z.max 32 dk)) x00));
  aes_NewCipher _ := Ok ();
  ctr_XORKeyStream _ iv m := match iv with x01 :: _ => rev m | _ => m end;
  bip39_NewMnemonic b := Ok (hex_EncodeToString b);
  bip39_NewSeed m _ := bytes_of_string m;
  json_MarshalKeystore k := Ok (put_pos (encode (to_strings k)));
  json_UnmarshalKeystore b :=
    of_option (ErrText "json") (l ← get_pos b ≫= decode; of_strings l);
  pem_Encode blk := Ok (put_pos (encode [pem_Type blk; string_of_bytes (pem_Bytes blk)]));
  pem_Decode b :=
    match get_pos b ≫= decode with Some [t; s] => Some (mkPem t (bytes_of_string s)) | _ => None end |}.

#[local] Instance toy_primitives_laws : PrimitivesLaws.
Proof.
  split.
  - intros k m. unfold hmac_sha512, toy_primitives. rewrite length_take, !length_app, length_replicate. lia.
  - intros pw salt n r p dk l [= <-]. rewrite length_take, !length_app, length_replicate. lia.
  - intros k iv m. cbn. destruct iv as [|[] iv]; try done. apply rev_involutive.
  - intros k b [= <-]. unfold json_UnmarshalKeystore, toy_primitives. rewrite <-(app_nil_r (put_pos _)), get_put_pos.
    cbn [mbind option_bind]. rewrite decode_encode. cbn [mbind option_bind]. by rewrite of_to_strings.
  - intros blk b rest [= <-]. unfold pem_Decode, toy_primitives. rewrite get_put_pos. cbn [mbind option_bind].
    rewrite decode_encode. cbn [mbind option_bind]. destruct blk as [t b]. cbn [pem_Type pem_Bytes].
    by rewrite bytes_of_string_of_bytes.
Qed.

Abbreviation world := (gmap string bytes).
#[local] Instance toy_random : Random world := {| rand_Read n := mret (replicate n x01); uuid_New := mret "id" |}.
#[local] Instance toy_random_laws : RandomLaws world.
Proof. split. intros n w b w' [= <- <-]. apply length_replicate. Qed.
#[local] Instance toy_files : Files world := {|
  os_content f w := w !! f;
  os_ReadFile f := λ w, (of_option (ErrVar "os.ErrNotExist") (w !! f), w);
  os_WriteFile f b := λ w, (Ok (), <[f := b]> w);
  os_OpenFile_Write f b := λ w, (Ok (), <[f := b ++ drop (length b) (default [] (w !! f))]> w) |}.
#[local] Instance toy_files_laws : FilesLaws world.
Proof.
  split.
  - intros f w b. cbn. intros E. exists w. by rewrite E.
  - intros f b w w' [= <-]. apply lookup_insert_eq.
  - intros f b w w' [= <-]. apply lookup_insert_eq.
Qed.

Definition sk : bytes := replicate 32 x07.
Definition saved : world := (SavePrivateKeyToJsonFile sk "password" "alice.json" ∅).2.
Definition saved_pem : world := (SavePrivateKeyToPemFile sk "alice.pem" {["alice.pem" := replicate 100 x00]}).2.

Lemma json_file_roundtrip_witness : ∃ w, LoadPrivateKeyFromJsonFile "alice.json" "password" saved = (Ok sk, w).
Proof. apply (json_file_roundtrip sk "password" "alice.json" ∅ saved); [vm_compute; lia|vm_compute; reflexivity]. Defined.

Lemma pem_file_roundtrip_witness : ∃ w, LoadPrivateKeyFromPemFile "alice.pem" saved_pem = (Ok sk, w).
Proof.
  apply (pem_file_roundtrip sk "alice.pem" {["alice.pem" := replicate 100 x00]} saved_pem); [vm_compute; lia|vm_compute; reflexivity].
Defined.

Definition file : bytes := default [] (saved !! "alice.json").

Lemma decryptKeystore_sound_witness : ∃ key, json_UnmarshalKeystore file = Ok key ∧
  (ks_Kind key ≠ mnemonicKind → (length sk ≤ 32)%nat ∧
     ∃ a, GetAddressFromPrivateKey sk = Ok a ∧ hex_EncodeToString (AddressBytes a) = ks_Address key ∧
          AddressAsBech32String a = Ok (ks_Bech32 key)).
Proof.
  destruct (decryptKeystore_sound file sk "password") as (key & ct & mac & salt & dk & Hk & _ & _ & _ & _ & _ & Hs); [vm_compute; reflexivity|].
  exists key. by split.
Defined.

Example wrong_password : (LoadPrivateKeyFromJsonFile "alice.json" "passwort" saved).1 = Fail ErrWrongPassword.
Proof. vm_compute. reflexivity. Qed.

Lemma egldPath_low_bits_witness :
  GetPrivateKeyFromSeed sk (2 ^ 31 + 3) 1 = GetPrivateKeyFromSeed sk 3 (2 ^ 31 + 1).
Proof.
  apply (egldPath_low_bits sk (2 ^ 31 + 3) 3 1 (2 ^ 31 + 1)); unfold is_u32; (lia || reflexivity).
Defined.

(** The authentication code of a key file does not cover the initialization
    vector, and the key of a mnemonic is not checked: a file whose vector was
    altered yields another key without an error. *)
Definition mnemonic_file (iv : bytes) : encryptedKeyJSONV4 :=
  mkKeystore "" "" mnemonicKind "aes-128-ctr" (hex_EncodeToString [x61; x62]) (hex_EncodeToString iv) "scrypt" 32
    "" 4096 8 1 (hex_EncodeToString (replicate 16 x00 ++ [x61; x62])) "id" 4.

Theorem mnemonic_vector_is_not_checked :
  let load iv := json_MarshalKeystore (mnemonic_file iv) ≫= λ b, decryptKeystore b "" in
  load (replicate 16 x00) = Ok (GetPrivateKeyFromMnemonic "ab" 0 0) ∧
  load (replicate 16 x01) = Ok (GetPrivateKeyFromMnemonic "ba" 0 0) ∧
  load (replicate 15 x00) = Panic.
Proof. vm_compute. auto. Qed.
End WalletRun.
