(* ===== verification/Float.v ===== *)
(** * Go's float64

    IEEE binary64 numbers as the Standard Library's [spec_float] with the
    operations of [SpecFloat] at precision 53, the conversions of the language
    and the functions of [math] and [sort] the sources use. *)

From Stdlib Require Export SpecFloat.
From stdpp Require Export sorting.
From S2P Require Export GoStd.

Abbreviation float64 := spec_float.

#[export] Instance spec_float_eq_dec : EqDecision spec_float.
Proof. solve_decision. Defined.

Definition f64_add : float64 → float64 → float64 := SFadd 53 1024.
Definition f64_sub : float64 → float64 → float64 := SFsub 53 1024.
Definition f64_mul : float64 → float64 → float64 := SFmul 53 1024.
Definition f64_div : float64 → float64 → float64 := SFdiv 53 1024.
Definition f64_zero : float64 := S754_zero false.

(** [x < y], [x <= y], [x >= y]: false when one is not a number. *)
Definition f64_lt : float64 → float64 → bool := SFltb.
Definition f64_le : float64 → float64 → bool := SFleb.

(** [float64(z)] of an integer: round to the nearest, ties to even. *)
Definition f64_of_Z (z : Z) : float64 := binary_normalize 53 1024 z 0 false.

(** [math.Abs] *)
Definition math_Abs : float64 → float64 := SFabs.

(** [math.Round]: to the nearest integer, halves away from zero. *)
Definition math_Round (x : float64) : float64 :=
  match x with
  | S754_finite s m e =>
    if 0 <=? e then x
    else
      let d := 2 ^ (- e) in
      let q := Z.pos m / d in
      let q := if d <=? 2 * (Z.pos m mod d) then q + 1 else q in
      if q =? 0 then S754_zero s else binary_normalize 53 1024 (if s then - q else q) 0 s
  | _ => x
  end.

(** The integer part of a finite number, towards zero. *)
Definition f64_trunc (x : float64) : Z :=
  match x with
  | S754_finite s m e =>
    let a := if 0 <=? e then Z.pos m * 2 ^ e else Z.pos m / 2 ^ (- e) in
    if s then - a else a
  | _ => 0
  end.

Definition is_nan (x : float64) : bool := match x with S754_nan => true | _ => false end.

(** The sign of a number that is not below zero. *)
Definition nonneg_sign (x : float64) : Prop :=
  match x with S754_zero s | S754_infinity s | S754_finite s _ _ => s = false | S754_nan => True end.

Lemma binary_round_aux_sign mx ex lx : nonneg_sign (binary_round_aux 53 1024 false mx ex lx).
Proof.
  unfold binary_round_aux. destruct (shr_fexp _ _ mx ex lx) as [m1 e1]. destruct (shr_fexp _ _ _ e1 _) as [m2 e2].
  destruct (shr_m m2); [done| |done]. by destruct (_ <=? _).
Qed.

Lemma f64_of_Z_sign z : 0 ≤ z → nonneg_sign (f64_of_Z z).
Proof.
  intros Hz. unfold f64_of_Z, binary_normalize. destruct z as [|p|p]; [done| |lia].
  unfold binary_round. destruct (shl_align p 0 _). apply binary_round_aux_sign.
Qed.

Lemma f64_sub_diag s m e : f64_sub (S754_finite s m e) (S754_finite s m e) = f64_zero.
Proof.
  unfold f64_sub, SFsub. cbn [negb Bool.eqb]. rewrite Z.min_id.
  by rewrite Z.sub_diag.
Qed.

(** ** [sort.Float64s]

    The order puts what is not a number first. *)

Definition lessFloat (x y : float64) : bool := f64_lt x y || (is_nan x && negb (is_nan y)).

Definition float_le (x y : float64) : Prop := lessFloat y x = false.
#[export] Instance float_le_dec : RelDecision float_le.
Proof. intros x y. unfold float_le. apply _. Defined.

Definition sort_Float64s : list float64 → list float64 := merge_sort float_le.

(** The order is that of a key: the kind, the exponent and the mantissa. *)
Definition key (x : float64) : Z * Z * Z :=
  match x with
  | S754_nan => (-3, 0, 0)
  | S754_infinity true => (-2, 0, 0)
  | S754_finite true m e => (-1, - e, - Z.pos m)
  | S754_zero _ => (0, 0, 0)
  | S754_finite false m e => (1, e, Z.pos m)
  | S754_infinity false => (2, 0, 0)
  end.

Definition key_lt (a b : Z * Z * Z) : Prop :=
  let '(a1, a2, a3) := a in let '(b1, b2, b3) := b in
  a1 < b1 ∨ (a1 = b1 ∧ (a2 < b2 ∨ (a2 = b2 ∧ a3 < b3))).

Lemma lessFloat_key x y : lessFloat x y = true ↔ key_lt (key x) (key y).
Proof.
  unfold lessFloat, f64_lt, SFltb. destruct x as [s|s| |s m e], y as [s'|s'| |s' m' e'];
    cbn [SFcompare is_nan negb andb orb key key_lt];
    repeat match goal with b : bool |- _ => destruct b end; cbn; try (split; [done|lia]); try (split; [lia|done]);
    try (split; intros; try done; lia);
    destruct (Z.compare_spec e e') as [->|He|He]; cbn; try (split; intros; try done; lia);
    change (PosDef.Pos.compare_cont Eq m m') with (Pos.compare m m'); destruct (Pos.compare_spec m m') as [->|Hm|Hm]; cbn;
    split; intros; try done; lia.
Qed.

Lemma float_le_key x y : float_le x y ↔ ¬ key_lt (key y) (key x).
Proof. unfold float_le. rewrite <-lessFloat_key. by destruct (lessFloat y x). Qed.

Lemma key_total x y : key_lt (key x) (key y) ∨ key x = key y ∨ key_lt (key y) (key x).
Proof. destruct (key x) as [[a b] c], (key y) as [[a' b'] c']. cbn. destruct (decide (a = a' ∧ b = b' ∧ c = c')) as [(-> & -> & ->)|]; [auto|]. lia. Qed.

#[export] Instance float_le_refl : Reflexive float_le.
Proof. intros x. apply float_le_key. destruct (key x) as [[a b] c]. cbn. lia. Qed.

#[export] Instance float_le_trans : Transitive float_le.
Proof.
  intros x y z. rewrite !float_le_key. destruct (key x) as [[a b] c], (key y) as [[a' b'] c'], (key z) as [[a2 b2] c2].
  cbn. lia.
Qed.

#[export] Instance float_le_total : Total float_le.
Proof. intros x y. rewrite !float_le_key. destruct (key x) as [[a b] c], (key y) as [[a' b'] c']. cbn. lia. Qed.

(** Two numbers above zero in the same place of the order are the same. *)
Definition positive (x : float64) : Prop :=
  match x with S754_finite false _ _ | S754_infinity false | S754_nan => True | _ => False end.

Lemma float_le_antisym x y : positive x → positive y → float_le x y → float_le y x → x = y.
Proof.
  intros Hx Hy. rewrite !float_le_key.
  destruct x as [?|[]| |[] m e], y as [?|[]| |[] m' e']; cbn in *; try done; try (intros; lia).
  intros. assert (e = e' ∧ m = m') as [-> ->] by lia. done.
Qed.

(** Sorting forgets the order of its input. *)
Lemma sort_perm l1 l2 : Forall positive l1 → l1 ≡ₚ l2 → sort_Float64s l1 = sort_Float64s l2.
Proof.
  intros Hp Hl. unfold sort_Float64s.
  apply (StronglySorted_unique_strong float_le).
  - intros x y Hx Hy. rewrite merge_sort_Permutation in Hx. rewrite merge_sort_Permutation, <-Hl in Hy.
    rewrite Forall_forall in Hp. apply float_le_antisym; auto.
  - apply StronglySorted_merge_sort; apply _.
  - apply StronglySorted_merge_sort; apply _.
  - by rewrite !merge_sort_Permutation.
Qed.

Lemma sort_sorted l : StronglySorted float_le (sort_Float64s l).
Proof. apply StronglySorted_merge_sort; apply _. Qed.

Lemma sort_length l : length (sort_Float64s l) = length l.
Proof. apply Permutation_length, merge_sort_Permutation. Qed.

Lemma sorted_lookup (l : list float64) i j x y :
  StronglySorted float_le l → (i ≤ j)%nat → l !! i = Some x → l !! j = Some y → float_le x y.
Proof.
  intros Hs. revert i j. induction Hs as [|z l Hs IH Hz]; intros i j Hij Hi Hj; [done|].
  destruct i as [|i], j as [|j]; cbn in *; simplify_eq; [apply float_le_refl| |lia|].
  - rewrite Forall_forall in Hz. apply Hz. by eapply list_elem_of_lookup_2.
  - eapply (IH i j); [lia|done..].
Qed.

Example f64_tenth : f64_div (f64_of_Z 1) (f64_of_Z 10) = S754_finite false 7205759403792794 (-56).
Proof. vm_compute. reflexivity. Qed.
Example f64_round : map math_Round [f64_div (f64_of_Z 5) (f64_of_Z 2); f64_div (f64_of_Z (-5)) (f64_of_Z 2); f64_div (f64_of_Z 1) (f64_of_Z 3)]
  = [f64_of_Z 3; f64_of_Z (-3); f64_zero].
Proof. vm_compute. reflexivity. Qed.
