(* ===== verification/ParseFloat.v ===== *)
(** * Numbers read from text ([strconv.ParseFloat], [fmt.Sscanf])

    [strconv_ParseFloat] reads a text as Go does, the special values,
    hexadecimal numbers and underscores included, and rounds the exact value
    once, to the nearest float64. *)

From S2P Require Export Float.

(** ** The value of a numeral

    [mant * 2^e] and [num / den], rounded once. *)

Definition f64_of_binary (neg : bool) (mant e : Z) : float64 :=
  match mant with
  | Zpos m => binary_round 53 1024 neg m e
  | _ => S754_zero neg
  end.

Definition f64_of_ratio (neg : bool) (num den : Z) : float64 :=
  match num with
  | Zpos _ =>
    let '(q, e, l) := SFdiv_core_binary 53 1024 num 0 den 0 in binary_round_aux 53 1024 neg q e l
  | _ => S754_zero neg
  end.

(** [mant * 10^e] *)
Definition f64_of_decimal (neg : bool) (mant e : Z) : float64 :=
  if 0 <=? e then f64_of_binary neg (mant * 10 ^ e) 0 else f64_of_ratio neg mant (10 ^ (- e)).

(** ** [readFloat] *)

Definition digit_value (hex : bool) (c : ascii) : option Z :=
  match hex_value c with
  | Some v => if hex || (v <? 10) then Some v else None
  | None => None
  end.

(** The digits with at most one point: their value, how many follow the point,
    whether there is one, whether there is an underscore, and the rest. *)
Fixpoint scan_digits (hex : bool) (s : string) (mant after : Z) (dot digits under : bool) :
    Z * Z * bool * bool * string :=
  match s with
  | EmptyString => (mant, after, digits, under, EmptyString)
  | String c s' =>
    if Ascii.eqb c "_" then scan_digits hex s' mant after dot digits true
    else if Ascii.eqb c "." then
      if dot then (mant, after, digits, under, s) else scan_digits hex s' mant after true digits under
    else
      match digit_value hex c with
      | Some v => scan_digits hex s' (mant * (if hex then 16 else 10) + v) (if dot then after + 1 else after) dot true under
      | None => (mant, after, digits, under, s)
      end
  end.

(** The digits of an exponent, which stops growing at 10000. *)
Fixpoint scan_exponent (s : string) (e : Z) (under : bool) : Z * bool * string :=
  match s with
  | EmptyString => (e, under, EmptyString)
  | String c s' =>
    if Ascii.eqb c "_" then scan_exponent s' e true
    else match digit_value false c with
         | Some v => scan_exponent s' (if e <? 10000 then e * 10 + v else e) under
         | None => (e, under, s)
         end
  end.

(** The last character seen: the beginning, a digit, an underscore, another. *)
Inductive saw := SawStart | SawDigit | SawUnder | SawOther.

Fixpoint underscores_from (hex : bool) (last : saw) (s : string) : bool :=
  match s with
  | EmptyString => match last with SawUnder => false | _ => true end
  | String c s' =>
    match digit_value hex c with
    | Some _ => underscores_from hex SawDigit s'
    | None =>
      if Ascii.eqb c "_" then match last with SawDigit => underscores_from hex SawUnder s' | _ => false end
      else match last with SawUnder => false | _ => underscores_from hex SawOther s' end
    end
  end.

Definition drop_sign (s : string) : string :=
  match s with
  | String c s' => if Ascii.eqb c "+" || Ascii.eqb c "-" then s' else s
  | EmptyString => s
  end.

Definition underscoreOK (s : string) : bool :=
  match drop_sign s with
  | String "0" (String x s') =>
    if Ascii.eqb (to_lower x) "x" then underscores_from true SawDigit s'
    else if Ascii.eqb (to_lower x) "b" || Ascii.eqb (to_lower x) "o" then underscores_from false SawDigit s'
    else underscores_from false SawStart (drop_sign s)
  | s' => underscores_from false SawStart s'
  end.

(** Infinities, signed or not, and what is not a number, in any case. *)
Definition special (s : string) : option float64 :=
  let infinite (s : string) := let l := strings_ToLower s in String.eqb l "inf" || String.eqb l "infinity" in
  match s with
  | String "+" s' => if infinite s' then Some (S754_infinity false) else None
  | String "-" s' => if infinite s' then Some (S754_infinity true) else None
  | _ => if infinite s then Some (S754_infinity false) else if String.eqb (strings_ToLower s) "nan" then Some S754_nan else None
  end.

(** The whole text as a numeral: none is a syntax error. *)
Definition readFloat (s : string) : option float64 :=
  let neg := match s with String "-" _ => true | _ => false end in
  let body := drop_sign s in
  let '(hex, body) :=
    match body with
    | String "0" (String x (String c rest)) => if Ascii.eqb (to_lower x) "x" then (true, String c rest) else (false, body)
    | _ => (false, body)
    end in
  let '(mant, after, digits, under, rest) := scan_digits hex body 0 0 false false false in
  if negb digits then None
  else
    let number (e : Z) (under : bool) :=
      if under && negb (underscoreOK s) then None
      else Some (if hex then f64_of_binary neg mant (e - 4 * after) else f64_of_decimal neg mant (e - after)) in
    match rest with
    | EmptyString => if hex then None else number 0 under
    | String c rest =>
      if Ascii.eqb (to_lower c) (if hex then "p" else "e") then
        let esign := match rest with String "-" _ => -1 | _ => 1 end in
        let rest := drop_sign rest in
        match rest with
        | String d _ =>
          match digit_value false d with
          | Some _ =>
            let '(e, under, rest) := scan_exponent rest 0 under in
            match rest with EmptyString => number (esign * e) under | _ => None end
          | None => None
          end
        | EmptyString => None
        end
      else None
    end.

Definition is_infinite (x : float64) : bool := match x with S754_infinity _ => true | _ => false end.

Definition strconv_ParseFloat (s : string) : outcome float64 :=
  match special s with
  | Some x => Ok x
  | None =>
    match readFloat s with
    | None => Fail errSyntax
    | Some x => if is_infinite x then Fail errRange else Ok x
    end
  end.

Definition f64_dec (a b : Z) : float64 := f64_div (f64_of_Z a) (f64_of_Z b).

Example parse_numbers :
  strconv_ParseFloat <$> ["1"; "-2.5"; "0.1"; "1e-1"; ".1"; "100e-3"; "+4217.55"; "1_000.5"; "0x1p-2"; "0X_1.8P1"; "-0"; "1e22"; "4.9e-324"]
  = Ok <$> [f64_of_Z 1; f64_dec (-5) 2; f64_dec 1 10; f64_dec 1 10; f64_dec 1 10; f64_dec 1 10; f64_dec 421755 100;
            f64_dec 2001 2; f64_dec 1 4; f64_of_Z 3; S754_zero true; f64_of_Z (10 ^ 22); S754_finite false 1 (-1074)].
Proof. vm_compute. reflexivity. Qed.

Example parse_specials : strconv_ParseFloat <$> ["nan"; "Inf"; "-infinity"] = Ok <$> [S754_nan; S754_infinity false; S754_infinity true].
Proof. vm_compute. reflexivity. Qed.

Example parse_errors :
  strconv_ParseFloat <$> [""; "."; "1e"; "1.2.3"; "1__0"; "_1"; "+nan"; "0x1"; "1,5"; "1e400"; " 1"]
  = Fail <$> [errSyntax; errSyntax; errSyntax; errSyntax; errSyntax; errSyntax; errSyntax; errSyntax; errSyntax; errRange; errSyntax].
Proof. vm_compute. reflexivity. Qed.

(** ** [fmt.Sscanf(s, "%d", &n)]

    Spaces, a sign, the longest run of digits; what follows is ignored.  The
    errors of the scanner are not told apart. *)

Definition errScan : error := ErrText "fmt: scan".

Definition is_scan_space (c : ascii) : bool :=
  existsb (Ascii.eqb c) [" "; "009"; "011"; "012"; "013"]%char.

Fixpoint scan_SkipSpace (s : string) : outcome string :=
  match s with
  | EmptyString => Ok s
  | String c s' =>
    if Ascii.eqb c "010" then Fail errScan
    else match s' with
         | String d s'' => if Ascii.eqb c "013" && Ascii.eqb d "010" then scan_SkipSpace s''
                           else if is_scan_space c then scan_SkipSpace s' else Ok s
         | EmptyString => if is_scan_space c then Ok s' else Ok s
         end
  end.

Fixpoint take_digits (s : string) : string :=
  match s with
  | String c s' => match digit_value false c with Some _ => String c (take_digits s') | None => EmptyString end
  | EmptyString => EmptyString
  end.

Definition fmt_Sscanf_d (s : string) : outcome Z :=
  s ← scan_SkipSpace s;
  let digits := take_digits (drop_sign s) in
  match digits_of digits, s with
  | Some n, String c _ =>
    let z := if Ascii.eqb c "-" then - n else n in
    if (- 2 ^ 63 <=? z) && (z <? 2 ^ 63) then Ok z else Fail errScan
  | _, _ => Fail errScan
  end.

Example scan_numbers : fmt_Sscanf_d <$> [" 42x"; "-7"; "0.52"; "+3"; ""; "x"; "9223372036854775808"]
  = [Ok 42; Ok (-7); Ok 0; Ok 3; Fail errScan; Fail errScan; Fail errScan].
Proof. vm_compute. reflexivity. Qed.

(** ** [fmt.Sprintf(format)] without operands

    Every verb of the format is missing its operand.  Argument indexes and star
    widths are [sprintf_star]; the verb is one byte of ASCII. *)

Section Sprintf.
Variable sprintf_star : string → string.

Definition is_flag (c : ascii) : bool := existsb (Ascii.eqb c) ["#"; "0"; "+"; "-"; " "]%char.

Fixpoint skip_flags (s : string) : string :=
  match s with String c s' => if is_flag c then skip_flags s' else s | EmptyString => s end.

(** A number of a format: too large a one runs to the end. *)
Fixpoint skip_number (num : Z) (s : string) : string :=
  match s with
  | String c s' =>
    match digit_value false c with
    | Some v => if 1000000 <? num then EmptyString else skip_number (num * 10 + v) s'
    | None => s
    end
  | EmptyString => s
  end.

Definition is_star (s : string) : bool :=
  match s with String c _ => Ascii.eqb c "*" || Ascii.eqb c "[" | EmptyString => false end.

(** What follows a percent sign, up to the verb. *)
Definition to_verb (s : string) : option string :=
  let s := skip_flags s in
  if is_star s then None
  else
    let s := skip_number 0 s in
    match s with
    | String c s' => if Ascii.eqb c "." then if is_star s' then None else Some (skip_number 0 s') else if is_star s then None else Some s
    | EmptyString => Some s
    end.

(** Fuel: the length of the format, one step per percent sign. *)
Fixpoint sprintf_go (fuel : nat) (s : string) : string :=
  match fuel, s with
  | O, _ | _, EmptyString => EmptyString
  | S fuel, String c s' =>
    if negb (Ascii.eqb c "%") then String c (sprintf_go fuel s')
    else match to_verb s' with
         | None => sprintf_star s
         | Some EmptyString => "%!(NOVERB)"
         | Some (String v rest) => (if Ascii.eqb v "%" then "%" else "%!" +:+ String v "(MISSING)") +:+ sprintf_go fuel rest
         end
  end.

Definition fmt_Sprintf (s : string) : string := sprintf_go (String.length s) s.

(** A text without percent signs is its own format. *)
Lemma fmt_Sprintf_plain s : lacks "%"%char s → fmt_Sprintf s = s.
Proof.
  unfold fmt_Sprintf. induction s as [|c s IH]; [done|]. cbn. intros [-> Hs]%andb_prop. by rewrite IH.
Qed.

Example sprintf_escape : fmt_Sprintf "https://host/api?q=a%20b&done=100%%25"
  = "https://host/api?q=a%!b(MISSING)&done=100%25".
Proof. vm_compute. reflexivity. Qed.
End Sprintf.
