(* ===== verification/Aggregator.v ===== *)
(** * The price aggregator ([aggregator/])

    [priceAggregator] asks every fetcher for a price and answers the median;
    [pair] holds what a notifier knows of a pair of currencies; [priceNotifier]
    compares the trimmed prices with the last ones it gave to its notifee. *)

From stdpp Require Import gmap.
From S2P Require Export Float.

Definition ErrNotEnoughResponses : error := ErrVar "aggregator.ErrNotEnoughResponses".
Definition ErrInvalidMinNumberOfResults : error := ErrVar "aggregator.ErrInvalidMinNumberOfResults".
Definition ErrInvalidNumberOfPriceFetchers : error := ErrVar "aggregator.ErrInvalidNumberOfPriceFetchers".
Definition ErrNilPriceFetcher : error := ErrVar "aggregator.ErrNilPriceFetcher".
Definition ErrNilPriceAggregator : error := ErrVar "aggregator.ErrNilPriceAggregator".
Definition ErrEmptyArgsPairsSlice : error := ErrVar "aggregator.ErrEmptyArgsPairsSlice".
Definition ErrNilArgsPair : error := ErrVar "aggregator.ErrNilArgsPair".
Definition ErrNilPriceNotifee : error := ErrVar "aggregator.ErrNilPriceNotifee".
Definition ErrInvalidNumOfElementsToComputeMedian : error := ErrVar "aggregator.ErrInvalidNumOfElementsToComputeMedian".
Definition ErrInvalidDecimals : error := ErrVar "aggregator.ErrInvalidDecimals".
Definition ErrNilBaseName : error := ErrVar "aggregator.ErrNilBaseName".
Definition ErrNilQuoteName : error := ErrVar "aggregator.ErrNilQuoteName".
Definition ErrNilExchanges : error := ErrVar "aggregator.ErrNilExchanges".
Definition ErrInvalidAutoSendInterval : error := ErrVar "aggregator.ErrInvalidAutoSendInterval".
Definition ErrPairNotSupported : error := ErrVar "aggregator.ErrPairNotSupported".
Definition ErrNilAuthClient : error := ErrVar "aggregator.ErrNilAuthClient".

(** ** Medians and rounding *)

Definition minNumberOfElementsToComputeMedian : nat := 1.

(** An index of a slice of numbers. *)
Definition at_index {A} (l : list A) (i : nat) : outcome A :=
  match l !! i with Some x => Ok x | None => Panic end.

(** The slice is sorted in place: it belongs to the caller [FetchPrice]. *)
Definition computeMedian (nums : list float64) : outcome float64 :=
  if Nat.ltb (length nums) minNumberOfElementsToComputeMedian then Fail ErrInvalidNumOfElementsToComputeMedian
  else
    let nums := sort_Float64s nums in
    let numsLen := length nums in
    let mid := (numsLen / 2)%nat in
    if negb (Nat.land numsLen 1 =? 0)%nat then at_index nums mid
    else
      x ← at_index nums (mid - 1);
      y ← at_index nums mid;
      Ok (f64_div (f64_add x y) (f64_of_Z 2)).

Definition trim (v precision : float64) : float64 := f64_mul (math_Round (f64_div v precision)) precision.

(** ** [pair.go] *)

Definition minDecimals : Z := 1.
Definition maxDecimals : Z := 18.

Record ArgsPair := mkArgsPair {
  Base : string;
  Quote : string;
  PercentDifferenceToNotify : Z;
  Decimals : Z;
  Exchanges : gset string }.

Record pair := mkPair {
  base : string;
  quote : string;
  percentDifferenceToNotify : Z;
  decimals : Z;
  trimPrecision : float64;
  denominationFactor : Z;
  exchanges : gset string }.

Definition checkPairArgs (args : ArgsPair) : outcome () :=
  guard_err (String.length (Base args) =? 0)%nat ErrNilBaseName ;;
  guard_err (String.length (Quote args) =? 0)%nat ErrNilQuoteName ;;
  guard_err ((Decimals args <? minDecimals) || (maxDecimals <? Decimals args)) (ErrWrap ErrInvalidDecimals "got") ;;
  guard_err (Nat.eqb (size (Exchanges args)) 0) ErrNilExchanges.

(** [math.Pow(10, n)], exact while the power of 5 fits the mantissa, that is for n up to 22. *)
Definition math_Pow10 (n : Z) : float64 := f64_of_Z (10 ^ n).

Definition newPair (args : ArgsPair) : outcome pair :=
  checkPairArgs args ;;
  let denominationFactorAsFloat64 := math_Pow10 (Decimals args) in
  Ok (mkPair (Base args) (Quote args) (PercentDifferenceToNotify args) (Decimals args)
        (f64_div (f64_of_Z 1) denominationFactorAsFloat64)
        (f64_trunc denominationFactorAsFloat64) (Exchanges args)).

(** ** [priceAggregator.go] *)

Definition minResultsNum : Z := 1.

(** A fetcher, by what its call answers during this round. *)
Record PriceFetcher := mkFetcher {
  pf_Name : string;
  pf_FetchPrice : string → string → outcome float64 }.

Record priceAggregator := mkAggregator {
  priceFetchers : list (option PriceFetcher);
  pa_minResultsNum : Z }.

Fixpoint checkFetchers (fetchers : list (option PriceFetcher)) : outcome () :=
  match fetchers with
  | [] => Ok ()
  | None :: _ => Fail (ErrWrap ErrNilPriceFetcher "index")
  | Some _ :: rest => checkFetchers rest
  end.

Definition checkArgs (fetchers : list (option PriceFetcher)) (minNum : Z) : outcome () :=
  guard_err (minNum <? minResultsNum) (ErrWrap ErrInvalidMinNumberOfResults "provided") ;;
  guard_err (Z.of_nat (length fetchers) <? minNum) (ErrWrap ErrInvalidNumberOfPriceFetchers "len(args.PriceFetchers)") ;;
  checkFetchers fetchers.

Definition NewPriceAggregator (fetchers : list (option PriceFetcher)) (minNum : Z) : outcome priceAggregator :=
  checkArgs fetchers minNum ;; Ok (mkAggregator fetchers minNum).

(** The body of one goroutine. A price is appended under the mutex; an error is
    logged and dropped. *)
Definition fetch_one (baseUpper quoteUpper : string) (f : option PriceFetcher) (prices : list float64) :
    outcome (list float64) :=
  match f with
  | None => Panic
  | Some f =>
    match pf_FetchPrice f baseUpper quoteUpper with
    | Ok price => Ok (prices ++ [price])
    | Fail _ => Ok prices
    | Panic => Panic
    end
  end.

(** The goroutines of all fetchers, in the order they take the mutex: [order]
    is the list of their places in [priceFetchers]. *)
Fixpoint fetch_all (baseUpper quoteUpper : string) (fetchers : list (option PriceFetcher)) (order : list nat)
    (prices : list float64) : outcome (list float64) :=
  match order with
  | [] => Ok prices
  | i :: order =>
    prices ← fetch_one baseUpper quoteUpper (default None (fetchers !! i)) prices;
    fetch_all baseUpper quoteUpper fetchers order prices
  end.

Definition FetchPrice (order : list nat) (pa : priceAggregator) (base quote : string) : outcome float64 :=
  let baseUpper := strings_ToUpper base in
  let quoteUpper := strings_ToUpper quote in
  prices ← fetch_all baseUpper quoteUpper (priceFetchers pa) order [];
  if Z.of_nat (length prices) <? pa_minResultsNum pa then Fail ErrNotEnoughResponses
  else computeMedian prices.

(** Every goroutine runs once. *)
Definition schedule (pa : priceAggregator) (order : list nat) : Prop :=
  order ≡ₚ seq 0 (length (priceFetchers pa)).

(** ** [priceNotifier.go] *)

Definition epsilon : float64 := f64_div (f64_of_Z 1) (f64_of_Z 10000).
(** One second, in nanoseconds. *)
Definition minAutoSendInterval : Z := 1000000000.

Record ArgsPriceChanged := mkPriceChanged {
  pc_Base : string;
  pc_Quote : string;
  pc_DenominatedPrice : Z;
  pc_Decimals : Z;
  pc_Timestamp : Z }.

Record priceInfo := mkPriceInfo { price : float64; timestamp : Z }.

Record notifyArgs := mkNotifyArgs {
  na_pair : pair;
  newPrice : priceInfo;
  lastNotifiedPrice : float64;
  index : nat }.

Record priceNotifier := mkNotifier {
  pairs : list pair;
  lastNotifiedPrices : list float64;
  autoSendInterval : Z;
  lastTimeAutoSent : gtime }.

Definition setLastNotified (l : list float64) (pn : priceNotifier) : priceNotifier :=
  mkNotifier (pairs pn) l (autoSendInterval pn) (lastTimeAutoSent pn).
Definition setLastTimeAutoSent (t : gtime) (pn : priceNotifier) : priceNotifier :=
  mkNotifier (pairs pn) (lastNotifiedPrices pn) (autoSendInterval pn) t.

(** What the notifier asks of its aggregator and of its notifee. *)
Class PriceAggregator (W : Type) := { agg_FetchPrice : string → string → M W float64 }.
Class PriceNotifee (W : Type) := { PriceChanged : list ArgsPriceChanged → M W () }.

Definition checkArgsPriceNotifier (argPairs : list (option ArgsPair)) (notifeeIsNil aggregatorIsNil : bool)
    (interval : Z) : outcome () :=
  guard_err (Nat.ltb (length argPairs) 1) ErrEmptyArgsPairsSlice ;;
  guard_err (interval <? minAutoSendInterval) (ErrWrap ErrInvalidAutoSendInterval "minimum") ;;
  guard_err notifeeIsNil ErrNilPriceNotifee ;;
  guard_err aggregatorIsNil ErrNilPriceAggregator.

Fixpoint newPairs (argPairs : list (option ArgsPair)) : outcome (list pair) :=
  match argPairs with
  | [] => Ok []
  | None :: _ => Fail (ErrWrap ErrNilArgsPair "index")
  | Some a :: rest => p ← newPair a; ps ← newPairs rest; Ok (p :: ps)
  end.

Definition NewPriceNotifier (argPairs : list (option ArgsPair)) (notifeeIsNil aggregatorIsNil : bool) (interval : Z)
    (now : gtime) : outcome priceNotifier :=
  checkArgsPriceNotifier argPairs notifeeIsNil aggregatorIsNil interval ;;
  ps ← newPairs argPairs;
  Ok (mkNotifier ps (replicate (length argPairs) f64_zero) interval now).

Definition bypassPercentCheck (n : notifyArgs) : bool :=
  let percentValue := f64_div (f64_of_Z (percentDifferenceToNotify (na_pair n))) (f64_of_Z 100) in
  f64_lt (lastNotifiedPrice n) epsilon || f64_lt percentValue epsilon.

Definition shouldNotify (n : notifyArgs) : bool :=
  if bypassPercentCheck n then true
  else
    let absoluteChange := math_Abs (f64_sub (lastNotifiedPrice n) (price (newPrice n))) in
    let percentageChange := f64_div (f64_mul absoluteChange (f64_of_Z 100)) (lastNotifiedPrice n) in
    f64_le (f64_of_Z (percentDifferenceToNotify (na_pair n))) percentageChange.

(** The price of one pair of the slice to notify, as the notifee receives it
    and as the notifier remembers it. [uint64(x)] of a number that has no uint64
    is the platform's. *)
Section Notify.
Variable uint64_of_big : float64 → Z.

Definition uint64_of_float (x : float64) : Z :=
  let inside := match x with S754_zero _ | S754_finite _ _ _ => (0 <=? f64_trunc x) && (f64_trunc x <? 2 ^ 64) | _ => false end in
  if inside then f64_trunc x else u64 (uint64_of_big x).

Definition priceTrimmed (n : notifyArgs) : float64 := trim (price (newPrice n)) (trimPrecision (na_pair n)).

Definition argPriceChanged (n : notifyArgs) : ArgsPriceChanged :=
  mkPriceChanged (base (na_pair n)) (quote (na_pair n))
    (uint64_of_float (f64_mul (priceTrimmed n) (f64_of_Z (denominationFactor (na_pair n)))))
    (decimals (na_pair n)) (timestamp (newPrice n)).

Section Notifier.
Context {W : Type} `{Clock W} `{PriceAggregator W} `{PriceNotifee W}.

Abbreviation St := (priceNotifier * W)%type.

Definition time_ToUnix (t : gtime) : Z := i64 (t_sec t - unixToInternal).

Definition getAllPrices (pn : priceNotifier) : M W (list priceInfo) :=
  mcollect (pairs pn) (λ p,
    price ← wrapping (λ e, ErrWrap e "while querying the pair") (agg_FetchPrice (base p) (quote p));
    now ← gets time_Now;
    mret (mkPriceInfo (trim price (trimPrecision p)) (time_ToUnix now))).

(** The loop over the pairs, from place [idx]. *)
Fixpoint collectNotifyArgs (shouldNotifyAll : bool) (fetchedPrices : list priceInfo) (last : list float64)
    (idx : nat) (ps : list pair) : outcome (list notifyArgs) :=
  match ps with
  | [] => Ok []
  | p :: ps =>
    newP ← at_index fetchedPrices idx;
    lastP ← at_index last idx;
    rest ← collectNotifyArgs shouldNotifyAll fetchedPrices last (S idx) ps;
    let n := mkNotifyArgs p newP lastP idx in
    Ok (if shouldNotifyAll || shouldNotify n then n :: rest else rest)
  end.

Definition computeNotifyArgsSlice (fetchedPrices : list priceInfo) : M St (list notifyArgs) := λ '(pn, w),
  let shouldNotifyAll := autoSendInterval pn <? time_Sub (time_Now w) (lastTimeAutoSent pn) in
  let result := collectNotifyArgs shouldNotifyAll fetchedPrices (lastNotifiedPrices pn) 0 (pairs pn) in
  match result with
  | Ok _ => (result, (if shouldNotifyAll then setLastTimeAutoSent (time_Now w) pn else pn, w))
  | _ => (result, (pn, w))
  end.

(** [pn.lastNotifiedPrices[notify.index] = priceTrimmed]. *)
Definition remember (n : notifyArgs) : M St () := λ '(pn, w),
  if Nat.ltb (index n) (length (lastNotifiedPrices pn))
  then (Ok (), (setLastNotified (<[index n := priceTrimmed n]> (lastNotifiedPrices pn)) pn, w))
  else (Panic, (pn, w)).

Definition notify (notifyArgsSlice : list notifyArgs) : M St () :=
  match notifyArgsSlice with
  | [] => mret ()
  | _ =>
    args ← mcollect notifyArgsSlice (λ n, remember n ;; mret (argPriceChanged n));
    onsnd (PriceChanged args)
  end.

Definition Execute : M St () :=
  pn ← gets fst;
  fetchedPrices ← onsnd (getAllPrices pn);
  notifyArgsSlice ← computeNotifyArgsSlice fetchedPrices;
  notify notifyArgsSlice.
End Notifier.
End Notify.

(** ** The median of the answers *)

(** What a fetcher contributes. *)
Definition answer (b q : string) (f : option PriceFetcher) : option float64 :=
  match f with
  | Some f => match pf_FetchPrice f (strings_ToUpper b) (strings_ToUpper q) with Ok p => Some p | _ => None end
  | None => None
  end.

Definition answers (pa : priceAggregator) (b q : string) : list float64 := omap (answer b q) (priceFetchers pa).

(** No fetcher brings the program down. *)
Definition fetchers_return (fetchers : list (option PriceFetcher)) : Prop :=
  ∀ f b q, Some f ∈ fetchers → pf_FetchPrice f b q ≠ Panic.

Lemma checkFetchers_ok fetchers : checkFetchers fetchers = Ok () → None ∉ fetchers.
Proof.
  induction fetchers as [|[f|] l IH]; [set_solver| |done].
  cbn. intros E. rewrite not_elem_of_cons. by split; [|apply IH].
Qed.

Lemma NewPriceAggregator_run fetchers m pa :
  NewPriceAggregator fetchers m = Ok pa → pa = mkAggregator fetchers m ∧ 1 ≤ m ≤ Z.of_nat (length fetchers) ∧ None ∉ fetchers.
Proof.
  unfold NewPriceAggregator, checkArgs, guard_err, minResultsNum.
  destruct (Z.ltb_spec m 1); [done|]. destruct (Z.ltb_spec (Z.of_nat (length fetchers)) m); [done|]. cbn.
  destruct (checkFetchers fetchers) as [[]|e|] eqn:E; cbn; [|done..]. intros [= <-].
  split_and!; [done|lia|lia|by apply checkFetchers_ok].
Qed.

Lemma omap_seq_lookup {A B} (f : A → option B) (l : list A) :
  omap (λ i, l !! i ≫= f) (seq 0 (length l)) = omap f l.
Proof.
  induction l as [|x l IH] using rev_ind; [done|].
  rewrite length_app, seq_app, !omap_app, <-IH. cbn. f_equal.
  - apply list_omap_ext, Forall2_same_length_lookup_2; [done|].
    intros i j k Hi Hj. simplify_eq. apply lookup_seq in Hi as [-> Hk]. by rewrite lookup_app_l by lia.
  - by rewrite lookup_app_r, Nat.sub_diag by lia.
Qed.

Lemma fetch_all_run fetchers b q order acc :
  None ∉ fetchers → fetchers_return fetchers → Forall (λ i, (i < length fetchers)%nat) order →
  fetch_all (strings_ToUpper b) (strings_ToUpper q) fetchers order acc
  = Ok (acc ++ omap (λ i, fetchers !! i ≫= answer b q) order).
Proof.
  intros Hn Hp Ho. revert acc. induction Ho as [|i order Hi Ho IH]; intros acc; [by rewrite app_nil_r|].
  destruct (lookup_lt_is_Some_2 _ _ Hi) as [f Hf]. cbn [fetch_all]. rewrite Hf. cbn [default].
  destruct f as [f|]; [|by apply list_elem_of_lookup_2 in Hf].
  unfold fetch_one. cbn [default from_option id omap list_omap]. rewrite Hf. cbn [mbind option_bind answer].
  destruct (pf_FetchPrice f _ _) as [p|e|] eqn:E; cbn [mbind outcome_bind].
  - setoid_rewrite IH. by rewrite <-app_assoc.
  - apply IH.
  - exfalso. eapply Hp, E. by eapply list_elem_of_lookup_2.
Qed.

Lemma FetchPrice_run fetchers m pa order b q :
  NewPriceAggregator fetchers m = Ok pa → fetchers_return fetchers → schedule pa order →
  ∃ prices, prices ≡ₚ answers pa b q ∧
    FetchPrice order pa b q = if Z.of_nat (length prices) <? m then Fail ErrNotEnoughResponses else computeMedian prices.
Proof.
  intros (-> & _ & Hn)%NewPriceAggregator_run Hp Ho. unfold schedule in Ho. cbn in Ho.
  exists (omap (λ i, fetchers !! i ≫= answer b q) order). split.
  - rewrite Ho. unfold answers. cbn [priceFetchers]. by rewrite <-(omap_seq_lookup (answer b q)).
  - unfold FetchPrice; cbn [priceFetchers pa_minResultsNum]. rewrite fetch_all_run; [done..|].
    rewrite Ho. apply Forall_seq. lia.
Qed.

Lemma computeMedian_perm l1 l2 : Forall positive l1 → l1 ≡ₚ l2 → computeMedian l1 = computeMedian l2.
Proof.
  intros Hp Hl. unfold computeMedian. rewrite (sort_perm l1 l2 Hp Hl). by rewrite (Permutation_length Hl).
Qed.

Lemma FetchPrice_median fetchers m pa order b q :
  NewPriceAggregator fetchers m = Ok pa → fetchers_return fetchers → schedule pa order →
  Forall positive (answers pa b q) →
  FetchPrice order pa b q =
    if Z.of_nat (length (answers pa b q)) <? m then Fail ErrNotEnoughResponses else computeMedian (answers pa b q).
Proof.
  intros Hpa Hp Ho Hpos. destruct (FetchPrice_run _ _ _ _ b q Hpa Hp Ho) as (prices & Hl & ->).
  rewrite (Permutation_length Hl). case_match; [done|]. apply computeMedian_perm; [by rewrite Hl|done].
Qed.

(** The price does not depend on the order in which the fetchers answer:
    whatever the order of the goroutines, FetchPrice is the median of the prices the fetchers
    gave, or the error that there are fewer of them than asked for. *)
Theorem FetchPrice_order_irrelevant fetchers m pa order b q :
  NewPriceAggregator fetchers m = Ok pa → fetchers_return fetchers → schedule pa order →
  Forall positive (answers pa b q) →
  FetchPrice order pa b q =
    if Z.of_nat (length (answers pa b q)) <? m then Fail ErrNotEnoughResponses else computeMedian (answers pa b q).
Proof. apply FetchPrice_median. Qed.

(** ** A majority of honest fetchers decides *)

Definition between (lo hi x : float64) : Prop := float_le lo x ∧ float_le x hi.
#[export] Instance between_dec lo hi x : Decision (between lo hi x).
Proof. unfold between. apply _. Defined.

(** The middle of a list, when it is between the bounds: an element, or the half
    sum of two. *)
Definition honest (lo hi : float64) (l : list float64) (x : float64) : Prop := x ∈ l ∧ between lo hi x.
Definition central (lo hi : float64) (l : list float64) (r : float64) : Prop :=
  honest lo hi l r ∨ ∃ x y, honest lo hi l x ∧ honest lo hi l y ∧ r = f64_div (f64_add x y) (f64_of_Z 2).

Lemma central_perm lo hi l1 l2 r : l1 ≡ₚ l2 → central lo hi l1 r → central lo hi l2 r.
Proof. unfold central, honest. intros Hl. by setoid_rewrite Hl. Qed.

Lemma filter_none {A} (P : A → Prop) `{∀ x, Decision (P x)} (l : list A) :
  (∀ x, x ∈ l → ¬ P x) → filter P l = [].
Proof. induction l as [|x l IH]; intros Hx; [done|]. rewrite filter_cons_False by set_solver. apply IH. set_solver. Qed.

Lemma float_le_or_lt x y : float_le x y ∨ (float_le y x ∧ ¬ float_le x y).
Proof. destruct (decide (float_le x y)); [by left|]. right. split; [|done]. by destruct (total float_le x y). Qed.

(** More than [length l - 1 - k] and more than [k] elements of a sorted list in
    an interval: the one at [k] is in it. *)
Lemma sorted_between lo hi l k x :
  StronglySorted float_le l → l !! k = Some x →
  (length l < length (filter (between lo hi) l) + k + 1)%nat → (k < length (filter (between lo hi) l))%nat → between lo hi x.
Proof.
  intros Hs Hk Hlow Hhigh. assert (Hlt := lookup_lt_Some _ _ _ Hk). split.
  - destruct (float_le_or_lt lo x) as [|[_ Hx]]; [done|]. exfalso.
    assert (E : filter (between lo hi) (take (S k) l) = []).
    { apply filter_none. intros y (i & Hi)%list_elem_of_lookup_1 [Hy _]. apply lookup_take_Some in Hi as [Hi Hik].
      apply Hx. etrans; [exact Hy|]. eapply (sorted_lookup l i k); [done|lia|done..]. }
    rewrite <-(take_drop (S k) l), filter_app, E in Hlow. cbn in Hlow.
    pose proof (length_filter (between lo hi) (drop (S k) l)). rewrite length_app, length_take, length_drop in *. lia.
  - destruct (float_le_or_lt x hi) as [|[_ Hx]]; [done|]. exfalso.
    assert (E : filter (between lo hi) (drop k l) = []).
    { apply filter_none. intros y (i & Hi)%list_elem_of_lookup_1 [_ Hy]. rewrite lookup_drop in Hi.
      apply Hx. etrans; [|exact Hy]. eapply (sorted_lookup l k (k + i)); [done|lia|done..]. }
    rewrite <-(take_drop k l), filter_app, E, app_nil_r in Hhigh.
    pose proof (length_filter (between lo hi) (take k l)). rewrite length_take in *. lia.
Qed.

Lemma filter_perm_length lo hi l1 l2 :
  l1 ≡ₚ l2 → length (filter (between lo hi) l1) = length (filter (between lo hi) l2).
Proof. intros Hl. apply Permutation_length. by apply filter_Permutation. Qed.

Lemma computeMedian_central lo hi l :
  (length l < 2 * length (filter (between lo hi) l))%nat → ∃ r, computeMedian l = Ok r ∧ central lo hi l r.
Proof.
  intros Hc. pose proof (length_filter (between lo hi) l) as Hn.
  unfold computeMedian, minNumberOfElementsToComputeMedian.
  destruct (Nat.ltb_spec (length l) 1); [lia|].
  pose proof (sort_sorted l) as Hs. pose proof (sort_length l) as Hlen.
  assert (Hf : length (filter (between lo hi) (sort_Float64s l)) = length (filter (between lo hi) l)).
  { apply filter_perm_length, merge_sort_Permutation. }
  assert (Hp : ∀ r, central lo hi (sort_Float64s l) r → central lo hi l r).
  { intros r. apply central_perm, merge_sort_Permutation. }
  set (s := sort_Float64s l) in *. clearbody s. rewrite <-Hf, <-Hlen in *. clear Hf Hlen Hn.
  assert (Hat : ∀ k, (length s < length (filter (between lo hi) s) + k + 1)%nat → (k < length (filter (between lo hi) s))%nat →
    (k < length s)%nat → ∃ x, s !! k = Some x ∧ honest lo hi s x).
  { intros k H1 H2 H3. destruct (lookup_lt_is_Some_2 _ _ H3) as [x Hx]. exists x. split; [done|].
    split; [by eapply list_elem_of_lookup_2|by eapply sorted_between]. }
  change 1%nat with (Nat.ones 1) at 1. rewrite Nat.land_ones. change (2 ^ 1)%nat with 2%nat.
  pose proof (Nat.div_mod_eq (length s) 2). pose proof (Nat.mod_upper_bound (length s) 2).
  unfold at_index. destruct (Nat.eqb_spec (length s mod 2) 0); cbn [negb].
  - destruct (Hat (length s / 2 - 1)%nat) as (x & -> & Hx); [lia..|].
    destruct (Hat (length s / 2)%nat) as (y & -> & Hy); [lia..|].
    eexists. split; [done|]. apply Hp. right. by exists x, y.
  - destruct (Hat (length s / 2)%nat) as (x & -> & Hx); [lia..|].
    eexists. split; [done|]. apply Hp. by left.
Qed.

Lemma FetchPrice_central fetchers m pa order b q lo hi :
  NewPriceAggregator fetchers m = Ok pa → fetchers_return fetchers → schedule pa order →
  m ≤ Z.of_nat (length (answers pa b q)) →
  (length (answers pa b q) < 2 * length (filter (between lo hi) (answers pa b q)))%nat →
  ∃ r, FetchPrice order pa b q = Ok r ∧ central lo hi (answers pa b q) r.
Proof.
  intros Hpa Hp Ho Hm Hc. destruct (FetchPrice_run _ _ _ _ b q Hpa Hp Ho) as (prices & Hl & ->).
  rewrite (Permutation_length Hl). destruct (Z.ltb_spec (Z.of_nat (length (answers pa b q))) m); [lia|].
  destruct (computeMedian_central lo hi prices) as (r & Er & Hr).
  - by rewrite (Permutation_length Hl), (filter_perm_length lo hi _ _ Hl).
  - exists r. split; [done|]. by eapply central_perm.
Qed.

(** C29: A majority decides the price: when enough fetchers answer and more than half
    of the answers lie between two bounds, FetchPrice succeeds and the price is one of those honest
    answers or the half sum of two of them, whatever the other fetchers say and in whatever order they answer. *)
Theorem FetchPrice_majority fetchers m pa order b q lo hi :
  NewPriceAggregator fetchers m = Ok pa → fetchers_return fetchers → schedule pa order →
  m ≤ Z.of_nat (length (answers pa b q)) →
  (length (answers pa b q) < 2 * length (filter (between lo hi) (answers pa b q)))%nat →
  ∃ r, FetchPrice order pa b q = Ok r ∧ central lo hi (answers pa b q) r.
Proof. apply FetchPrice_central. Qed.

(** ** When a pair is notified *)

(** A percentage that is not bypassed is above zero. *)
Lemma percent_above_zero p s :
  0 ≤ p → f64_lt (f64_div (f64_of_Z p) (f64_of_Z 100)) epsilon = false → f64_le (f64_of_Z p) (S754_zero s) = false.
Proof.
  intros Hp. pose proof (f64_of_Z_sign p Hp) as Hs.
  destruct (f64_of_Z p) as [s'|s'| |s' m e]; cbn in Hs; subst; try done.
Qed.

(** The price of the last notification is not notified again. *)
Lemma shouldNotify_same n :
  0 ≤ percentDifferenceToNotify (na_pair n) → bypassPercentCheck n = false →
  lastNotifiedPrice n = price (newPrice n) → shouldNotify n = false.
Proof.
  intros Hp Hb E. unfold shouldNotify. rewrite Hb, <-E. clear E.
  apply orb_false_iff in Hb as [Hl Hpc]. pose proof (percent_above_zero _ false Hp Hpc) as Hz.
  destruct (lastNotifiedPrice n) as [[]|[]| |[] m e]; [done|done|done| |by destruct (f64_of_Z _) as [[]|[]| |[] ? ?]|done|].
  - by destruct (f64_of_Z _) as [[]|[]| |[] ? ?].
  - by rewrite f64_sub_diag.
Qed.

(** ** What a round of the notifier does *)

(** One candidate per pair: the place, the fetched price and the last one. *)
Fixpoint candidates (idx : nat) (ps : list pair) (fetched : list priceInfo) (last : list float64) : list notifyArgs :=
  match ps, fetched, last with
  | p :: ps, f :: fetched, l :: last => mkNotifyArgs p f l idx :: candidates (S idx) ps fetched last
  | _, _, _ => []
  end.

Definition selected (all : bool) (n : notifyArgs) : bool := all || shouldNotify n.

Definition one_price_each (pn : priceNotifier) : Prop := length (lastNotifiedPrices pn) = length (pairs pn).

Lemma collectNotifyArgs_run all fetched last idx ps :
  (idx + length ps ≤ length fetched)%nat → (idx + length ps ≤ length last)%nat →
  collectNotifyArgs all fetched last idx ps
  = Ok (filter (λ n, selected all n = true) (candidates idx ps (drop idx fetched) (drop idx last))).
Proof.
  revert idx. induction ps as [|p ps IH]; intros idx Hf Hl; [done|]. cbn in Hf, Hl.
  destruct (lookup_lt_is_Some_2 fetched idx) as [f Ef]; [lia|].
  destruct (lookup_lt_is_Some_2 last idx) as [l El]; [lia|].
  cbn [collectNotifyArgs]. unfold at_index. rewrite Ef, El. cbn [mbind outcome_bind].
  rewrite IH by lia. cbn [mbind outcome_bind]. rewrite (drop_S _ _ _ Ef), (drop_S _ _ _ El). cbn [candidates].
  rewrite filter_cons. fold (selected all (mkNotifyArgs p f l idx)).
  destruct (selected all (mkNotifyArgs p f l idx)); [by rewrite decide_True|by rewrite decide_False].
Qed.

Lemma candidates_lookup idx ps fetched last i n :
  candidates idx ps fetched last !! i = Some n ↔
  ∃ p f l, ps !! i = Some p ∧ fetched !! i = Some f ∧ last !! i = Some l ∧ n = mkNotifyArgs p f l (idx + i).
Proof.
  revert idx fetched last i. induction ps as [|p ps IH]; intros idx [|f fetched] [|l last] i; cbn [candidates];
    try by (split; [done|intros (? & ? & ? & ? & ? & ? & ?)]).
  destruct i as [|i]; cbn [lookup list_lookup].
  - rewrite Nat.add_0_r. split; [intros [= <-]; by exists p, f, l|]. by intros (? & ? & ? & [= ->] & [= ->] & [= ->] & ->).
  - setoid_rewrite IH. by rewrite Nat.add_succ_r.
Qed.

Lemma candidates_index idx ps fetched last n :
  n ∈ candidates idx ps fetched last → ∃ i, candidates idx ps fetched last !! i = Some n ∧ index n = (idx + i)%nat.
Proof.
  intros (i & Hi)%list_elem_of_lookup_1. exists i. split; [done|].
  by apply candidates_lookup in Hi as (p & f & l & _ & _ & _ & ->).
Qed.

(** The last prices after the loop of [notify]. *)
Definition remember_all (ns : list notifyArgs) (last : list float64) : list float64 :=
  foldl (λ l n, <[index n := priceTrimmed n]> l) last ns.

Lemma remember_all_length ns last : length (remember_all ns last) = length last.
Proof. revert last. induction ns as [|n ns IH]; intros last; [done|]. cbn. unfold remember_all in IH. by rewrite IH, length_insert. Qed.

Lemma remember_all_other ns last i : (∀ n, n ∈ ns → index n ≠ i) → remember_all ns last !! i = last !! i.
Proof.
  revert last. induction ns as [|n ns IH]; intros last Hi; [done|]. cbn. unfold remember_all in IH.
  rewrite IH by (intros; apply Hi; by right). apply list_lookup_insert_ne. apply Hi. by left.
Qed.

Lemma remember_all_at ns last n :
  n ∈ ns → (index n < length last)%nat → (∀ m, m ∈ ns → index m = index n → m = n) →
  remember_all ns last !! index n = Some (priceTrimmed n).
Proof.
  unfold remember_all. induction ns as [|m ns IH] using rev_ind; intros Hn Hl Hu; [by apply not_elem_of_nil in Hn|].
  rewrite foldl_app. cbn. fold (remember_all ns last) in *. destruct (decide (index m = index n)) as [E|E].
  - rewrite (Hu m) by set_solver. apply list_lookup_insert_eq. by rewrite remember_all_length.
  - rewrite list_lookup_insert_ne by done. apply IH; [|done|set_solver].
    apply elem_of_app in Hn as [Hn|Hn]; [done|]. apply list_elem_of_singleton in Hn as ->. done.
Qed.

Lemma candidates_length idx ps fetched last :
  length fetched = length ps → length last = length ps → length (candidates idx ps fetched last) = length ps.
Proof.
  revert idx fetched last. induction ps as [|p ps IH]; intros idx [|f fetched] [|l last] ? ?; try done.
  cbn in *. f_equal. apply IH; lia.
Qed.

Lemma candidates_same_index idx ps fetched last n m :
  n ∈ candidates idx ps fetched last → m ∈ candidates idx ps fetched last → index n = index m → n = m.
Proof.
  intros (i & Hi & Ei)%candidates_index (j & Hj & Ej)%candidates_index E. assert (i = j) as -> by lia. congruence.
Qed.

Section Theorems.
Context {W : Type} `{Clock W} `{PriceAggregator W} `{PriceNotifee W}.
Variable uint64_of_big : float64 → Z.

Abbreviation Execute_ := (Execute uint64_of_big (W := W)).
Abbreviation changed := (argPriceChanged uint64_of_big).

(** The interval since the last automatic notification has passed. *)
Definition auto_due (pn : priceNotifier) (w : W) : bool :=
  autoSendInterval pn <? time_Sub (time_Now w) (lastTimeAutoSent pn).

Definition to_notify (pn : priceNotifier) (fetched : list priceInfo) (w : W) : list notifyArgs :=
  filter (λ n, selected (auto_due pn w) n = true) (candidates 0 (pairs pn) fetched (lastNotifiedPrices pn)).

Lemma remember_run ns pn (w : W) :
  (∀ n, n ∈ ns → (index n < length (lastNotifiedPrices pn))%nat) →
  mcollect ns (λ n, remember n ;; mret (changed n)) (pn, w)
  = (Ok (changed <$> ns), (setLastNotified (remember_all ns (lastNotifiedPrices pn)) pn, w)).
Proof.
  revert pn. induction ns as [|n ns IH]; intros pn Hn.
  - cbn. by destruct pn.
  - cbn [mcollect]. unfold mbind, M_bind, mret, M_ret, remember.
    rewrite (proj2 (Nat.ltb_lt _ _)) by (apply Hn; by left).
    unfold mbind, M_bind, mret, M_ret, remember in IH. rewrite IH; [done|].
    intros m Hm. cbn. rewrite length_insert. apply Hn. by right.
Qed.

Lemma getAllPrices_length pn (w w' : W) fetched : getAllPrices pn w = (Ok fetched, w') → length fetched = length (pairs pn).
Proof.
  unfold getAllPrices. revert w fetched. induction (pairs pn) as [|p ps IH]; intros w fetched; [by intros [= <- <-]|].
  cbn [mcollect]. unfold mbind at 1, M_bind at 1. case_match. case_match; [|done..].
  unfold mbind at 1, M_bind at 1. case_match. case_match; [|done..].
  intros [= <- <-]. cbn. f_equal. by eapply IH.
Qed.

Lemma to_notify_index pn fetched (w : W) n :
  one_price_each pn → length fetched = length (pairs pn) → n ∈ to_notify pn fetched w →
  (index n < length (lastNotifiedPrices pn))%nat.
Proof.
  intros Hwf Hf (_ & (i & Hi & ->)%candidates_index)%list_elem_of_filter.
  apply candidates_lookup in Hi as (p & f & l & _ & _ & Hl & _). by eapply lookup_lt_Some.
Qed.

(** A selected pair is remembered with its new price, the others with the old one. *)
Lemma remembered_prices pn fetched (w : W) :
  one_price_each pn → length fetched = length (pairs pn) →
  ∀ i n, candidates 0 (pairs pn) fetched (lastNotifiedPrices pn) !! i = Some n →
    remember_all (to_notify pn fetched w) (lastNotifiedPrices pn) !! i
    = Some (if selected (auto_due pn w) n then priceTrimmed n else lastNotifiedPrice n).
Proof.
  intros Hwf Hlen i n Hi. pose proof (list_elem_of_lookup_2 _ _ _ Hi) as Hin.
  pose proof Hi as (p & f & l & _ & _ & Hl & En)%candidates_lookup.
  assert (Ei : index n = i) by by rewrite En. rewrite <-Ei. destruct (selected _ n) eqn:Es.
  - apply remember_all_at; [by apply list_elem_of_filter| |].
    + rewrite Ei. by eapply lookup_lt_Some.
    + intros m (_ & Hm)%list_elem_of_filter. by apply candidates_same_index with (1 := Hm).
  - rewrite remember_all_other; [by rewrite Ei, Hl, En|].
    intros m (Hs & Hm)%list_elem_of_filter E. rewrite (candidates_same_index _ _ _ _ _ _ Hm Hin E) in Hs. congruence.
Qed.

(** The whole round as one function of the fetched prices. *)
Lemma Execute_run pn (w w1 : W) fetched :
  one_price_each pn → getAllPrices pn w = (Ok fetched, w1) →
  let ns := to_notify pn fetched w1 in
  let pn1 := if auto_due pn w1 then setLastTimeAutoSent (time_Now w1) pn else pn in
  Execute_ (pn, w) =
    match ns with
    | [] => (Ok (), (pn1, w1))
    | _ => let '(r, w2) := PriceChanged (changed <$> ns) w1 in
           (r, (setLastNotified (remember_all ns (lastNotifiedPrices pn)) pn1, w2))
    end.
Proof.
  intros Hwf Hg ns pn1. pose proof (getAllPrices_length _ _ _ _ Hg) as Hlen.
  unfold Execute, mbind, M_bind, gets, onsnd. cbn [fst]. rewrite Hg.
  unfold computeNotifyArgsSlice. fold (auto_due pn w1).
  rewrite collectNotifyArgs_run by (rewrite ?Hwf, ?Hlen; lia). rewrite !drop_0. fold (to_notify pn fetched w1). fold ns pn1.
  assert (Hlast : lastNotifiedPrices pn1 = lastNotifiedPrices pn) by (subst pn1; by case_match).
  assert (Hidx : ∀ n, n ∈ ns → (index n < length (lastNotifiedPrices pn1))%nat).
  { intros n Hn. rewrite Hlast. by eapply to_notify_index. }
  clearbody ns. destruct ns as [|n ns]; [done|]. unfold notify, mbind at 1, M_bind at 1.
  rewrite (remember_run (n :: ns)) by done. by rewrite Hlast.
Qed.

(** C30: A round of the notifier asks for every price, tells the notifee once, about exactly
    the pairs whose price moved enough (or all of them, when the interval has passed), remembers
    the prices it gave and keeps the others; when a price cannot be had nothing is remembered and
    nobody is told. *)
Theorem Execute_spec (pn : priceNotifier) (w : W) :
  one_price_each pn →
  match getAllPrices pn w with
  | (Ok fetched, w1) =>
    let due := auto_due pn w1 in
    let all := candidates 0 (pairs pn) fetched (lastNotifiedPrices pn) in
    let '(r, (pn', w2)) := Execute_ (pn, w) in
    (r, w2) = match filter (λ n, selected due n = true) all with
              | [] => (Ok (), w1)
              | ns => PriceChanged (changed <$> ns) w1
              end ∧
    one_price_each pn' ∧ pairs pn' = pairs pn ∧
    lastTimeAutoSent pn' = (if due then time_Now w1 else lastTimeAutoSent pn) ∧
    length all = length (pairs pn) ∧
    ∀ i n, all !! i = Some n →
      lastNotifiedPrices pn' !! i = Some (if selected due n then priceTrimmed n else lastNotifiedPrice n)
  | (Fail e, w1) => Execute_ (pn, w) = (Fail e, (pn, w1))
  | (Panic, w1) => Execute_ (pn, w) = (Panic, (pn, w1))
  end.
Proof.
  intros Hwf. destruct (getAllPrices pn w) as [[fetched|e|] w1] eqn:Hg;
    [|by unfold Execute, mbind, M_bind, gets, onsnd; cbn [fst]; rewrite Hg..].
  intros due all. rewrite (Execute_run _ _ _ _ Hwf Hg). fold due. pose proof (getAllPrices_length _ _ _ _ Hg) as Hlen.
  assert (Hall : length all = length (pairs pn)) by by apply candidates_length.
  pose proof (remembered_prices pn fetched w1 Hwf Hlen) as Hrem. fold due all in Hrem.
  change (to_notify pn fetched w1) with (filter (λ n, selected due n = true) all) in Hrem |- *.
  set (pn1 := if due then _ else pn).
  assert (Hpn1 : lastNotifiedPrices pn1 = lastNotifiedPrices pn ∧ pairs pn1 = pairs pn ∧
    lastTimeAutoSent pn1 = if due then time_Now w1 else lastTimeAutoSent pn) by (subst pn1; by case_match).
  destruct Hpn1 as (El & Ep & Et). clearbody pn1.
  destruct (filter _ all) as [|n ns] eqn:Ens.
  - split_and!; [done|by unfold one_price_each; rewrite El, Ep|done..|]. intros i n Hi. rewrite El. by apply Hrem.
  - destruct (PriceChanged _ w1) as [r w2]. split_and!; [done| |done..].
    unfold one_price_each. cbn [setLastNotified lastNotifiedPrices pairs]. by rewrite remember_all_length, Ep.
Qed.

(** A notification that fails is lost: the notifier remembers the prices before it calls its
    notifee, so after PriceChanged failed the next round, while the prices and the interval stand,
    succeeds without telling anybody. *)
Theorem Execute_failure_not_retried (pn pn' : priceNotifier) (w w1 w2 w3 : W) fetched fetched' e :
  one_price_each pn → Forall (λ p, 0 ≤ percentDifferenceToNotify p) (pairs pn) →
  getAllPrices pn w = (Ok fetched, w1) →
  Execute_ (pn, w) = (Fail e, (pn', w2)) →
  (** the next round sees the same prices, before the interval ends *)
  getAllPrices pn' w2 = (Ok fetched', w3) → price <$> fetched' = price <$> fetched → auto_due pn' w3 = false →
  (** the prices told are those fetched, and are subject to the percentage *)
  (∀ n, n ∈ to_notify pn fetched w1 → priceTrimmed n = price (newPrice n) ∧
     bypassPercentCheck (mkNotifyArgs (na_pair n) (newPrice n) (priceTrimmed n) (index n)) = false) →
  Execute_ (pn', w2) = (Ok (), (pn', w3)).
Proof.
  intros Hwf Hpos Hg Hx Hg' Hsame Hdue Hns. rewrite (Execute_run _ _ _ _ Hwf Hg) in Hx.
  pose proof (getAllPrices_length _ _ _ _ Hg) as Hlen.
  pose proof (remembered_prices pn fetched w1 Hwf Hlen) as Hrem.
  destruct (to_notify pn fetched w1) as [|n0 ns0] eqn:Ens; [done|].
  destruct (PriceChanged _ w1) as [r w2']. injection Hx as -> <- <-.
  set (pn' := setLastNotified _ _) in *.
  assert (Ep : pairs pn' = pairs pn) by (subst pn'; by case_match).
  assert (El : lastNotifiedPrices pn' = remember_all (n0 :: ns0) (lastNotifiedPrices pn)) by (subst pn'; by case_match).
  assert (Hwf' : one_price_each pn') by by unfold one_price_each; rewrite El, remember_all_length, Ep.
  rewrite (Execute_run _ _ _ _ Hwf' Hg'), Hdue. unfold to_notify. rewrite Hdue.
  rewrite filter_none; [done|]. clearbody pn'.
  intros n' (i & Hi)%list_elem_of_lookup_1. cbn [selected orb].
  apply candidates_lookup in Hi as (p & f' & l' & Hp & Hf' & Hl' & ->). rewrite Ep in Hp. rewrite El in Hl'.
  assert (Hpp : 0 ≤ percentDifferenceToNotify p) by by eapply Forall_lookup_1 in Hpos.
  destruct (lookup_lt_is_Some_2 fetched i) as [f Hf]; [rewrite Hlen; by eapply lookup_lt_Some|].
  destruct (lookup_lt_is_Some_2 (lastNotifiedPrices pn) i) as [l Hl]; [rewrite Hwf; by eapply lookup_lt_Some|].
  assert (Eprice : price f' = price f).
  { assert (E : (price <$> fetched') !! i = (price <$> fetched) !! i) by by rewrite Hsame.
    rewrite !list_lookup_fmap, Hf, Hf' in E. by injection E. }
  set (n := mkNotifyArgs p f l i).
  assert (Hn : candidates 0 (pairs pn) fetched (lastNotifiedPrices pn) !! i = Some n) by (apply candidates_lookup; by exists p, f, l).
  rewrite (Hrem _ _ Hn) in Hl'. apply not_true_iff_false. destruct (selected _ n) eqn:Es.
  - assert (Hin : n ∈ n0 :: ns0) by (rewrite <-Ens; apply list_elem_of_filter; split; [done|by eapply list_elem_of_lookup_2]).
    destruct (Hns n Hin) as [Et Hb]. injection Hl' as <-. apply shouldNotify_same; [done|exact Hb|].
    cbn. by rewrite Et, Eprice.
  - injection Hl' as <-. apply orb_false_iff in Es as [_ Es]. rewrite <-Es. unfold shouldNotify. cbn.
    unfold bypassPercentCheck. cbn. by rewrite Eprice.
Qed.
End Theorems.

(** ** Concrete runs *)

Module AggregatorRun.
(** Three fetchers with prices 10, 11 and 1000 and one that fails. *)
Definition fetcher (p : outcome float64) : option PriceFetcher := Some (mkFetcher "" (λ _ _, p)).
Definition fetchers : list (option PriceFetcher) :=
  [fetcher (Ok (f64_of_Z 10)); fetcher (Fail ErrPairNotSupported); fetcher (Ok (f64_of_Z 1000)); fetcher (Ok (f64_of_Z 11))].
Definition pa : priceAggregator := mkAggregator fetchers 2.
Definition order : list nat := [2; 0; 3; 1]%nat.

Lemma order_is_schedule : schedule pa order.
Proof. apply NoDup_Permutation; [apply (bool_decide_unpack _); vm_compute; done..|]. intros i. unfold order. cbn. set_solver. Qed.

Lemma they_return : fetchers_return fetchers.
Proof. intros f b q Hf. repeat (apply elem_of_cons in Hf as [[= ->]|Hf]; [done|]). by apply not_elem_of_nil in Hf. Qed.

Lemma FetchPrice_order_irrelevant_witness : FetchPrice order pa "eth" "usd" = Ok (f64_of_Z 11).
Proof.
  rewrite (FetchPrice_order_irrelevant fetchers 2 pa order "eth" "usd");
    [vm_compute; reflexivity|vm_compute; reflexivity|exact they_return|exact order_is_schedule|].
  repeat constructor.
Defined.

Lemma FetchPrice_majority_witness :
  ∃ r, FetchPrice order pa "eth" "usd" = Ok r ∧ central (f64_of_Z 10) (f64_of_Z 12) (answers pa "eth" "usd") r.
Proof.
  apply (FetchPrice_majority fetchers 2 pa order "eth" "usd" (f64_of_Z 10) (f64_of_Z 12));
    [vm_compute; reflexivity|exact they_return|exact order_is_schedule|vm_compute; discriminate|].
  apply Nat.ltb_lt. vm_compute. reflexivity.
Defined.

(** A world with a clock, one price, and a notifee that records and may fail. *)
Record world := mkWorld { w_now : gtime; w_price : float64; w_fails : bool; w_told : list (list ArgsPriceChanged) }.
#[export] Instance world_clock : Clock world := {| time_Now := w_now |}.
#[export] Instance world_aggregator : PriceAggregator world := {| agg_FetchPrice := λ _ _ w, (Ok (w_price w), w) |}.
#[export] Instance world_notifee : PriceNotifee world := {| PriceChanged := λ args w,
  if w_fails w then (Fail (ErrText "node is down"), w)
  else (Ok (), mkWorld (w_now w) (w_price w) (w_fails w) (w_told w ++ [args])) |}.

Definition args : ArgsPair := mkArgsPair "ETH" "USD" 1 2 {["binance"]}.
Definition t0 : gtime := time_Unix 1000.
Definition pn0 : priceNotifier :=
  match NewPriceNotifier [Some args] false false minAutoSendInterval t0 with Ok pn => pn | _ => mkNotifier [] [] 0 t0 end.
Definition w0 (fails : bool) : world := mkWorld t0 (f64_of_Z 7) fails [].
Definition out_of_range (x : float64) : Z := 0.

Definition seven : priceInfo := mkPriceInfo (f64_of_Z 7) 1000.
Definition pair0 : pair := match newPair args with Ok p => p | _ => mkPair "" "" 0 0 f64_zero 0 ∅ end.

Lemma prices_fetched (fails : bool) : getAllPrices pn0 (w0 fails) = (Ok [seven], w0 fails).
Proof. destruct fails; vm_compute; reflexivity. Qed.

Lemma Execute_spec_witness :
  let '(r, (pn', w2)) := Execute out_of_range (pn0, w0 false) in
  pairs pn' = pairs pn0 ∧ lastNotifiedPrices pn' !! 0%nat = Some (f64_of_Z 7).
Proof.
  pose proof (Execute_spec out_of_range pn0 (w0 false) eq_refl) as Hs.
  rewrite prices_fetched in Hs. destruct (Execute out_of_range (pn0, w0 false)) as [r [pn' w2]].
  cbv zeta in Hs. destruct Hs as (_ & _ & Hp & _ & _ & Hlast). split; [exact Hp|].
  assert (Hc : candidates 0 (pairs pn0) [seven] (lastNotifiedPrices pn0) !! 0%nat
    = Some (mkNotifyArgs pair0 seven f64_zero 0)) by (vm_compute; reflexivity).
  rewrite (Hlast _ _ Hc). vm_compute. reflexivity.
Defined.

(** The notifier after the failing round remembers the price. *)
Definition pn1 : priceNotifier := mkNotifier [pair0] [f64_of_Z 7] minAutoSendInterval t0.

Lemma Execute_failure_not_retried_witness : Execute out_of_range (pn1, w0 true) = (Ok (), (pn1, w0 true)).
Proof.
  apply (Execute_failure_not_retried out_of_range pn0 pn1 (w0 true) (w0 true) (w0 true) (w0 true) [seven] [seven]
           (ErrText "node is down")); [reflexivity| |apply prices_fetched|vm_compute; reflexivity..|].
  - repeat constructor. vm_compute. discriminate.
  - intros n Hn. assert (E : to_notify pn0 [seven] (w0 true) = [mkNotifyArgs pair0 seven f64_zero 0]) by (vm_compute; reflexivity).
    rewrite E in Hn. apply list_elem_of_singleton in Hn as ->. split; vm_compute; reflexivity.
Defined.

(** The price a notifee receives is cut, not rounded: a price of 0.29 with two
    decimals, which is already trimmed, reaches the notifee as 28 hundredths. *)
Theorem denominated_price_is_cut :
  let p := f64_div (f64_of_Z 29) (f64_of_Z 100) in
  let n := mkNotifyArgs pair0 (mkPriceInfo p 1000) f64_zero 0 in
  decimals pair0 = 2 ∧ priceTrimmed n = p ∧ pc_DenominatedPrice (argPriceChanged out_of_range n) = 28.
Proof. vm_compute. auto. Qed.
End AggregatorRun.
