(* ===== verification/Fetchers.v ===== *)
(** * The price fetchers ([aggregator/fetchers/], [aggregator/httpResponseGetter.go])

    Each fetcher asks one exchange; [baseFetcher] keeps the pairs it was told
    to serve.  The decoding of JSON is [encoding/json]'s: a class gives, for
    every answer, its zero value and its decoder. *)

From S2P Require Export ParseFloat Aggregator.

Definition errInvalidResponseData : error := ErrVar "fetchers.errInvalidResponseData".
Definition errInvalidFetcherName : error := ErrVar "fetchers.errInvalidFetcherName".
Definition errNilResponseGetter : error := ErrVar "fetchers.errNilResponseGetter".
Definition errNilGraphqlGetter : error := ErrVar "fetchers.errNilGraphqlGetter".
Definition errNilXExchangeTokensMap : error := ErrVar "fetchers.errNilXExchangeTokensMap".
Definition errInvalidPair : error := ErrVar "fetchers.errInvalidPair".
Definition errInvalidGraphqlResponse : error := ErrVar "fetchers.errInvalidGraphqlResponse".
Definition errInvalidGasPriceSelector : error := ErrVar "fetchers.errInvalidGasPriceSelector".

(** ** [constants.go] *)

Definition quoteUSDFiat : string := "USD".
Definition quoteUSDT : string := "USDT".
Definition BinanceName : string := "Binance".
Definition BitfinexName : string := "Bitfinex".
Definition CryptocomName : string := "Crypto.com".
Definition GeminiName : string := "Gemini".
Definition HitbtcName : string := "HitBTC".
Definition HuobiName : string := "Huobi".
Definition KrakenName : string := "Kraken".
Definition OkxName : string := "Okx".
Definition XExchangeName : string := "XExchange".
Definition EVMGasPriceStation : string := "EVM gas price station".

Definition ImplementedFetchers : gset string :=
  list_to_set [BinanceName; BitfinexName; CryptocomName; GeminiName; HitbtcName; HuobiName; KrakenName; OkxName; XExchangeName].

(** ** [converters.go], [baseFetcher.go] *)

Definition StrToPositiveFloat64 (v : string) : outcome float64 :=
  vFloat ← strconv_ParseFloat v;
  if f64_le vFloat f64_zero then Fail errInvalidResponseData else Ok vFloat.

(** The set of known pairs. *)
Abbreviation baseFetcher := (gset string).
Definition newBaseFetcher : baseFetcher := ∅.

Definition normalizeQuoteName (quote fetcherName : string) : string :=
  if strings_Contains quote quoteUSDFiat then
    if bool_decide (fetcherName ∈ [BinanceName; CryptocomName; HitbtcName; HuobiName; OkxName]) then quoteUSDT else quoteUSDFiat
  else quote.

Definition getPairKey (base quote : string) : string := base +:+ "-" +:+ quote.
Definition base_AddPair (base quote : string) (b : baseFetcher) : baseFetcher := {[getPairKey base quote]} ∪ b.
Definition hasPair (base quote : string) (b : baseFetcher) : bool := bool_decide (getPairKey base quote ∈ b).

(** ** The getters *)

(** A type of answers, with its zero value. *)
Class JsonResponse (R : Type) := {
  json_zero : R;
  json_Unmarshal : bytes → error + R }.

Class ResponseGetter (W : Type) := { rg_Get : ∀ {R} `{JsonResponse R}, string → M W R }.
Class GraphqlGetter (W : Type) := { gq_Query : string → string → string → M W bytes }.

Module HttpResponseGetter.
Section Get.
Context {W : Type}.
(** [net/http]: a request may be refused, the call may fail, and so may the
    reading of the body. *)
Variable http_NewRequest : string → string → outcome ().
Variable http_Do : string → string → M W (outcome bytes).

Definition httpGetVerb : string := "GET".

Definition Get {R} `{JsonResponse R} (url : string) : M W R :=
  lift (http_NewRequest httpGetVerb url) ;;
  body ← http_Do httpGetVerb url;
  match body with
  | Ok respBytes => match json_Unmarshal respBytes with inr r => mret r | inl e => throw e end
  | Fail _ => mret json_zero
  | Panic => panic
  end.
End Get.
End HttpResponseGetter.

(** ** [graphqlResponseGetter.go] *)

Class AuthClient (W : Type) := { ac_GetAccessToken : M W string }.

Module GraphqlResponseGetter.
Section Query.
Context {W : Type} `{AuthClient W}.
(** The encoding of the request, and the oauth2 client that posts it with a
    token: what could be read of the answer, whose error is dropped. *)
Variable json_MarshalRequest : string → string → outcome bytes.
Variable oauth2_Post : string → string → string → bytes → M W bytes.

Definition NewGraphqlResponseGetter (authClientIsNil : bool) : outcome () :=
  guard_err authClientIsNil ErrNilAuthClient.

Definition Query (url query variables : string) : M W bytes :=
  accessToken ← ac_GetAccessToken;
  gqlMarshalled ← lift (json_MarshalRequest query variables);
  responseBytes ← oauth2_Post accessToken url "application/json" gqlMarshalled;
  mret responseBytes.

#[export] Instance graphqlResponseGetter : GraphqlGetter W := {| gq_Query := Query |}.
End Query.
End GraphqlResponseGetter.

(** ** The answers of the exchanges *)

Record binancePriceRequest := mkBinance { bpr_Symbol : string; bpr_Price : string }.
Record bitfinexPriceRequest := mkBitfinex { bit_Price : string }.
Record cryptocomPair := mkCryptocomPair { cp_Price : string }.
Record cryptocomData := mkCryptocomData { cd_Data : list cryptocomPair }.
Record cryptocomPriceRequest := mkCryptocom { cpr_Result : cryptocomData }.
Record geminiPriceRequest := mkGemini { gpr_Price : string }.
Record hitbtcPriceRequest := mkHitbtc { hpr_Price : string }.
Record huobiPriceTicker := mkHuobiTicker { ht_Price : float64 }.
Record huobiPriceRequest := mkHuobi { hu_Ticker : huobiPriceTicker }.
Record krakenPricePair := mkKrakenPair { kp_Price : list string }.
Record krakenPriceRequest := mkKraken { kr_Result : gmap string krakenPricePair }.
Record okxTicker := mkOkxTicker { ot_Price : string }.
Record okxPriceRequest := mkOkx { okx_Data : list okxTicker }.
Record priceResponse := mkPriceResponse { pr_Last : float64; pr_Time : gtime }.
Record graphqlResponse := mkGraphql { gr_Price : list priceResponse }.
Record gasStationResult := mkGasResult {
  LastBlock : string; SafeGasPrice : string; ProposeGasPrice : string;
  FastGasPrice : string; SuggestBaseFee : string; GasUsedRatio : string }.
Record gasStationResponse := mkGasStation { gs_Status : string; gs_Message : string; gs_Result : gasStationResult }.

(** What [encoding/json] makes of each. *)
Class FetcherJson := {
  #[global] json_binance :: JsonResponse binancePriceRequest;
  #[global] json_bitfinex :: JsonResponse bitfinexPriceRequest;
  #[global] json_cryptocom :: JsonResponse cryptocomPriceRequest;
  #[global] json_gemini :: JsonResponse geminiPriceRequest;
  #[global] json_hitbtc :: JsonResponse hitbtcPriceRequest;
  #[global] json_huobi :: JsonResponse huobiPriceRequest;
  #[global] json_kraken :: JsonResponse krakenPriceRequest;
  #[global] json_okx :: JsonResponse okxPriceRequest;
  #[global] json_gasStation :: JsonResponse gasStationResponse;
  json_graphql : bytes → outcome graphqlResponse;
  json_MarshalVariables : string → string → outcome bytes }.

Record XExchangeTokensPair := mkTokensPair { xt_Base : string; xt_Quote : string }.
Record EVMGasPriceFetcherConfig := mkEvmConfig { ApiURL : string; Selector : string }.

(** ** [FetchPrice] of each exchange *)

Section FetchPrice.
Context {W : Type} `{ResponseGetter W} `{GraphqlGetter W} `{FetcherJson} `{MapRange krakenPricePair}.

(** [if price == "" { return errInvalidResponseData }; return StrToPositiveFloat64(price)]. *)
Definition text_price (p : string) : outcome float64 :=
  if String.eqb p "" then Fail errInvalidResponseData else StrToPositiveFloat64 p.

Definition binance_FetchPrice (b : baseFetcher) (base quote : string) : M W float64 :=
  if negb (hasPair base quote b) then throw ErrPairNotSupported
  else
    let quote := normalizeQuoteName quote BinanceName in
    bpr ← rg_Get ("https://api.binance.com/api/v3/ticker/price?symbol=" +:+ base +:+ quote);
    lift (text_price (bpr_Price bpr)).

Definition maxBaseLength : nat := 3.

Definition bitfinex_FetchPrice (b : baseFetcher) (base quote : string) : M W float64 :=
  if negb (hasPair base quote b) then throw ErrPairNotSupported
  else
    let quote := normalizeQuoteName quote BitfinexName in
    let sep := if Nat.ltb maxBaseLength (String.length base) then ":" else "" in
    bit ← rg_Get ("https://api.bitfinex.com/v1/pubticker/" +:+ base +:+ sep +:+ quote);
    lift (text_price (bit_Price bit)).

Definition cryptocom_FetchPrice (c : baseFetcher) (base quote : string) : M W float64 :=
  if negb (hasPair base quote c) then throw ErrPairNotSupported
  else
    let quote := normalizeQuoteName quote CryptocomName in
    cpr ← rg_Get ("https://api.crypto.com/v2/public/get-ticker?instrument_name=" +:+ base +:+ "_" +:+ quote);
    match cd_Data (cpr_Result cpr) with
    | [] => throw errInvalidResponseData
    | p :: _ => lift (text_price (cp_Price p))
    end.

Definition gemini_FetchPrice (g : baseFetcher) (base quote : string) : M W float64 :=
  if negb (hasPair base quote g) then throw ErrPairNotSupported
  else
    let quote := normalizeQuoteName quote GeminiName in
    gpr ← rg_Get ("https://api.gemini.com/v2/ticker/" +:+ base +:+ quote);
    lift (text_price (gpr_Price gpr)).

Definition hitbtc_FetchPrice (h : baseFetcher) (base quote : string) : M W float64 :=
  if negb (hasPair base quote h) then throw ErrPairNotSupported
  else
    let quote := normalizeQuoteName quote HitbtcName in
    hpr ← rg_Get ("https://api.hitbtc.com/api/3/public/ticker/" +:+ base +:+ quote);
    lift (text_price (hpr_Price hpr)).

(** A price that is a number already. *)
Definition number_price (p : float64) : outcome float64 :=
  if f64_le p f64_zero then Fail errInvalidResponseData else Ok p.

Definition huobi_FetchPrice (h : baseFetcher) (base quote : string) : M W float64 :=
  if negb (hasPair base quote h) then throw ErrPairNotSupported
  else
    let quote := normalizeQuoteName quote HuobiName in
    hpr ← rg_Get ("https://api.huobi.pro/market/detail/merged?symbol=" +:+ strings_ToLower base +:+ strings_ToLower quote);
    lift (number_price (ht_Price (hu_Ticker hpr))).

(** The loop over the pairs of the answer, in the order of the map. *)
Fixpoint kraken_loop (base quote : string) (entries : list (string * krakenPricePair)) : outcome float64 :=
  match entries with
  | [] => Fail errInvalidResponseData
  | (k, v) :: rest =>
    if String.eqb k "" then Fail errInvalidResponseData
    else
      p ← at_index (kp_Price v) 0;
      if String.eqb p "" then Fail errInvalidResponseData
      else if strings_Contains k base || strings_Contains k quote then StrToPositiveFloat64 p
      else kraken_loop base quote rest
  end.

Definition kraken_FetchPrice (k : baseFetcher) (base quote : string) : M W float64 :=
  if negb (hasPair base quote k) then throw ErrPairNotSupported
  else
    let quote := normalizeQuoteName quote KrakenName in
    hpr ← rg_Get ("https://api.kraken.com/0/public/Ticker?pair=" +:+ base +:+ quote);
    if Nat.eqb (size (kr_Result hpr)) 0 then throw errInvalidResponseData
    else lift (kraken_loop base quote (range (kr_Result hpr))).

Definition okx_FetchPrice (o : baseFetcher) (base quote : string) : M W float64 :=
  if negb (hasPair base quote o) then throw ErrPairNotSupported
  else
    let quote := normalizeQuoteName quote OkxName in
    opr ← rg_Get ("https://www.okx.com/api/v5/market/ticker?instId=" +:+ base +:+ "-" +:+ quote);
    match okx_Data opr with
    | [] => throw errInvalidResponseData
    | t :: _ => lift (text_price (ot_Price t))
    end.

Definition dataApiUrl : string := "https://tools.multiversx.com/data-api/graphql".
Definition query : string :=
  "query MaiarPriceUrl($base: String!, $quote: String!) { trading { pair(first_token: $base, second_token: $quote) { price { last time } } } }".

Definition fetchXExchangeTokensPair (tokens : gmap string XExchangeTokensPair) (base quote : string) : option XExchangeTokensPair :=
  tokens !! (base +:+ "-" +:+ quote).

Definition xExchange_FetchPrice (x : baseFetcher) (tokens : gmap string XExchangeTokensPair) (base quote : string) : M W float64 :=
  if negb (hasPair base quote x) then throw ErrPairNotSupported
  else
    match fetchXExchangeTokensPair tokens base quote with
    | None => throw errInvalidPair
    | Some pair =>
      vars ← lift (json_MarshalVariables (xt_Base pair) (xt_Quote pair));
      resp ← gq_Query dataApiUrl query (string_of_bytes vars);
      graphqlResp ← match json_graphql resp with Fail _ => throw errInvalidGraphqlResponse | r => lift r end;
      p ← lift (at_index (gr_Price graphqlResp) 0);
      lift (number_price (pr_Last p))
    end.

Definition evmFastGasPrice : string := "FastGasPrice".
Definition evmSafeGasPrice : string := "SafeGasPrice".
Definition evmProposeGasPrice : string := "ProposeGasPrice".

Variable sprintf_star : string → string.

Definition evmGas_FetchPrice (f : baseFetcher) (config : EVMGasPriceFetcherConfig) (base quote : string) : M W float64 :=
  if negb (hasPair base quote f) then throw ErrPairNotSupported
  else
    response ← rg_Get (fmt_Sprintf sprintf_star (ApiURL config));
    latestGasPrice ← lift
      (if String.eqb (Selector config) evmFastGasPrice then fmt_Sscanf_d (FastGasPrice (gs_Result response))
       else if String.eqb (Selector config) evmProposeGasPrice then fmt_Sscanf_d (ProposeGasPrice (gs_Result response))
       else if String.eqb (Selector config) evmSafeGasPrice then fmt_Sscanf_d (SafeGasPrice (gs_Result response))
       else Fail (ErrWrap errInvalidGasPriceSelector "selector"));
    mret (f64_of_Z latestGasPrice).

(** ** [factory.go] *)

Inductive priceFetcher :=
  | Binance (b : baseFetcher)
  | Bitfinex (b : baseFetcher)
  | Cryptocom (b : baseFetcher)
  | Gemini (b : baseFetcher)
  | Hitbtc (b : baseFetcher)
  | Huobi (b : baseFetcher)
  | Kraken (b : baseFetcher)
  | Okx (b : baseFetcher)
  | XExchange (b : baseFetcher) (tokens : gmap string XExchangeTokensPair)
  | EvmGas (b : baseFetcher) (config : EVMGasPriceFetcherConfig).

Definition createFetcher (fetcherName : string) (tokens : gmap string XExchangeTokensPair) (config : EVMGasPriceFetcherConfig) :
    outcome priceFetcher :=
  let named (n : string) := String.eqb fetcherName n in
  if named BinanceName then Ok (Binance newBaseFetcher)
  else if named BitfinexName then Ok (Bitfinex newBaseFetcher)
  else if named CryptocomName then Ok (Cryptocom newBaseFetcher)
  else if named GeminiName then Ok (Gemini newBaseFetcher)
  else if named HitbtcName then Ok (Hitbtc newBaseFetcher)
  else if named HuobiName then Ok (Huobi newBaseFetcher)
  else if named KrakenName then Ok (Kraken newBaseFetcher)
  else if named OkxName then Ok (Okx newBaseFetcher)
  else if named XExchangeName then Ok (XExchange newBaseFetcher tokens)
  else if named EVMGasPriceStation then Ok (EvmGas newBaseFetcher config)
  else Fail (ErrWrap errInvalidFetcherName "fetcherName").

(** A nil map of tokens is [None]. *)
Definition NewPriceFetcher (getterIsNil graphqlIsNil : bool) (fetcherName : string)
    (tokens : option (gmap string XExchangeTokensPair)) (config : EVMGasPriceFetcherConfig) : outcome priceFetcher :=
  guard_err getterIsNil errNilResponseGetter ;;
  guard_err graphqlIsNil errNilGraphqlGetter ;;
  guard_err (match tokens with None => String.eqb fetcherName XExchangeName | Some _ => false end) errNilXExchangeTokensMap ;;
  createFetcher fetcherName (default ∅ tokens) config.

(** The methods of the interface. *)
Definition fetcher_FetchPrice (f : priceFetcher) : string → string → M W float64 :=
  match f with
  | Binance b => binance_FetchPrice b
  | Bitfinex b => bitfinex_FetchPrice b
  | Cryptocom b => cryptocom_FetchPrice b
  | Gemini b => gemini_FetchPrice b
  | Hitbtc b => hitbtc_FetchPrice b
  | Huobi b => huobi_FetchPrice b
  | Kraken b => kraken_FetchPrice b
  | Okx b => okx_FetchPrice b
  | XExchange b tokens => xExchange_FetchPrice b tokens
  | EvmGas b config => evmGas_FetchPrice b config
  end.
End FetchPrice.

Definition known_pairs (f : priceFetcher) : baseFetcher :=
  match f with
  | Binance b | Bitfinex b | Cryptocom b | Gemini b | Hitbtc b | Huobi b | Kraken b | Okx b | XExchange b _ | EvmGas b _ => b
  end.

Definition AddPair (base quote : string) (f : priceFetcher) : priceFetcher :=
  let add := base_AddPair base quote in
  match f with
  | Binance b => Binance (add b)
  | Bitfinex b => Bitfinex (add b)
  | Cryptocom b => Cryptocom (add b)
  | Gemini b => Gemini (add b)
  | Hitbtc b => Hitbtc (add b)
  | Huobi b => Huobi (add b)
  | Kraken b => Kraken (add b)
  | Okx b => Okx (add b)
  | XExchange b tokens => XExchange (add b) tokens
  | EvmGas b config => EvmGas (add b) config
  end.

Definition fetcher_Name (f : priceFetcher) : string :=
  match f with
  | Binance _ => BinanceName
  | Bitfinex _ => BitfinexName
  | Cryptocom _ => CryptocomName
  | Gemini _ => GeminiName
  | Hitbtc _ => HitbtcName
  | Huobi _ => HuobiName
  | Kraken _ => KrakenName
  | Okx _ => OkxName
  | XExchange _ _ => XExchangeName
  | EvmGas _ config => EVMGasPriceStation +:+ " when using selector " +:+ Selector config
  end.

(** ** Every price is above zero *)

Lemma not_le_zero_positive x : f64_le x f64_zero = false → positive x.
Proof. by destruct x as [[]|[]| |[] m e]. Qed.

Lemma number_price_positive p x : number_price p = Ok x → positive x.
Proof. unfold number_price. destruct (f64_le p f64_zero) eqn:E; [done|]. intros [= <-]. by apply not_le_zero_positive. Qed.

Lemma StrToPositiveFloat64_positive s x : StrToPositiveFloat64 s = Ok x → positive x.
Proof.
  unfold StrToPositiveFloat64. destruct (strconv_ParseFloat s) as [v|e|]; cbn; [|done..].
  destruct (f64_le v f64_zero) eqn:E; [done|]. intros [= <-]. by apply not_le_zero_positive.
Qed.

Lemma text_price_positive s x : text_price s = Ok x → positive x.
Proof. unfold text_price. destruct (String.eqb s ""); [done|]. apply StrToPositiveFloat64_positive. Qed.

Lemma kraken_loop_positive base quote entries x : kraken_loop base quote entries = Ok x → positive x.
Proof.
  induction entries as [|[k v] rest IH]; [done|]. cbn. destruct (String.eqb k ""); [done|].
  destruct (at_index (kp_Price v) 0) as [p|e|]; cbn; [|done..]. destruct (String.eqb p ""); [done|].
  destruct (_ || _); [apply StrToPositiveFloat64_positive|exact IH].
Qed.

(** None of the conversions panics. *)
Lemma strconv_ParseFloat_returns s : strconv_ParseFloat s ≠ Panic.
Proof. unfold strconv_ParseFloat. destruct (special s); [done|]. destruct (readFloat s); [|done]. by destruct (is_infinite _). Qed.

Lemma text_price_returns s : text_price s ≠ Panic.
Proof.
  unfold text_price, StrToPositiveFloat64. destruct (String.eqb s ""); [done|].
  pose proof (strconv_ParseFloat_returns s) as Hs. destruct (strconv_ParseFloat s); cbn; [|done..]. by destruct (f64_le _ _).
Qed.

Lemma number_price_returns p : number_price p ≠ Panic.
Proof. unfold number_price. by destruct (f64_le _ _). Qed.

Lemma fmt_Sscanf_d_returns s : fmt_Sscanf_d s ≠ Panic.
Proof.
  unfold fmt_Sscanf_d. assert (Hs : scan_SkipSpace s ≠ Panic).
  { clear. induction s as [s IH] using (induction_ltof1 _ String.length); unfold ltof in IH.
    destruct s as [|c [|d s]]; cbn; repeat case_match; try done; apply IH; cbn; lia. }
  destruct (scan_SkipSpace s); cbn; [|done..]. by repeat case_match.
Qed.

Create HintDb prices.
#[export] Hint Resolve number_price_positive text_price_positive kraken_loop_positive : prices.

Definition is_exchange (f : priceFetcher) : Prop := match f with EvmGas _ _ => False | _ => True end.

Section Theorems.
Context {W : Type} `{ResponseGetter W} `{GraphqlGetter W} `{FetcherJson} `{MapRange krakenPricePair}.
Variable sprintf_star : string → string.
Abbreviation fetch := (fetcher_FetchPrice (W := W) sprintf_star).

Lemma fetch_positive f base quote w x w' :
  is_exchange f → fetch f base quote w = (Ok x, w') → positive x.
Proof.
  intros Hf. destruct f; cbn [fetcher_FetchPrice]; [..|done];
    unfold binance_FetchPrice, bitfinex_FetchPrice, cryptocom_FetchPrice, gemini_FetchPrice, hitbtc_FetchPrice,
      huobi_FetchPrice, kraken_FetchPrice, okx_FetchPrice, xExchange_FetchPrice;
    (destruct (negb _); [done|]); unfold mbind, M_bind, lift, throw; cbv zeta;
    repeat (case_match; try done); intros; simplify_eq; eauto with prices.
Qed.

Lemma fetch_unknown f base quote (w : W) :
  hasPair base quote (known_pairs f) = false → fetch f base quote w = (Fail ErrPairNotSupported, w).
Proof.
  intros E. destruct f; cbn [fetcher_FetchPrice known_pairs] in *;
    unfold binance_FetchPrice, bitfinex_FetchPrice, cryptocom_FetchPrice, gemini_FetchPrice, hitbtc_FetchPrice,
      huobi_FetchPrice, kraken_FetchPrice, okx_FetchPrice, xExchange_FetchPrice, evmGas_FetchPrice; by rewrite E.
Qed.

(** The fetchers that look before they index do not panic. *)
Definition looks_first (f : priceFetcher) : Prop := match f with Kraken _ | XExchange _ _ => False | _ => True end.

Lemma fetch_no_panic f base quote :
  (∀ R (J : JsonResponse R) url, no_panic (S := W) (rg_Get (R := R) url)) → looks_first f → no_panic (fetch f base quote).
Proof.
  intros Hg Hf. destruct f; try done; cbn [fetcher_FetchPrice];
    unfold binance_FetchPrice, bitfinex_FetchPrice, cryptocom_FetchPrice, gemini_FetchPrice, hitbtc_FetchPrice,
      huobi_FetchPrice, okx_FetchPrice, evmGas_FetchPrice; cbv zeta;
    (apply no_panic_if; [apply no_panic_throw|]); (apply no_panic_bind; [apply Hg|intros r]);
    auto using no_panic_lift, text_price_returns, number_price_returns.
  - destruct (cd_Data _); auto using no_panic_throw, no_panic_lift, text_price_returns.
  - destruct (okx_Data _); auto using no_panic_throw, no_panic_lift, text_price_returns.
  - apply no_panic_bind; [|intros z; apply no_panic_ret]. apply no_panic_lift.
    repeat case_match; auto using fmt_Sscanf_d_returns.
Qed.

(** ** The pairs of a fetcher *)

Definition add_pairs (pairs : list (string * string)) (f : priceFetcher) : priceFetcher :=
  foldl (λ f p, AddPair p.1 p.2 f) f pairs.

Lemma AddPair_known b q f : known_pairs (AddPair b q f) = base_AddPair b q (known_pairs f).
Proof. by destruct f. Qed.

Lemma add_pairs_known pairs f k :
  k ∈ known_pairs (add_pairs pairs f) ↔ k ∈ known_pairs f ∨ ∃ p, p ∈ pairs ∧ k = getPairKey p.1 p.2.
Proof.
  revert f. induction pairs as [|p pairs IH]; intros f; [set_solver|].
  cbn [add_pairs foldl]. fold (add_pairs pairs (AddPair p.1 p.2 f)). rewrite IH, AddPair_known. unfold base_AddPair. set_solver.
Qed.

Lemma getPairKey_inj b1 q1 b2 q2 :
  lacks "-"%char b1 → lacks "-"%char b2 → getPairKey b1 q1 = getPairKey b2 q2 → b1 = b2 ∧ q1 = q2.
Proof.
  unfold getPairKey. revert b2. induction b1 as [|c b1 IH]; intros [|d b2]; cbn; intros Hb1 Hb2 E; simplify_eq; try done.
  apply andb_prop in Hb1 as [_ Hb1], Hb2 as [_ Hb2]. by destruct (IH b2) as [-> ->].
Qed.

Lemma NewPriceFetcher_empty g q n t c f : NewPriceFetcher g q n t c = Ok f → known_pairs f = ∅.
Proof.
  unfold NewPriceFetcher, guard_err. destruct g; [done|]. destruct q; [done|]. cbn.
  destruct (match t with Some _ => false | None => _ end); [done|]. cbn. unfold createFetcher.
  repeat (case_match; [by intros [= <-]|]). done.
Qed.

(** A new fetcher serves exactly the pairs it was given, in whatever order they were
    added: for any other pair it answers that the pair is not supported, without a request to the
    exchange, so that the aggregator leaves it out of the median. *)
Theorem fetcher_serves_its_pairs getterNil graphqlNil name tokens config f0 pairs base quote (w : W) :
  NewPriceFetcher getterNil graphqlNil name tokens config = Ok f0 →
  Forall (λ p, lacks "-"%char p.1) pairs → lacks "-"%char base →
  let f := add_pairs pairs f0 in
  hasPair base quote (known_pairs f) = bool_decide ((base, quote) ∈ pairs) ∧
  ((base, quote) ∉ pairs → fetch f base quote w = (Fail ErrPairNotSupported, w)).
Proof.
  intros Hf Hp Hb f. assert (Hiff : getPairKey base quote ∈ known_pairs f ↔ (base, quote) ∈ pairs).
  { subst f. rewrite add_pairs_known, (NewPriceFetcher_empty _ _ _ _ _ _ Hf). split.
    - intros [|(p & Hin & E)]; [set_solver|]. rewrite Forall_forall in Hp.
      destruct (getPairKey_inj _ _ _ _ Hb (Hp _ Hin) E) as [-> ->]. by destruct p.
    - intros Hin. right. by exists (base, quote). }
  assert (E : hasPair base quote (known_pairs f) = bool_decide ((base, quote) ∈ pairs)).
  { unfold hasPair. by apply bool_decide_ext. }
  split; [exact E|]. intros Hn. apply fetch_unknown. rewrite E. by apply bool_decide_false.
Qed.

(** ** The fetchers behind the aggregator *)

(** A fetcher as the aggregator sees it while the world is [w]. *)
Definition as_fetcher (w : W) (f : priceFetcher) : PriceFetcher :=
  mkFetcher (fetcher_Name f) (λ b q, (fetch f b q w).1).

(** The median of the exchanges is positive prices only and does not depend on the order of
    their answers: when none of them panics, FetchPrice over the exchanges is the median of the prices
    they gave, each above zero, or the error that too few answered. *)
Theorem exchanges_price (fs : list priceFetcher) (w : W) m pa order base quote :
  Forall is_exchange fs → NewPriceAggregator (Some ∘ as_fetcher w <$> fs) m = Ok pa →
  fetchers_return (Some ∘ as_fetcher w <$> fs) → schedule pa order →
  Forall positive (answers pa base quote) ∧
  FetchPrice order pa base quote =
    if Z.of_nat (length (answers pa base quote)) <? m then Fail ErrNotEnoughResponses else computeMedian (answers pa base quote).
Proof.
  intros Hex Hpa Hret Ho. assert (Hpos : Forall positive (answers pa base quote)).
  { apply NewPriceAggregator_run in Hpa as (-> & _ & _). unfold answers. cbn [priceFetchers]. clear Hret Ho.
    induction Hex as [|f fs Hf _ IH]; [constructor|]. cbn.
    destruct (fetch f _ _ w) as [[x|e|] w'] eqn:E; cbn; [|exact IH..].
    constructor; [by eapply fetch_positive|exact IH]. }
  split; [done|]. by apply (FetchPrice_median _ _ _ _ _ _ Hpa).
Qed.
End Theorems.

(** ** Concrete runs *)

Module FetchersRun.
(** A toy decoder: the body of an answer is the text of the price. *)
#[local] Instance toy_json : FetcherJson := {|
  json_binance := {| json_zero := mkBinance "" ""; json_Unmarshal b := inr (mkBinance "" (string_of_bytes b)) |};
  json_bitfinex := {| json_zero := mkBitfinex ""; json_Unmarshal b := inr (mkBitfinex (string_of_bytes b)) |};
  json_cryptocom := {| json_zero := mkCryptocom (mkCryptocomData []);
                       json_Unmarshal b := inr (mkCryptocom (mkCryptocomData [mkCryptocomPair (string_of_bytes b)])) |};
  json_gemini := {| json_zero := mkGemini ""; json_Unmarshal b := inr (mkGemini (string_of_bytes b)) |};
  json_hitbtc := {| json_zero := mkHitbtc ""; json_Unmarshal b := inr (mkHitbtc (string_of_bytes b)) |};
  json_huobi := {| json_zero := mkHuobi (mkHuobiTicker f64_zero); json_Unmarshal _ := inr (mkHuobi (mkHuobiTicker f64_zero)) |};
  json_kraken := {| json_zero := mkKraken ∅; json_Unmarshal _ := inr (mkKraken ∅) |};
  json_okx := {| json_zero := mkOkx []; json_Unmarshal b := inr (mkOkx [mkOkxTicker (string_of_bytes b)]) |};
  json_gasStation := {| json_zero := mkGasStation "" "" (mkGasResult "" "" "" "" "" "");
                        json_Unmarshal b := inr (mkGasStation "1" "OK" (mkGasResult "" "" "" (string_of_bytes b) "" "")) |};
  json_graphql _ := Ok (mkGraphql []);
  json_MarshalVariables b q := Ok (bytes_of_string (b +:+ q)) |}.

(** A world with one text for every request. *)
#[local] Instance toy_getter : ResponseGetter string := {| rg_Get R J _ := λ w, (match json_Unmarshal (bytes_of_string w) with inr r => Ok r | inl e => Fail e end, w) |}.
#[local] Instance toy_graphql : GraphqlGetter string := {| gq_Query _ _ _ := λ w, (Ok [], w) |}.
#[local] Instance toy_range : MapRange krakenPricePair := map_to_list_range _.
Definition star (s : string) : string := s.

Definition pairs : list (string * string) := [("ETH", "USD"); ("EGLD", "USD")].
Definition made (name : string) : priceFetcher :=
  match NewPriceFetcher false false name (Some ∅) (mkEvmConfig "" "") with Ok f => add_pairs pairs f | _ => Binance ∅ end.
Definition known : baseFetcher := list_to_set [getPairKey "ETH" "USD"; getPairKey "EGLD" "USD"].
Definition fs : list priceFetcher := [Binance known; Gemini known; Okx ∅].

Lemma fetcher_serves_its_pairs_witness :
  fetcher_FetchPrice star (made GeminiName) "BTC" "USD" "7.5" = (Fail ErrPairNotSupported, "7.5").
Proof.
  apply (fetcher_serves_its_pairs star false false GeminiName (Some ∅) (mkEvmConfig "" "") (Gemini ∅) pairs "BTC" "USD");
    [reflexivity|repeat constructor|reflexivity|].
  apply (bool_decide_unpack _). vm_compute. done.
Defined.

Definition exchanges : list (option PriceFetcher) := Some ∘ as_fetcher star "7.5" <$> fs.

Lemma exchanges_return : fetchers_return exchanges.
Proof.
  intros f b q (g & E & Hg)%list_elem_of_fmap. injection E as ->. cbn [as_fetcher pf_FetchPrice].
  apply fetch_no_panic; [intros R J url w; cbn; by destruct (json_Unmarshal _)|].
  by apply list_elem_of_In in Hg as [<-|[<-|[<-|[]]]].
Qed.

Lemma exchanges_price_witness : FetchPrice [1; 2; 0]%nat (mkAggregator exchanges 2) "eth" "usd" = Ok (f64_dec 15 2).
Proof.
  destruct (exchanges_price star fs "7.5" 2 (mkAggregator exchanges 2) [1; 2; 0]%nat "eth" "usd") as [_ E];
    [repeat constructor|reflexivity|exact exchanges_return|..].
  - apply NoDup_Permutation; [apply (bool_decide_unpack _); vm_compute; done..|]. intros i. cbn. set_solver.
  - rewrite E. vm_compute. reflexivity.
Defined.

(** A gas price below one unit is taken for zero: the gas station's answer is read up to
    its decimal point, and the fetcher, unlike those of the exchanges, answers the zero price. *)
Theorem evm_gas_price_is_cut : fetcher_FetchPrice star
    (EvmGas {[getPairKey "GWEI" "ETH"]} (mkEvmConfig "https://gas.station/api" evmFastGasPrice)) "GWEI" "ETH" "0.52"
  = (Ok f64_zero, "0.52").
Proof. vm_compute. reflexivity. Qed.

(** The price of kraken can depend on the order in which Go visits a map: an answer with two
    pairs that both mention the quote has two prices. *)
Theorem kraken_order_matters :
  let eth := ("XETHZUSD", mkKrakenPair ["2000.5"]) in
  let btc := ("XXBTZUSD", mkKrakenPair ["60000"]) in
  kraken_loop "ETH" "USD" [eth; btc] = Ok (f64_dec 4001 2) ∧ kraken_loop "ETH" "USD" [btc; eth] = Ok (f64_of_Z 60000).
Proof. split; vm_compute; reflexivity. Qed.

(** An entry without a price makes the fetchers of kraken and of XExchange panic in a goroutine
    of the aggregator, which nobody recovers. *)
Theorem empty_prices_panic :
  kraken_loop "ETH" "USD" [("XETHZUSD", mkKrakenPair [])] = Panic ∧
  fetcher_FetchPrice star (XExchange {[getPairKey "EGLD" "USD"]} {["EGLD-USD" := mkTokensPair "WEGLD" "USDC"]})
    "EGLD" "USD" "" = (Panic, "").
Proof. split; vm_compute; reflexivity. Qed.

(** The getter of the aggregator reports success when the body of the answer cannot be read:
    the caller gets the zero value of its response. *)
Theorem Get_ignores_body_error (url w : string) :
  HttpResponseGetter.Get (λ _ _, Ok ()) (λ _ _, mret (Fail (ErrText "unexpected EOF"))) (R := geminiPriceRequest) url w
  = (Ok (mkGemini ""), w).
Proof. reflexivity. Qed.
End FetchersRun.
