(* ===== verification/Notifee.v ===== *)
(** * The notifee that writes prices to a contract ([aggregator/notifees/])

    [mxNotifee] turns the price changes into one call of the contract's
    [submitBatch], signs it and hands it to a nonce handler.  The nonce handler
    and the transaction builder are interfaces; the second version of the nonce
    handlers and the builder of this library implement them. *)

From S2P Require Export Aggregator TxDataBuilder TxBuilder NthV2.

Definition errNilProxy : error := ErrVar "notifees.errNilProxy".
Definition errNilTxBuilder : error := ErrVar "notifees.errNilTxBuilder".
Definition errNilTxNonceHandler : error := ErrVar "notifees.errNilTxNonceHandler".
Definition errNilContractAddressHandler : error := ErrVar "notifees.errNilContractAddressHandler".
Definition errInvalidContractAddress : error := ErrVar "notifees.errInvalidContractAddress".
Definition errInvalidBaseGasLimit : error := ErrVar "notifees.errInvalidBaseGasLimit".
Definition errInvalidGasLimitForEach : error := ErrVar "notifees.errInvalidGasLimitForEach".
Definition ErrNilCryptoComponentsHolder : error := ErrVar "builders.ErrNilCryptoComponentsHolder".

Definition zeroString : string := "0".
Definition txVersion : Z := 1.
Definition batchFunction : string := "submitBatch".
Definition minGasLimit : Z := 1.

(** ** The interfaces ([notifees/interface.go]) *)

(** A transaction is written through its pointer: it is part of the state. *)
Class TransactionNonceHandler (W : Type) := {
  tnh_ApplyNonceAndGasPrice : option address → M (FrontendTransaction * W) ();
  tnh_SendTransaction : FrontendTransaction → M W string }.

Class UserSigner `{Crypto} := { tb_ApplyUserSignature : cryptoComponentsHolder → M FrontendTransaction () }.

(** ** [mxNotifee.go] *)

Section Notifee.
Context `{UserSigner} `{PubkeyConverter}.

Record mxNotifee := mkMxNotifee {
  contractAddress : address;
  baseGasLimit : Z;
  gasLimitForEach : Z;
  cryptoHolder : cryptoComponentsHolder }.

(** A flag says that the argument is nil. *)
Definition checkArgsMxNotifee (proxy_nil txBuilder_nil nonceHandler_nil : bool) (contract : option address)
    (holder : option cryptoComponentsHolder) (base forEach : Z) : outcome () :=
  guard_err proxy_nil errNilProxy ;;
  guard_err txBuilder_nil errNilTxBuilder ;;
  guard_err nonceHandler_nil errNilTxNonceHandler ;;
  match contract with
  | None => Fail errNilContractAddressHandler
  | Some a =>
    guard_err (negb (IsValid a)) errInvalidContractAddress ;;
    match holder with
    | None => Fail ErrNilCryptoComponentsHolder
    | Some _ =>
      guard_err (base <? minGasLimit) errInvalidBaseGasLimit ;;
      guard_err (forEach <? minGasLimit) errInvalidGasLimitForEach
    end
  end.

Definition NewMxNotifee (proxy_nil txBuilder_nil nonceHandler_nil : bool) (contract : option address)
    (holder : option cryptoComponentsHolder) (base forEach : Z) : outcome mxNotifee :=
  checkArgsMxNotifee proxy_nil txBuilder_nil nonceHandler_nil contract holder base forEach ;;
  match contract, holder with
  | Some a, Some h => Ok (mkMxNotifee a base forEach h)
  | _, _ => Panic
  end.

(** The arguments of one price change. *)
Definition priceArgs (pc : ArgsPriceChanged) : list arg :=
  [ABytes (bytes_of_string (pc_Base pc)); ABytes (bytes_of_string (pc_Quote pc)); AInt64 (pc_Timestamp pc);
   AInt64 (i64 (pc_DenominatedPrice pc)); AInt64 (i64 (pc_Decimals pc))].

Definition prepareTxData (priceChanges : list ArgsPriceChanged) : outcome bytes :=
  let txDataBuilder := Function batchFunction NewTxDataBuilder in
  let txDataBuilder := foldl (λ b pc,
    ArgInt64 (i64 (pc_Decimals pc)) (ArgInt64 (i64 (pc_DenominatedPrice pc)) (ArgInt64 (pc_Timestamp pc)
      (ArgBytes (bytes_of_string (pc_Quote pc)) (ArgBytes (bytes_of_string (pc_Base pc)) b))))) txDataBuilder priceChanges in
  ToDataBytes txDataBuilder.

Section Run.
Context {W : Type} `{InteractorProxy W} `{TransactionNonceHandler W}.

(** A call that writes to a transaction of the caller. *)
Definition through {A} (tx : FrontendTransaction) (m : M (FrontendTransaction * W) A) : M W (A * FrontendTransaction) :=
  λ w, match m (tx, w) with
       | (Ok a, (tx', w')) => (Ok (a, tx'), w')
       | (Fail e, (_, w')) => (Fail e, w')
       | (Panic, (_, w')) => (Panic, w')
       end.

Definition gasLimitOf (en : mxNotifee) (priceChanges : list ArgsPriceChanged) : Z :=
  u64 (baseGasLimit en + u64 (u64 (Z.of_nat (length priceChanges)) * gasLimitForEach en)).

Definition mx_PriceChanged (en : mxNotifee) (priceChanges : list ArgsPriceChanged) : M W () :=
  txData ← lift (prepareTxData priceChanges);
  networkConfigs ← px_GetNetworkConfig;
  receiverAddressAsBech32 ← lift (AddressAsBech32String (contractAddress en));
  nc ← deref networkConfigs;
  let tx := mkTx 0 zeroString receiverAddressAsBech32 "" (nc_MinGasPrice nc) (gasLimitOf en priceChanges) txData ""
              (nc_ChainID nc) txVersion 0 "" "" in
  '(_, tx) ← through tx (tnh_ApplyNonceAndGasPrice (Some (GetAddressHandler (cryptoHolder en))));
  '(_, tx) ← through tx (onfst (tb_ApplyUserSignature (cryptoHolder en)));
  tnh_SendTransaction tx ;;
  mret ().

#[export] Instance mxNotifee_notifee (en : mxNotifee) : PriceNotifee W := {| PriceChanged := mx_PriceChanged en |}.
End Run.
End Notifee.

(** ** What the contract reads *)

(** Five arguments make one price change. *)
Fixpoint groupBatch (l : list bytes) : outcome (list ArgsPriceChanged) :=
  match l with
  | [] => Ok []
  | b :: q :: t :: p :: d :: l =>
    rest ← groupBatch l;
    Ok (mkPriceChanged (string_of_bytes b) (string_of_bytes q) (be_to_Z p) (be_to_Z d) (be_to_Z t) :: rest)
  | _ => Fail (ErrText "wrong number of arguments")
  end.

(** The call as the contract receives it: the function, and the arguments in
    hexadecimal, where a number is a big endian natural number. *)
Definition readBatch (data : bytes) : outcome (list ArgsPriceChanged) :=
  match strings_Split "@" (string_of_bytes data) with
  | f :: parts => if bool_decide (f = batchFunction) then l ← decode_all parts; groupBatch l else Fail (ErrText "wrong function")
  | [] => Panic
  end.

(** The numbers of a price change after their passage through int64. *)
Definition on_wire (pc : ArgsPriceChanged) : ArgsPriceChanged :=
  mkPriceChanged (pc_Base pc) (pc_Quote pc) (Z.abs (i64 (pc_DenominatedPrice pc))) (Z.abs (i64 (pc_Decimals pc)))
    (Z.abs (pc_Timestamp pc)).

Record writable (pc : ArgsPriceChanged) : Prop := {
  wr_base : pc_Base pc ≠ "";
  wr_quote : pc_Quote pc ≠ "";
  wr_price : is_u64 (pc_DenominatedPrice pc);
  wr_decimals : 0 ≤ pc_Decimals pc < 2 ^ 63;
  wr_timestamp : 0 ≤ pc_Timestamp pc < 2 ^ 63 }.

Definition setPrice (p : Z) (pc : ArgsPriceChanged) : ArgsPriceChanged :=
  mkPriceChanged (pc_Base pc) (pc_Quote pc) p (pc_Decimals pc) (pc_Timestamp pc).

(** The upper half of the prices arrives mirrored. *)
Definition price_read (p : Z) : Z := if p <? 2 ^ 63 then p else 2 ^ 64 - p.

Lemma abs_i64 z : is_u64 z → Z.abs (i64 z) = price_read z.
Proof.
  unfold is_u64, i64, price_read. intros Hz. destruct (Z.ltb_spec z (2 ^ 63)).
  - rewrite Z.mod_small; lia.
  - replace (z + 2 ^ 63) with ((z - 2 ^ 63) + 1 * 2 ^ 64) by lia. rewrite Z.mod_add, Z.mod_small; lia.
Qed.

Lemma on_wire_writable pc : writable pc → on_wire pc = setPrice (price_read (pc_DenominatedPrice pc)) pc.
Proof.
  intros [_ _ Hp Hd Ht]. unfold on_wire, setPrice. rewrite !abs_i64 by (unfold is_u64 in *; lia).
  unfold price_read at 2. rewrite (proj2 (Z.ltb_lt _ _)) by lia. by rewrite Z.abs_eq by lia.
Qed.

Lemma prepareTxData_args pcs : prepareTxData pcs =
  ToDataBytes (on_base (addArgs (mjoin (priceArgs <$> pcs))) (Function batchFunction NewTxDataBuilder)).
Proof.
  unfold prepareTxData. f_equal. generalize (Function batchFunction NewTxDataBuilder).
  induction pcs as [|pc pcs IH]; intros b; [by destruct b|]. cbn [foldl]. rewrite IH.
  cbn [fmap list_fmap mjoin list_join]. unfold on_base, addArgs. by rewrite foldl_app.
Qed.

Lemma number_on_wire z : be_to_Z (match bigint_Bytes (Z.abs z) with [] => [x00] | _ => bigint_Bytes (Z.abs z) end) = Z.abs z.
Proof.
  pose proof (bigint_Bytes_value (Z.abs z)) as Hv. rewrite Z.abs_idemp in Hv.
  destruct (bigint_Bytes (Z.abs z)); [|done]. cbn in *. lia.
Qed.

Lemma args_bytes_app l1 l2 : args_bytes (l1 ++ l2) = (b1 ← args_bytes l1; b2 ← args_bytes l2; Ok (b1 ++ b2)).
Proof.
  induction l1 as [|a l1 IH]; [by cbn; destruct (args_bytes l2)|]. cbn [app args_bytes]. rewrite IH.
  destruct (arg_bytes a); [|done..]. cbn. destruct (args_bytes l1); [|done..]. cbn. by destruct (args_bytes l2).
Qed.

Lemma bytes_of_string_nil s : s ≠ "" → ∃ b l, bytes_of_string s = b :: l.
Proof. destruct s as [|c s]; [done|]. intros _. by eexists _, _. Qed.

Lemma batch_bytes pcs :
  Forall (λ pc, pc_Base pc ≠ "" ∧ pc_Quote pc ≠ "") pcs →
  ∃ l, args_bytes (mjoin (priceArgs <$> pcs)) = Ok l ∧ groupBatch l = Ok (on_wire <$> pcs).
Proof.
  induction 1 as [|pc pcs [Hb Hq] _ (l & El & Gl)]; [by exists []|].
  change (mjoin (priceArgs <$> pc :: pcs)) with (priceArgs pc ++ mjoin (priceArgs <$> pcs)).
  rewrite args_bytes_app, El.
  destruct (bytes_of_string_nil _ Hb) as (b & lb & Eb), (bytes_of_string_nil _ Hq) as (q & lq & Eq).
  unfold priceArgs. cbn [args_bytes arg_bytes]. rewrite Eb, Eq. cbn [mbind outcome_bind app].
  eexists. split; [done|]. cbn [groupBatch]. rewrite Gl. cbn [mbind outcome_bind]. cbv beta zeta. rewrite !number_on_wire, <-Eb, <-Eq.
  by rewrite !string_of_bytes_of_string.
Qed.

(** The data of a batch, read back. *)
Lemma prepareTxData_run pcs :
  Forall (λ pc, pc_Base pc ≠ "" ∧ pc_Quote pc ≠ "") pcs →
  ∃ data, prepareTxData pcs = Ok data ∧ readBatch data = Ok (on_wire <$> pcs).
Proof.
  intros Hp. destruct (batch_bytes pcs Hp) as (l & El & Gl).
  pose proof (ToDataString_run batchFunction (mjoin (priceArgs <$> pcs))) as Hs. cbv zeta in Hs.
  rewrite El in Hs. destruct Hs as (s & parts & Es & Hsplit & Hdec); [done|done|].
  exists (bytes_of_string s). rewrite prepareTxData_args. unfold ToDataBytes. rewrite Es.
  split; [done|]. unfold readBatch. rewrite string_of_bytes_of_string, Hsplit, bool_decide_true by done.
  by rewrite Hdec.
Qed.

(** C32: The contract reads the prices the notifier gave: the data of a batch splits into the
    function and hexadecimal arguments that decode to the very price changes, in order, as long as
    the prices are below 2^63. A price p above is read as 2^64 - p, since it passes through int64 and
    loses its sign. *)
Theorem submitBatch_roundtrip (pcs : list ArgsPriceChanged) :
  Forall writable pcs →
  ∃ data, prepareTxData pcs = Ok data ∧
    readBatch data = Ok ((λ pc, setPrice (price_read (pc_DenominatedPrice pc)) pc) <$> pcs) ∧
    (Forall (λ pc, pc_DenominatedPrice pc < 2 ^ 63) pcs → readBatch data = Ok pcs).
Proof.
  intros Hw. destruct (prepareTxData_run pcs) as (data & Ed & Er).
  { eapply Forall_impl; [exact Hw|]. by intros pc []. }
  assert (E : on_wire <$> pcs = (λ pc, setPrice (price_read (pc_DenominatedPrice pc)) pc) <$> pcs).
  { apply list_fmap_ext. intros i pc Hi. apply on_wire_writable. by eapply Forall_lookup_1. }
  rewrite E in Er. exists data. split_and!; [done..|]. intros Hlow. rewrite Er. f_equal.
  rewrite <-(list_fmap_id pcs) at 2. apply list_fmap_ext. intros i pc Hi.
  unfold price_read. rewrite (proj2 (Z.ltb_lt _ _)) by exact (Forall_lookup_1 _ _ _ _ Hlow Hi). by destruct pc.
Qed.

(** ** The builder and the nonce handlers of this library as implementations *)

#[export] Instance txBuilder_signer `{Signer} `{PubkeyConverter} : UserSigner :=
  {| tb_ApplyUserSignature := ApplyUserSignature |}.

#[export] Instance nthV2_nonceHandler {H W} `{AddressNonceHandler H W} `{PubkeyConverter} :
  TransactionNonceHandler (nonceTransactionsHandlerV2 H * W) := {|
  tnh_ApplyNonceAndGasPrice a := λ '(tx, (nth, w)),
    let '(r, (nth', (tx', w'))) := ApplyNonceAndGasPrice a (nth, (Some tx, w)) in
    (r, (default tx tx', (nth', w')));
  tnh_SendTransaction tx := SendTransaction (Some tx) |}.

(** ** The transaction that is sent *)

Section Sent.
Context `{SignerLaws} `{PubkeyConverter} {W : Type} `{InteractorProxy W} `{TransactionNonceHandler W}.

(** The transaction before the nonce handler sees it. *)
Definition batchTx (en : mxNotifee) (nc : NetworkConfig) (receiver : string) (data : bytes) (n : nat) : FrontendTransaction :=
  mkTx 0 zeroString receiver "" (nc_MinGasPrice nc)
    (u64 (baseGasLimit en + u64 (u64 (Z.of_nat n) * gasLimitForEach en))) data "" (nc_ChainID nc) txVersion 0 "" "".

(** When PriceChanged succeeds exactly one transaction goes out, through the nonce handler: a
    call of the contract with no value that carries a batch which reads as the price changes, the chain
    and the gas of the configuration, as the nonce handler completed it, sent from the notifee's own
    account with a signature that verifies under its public key. *)
Theorem PriceChanged_sends (en : mxNotifee) (pcs : list ArgsPriceChanged) (w w' : W) :
  holder_ok (cryptoHolder en) →
  Forall (λ pc, pc_Base pc ≠ "" ∧ pc_Quote pc ≠ "") pcs →
  mx_PriceChanged en pcs w = (Ok (), w') →
  ∃ data nc receiver applied sent signature hash w1 w2,
    readBatch data = Ok (on_wire <$> pcs) ∧
    px_GetNetworkConfig w = (Ok (Some nc), w1) ∧
    AddressAsBech32String (contractAddress en) = Ok receiver ∧
    tnh_ApplyNonceAndGasPrice (Some (GetAddressHandler (cryptoHolder en)))
      (batchTx en nc receiver data (length pcs), w1) = (Ok (), (applied, w2)) ∧
    sent = tx_setSignature (hex_EncodeToString signature) (tx_setSender (GetBech32 (cryptoHolder en)) applied) ∧
    verifies sent (GetPublicKey (cryptoHolder en)) signature = Ok () ∧
    tnh_SendTransaction sent w2 = (Ok hash, w').
Proof.
  intros Hh Hp Hrun. destruct (prepareTxData_run pcs Hp) as (data & Ed & Er).
  unfold mx_PriceChanged, mbind, M_bind, lift, deref in Hrun. rewrite Ed in Hrun.
  destruct (px_GetNetworkConfig w) as [[nc|e|] w1] eqn:Enc; [|done..].
  destruct (AddressAsBech32String _) as [receiver|e|] eqn:Ea; [|done..].
  destruct nc as [nc|]; [|done]. unfold gasLimitOf in Hrun. fold (batchTx en nc receiver data (length pcs)) in Hrun.
  unfold through at 1 in Hrun.
  destruct (tnh_ApplyNonceAndGasPrice _ _) as [[[]|e|] [applied w2]] eqn:Eapply; [|done..].
  unfold through, onfst, tb_ApplyUserSignature, txBuilder_signer, ApplyUserSignature, modify, gets, lift, mbind, M_bind in Hrun.
  cbn [id] in Hrun. destruct (signTx _ _) as [signature|e|] eqn:Es; [|done..].
  destruct (tnh_SendTransaction _ w2) as [[hash|e|] w3] eqn:Esend; [|done..]. injection Hrun as <-.
  eexists data, nc, receiver, applied, _, signature, hash, w1, w2. split_and!; [done..| |done].
  rewrite (verifies_unsigned _ (tx_setSender (GetBech32 (cryptoHolder en)) applied)) by done. by apply signTx_verifies.
Qed.
End Sent.

(** ** Concrete runs *)

Module NotifeeRun.
#[local] Existing Instances toyCrypto hexConverter toyCrypto_laws signer signer_laws.

(** The network of the nonce handlers, with a configuration. *)
#[local] Instance run_proxy : InteractorProxy net := frozen_proxy 5.
#[local] Instance run_handler : AddressNonceHandler addressNonceHandler net :=
  @addressNonceHandlerV2 net run_proxy (map_to_list_rangeZ _) hexConverter.
Abbreviation world := (nonceTransactionsHandlerV2 addressNonceHandler * net)%type.
#[local] Instance world_proxy : InteractorProxy world := {|
  px_GetNetworkConfig := onsnd px_GetNetworkConfig;
  px_GetAccount a := onsnd (px_GetAccount a);
  px_SendTransaction tx := onsnd (px_SendTransaction tx);
  px_SendTransactions txs := onsnd (px_SendTransactions txs) |}.

Definition key : bytes := replicate 32 x07.
Definition owner : cryptoComponentsHolder := mkHolder key key (mkAddress key) (hex_EncodeToString key).
Definition oracle : mxNotifee := mkMxNotifee (mkAddress (replicate 32 x09)) 1000 200 owner.
Definition changes : list ArgsPriceChanged :=
  [mkPriceChanged "EGLD" "USD" 4217 2 1700000000; mkPriceChanged "ETH" "USD" 0 2 1700000000].
Definition start : world := (NthV2.mkNth ∅ minimumIntervalToResend false, emptyNet).
Definition after : world := (mx_PriceChanged oracle changes start).2.

Lemma changes_writable : Forall writable changes.
Proof. repeat constructor; vm_compute; (done || discriminate). Qed.

Lemma submitBatch_roundtrip_witness : ∃ data, prepareTxData changes = Ok data ∧ readBatch data = Ok changes.
Proof.
  destruct (submitBatch_roundtrip changes changes_writable) as (data & Ed & _ & Er). exists data. split; [exact Ed|].
  apply Er. repeat constructor.
Defined.

Example one_transaction : tx_Nonce <$> net_sent after.2 = [5].
Proof. vm_compute. reflexivity. Qed.

Lemma PriceChanged_sends_witness : ∃ data sent signature hash w2,
  readBatch data = Ok (on_wire <$> changes) ∧ verifies sent (GetPublicKey owner) signature = Ok () ∧
  tnh_SendTransaction (W := world) sent w2 = (Ok hash, after).
Proof.
  destruct (PriceChanged_sends oracle changes start after) as (data & nc & receiver & applied & sent & signature & hash & w1 & w2 & Hs);
    [split; reflexivity|repeat constructor; discriminate|vm_compute; reflexivity|].
  destruct Hs as (Er & _ & _ & _ & _ & Hv & Hsend). exists data, sent, signature, hash, w2. split; [exact Er|]. by split.
Defined.

(** A price above 9.22 with 18 decimals does not survive: 10 becomes 8.44. *)
Theorem price_ten_is_misread :
  let pc := mkPriceChanged "EGLD" "USD" (10 * 10 ^ 18) 18 1700000000 in
  ∃ data, prepareTxData [pc] = Ok data ∧ readBatch data = Ok [setPrice 8446744073709551616 pc].
Proof. eexists. split; [vm_compute; reflexivity|vm_compute; reflexivity]. Qed.
End NotifeeRun.
