(* ===== verification/TrackerFlow.v ===== *)
(** * The tracker goroutine ([workflows/walletsTracker.go], [processLoop])

    [NewWalletTracker] starts a goroutine that runs beside whoever empties the
    accumulator: here both are one step relation.  A step of the goroutine is one
    receive of its [select], one call of the proxy, one transaction of a block or
    one store of a nonce; between any two of them the accumulator may be popped,
    a deposit handler set, the proxy used by others, or the tracker closed.  The
    lists of addresses handed out so far are kept in the state.  A tick that runs
    undisturbed is the definition [fetchAndProcessHyperBlocks] of [Workflows]. *)

From S2P Require Export Workflows.

(** Where the goroutine is: in [select]; with the nonce it last processed, before
    it asks for the latest one; at the head of the loop over the nonces; inside a
    block, before the transactions [rest]; returned. *)
Inductive tracker_pc :=
  | Selecting
  | Asked (lastProcessedNonce : Z)
  | AtNonce (nonce networkNonce : Z)
  | InBlock (nonce networkNonce : Z) (rest : list TransactionOnNetwork)
  | Returned.

Record flow (W : Type) := mkFlow {
  f_pc : tracker_pc;
  f_tracker : walletTracker;
  f_world : W;
  f_cancelled : bool;
  f_popped : list (list string)  (* what [GetLatestTrackedAddresses] answered, call by call *) }.
Arguments mkFlow {W}. Arguments f_pc {W}. Arguments f_tracker {W}. Arguments f_world {W}.
Arguments f_cancelled {W}. Arguments f_popped {W}.

Section Steps.
Context {W : Type} `{TrackableAddressesProvider} `{ProxyHandler W} `{LastProcessedNonceHandler W} `{MapRange ()}.

(** One step of the loop of [processLoop] and of what it calls. *)
Inductive goroutine_step : flow W → flow W → Prop :=
  | t_tick wt w c ps :
      goroutine_step (mkFlow Selecting wt w c ps) (mkFlow (Asked (nh_GetLastProcessedNonce w)) wt w c ps)
  | t_done wt w ps :
      goroutine_step (mkFlow Selecting wt w true ps) (mkFlow Returned wt w true ps)
  | t_latest l wt w c ps N w' :
      ph_GetLatestHyperBlockNonce w = (Ok N, w') →
      goroutine_step (mkFlow (Asked l) wt w c ps) (mkFlow (AtNonce (u64 (l + 1)) N) wt w' c ps)
  | t_latest_error l wt w c ps e w' :
      ph_GetLatestHyperBlockNonce w = (Fail e, w') →
      goroutine_step (mkFlow (Asked l) wt w c ps) (mkFlow Selecting wt w' c ps)
  | t_block n N wt w c ps b w' :
      n ≤ N → ph_GetHyperBlockByNonce n w = (Ok (Some b), w') →
      goroutine_step (mkFlow (AtNonce n N) wt w c ps) (mkFlow (InBlock n N (hb_Transactions b)) wt w' c ps)
  | t_block_error n N wt w c ps e w' :
      n ≤ N → ph_GetHyperBlockByNonce n w = (Fail e, w') →
      goroutine_step (mkFlow (AtNonce n N) wt w c ps) (mkFlow Selecting wt w' c ps)
  | t_end n N wt w c ps :
      N < n → goroutine_step (mkFlow (AtNonce n N) wt w c ps) (mkFlow Selecting wt w c ps)
  | t_transaction n N tx rest wt w c ps :
      goroutine_step (mkFlow (InBlock n N (tx :: rest)) wt w c ps)
        (mkFlow (InBlock n N rest) (processTransaction tx wt).2 w c ps)
  | t_processed n N wt w c ps :
      goroutine_step (mkFlow (InBlock n N []) wt w c ps)
        (mkFlow (AtNonce (u64 (n + 1)) N) wt (nh_ProcessedNonce n w) c ps).

(** [NewWalletTracker] has started the goroutine. *)
Definition started_flow (minimum : Z) (w : W) : flow W :=
  mkFlow Selecting (mkTracker newAddressesAccumulator minimum false []) w false [].

(** What the other goroutines do meanwhile. *)
Inductive flow_step : flow W → flow W → Prop :=
  | fl_goroutine s s' : goroutine_step s s' → flow_step s s'
  | fl_pop pc wt w c ps :
      flow_step (mkFlow pc wt w c ps)
        (mkFlow pc (GetLatestTrackedAddresses wt).2 w c (ps ++ [(GetLatestTrackedAddresses wt).1]))
  | fl_set_handler pc wt w c ps handler_nil :
      flow_step (mkFlow pc wt w c ps) (mkFlow pc (SetHandlerForNewDepositTransactionFound handler_nil wt) w c ps)
  | fl_world pc wt w c ps w' :
      nh_GetLastProcessedNonce w' = nh_GetLastProcessedNonce w →
      flow_step (mkFlow pc wt w c ps) (mkFlow pc wt w' c ps)
  | fl_close pc wt w c ps : flow_step (mkFlow pc wt w c ps) (mkFlow pc wt w true ps).
End Steps.

(** The network's nonces are below the greatest [uint64], from which the loop would
    never end. *)
Class BelowMaxNonce (W : Type) `{ProxyHandler W} := {
  ph_latest_bound w N w' : ph_GetLatestHyperBlockNonce w = (Ok N, w') → N < 2 ^ 64 - 1 }.

(** ** A tick is a run of steps *)

Section Tick.
Context {W : Type} `{TrackableAddressesProvider} `{ProxyHandler W} `{LastProcessedNonceHandler W} `{MapRange ()}.

Lemma processHyperBlock_steps n N txs wt (w : W) c ps :
  rtc goroutine_step (mkFlow (InBlock n N txs) wt w c ps)
    (mkFlow (InBlock n N []) (foldl (λ wt tx, (processTransaction tx wt).2) wt txs) w c ps).
Proof.
  revert wt. induction txs as [|tx txs IH]; intros wt; [reflexivity|].
  eapply rtc_l; [apply t_transaction|apply IH].
Qed.

Lemma process_loop_steps fuel n N wt (w : W) c ps r wt' w' :
  process_loop fuel n N (wt, w) = (r, (wt', w')) → r ≠ Panic →
  rtc goroutine_step (mkFlow (AtNonce n N) wt w c ps) (mkFlow Selecting wt' w' c ps).
Proof.
  revert n wt w. induction fuel as [|fuel IH]; intros n wt w; cbn [process_loop];
    (destruct (Z.leb_spec n N) as [Hle|Hgt]; cbn [negb];
     [|intros [= <- <- <-] _; by apply rtc_once, t_end]); [intros [= <-]; done|].
  unfold fetchAndProcessHyperBlock, mbind, M_bind, onsnd, onfst, deref, modify.
  destruct (ph_GetHyperBlockByNonce n w) as [[[b|]|e|] w1] eqn:E; cbn [fst snd].
  - intros Er Hp. eapply rtc_l; [by eapply t_block|].
    etrans; [apply processHyperBlock_steps|].
    eapply rtc_l; [apply t_processed|]. eapply IH; [exact Er|exact Hp].
  - intros [= <- <- <-]. done.
  - intros [= <- <- <-] _. apply rtc_once. by eapply t_block_error.
  - intros [= <- <- <-]. done.
Qed.

(** the step relation refines the code: a whole tick, as [fetchAndProcessHyperBlocks]
    computes it, is a run of steps of the goroutine from its [select] back to its
    [select], whether the tick ends well or with an error, and the lists handed out
    and the cancelled flag stay as they are. *)
Theorem tick_is_a_run wt (w : W) c ps r wt' w' :
  fetchAndProcessHyperBlocks (wt, w) = (r, (wt', w')) → r ≠ Panic →
  rtc goroutine_step (mkFlow Selecting wt w c ps) (mkFlow Selecting wt' w' c ps).
Proof.
  unfold fetchAndProcessHyperBlocks. unfold mbind at 1 2, M_bind at 1 2, onsnd at 1 2, gets.
  destruct (ph_GetLatestHyperBlockNonce w) as [[N|e|] w1] eqn:E; intros Er Hp.
  - eapply rtc_l; [apply t_tick|]. eapply rtc_l; [by apply t_latest|]. by eapply process_loop_steps.
  - injection Er as <- <- <-. eapply rtc_l; [apply t_tick|]. apply rtc_once. by eapply t_latest_error.
  - by injection Er as <- <- <-.
Qed.
End Tick.

(** A pop takes each accumulated address once, and all of them. *)
Lemma popped_once `{MapRange ()} (wt : walletTracker) :
  NoDup (GetLatestTrackedAddresses wt).1 ∧
  (∀ a, a ∈ (GetLatestTrackedAddresses wt).1 ↔ is_Some (addressesMap (accumulator wt) !! a)) ∧
  (GetLatestTrackedAddresses wt).2 = mkTracker (mkAccumulator ∅) (minimumBalance wt) (handlerNewDepositTransaction wt) (deposits wt).
Proof.
  split; [apply map_range_NoDup|]. split; [|done]. intros a. cbn. rewrite list_elem_of_fmap. split.
  - intros ([x []] & -> & Hin%map_range_elem). by eexists.
  - intros [[] E]. exists (a, ()). split; [done|]. by apply map_range_elem.
Qed.

(** ** No deposit is lost *)

Section Accounted.
Context {W : Type} `{TrackableAddressesProvider} `{TrackerLaws W blk} `{!BelowMaxNonce W} `{MapRange ()}.
#[local] Abbreviation between := (deposits_between (blk := blk)).

(** The last block the goroutine has taken, and its deposits not read yet. *)
Definition taken (s : flow W) : Z :=
  match f_pc s with InBlock n _ _ => n | _ => nh_GetLastProcessedNonce (f_world s) end.

Definition unread (s : flow W) : list TransactionOnNetwork :=
  match f_pc s with
  | InBlock _ _ rest => List.filter (is_deposit (minimumBalance (f_tracker s))) rest
  | _ => []
  end.

Definition pc_ok (stored : Z) (pc : tracker_pc) : Prop :=
  match pc with
  | Asked l => l = stored
  | AtNonce n N => n = stored + 1 ∧ N < 2 ^ 64 - 1
  | InBlock n N _ => n = stored + 1 ∧ n ≤ N < 2 ^ 64 - 1
  | _ => True
  end.

(** The receivers of [txs], each once, in some order. *)
Definition receivers_of (addrs : list string) (txs : list TransactionOnNetwork) : Prop :=
  NoDup addrs ∧ ∀ a, a ∈ addrs ↔ a ∈ map ton_Receiver txs.

(** The deposits read since the block [n0]: of the blocks taken, those that are not
    unread. *)
Definition read (minimum n0 : Z) (s : flow W) : list TransactionOnNetwork :=
  let ds := between minimum (n0 + 1) (taken s - n0) in take (length ds - length (unread s)) ds.

Lemma read_app minimum n0 s ds :
  ds ++ unread s = between minimum (n0 + 1) (taken s - n0) → read minimum n0 s = ds.
Proof. unfold read. intros <-. rewrite length_app. apply take_app_length'. lia. Qed.

(** A deposit handler is given to the tracker. *)
Definition with_handler (s : flow W) : flow W :=
  mkFlow (f_pc s) (SetHandlerForNewDepositTransactionFound false (f_tracker s)) (f_world s) (f_cancelled s) (f_popped s).

(** The deposits of the blocks from [n0 + 1] are cut in order into those behind each
    list handed out, those accumulated, and those not read yet; a handler that is set got
    all that was read but [missed], which was read before. *)
Record accounted (minimum n0 : Z) (missed : list TransactionOnNetwork) (s : flow W) : Prop := {
  ac_minimum : minimumBalance (f_tracker s) = minimum;
  ac_stored : 0 ≤ n0 ≤ nh_GetLastProcessedNonce (f_world s) ∧ nh_GetLastProcessedNonce (f_world s) < 2 ^ 64 - 1;
  ac_pc : pc_ok (nh_GetLastProcessedNonce (f_world s)) (f_pc s);
  ac_cut : ∃ segs cur,
    concat segs ++ cur ++ unread s = between minimum (n0 + 1) (taken s - n0) ∧
    Forall2 receivers_of (f_popped s) segs ∧
    (∀ a, is_Some (addressesMap (accumulator (f_tracker s)) !! a) ↔ a ∈ map ton_Receiver cur) ∧
    (handlerNewDepositTransaction (f_tracker s) = true → missed ++ deposits (f_tracker s) = concat segs ++ cur) ∧
    (handlerNewDepositTransaction (f_tracker s) = false → deposits (f_tracker s) = []) }.

Lemma deposits_between_snoc m n k : 0 ≤ k →
  between m n (k + 1) = between m n k ++ deposits_of m (blk (n + k)).
Proof.
  intros Hk. unfold deposits_between. rewrite seqZ_app by lia. rewrite List.map_app, List.concat_app. f_equal.
  rewrite seqZ_cons, seqZ_nil by lia. apply app_nil_r.
Qed.

Lemma accounted_start minimum missed (w : W) :
  0 ≤ nh_GetLastProcessedNonce w < 2 ^ 64 - 1 →
  accounted minimum (nh_GetLastProcessedNonce w) missed (started_flow minimum w).
Proof.
  intros Hw. split; [done|cbn; lia|done|]. exists [], []. unfold taken, unread, deposits_between. cbn.
  rewrite seqZ_nil by lia. split_and!; [done|constructor| |done|done].
  intros a. rewrite lookup_empty. split; [by intros []|by intros ?%not_elem_of_nil].
Qed.

(** The goroutine's position and the proxy's world move, no transaction is read. *)
Lemma accounted_move minimum n0 missed pc pc' wt (w w' : W) c c' ps :
  accounted minimum n0 missed (mkFlow pc wt w c ps) →
  n0 ≤ nh_GetLastProcessedNonce w' < 2 ^ 64 - 1 → pc_ok (nh_GetLastProcessedNonce w') pc' →
  between minimum (n0 + 1) (taken (mkFlow pc wt w c ps) - n0) ++ unread (mkFlow pc' wt w' c' ps) =
  between minimum (n0 + 1) (taken (mkFlow pc' wt w' c' ps) - n0) →
  unread (mkFlow pc wt w c ps) = [] →
  accounted minimum n0 missed (mkFlow pc' wt w' c' ps).
Proof.
  intros [Am As Ap (segs & cur & Ec & Hseg & Hacc & Hd & Hh)] Hs Hpc Ht Hu.
  split; [done|cbn; lia|done|]. exists segs, cur. split_and!; try done.
  rewrite Hu, app_nil_r in Ec. by rewrite <-Ht, <-Ec, <-app_assoc.
Qed.

(** The goroutine reads a transaction. *)
Lemma accounted_read minimum n0 missed n N tx rest wt (w : W) c ps :
  accounted minimum n0 missed (mkFlow (InBlock n N (tx :: rest)) wt w c ps) →
  accounted minimum n0 missed (mkFlow (InBlock n N rest) (processTransaction tx wt).2 w c ps).
Proof.
  intros [Am As Ap (segs & cur & Ec & Hseg & Hacc & Hd & Hh)]. cbn [f_tracker f_world f_pc] in *.
  pose proof (processTransaction_saw tx wt) as [Sm Sh Sd Sa]. set (wt' := (processTransaction tx wt).2) in *.
  set (new := if is_deposit (minimumBalance wt) tx then [tx] else []) in *.
  assert (Eu : unread (mkFlow (InBlock n N (tx :: rest)) wt w c ps) = new ++ unread (mkFlow (InBlock n N rest) wt' w c ps)).
  { unfold unread, new. cbn. rewrite Sm. by destruct (is_deposit _ tx). }
  split; [cbn; congruence|done|done|]. cbn [f_popped f_tracker] in *.
  exists segs, (cur ++ new). split_and!.
  - rewrite <-app_assoc, <-Eu. exact Ec.
  - done.
  - intros a. rewrite Sa, Hacc, List.map_app, elem_of_app. done.
  - rewrite Sh, Sd. intros Hs. by rewrite Hs, (app_assoc (concat segs)), <-Hd, app_assoc.
  - rewrite Sh, Sd. intros Hs. by rewrite Hs, Hh.
Qed.

(** The accumulator is popped: what was accumulated is the next list handed out. *)
Lemma accounted_pop minimum n0 missed pc wt (w : W) c ps :
  accounted minimum n0 missed (mkFlow pc wt w c ps) →
  accounted minimum n0 missed
    (mkFlow pc (GetLatestTrackedAddresses wt).2 w c (ps ++ [(GetLatestTrackedAddresses wt).1])).
Proof.
  intros [Am As Ap (segs & cur & Ec & Hseg & Hacc & Hd & Hh)]. split; [done..|].
  exists (segs ++ [cur]), []. unfold unread, taken in *. cbn in *. rewrite List.concat_app. cbn.
  rewrite !app_nil_r. split_and!; [by rewrite <-app_assoc| | |done|done].
  - apply Forall2_app; [done|]. constructor; [|constructor]. destruct (popped_once wt) as (Hnd & Hin & _).
    split; [exact Hnd|]. intros a. rewrite <-Hacc. apply Hin.
  - intros a. rewrite lookup_empty. split; [by intros []|by intros ?%not_elem_of_nil].
Qed.

Lemma accounted_goroutine minimum n0 missed (s s' : flow W) :
  goroutine_step s s' → accounted minimum n0 missed s → accounted minimum n0 missed s'.
Proof.
  intros Hst Ha. pose proof Ha as [Am [[As1 As2] As3] Ap Acut]. destruct Hst; cbn [f_tracker f_world f_pc pc_ok] in *.
  - eapply accounted_move; [exact Ha|lia|done| |done]. cbn. by rewrite app_nil_r.
  - eapply accounted_move; [exact Ha|lia|done| |done]. cbn. by rewrite app_nil_r.
  - pose proof (ph_latest_store w) as Hs. pose proof (ph_latest_bound _ _ _ H4) as Hb. rewrite H4 in Hs. cbn [snd] in Hs.
    eapply accounted_move; [exact Ha|lia| |  |done]; cbn.
    + rewrite Hs, u64_small by (unfold is_u64; lia). subst l. lia.
    + by rewrite app_nil_r, Hs.
  - pose proof (ph_latest_store w) as Hs. rewrite H4 in Hs. cbn [snd] in Hs.
    eapply accounted_move; [exact Ha|lia|done| |done]. cbn. by rewrite app_nil_r, Hs.
  - pose proof (ph_block_store n w) as Hs. rewrite H5 in Hs. cbn [snd] in Hs.
    pose proof (ph_block_chain _ _ _ _ H5) as [= ->]. destruct Ap as [-> HN].
    eapply accounted_move; [exact Ha|lia|cbn; lia| |done]. cbn. unfold taken, unread; cbn. rewrite Am.
    replace (nh_GetLastProcessedNonce w + 1 - n0) with (nh_GetLastProcessedNonce w - n0 + 1) by lia.
    rewrite deposits_between_snoc by lia. unfold deposits_of. by replace (n0 + 1 + (nh_GetLastProcessedNonce w - n0))
      with (nh_GetLastProcessedNonce w + 1) by lia.
  - pose proof (ph_block_store n w) as Hs. rewrite H5 in Hs. cbn [snd] in Hs.
    eapply accounted_move; [exact Ha|lia|done| |done]. cbn. by rewrite app_nil_r, Hs.
  - eapply accounted_move; [exact Ha|lia|done| |done]. cbn. by rewrite app_nil_r.
  - by apply accounted_read.
  - eapply accounted_move; [exact Ha|rewrite nh_stored; lia| | |done]; cbn.
    + rewrite nh_stored, u64_small by (unfold is_u64; lia). lia.
    + unfold taken; cbn. by rewrite app_nil_r, nh_stored.
Qed.

(** The handler that is set got nothing yet: what was read so far is what it missed. *)
Lemma accounted_with_handler minimum n0 missed (s : flow W) :
  accounted minimum n0 missed s → handlerNewDepositTransaction (f_tracker s) = false →
  accounted minimum n0 (read minimum n0 s) (with_handler s).
Proof.
  intros [Am As Ap (segs & cur & Ec & Hseg & Hacc & Hd & Hh)] Hf. split; [done..|]. exists segs, cur.
  split_and!; try done. intros _. cbn. by rewrite (Hh Hf), app_nil_r, (read_app _ _ _ (concat segs ++ cur)) by by rewrite <-app_assoc.
Qed.

(** Once it is set it stays, and what it missed stays the same. *)
Lemma accounted_step minimum n0 missed (s s' : flow W) :
  flow_step s s' → accounted minimum n0 missed s →
  ∃ missed', accounted minimum n0 missed' s' ∧
    (handlerNewDepositTransaction (f_tracker s) = true → missed' = missed ∧ handlerNewDepositTransaction (f_tracker s') = true).
Proof.
  intros [s1 s2 Hg|pc wt w c ps|pc wt w c ps []|pc wt w c ps w' E|pc wt w c ps] Ha.
  - exists missed. split; [by eapply accounted_goroutine|]. intros Ht. split; [done|].
    destruct Hg; try done. cbn in *. by rewrite (saw_handler _ _ _ (processTransaction_saw tx wt)).
  - exists missed. split; [by apply accounted_pop|done].
  - by exists missed.
  - destruct (handlerNewDepositTransaction wt) eqn:Eh.
    + exists missed. split; [|done]. destruct Ha as [Am As Ap (segs & cur & ? & ? & ? & ? & ?)]. split; [done..|].
      exists segs, cur. cbn in *. rewrite Eh in *. by split_and!.
    + eexists. split; [by apply (accounted_with_handler minimum n0 missed (mkFlow pc wt w c ps))|cbn; congruence].
  - exists missed. split; [|done]. destruct Ha as [Am As Ap (segs & cur & ? & ? & ? & ? & ?)]. cbn in *.
    split; unfold taken, unread in *; cbn in *; rewrite ?E; [done..|]. by exists segs, cur.
  - exists missed. split; [|done]. destruct Ha as [Am As Ap (segs & cur & ? & ? & ? & ? & ?)]. split; [done..|]. by exists segs, cur.
Qed.

Lemma accounted_run minimum n0 missed (s s' : flow W) :
  rtc flow_step s s' → accounted minimum n0 missed s →
  ∃ missed', accounted minimum n0 missed' s' ∧
    (handlerNewDepositTransaction (f_tracker s) = true → missed' = missed ∧ handlerNewDepositTransaction (f_tracker s') = true).
Proof.
  intros Hr. revert missed. induction Hr as [s|s s1 s' Hs _ IH]; intros missed Ha; [by exists missed|].
  destruct (accounted_step _ _ _ _ _ Hs Ha) as (m1 & Ha1 & Hk1). destruct (IH m1 Ha1) as (m2 & Ha2 & Hk2).
  exists m2. split; [done|]. intros [-> Ht]%Hk1. by apply Hk2.
Qed.

Lemma accounted_reachable minimum (w : W) s :
  0 ≤ nh_GetLastProcessedNonce w < 2 ^ 64 - 1 →
  rtc flow_step (started_flow minimum w) s → ∃ missed, accounted minimum (nh_GetLastProcessedNonce w) missed s.
Proof.
  intros Hw Hr. destruct (accounted_run _ _ [] _ _ Hr (accounted_start minimum [] w Hw)) as (m & Ha & _). by exists m.
Qed.

(** C10: no deposit is lost and none is counted twice, however the mover's pops, the
    setting of a handler, other uses of the proxy and the closing interleave with
    the goroutine's steps, and whatever calls of the proxy fail: in every reachable
    state the deposits of all the blocks taken since the start, in the order of the
    chain, are cut into consecutive pieces - one per list handed out, which holds
    the receivers of its piece once each and no other address, then the piece whose
    receivers are accumulated, then what the goroutine has yet to read of its block.
    Without a deposit handler none was told of a deposit; after a state in which the
    first handler was set, the handlers were told of exactly the deposits read since
    then, in order. *)
Theorem tracker_loses_nothing minimum (w : W) s :
  0 ≤ nh_GetLastProcessedNonce w < 2 ^ 64 - 1 →
  rtc flow_step (started_flow minimum w) s →
  let n0 := nh_GetLastProcessedNonce w in
  n0 ≤ nh_GetLastProcessedNonce (f_world s) ≤ taken s ∧
  (∃ segs cur,
    concat segs ++ cur = read minimum n0 s ∧
    read minimum n0 s ++ unread s = between minimum (n0 + 1) (taken s - n0) ∧
    Forall2 receivers_of (f_popped s) segs ∧
    (∀ a, is_Some (addressesMap (accumulator (f_tracker s)) !! a) ↔ a ∈ map ton_Receiver cur)) ∧
  (handlerNewDepositTransaction (f_tracker s) = false → deposits (f_tracker s) = []) ∧
  (∀ s0, rtc flow_step (started_flow minimum w) s0 → handlerNewDepositTransaction (f_tracker s0) = false →
     rtc flow_step (with_handler s0) s → read minimum n0 s = read minimum n0 s0 ++ deposits (f_tracker s)).
Proof.
  intros Hw Hr n0. subst n0. destruct (accounted_reachable _ _ _ Hw Hr) as (m & [_ As Ap (segs & cur & Ec & Hseg & Hacc & _ & Hh)]).
  split; [unfold taken; destruct (f_pc s); cbn in Ap; lia|]. rewrite app_assoc in Ec.
  split; [exists segs, cur; by rewrite (read_app _ _ _ _ Ec)|]. split; [done|]. intros s0 Hr0 Hf Hr1.
  destruct (accounted_reachable _ _ _ Hw Hr0) as (m0 & Ha0).
  destruct (accounted_run _ _ _ _ _ Hr1 (accounted_with_handler _ _ _ _ Ha0 Hf)) as (m1 & [_ _ _ (sg & cu & E1 & _ & _ & Hd & _)] & Hk).
  destruct (Hk eq_refl) as [-> Ht]. rewrite (Hd Ht). apply read_app. by rewrite <-app_assoc.
Qed.

Lemma AtNonce_returns n N wt (w : W) c ps :
  0 ≤ n → n = nh_GetLastProcessedNonce w + 1 → N < 2 ^ 64 - 1 →
  ∃ wt' w', rtc goroutine_step (mkFlow (AtNonce n N) wt w c ps) (mkFlow Selecting wt' w' c ps).
Proof.
  intros Hn E HN. destruct (process_loop_saw (Z.to_nat (N - n + 1)) n N wt w) as (r & wt' & w' & Er & _ & _ & _ & Hp); [lia..|].
  exists wt', w'. by eapply process_loop_steps.
Qed.

(** the goroutine can always be stopped: from every reachable state, once the
    context is cancelled, it has a run back to [select] and out, as long as the
    proxy answers, and once it has returned it takes no step. *)
Theorem tracker_stops minimum (w : W) s :
  0 ≤ nh_GetLastProcessedNonce w < 2 ^ 64 - 1 →
  (∀ w0, (ph_GetLatestHyperBlockNonce w0).1 ≠ Panic) →
  rtc flow_step (started_flow minimum w) s → f_cancelled s = true →
  ∃ s', rtc goroutine_step s s' ∧ f_pc s' = Returned ∧ f_popped s' = f_popped s ∧ ∀ s'', ¬ goroutine_step s' s''.
Proof.
  intros Hw Hlatest Hr Hc. pose proof (accounted_reachable _ _ _ Hw Hr) as (m & [_ As Ap _]).
  destruct s as [pc wt w1 c ps]. cbn in *. subst c.
  assert (Hsel : pc = Returned ∨ ∃ wt' w', rtc goroutine_step (mkFlow pc wt w1 true ps) (mkFlow Selecting wt' w' true ps)).
  { destruct pc as [|l|n N|n N rest|]; [right; by eexists _, _| | | |by left]; right; cbn in Ap.
    - specialize (Hlatest w1). pose proof (ph_latest_store w1) as Hs.
      destruct (ph_GetLatestHyperBlockNonce w1) as [[N|e|] w2] eqn:E; [| |done].
      + cbn in Hs. rewrite <-Hs in *. destruct (AtNonce_returns (u64 (l + 1)) N wt w2 true ps) as (wt' & w' & Hrun);
          [rewrite u64_small by (unfold is_u64; lia); lia..|by eapply ph_latest_bound|].
        exists wt', w'. eapply rtc_l; [by apply t_latest|exact Hrun].
      + exists wt, w2. apply rtc_once. by eapply t_latest_error.
    - apply AtNonce_returns; lia.
    - destruct (AtNonce_returns (u64 (n + 1)) N (foldl (λ wt tx, (processTransaction tx wt).2) wt rest) (nh_ProcessedNonce n w1) true ps)
        as (wt' & w' & Hrun); [rewrite u64_small by (unfold is_u64; lia); rewrite ?nh_stored; lia..|lia|].
      exists wt', w'. etrans; [apply processHyperBlock_steps|]. eapply rtc_l; [apply t_processed|exact Hrun]. }
  destruct Hsel as [->|(wt' & w' & Hrun)].
  - exists (mkFlow Returned wt w1 true ps). split_and!; [reflexivity|done|done|]. by inversion 1.
  - exists (mkFlow Returned wt' w' true ps). split_and!; [|done|done|by inversion 1].
    eapply rtc_r; [exact Hrun|apply t_done].
Qed.
End Accounted.

(** ** Concrete runs *)

Module TrackerRun.
Import WorkflowsRun.
#[local] Existing Instances track_all store chain_proxy chain_laws.
#[local] Instance range_unit : MapRange () := map_to_list_range ().

Lemma chain_bound : BelowMaxNonce world.
Proof. split. intros w N w' E. cbn in E. unfold mret, M_ret in E. simplify_eq. lia. Qed.
#[local] Existing Instance chain_bound.

(** The world of a tracker that has processed the blocks up to 4; the latest is 7. *)
Definition at_four : world := (4, []).

(** Block 5 is read, its address is popped, and the tracker waits before block 6. *)
Definition after_pop : flow world := {|
  f_pc := AtNonce 6 7; f_tracker := mkTracker newAddressesAccumulator 50 false [];
  f_world := (5, []); f_cancelled := false; f_popped := [["b"]] |}.

Lemma after_pop_reachable : rtc flow_step (started_flow 50 at_four) after_pop.
Proof.
  eapply rtc_l; [apply fl_goroutine, t_tick|].
  eapply rtc_l; [apply fl_goroutine; apply t_latest; reflexivity|].
  eapply rtc_l; [apply fl_goroutine; eapply t_block; [|reflexivity]; change (5 ≤ 7); lia|].
  eapply rtc_l; [apply fl_goroutine, t_transaction|].
  eapply rtc_l; [apply fl_pop|].
  eapply rtc_l; [apply fl_goroutine, t_transaction|].
  eapply rtc_l; [apply fl_goroutine, t_processed|].
  apply reflexive_eq. vm_compute. reflexivity.
Qed.

Lemma tick_is_a_run_witness :
  let r := fetchAndProcessHyperBlocks (mkTracker newAddressesAccumulator 50 true [], at_four) in
  rtc goroutine_step (mkFlow Selecting (mkTracker newAddressesAccumulator 50 true []) at_four false [])
    (mkFlow Selecting r.2.1 r.2.2 false []) ∧ map ton_Hash (deposits r.2.1) = ["5"; "7"].
Proof.
  intros r. split; [|vm_compute; reflexivity].
  apply (tick_is_a_run _ _ _ _ r.1); [subst r; vm_compute; reflexivity|subst r; vm_compute; discriminate].
Defined.

(** Then a handler is set, and the goroutine reads the blocks 6 and 7. *)
Definition heard := process_loop 2 6 7 (f_tracker (with_handler after_pop), f_world after_pop).
Definition after_heard : flow world := mkFlow Selecting heard.2.1 heard.2.2 false [["b"]].

Lemma after_heard_reachable : rtc flow_step (with_handler after_pop) after_heard.
Proof.
  apply (rtc_subrel goroutine_step flow_step); [intros x y; apply fl_goroutine|].
  apply (process_loop_steps 2 6 7 _ _ _ _ heard.1); [vm_compute; reflexivity|vm_compute; discriminate].
Qed.

Lemma tracker_loses_nothing_witness :
  (let s := after_heard in
   let n0 := nh_GetLastProcessedNonce at_four in
   n0 ≤ nh_GetLastProcessedNonce (f_world s) ≤ taken s ∧
   (∃ segs cur,
    concat segs ++ cur = read (blk := chain) 50 n0 s ∧
    read (blk := chain) 50 n0 s ++ unread s = deposits_between (blk := chain) 50 (n0 + 1) (taken s - n0) ∧
    Forall2 receivers_of (f_popped s) segs ∧
    (∀ a, is_Some (addressesMap (accumulator (f_tracker s)) !! a) ↔ a ∈ map ton_Receiver cur)) ∧
   read (blk := chain) 50 n0 s = read (blk := chain) 50 n0 after_pop ++ deposits (f_tracker s)) ∧
  map ton_Hash (read (blk := chain) 50 4 after_pop) = ["5"] ∧ map ton_Hash (deposits (f_tracker after_heard)) = ["7"].
Proof.
  split; [|vm_compute; auto].
  destruct (tracker_loses_nothing (blk := chain) 50 at_four after_heard) as (H1 & H2 & _ & H3); [cbn; lia| |].
  - etrans; [|apply after_heard_reachable]. eapply rtc_r; [apply after_pop_reachable|].
    exact (fl_set_handler (AtNonce 6 7) (mkTracker newAddressesAccumulator 50 false []) (5, []) false [["b"]] false).
  - split; [exact H1|]. split; [exact H2|]. apply H3; [apply after_pop_reachable|reflexivity|apply after_heard_reachable].
Defined.

Lemma tracker_stops_witness :
  ∃ s', rtc goroutine_step (mkFlow (f_pc after_pop) (f_tracker after_pop) (f_world after_pop) true (f_popped after_pop)) s' ∧
    f_pc s' = Returned ∧ f_popped s' = [["b"]] ∧ ∀ s'', ¬ goroutine_step s' s''.
Proof.
  apply (tracker_stops (blk := chain) 50 at_four); [cbn; lia|done| |done].
  eapply rtc_r; [apply after_pop_reachable|apply fl_close].
Defined.
End TrackerRun.
