(* ===== verification/ProxyClient.v ===== *)
(** * The proxy behind its interfaces ([blockchain/proxy.go] and its users)

    Every package that talks to the chain declares the part of the proxy it calls
    as an interface of its own; here the blockchain proxy of [Proxy] is the
    instance of each, over a base proxy and a world [W] with an HTTP client.  The
    requests that reach the wire are observed through [HttpLog], which the client
    wrapper of [Http] provides, and the command line tool is run over all of it:
    options, proxy, routes, client wrapper, wire. *)

From S2P Require Export VmQueryGetter Auth.
From S2P Require Export Cli.

(** ** The instances *)

Section Instances.
Context {W : Type} `{HttpClientWrapper W} `{Clock W} `{EndpointProvider} `{ApiJson} `{FinalityProvider W}
  `{PubkeyConverter} `{ShardingCoordinator} `{MapRangeZ string}.
Variable ep : proxy.

(** The Go methods answer the address of a part of the decoded response, which is
    not nil, for blocks. *)
Definition proxy_ProxyHandler : ProxyHandler (baseProxy * W) := {|
  ph_GetLatestHyperBlockNonce := onsnd Proxy.GetLatestHyperBlockNonce;
  ph_GetHyperBlockByNonce n := b ← onsnd (Proxy.GetHyperBlockByNonce n); mret (Some b);
  ph_GetDefaultTransactionArguments a c := Proxy.GetDefaultTransactionArguments ep (Some a) (Some c);
  ph_GetNetworkConfig := BaseProxy.GetNetworkConfig |}.

Definition proxy_InteractorProxy : InteractorProxy (baseProxy * W) := {|
  px_GetNetworkConfig := BaseProxy.GetNetworkConfig;
  px_GetAccount a := Proxy.GetAccount ep (Some a);
  px_SendTransaction tx := onsnd (Proxy.SendTransaction tx);
  px_SendTransactions txs := onsnd (Proxy.SendTransactions txs) |}.

Definition proxy_HyperBlockProxy : HyperBlockProxy (baseProxy * W) := {|
  Auth.hp_GetLatestHyperBlockNonce := onsnd Proxy.GetLatestHyperBlockNonce;
  Auth.hp_GetHyperBlockByNonce n := b ← onsnd (Proxy.GetHyperBlockByNonce n); mret (Some b) |}.
End Instances.

(** ** The wire

    The requests that were answered, in order.  A request whose URL is refused or
    whose transport fails may or may not be among them. *)

Definition get_request (url endpoint : string) : request :=
  applyGetHeaderParams (Http.mkRequest "GET" (url +:+ "/" +:+ endpoint) [] []).
Definition post_request (url endpoint : string) (data : bytes) : request :=
  applyPostHeaderParams (Http.mkRequest "POST" (url +:+ "/" +:+ endpoint) [] data).

Class HttpLog (W : Type) `{HttpClientWrapper W} (url : string) := {
  wire : W → list request;
  get_on_wire e w b code w' :
    http_GetHTTP e w = ((b, code, None), w') → wire w' = wire w ++ [get_request url e];
  post_on_wire e d w b code w' :
    http_PostHTTP e d w = ((b, code, None), w') → wire w' = wire w ++ [post_request url e d] }.

(** The client wrapper's requests are those [client.Do] is called with. *)
Section Wrapper.
Context {W : Type} (bad_url : string → option error) (client_Do : request → W → (error + Http.response) * W).
Context (done_requests : W → list request).
Hypothesis do_logged : ∀ r w, done_requests (client_Do r w).2 = done_requests w ++ [r].
Variable url : string.

Lemma clientWrapper_log : @HttpLog W (clientWrapper bad_url client_Do url) url.
Proof.
  refine {| wire := done_requests |}.
  - intros e w b code w'. cbn. unfold Http.GetHTTP. destruct (bad_url _); [done|].
    fold (get_request url e). pose proof (do_logged (get_request url e) w) as Hl.
    destruct (client_Do _ w) as [[er|r] w1]; [done|]. destruct (resp_Body r) as [body [er|]]; [done|].
    by intros [= _ _ <-].
  - intros e d w b code w'. cbn. unfold Http.PostHTTP. destruct (bad_url _); [done|].
    fold (post_request url e d). pose proof (do_logged (post_request url e d) w) as Hl.
    destruct (client_Do _ w) as [[er|r] w1]; [done|]. destruct (resp_Body r) as [body er].
    by intros [= _ _ _ <-].
Defined.
End Wrapper.

Section Requests.
Context {W : Type} `{HttpLog W url}.

Lemma getResponse_on_wire {D} (json : bytes → outcome (apiResponse D)) e w d w' :
  getResponse json e w = (Ok d, w') → wire w' = wire w ++ [get_request url e].
Proof.
  unfold getResponse, getBytes, checkHTTP, mbind, M_bind, lift.
  destruct (http_GetHTTP e w) as [[[b code] [er|]] w1] eqn:E; [done|]. destruct (code =? StatusOK); [|done].
  destruct (json b) as [r|er|]; [|done..]. intros [= _ <-]. by eapply get_on_wire.
Qed.

Lemma postResponse_on_wire {D} (json : bytes → outcome (apiResponse D)) e data w d w' :
  postResponse json e data w = (Ok d, w') → wire w' = wire w ++ [post_request url e data].
Proof.
  unfold postResponse, postBytes, checkHTTP, mbind, M_bind, lift.
  destruct (http_PostHTTP e data w) as [[[b code] [er|]] w1] eqn:E; [done|]. destruct (code =? StatusOK); [|done].
  destruct (json b) as [r|er|]; [|done..]. intros [= _ <-]. by eapply post_on_wire.
Qed.

Context `{Clock W} `{EndpointProvider} `{ApiJson} `{FinalityProvider W} `{PubkeyConverter} `{ShardingCoordinator}
  `{MapRangeZ string}.
Variable ep : proxy.
Hypothesis no_finality : finalityCheck ep = false.

Lemma GetNetworkConfig_on_wire bp w c bp' w' :
  fetchedConfigs bp = None → BaseProxy.GetNetworkConfig (bp, w) = (Ok c, (bp', w')) →
  getResponse json_NetworkConfigResponse ep_GetNetworkConfig w = (Ok c, w') ∧
  wire w' = wire w ++ [get_request url ep_GetNetworkConfig].
Proof.
  intros Hn. rewrite GetNetworkConfig_fetches by by right. unfold getNetworkConfigFromSource.
  destruct (getResponse _ _ w) as [[o|e|] w1] eqn:E; [|done..]. intros [= <- <- <-].
  split; [done|]. by eapply getResponse_on_wire.
Qed.

Lemma GetAccount_on_wire a bp w acc s' :
  Proxy.GetAccount ep (Some a) (bp, w) = (Ok acc, s') →
  ∃ bech w', s' = (bp, w') ∧ AddressAsBech32String a = Ok bech ∧
    getResponse json_AccountResponse (ep_GetAccount bech) w = (Ok acc, w') ∧
    wire w' = wire w ++ [get_request url (ep_GetAccount bech)].
Proof.
  unfold Proxy.GetAccount, validBech32, checkFinalState. rewrite no_finality. cbn [negb]. intros E.
  apply M_bind_Ok in E as (bech & s1 & Eb%lift_Ok & E). destruct Eb as [Eb ->].
  apply M_bind_Ok in E as (? & s2 & [= <- <-] & E). unfold onsnd in E.
  destruct (getResponse _ _ w) as [r w1] eqn:Er. injection E as -> <-. exists bech, w1. split; [done|].
  split; [destruct (IsValid a); by cbn in Eb|]. split; [done|]. by eapply getResponse_on_wire.
Qed.

Lemma GetDefaultTransactionArguments_on_wire a c bp w tx balance s' :
  Proxy.GetDefaultTransactionArguments ep (Some a) (Some c) (bp, w) = (Ok (tx, balance), s') →
  ∃ bech w' acc, s' = (bp, w') ∧ AddressAsBech32String a = Ok bech ∧
    getResponse json_AccountResponse (ep_GetAccount bech) w = (Ok (Some acc), w') ∧ tx_Nonce tx = acc_Nonce acc ∧
    wire w' = wire w ++ [get_request url (ep_GetAccount bech)].
Proof.
  unfold Proxy.GetDefaultTransactionArguments. intros E.
  apply M_bind_Ok in E as (acc & s1 & Ea & E). apply GetAccount_on_wire in Ea as (bech & w' & -> & Hb & Hg & Hw).
  exists bech, w'. run_ok. eexists. by split_and!.
Qed.

Lemma SendTransactions_on_wire txs w hs w' :
  Proxy.SendTransactions txs w = (Ok hs, w') →
  ∃ data, json_Marshal_Txs txs = Ok data ∧ wire w' = wire w ++ [post_request url ep_GetSendMultipleTransactions data].
Proof.
  unfold Proxy.SendTransactions. intros E.
  apply M_bind_Ok in E as (data & s1 & Ed%lift_Ok & E). destruct Ed as [Ed ->].
  apply M_bind_Ok in E as (h & s1 & Es & E). injection E as _ <-. exists data. split; [done|].
  by eapply postResponse_on_wire.
Qed.
End Requests.

(** ** The command line tool over HTTP *)

Lemma account_route a : @ep_GetAccount proxyEndpointProvider a = "address/" +:+ a.
Proof. cbn. by rewrite string_app_nil_r. Qed.

(** Loading the keys reads one file. *)
Lemma loadPemFiles_state `{Primitives} `{Crypto} `{PubkeyConverter} {P} `{Files P} homePath s td s' :
  loadPemFiles homePath s = (Ok td, s') → ∃ b, os_ReadFile (pathGeneratedWallets homePath) s = (Ok b, s').
Proof.
  unfold loadPemFiles, LoadPrivateKeyFromPemFile. intros E.
  apply M_bind_Ok in E as (sk & s1 & E1 & E). apply M_bind_Ok in E1 as (b & s2 & Er & E1). run_ok. by exists b.
Qed.

Lemma process_run `{Primitives} `{Crypto} `{PubkeyConverter} {P} `{ProxyHandler P} `{InteractorProxy P} `{Files P}
    `{HttpClientWrapper P} `{ApiJson} opt homePath c (s s' : P) r :
  c_withFunding c = false → process opt homePath c s = (Ok r, s') →
  ∃ td s1 config s2 o s3, loadPemFiles homePath s = (Ok td, s1) ∧ px_GetNetworkConfig s1 = (Ok (Some config), s2) ∧
    processCommand c td config s2 = (Ok o, s3) ∧ generateAndSendTransaction opt c o s3 = (Ok r, s').
Proof.
  intros Hf. unfold process. rewrite Hf. intros E.
  apply M_bind_Ok in E as (td & s1 & E1 & E). apply M_bind_Ok in E as (? & ? & E2%lift_Ok & E). destruct E2 as [_ ->].
  apply M_bind_Ok in E as (config & s2 & E2 & E). apply M_bind_Ok in E as (? & ? & E3%lift_Ok & E). destruct E3 as [E3 ->].
  apply M_bind_Ok in E as (o & s3 & E4 & E). apply M_bind_Ok in E as (? & ? & [= <- <-] & E).
  destruct config as [config|]; [|done]. injection E3 as <-. eauto 10.
Qed.

(** A program that starts with [NewProxy] runs over the routes, the base proxy and the
    finality provider it answers, and ends with its error. *)
Definition with_proxy {W A} `{ApiJson} (client : HttpClientWrapper W) (args : ArgsProxy)
    (program : EndpointProvider → FinalityProvider W → proxy → M (baseProxy * W) A) : M W A := λ w,
  match NewProxy client args with
  | Ok (provider, base, finality, ep) => let '(r, (_, w')) := program provider finality ep (base, w) in (r, w')
  | Fail e => (Fail e, w)
  | Panic => (Panic, w)
  end.

(** The arguments of the sample programs, which run over [TestnetGateway]. *)
Definition sampleArgs : ArgsProxy := mkArgsProxy false false false 0 60000000000 Proxy.

Section Command.
Context `{Primitives} `{CryptoLaws} `{PubkeyConverter} `{ShardingCoordinator} `{ApiJson} `{MapRangeZ string}.
Context {W : Type} `{Clock W} `{Files W}.
Context (bad_url : string → option error) (client_Do : request → W → (error + Http.response) * W).
Context (done_requests : W → list request).
Hypothesis do_logged : ∀ r w, done_requests (client_Do r w).2 = done_requests w ++ [r].
Hypothesis files_quiet : ∀ f w, done_requests (os_ReadFile f w).2 = done_requests w.
Variable HasOptionGuardianSet : Transaction → bool.
Variable homePath : string.

(** [process] with the client wrapper, the routes, the base proxy and the finality
    provider that [NewProxy] puts behind its interfaces. *)
Definition process_over_http (c : cfg) : M W report :=
  let client := clientWrapper bad_url client_Do (createProxyArgs c).1 in
  with_proxy client (createProxyArgs c).2 (λ provider finality ep,
      @process _ _ _ HasOptionGuardianSet (baseProxy * W)%type
        (@proxy_ProxyHandler W client _ provider _ finality _ _ ep)
        (@proxy_InteractorProxy W client _ provider _ finality _ _ _ ep)
        {| os_content f s := os_content f s.2; os_ReadFile f := onsnd (os_ReadFile f);
           os_WriteFile f b := onsnd (os_WriteFile f b); os_OpenFile_Write f b := onsnd (os_OpenFile_Write f b) |}
        {| http_GetHTTP e s := let '(x, w) := @http_GetHTTP _ client e s.2 in (x, (s.1, w));
           http_PostHTTP e d s := let '(x, w) := @http_PostHTTP _ client e d s.2 in (x, (s.1, w)) |}
        _ homePath c).

(** C16: the whole tool, down to the wire: a run of the command with the send flag and
    without funding that succeeds is this chain and nothing else: the file of the funding
    key is read, then exactly three requests go to the gateway the command names - for
    the network's configuration, for the account of the address of alice's key, and one
    post of the JSON of a list of one transaction, whose hashes are the report.  That
    transaction carries the nonce the second request was answered with; its sender is
    that of the key which the sender option names, alice's without the option (an address
    given in full names the key of no bytes), and its signature verifies under this key. *)
Theorem command_on_wire c (w w' : W) r :
  c_send c = true → c_withFunding c = false → process_over_http c w = (Ok r, w') →
  let url := (createProxyArgs c).1 in
  let client := clientWrapper bad_url client_Do url in
  ∃ skA addressA alice sk h pem w0 config w1 account w2 tx signature data hashes,
    key_of "alice" = Ok skA ∧ GetAddressFromPrivateKey skA = Ok addressA ∧ AddressAsBech32String addressA = Ok alice ∧
    key_of (c_sender c) = Ok sk ∧ NewCryptoComponentsHolder sk = Ok h ∧
    os_ReadFile (pathGeneratedWallets homePath) w = (Ok pem, w0) ∧
    @getResponse W client _ json_NetworkConfigResponse "network/config" w0 = (Ok (Some config), w1) ∧
    @getResponse W client _ json_AccountResponse ("address/" +:+ alice) w1 = (Ok (Some account), w2) ∧
    @Proxy.SendTransactions W client proxyEndpointProvider _ _ [tx] w2 = (Ok hashes, w') ∧ r = SentHashes hashes ∧
    done_requests w' = done_requests w ++
      [get_request url "network/config"; get_request url ("address/" +:+ alice);
       post_request url "transaction/send-multiple" data] ∧
    json_Marshal_Txs [tx] = Ok data ∧ tx_Nonce tx = acc_Nonce account ∧ tx_Sender tx = GetBech32 h ∧
    hex_DecodeString (tx_Signature tx) = Ok signature ∧ verifies tx (GetPublicKey h) signature = Ok ().
Proof.
  intros Hsend Hfund. unfold process_over_http, with_proxy. cbn [NewProxy createProxyArgs snd].
  set (client := clientWrapper bad_url client_Do (createProxyArgs c).1).
  cbn [arg_FinalityCheck checkArgsProxy mbind outcome_bind].
  destruct (NewProxy client _) as [[[[provider base] finality] ep]|e|] eqn:En; [|done..].
  assert (Hn : provider = proxyEndpointProvider ∧ fetchedConfigs base = None ∧ finalityCheck ep = false) by (by vm_compute in En; injection En as <- <- <- <-).
  destruct Hn as (-> & Hb & Hfin). clear En.
  set (Hl := @clientWrapper_log W bad_url client_Do done_requests do_logged (createProxyArgs c).1).
  destruct (process _ _ _ _) as [r0 [b' w3]] eqn:Ep. intros [= -> ->].
  apply process_run in Ep as (td & s1 & config & s2 & o & s3 & E1 & E2 & E3 & E4); [|done].
  pose proof (loadPemFiles_keys _ _ _ _ E1) as Hkeys. apply loadPemFiles_state in E1 as (pem & E1). cbn in E1.
  pose proof (files_quiet (pathGeneratedWallets homePath) w) as Hq.
  destruct (os_ReadFile (pathGeneratedWallets homePath) w) as [rf w0] eqn:Ef. injection E1 as -> <-. cbn [snd] in Hq.
  destruct s2 as [bp2 w1]. apply (GetNetworkConfig_on_wire (url := (createProxyArgs c).1)) in E2 as [Ec E2]; [|done].
  pose proof (command_run _ _ _ _ _ _ _ _ _ _ E3 E4) as (h & tx & signature & Eh & Esend & Eu & Esig & Ever & _).
  destruct (processCommand_sender _ _ _ _ _ _ _ Hkeys E3 Eh) as (sk & Esk & Eholder).
  rewrite Hsend in Esend. destruct Esend as (hs & -> & Esend). cbn in Esend. unfold onsnd in Esend.
  apply processCommand_alice_nonce in E3 as (tx0 & balance & E3 & Hnonce).
  apply (GetDefaultTransactionArguments_on_wire (url := (createProxyArgs c).1)) in E3
    as (alice & w2 & account & -> & Halice & Hacc & Hn0 & Hw2); [|done].
  destruct (Proxy.SendTransactions [tx] w2) as [rs w3'] eqn:Es. injection Esend as -> _ ->.
  pose proof Es as (data & Ed & Hw3)%(SendTransactions_on_wire (url := (createProxyArgs c).1)).
  rewrite account_route in Hacc, Hw2.
  exists (skAlice td), (addressAlice td), alice, sk, h, pem, w0, config, w1, account, w2, tx, signature, data, hs.
  split_and!; try done; [apply (kk_alice _ Hkeys)|apply (kk_address _ Hkeys)| | |].
  - etrans; [exact Hw3|]. rewrite Hw2, E2. change (wire w0) with (done_requests w0). by rewrite Hq, <-!app_assoc.
  - apply (f_equal tx_Nonce) in Eu. cbn in Eu. congruence.
  - by apply (f_equal tx_Sender) in Eu.
Qed.
End Command.

(** ** A concrete run *)

Module ClientRun.
#[local] Existing Instances toyCrypto hexConverter toyCrypto_laws wordsJson.

(** The lines between the first and the last of a PEM text. *)
Fixpoint until (mark s : string) : string :=
  if String.prefix mark s then "" else match s with String c s => String c (until mark s) | "" => "" end.
Fixpoint after_line (s : string) : string :=
  match s with
  | String c s => if is_newline c then s else after_line s
  | "" => ""
  end.
Definition pem_body (s : string) : string :=
  string_filter (λ c, negb (Ascii.eqb c "="%char)) (until "-----END" (after_line s)).

#[local] Instance pem_primitives : Primitives := {|
  hmac_sha512 k m := k ++ m; hmac_sha256 k m := k ++ m; scrypt_Key _ _ _ _ _ _ := Fail (ErrText "scrypt");
  aes_NewCipher _ := Ok (); ctr_XORKeyStream _ _ m := m; bip39_NewMnemonic b := Ok (hex_EncodeToString b);
  bip39_NewSeed m _ := bytes_of_string m;
  json_MarshalKeystore k := Fail (ErrText "json"); json_UnmarshalKeystore b := Fail (ErrText "json");
  pem_Encode blk := Fail (ErrText "pem");
  pem_Decode b := match base64_RawStdDecode (pem_body (string_of_bytes b)) with Ok l => Some (mkPem "" l) | _ => None end |}.
#[local] Instance one_shard : ShardingCoordinator :=
  {| Coordinator := (); NewMultiShardCoordinator _ _ := Ok (); ComputeId _ _ := 0 |}.
#[local] Instance range_strings : MapRangeZ string := map_to_list_rangeZ string.

(** The world is the log of the requests; every file is alice's key. *)
Abbreviation log := (list request).
#[local] Instance log_clock : Clock log := {| time_Now _ := time_Unix 0 |}.
#[local] Instance log_files : Files log := {|
  os_content _ _ := Some (bytes_of_string AlicePemContents); os_ReadFile _ := mret (bytes_of_string AlicePemContents);
  os_WriteFile _ _ := mret (); os_OpenFile_Write _ _ := mret () |}.
Definition answer (r : request) : bytes :=
  bytes_of_string (if String.eqb (req_Method r) "POST" then "12" else if String.prefix (DevnetGateway +:+ "/network") (req_URL r) then "3" else "7").
Definition log_Do (r : request) (w : log) : (error + Http.response) * log := (inr (Http.mkResponse 200 (answer r, None)), w ++ [r]).
Definition has_guardian (t : Transaction) : bool := Z.testbit (ntx_Options t) 1.

(** [-sender bob -receiver eve -value 7 -data hello -send -proxy devnet] *)
Definition command : cfg := mkCfg false true false "" "" "bob" "eve" "hello" "7" 0 "devnet".
Definition ran : outcome report * log := process_over_http (λ _, None) log_Do has_guardian "/home" command [].

Example ran_requests : ran.1 = Ok (SentHashes ["12"; "14"]) ∧
  map req_URL ran.2 =
    [DevnetGateway +:+ "/network/config";
     DevnetGateway +:+ "/address/413f42575f7f26fad3317a778771212fdb80245850981e48b58a4f25e344e8f9";
     DevnetGateway +:+ "/transaction/send-multiple"] ∧
  map (λ r, string_of_bytes (req_Body r)) ran.2 = [""; ""; "hello"].
Proof. vm_compute. auto. Qed.

Lemma log_files_quiet f (w : log) : (os_ReadFile f w).2 = w.
Proof. reflexivity. Qed.

Lemma command_on_wire_witness :
  let url := DevnetGateway in
  let client := clientWrapper (λ _, None) log_Do url in
  ∃ skA addressA alice sk h pem w0 config w1 account w2 tx signature data hashes,
    key_of "alice" = Ok skA ∧ GetAddressFromPrivateKey skA = Ok addressA ∧ AddressAsBech32String addressA = Ok alice ∧
    key_of "bob" = Ok sk ∧ NewCryptoComponentsHolder sk = Ok h ∧
    os_ReadFile (pathGeneratedWallets "/home") [] = (Ok pem, w0) ∧
    @getResponse log client _ json_NetworkConfigResponse "network/config" w0 = (Ok (Some config), w1) ∧
    @getResponse log client _ json_AccountResponse ("address/" +:+ alice) w1 = (Ok (Some account), w2) ∧
    @Proxy.SendTransactions log client proxyEndpointProvider _ _ [tx] w2 = (Ok hashes, ran.2) ∧
    SentHashes ["12"; "14"] = SentHashes hashes ∧
    ran.2 = [] ++
      [get_request url "network/config"; get_request url ("address/" +:+ alice);
       post_request url "transaction/send-multiple" data] ∧
    json_Marshal_Txs [tx] = Ok data ∧ tx_Nonce tx = acc_Nonce account ∧ tx_Sender tx = GetBech32 h ∧
    hex_DecodeString (tx_Signature tx) = Ok signature ∧ verifies tx (GetPublicKey h) signature = Ok ().
Proof.
  apply (command_on_wire (λ _, None) log_Do (λ w, w) (λ _ _, eq_refl) log_files_quiet has_guardian "/home"
           command [] ran.2 (SentHashes ["12"; "14"])); [reflexivity..|]. vm_compute. reflexivity.
Defined.
End ClientRun.
