(* ===== verification/WalletFlow.v ===== *)
(** * The wallet tracker service ([examples/examplesFlowWalletTracker/])

    The sample program that puts [Workflows], [Interactor] and [TxBuilder]
    together: the nonce store and the address provider it brings along (mock/), the
    setup, and [generateMoveBalanceTransactionsAndSendThem], the sweep that a timer
    runs beside the tracker of [TrackerFlow].  A context with a timeout is the
    deadline it computes: a call of the proxy made under a context fails when the
    deadline has passed.  The addresses are taken out of the tracker before
    anything is signed or sent. *)

From S2P Require Export ProxyClient TrackerFlow.
From S2P Require Export Interactor Workflows.

(** ** [mock/memoryNonceTracker.go] *)

Record MemoryNonceTracker := mkNonceTracker { mnt_nonce : Z }.
Definition ProcessedNonce (nonce : Z) (nt : MemoryNonceTracker) : MemoryNonceTracker := mkNonceTracker nonce.
Definition GetLastProcessedNonce (nt : MemoryNonceTracker) : Z := mnt_nonce nt.

(** ** [mock/trackableAddressProviderMock.go] *)

Record TrackableAddressProviderMock := mkTap { trackedAddresses : gmap string bytes }.

Definition NewTrackableAddressProviderMock : TrackableAddressProviderMock := mkTap ∅.
Definition AllTrackableAddresses `{MapRange bytes} (tap : TrackableAddressProviderMock) : list string :=
  (range (trackedAddresses tap)).*1.
Definition AddTrackableAddress (addressAsBech32 : string) (skBytes : bytes) (tap : TrackableAddressProviderMock) :
  TrackableAddressProviderMock := mkTap (<[addressAsBech32 := skBytes]> (trackedAddresses tap)).
Definition IsTrackableAddresses (tap : TrackableAddressProviderMock) (addressAsBech32 : string) : bool :=
  bool_decide (is_Some (trackedAddresses tap !! addressAsBech32)).
Definition PrivateKeyOfBech32Address (tap : TrackableAddressProviderMock) (addressAsBech32 : string) : bytes :=
  default [] (trackedAddresses tap !! addressAsBech32).

Definition tap_provider (tap : TrackableAddressProviderMock) : TrackableAddressesProvider := {|
  tap_IsTrackableAddresses := IsTrackableAddresses tap;
  tap_PrivateKeyOfBech32Address := PrivateKeyOfBech32Address tap |}.

(** ** The service's state beside the tracker

    The interactor with the heap of its transactions, the nonce store, and the
    proxy [P] behind everything. *)

Record service (P : Type) := mkService {
  sv_interactor : transactionInteractor;
  sv_heap : txheap;
  sv_nonces : MemoryNonceTracker;
  sv_proxy : P }.
Arguments mkService {P}. Arguments sv_interactor {P}. Arguments sv_heap {P}. Arguments sv_nonces {P}.
Arguments sv_proxy {P}.

(** [time.Second] *)
Definition timeToExecuteRequest : Z := 1000000000.
Definition context_DeadlineExceeded : error := ErrVar "context.DeadlineExceeded".

(** The proxy's clock, in nanoseconds. *)
Class ProxyClock (P : Type) := { px_Now : P → Z }.

Section Service.
Context {P : Type} `{ProxyHandler P} `{InteractorProxy P} `{ProxyClock P}.

(** A call under a context that may have expired. *)
Definition under {A} (deadline : option Z) (m : M P A) : M P A := λ p,
  match deadline with
  | Some d => if d <=? px_Now p then (Fail context_DeadlineExceeded, p) else m p
  | None => m p
  end.

Definition onproxy {A} (m : M P A) : M (service P) A := λ s,
  let '(r, p) := m (sv_proxy s) in (r, mkService (sv_interactor s) (sv_heap s) (sv_nonces s) p).

Definition service_nonces : LastProcessedNonceHandler (service P) := {|
  nh_ProcessedNonce n s := mkService (sv_interactor s) (sv_heap s) (ProcessedNonce n (sv_nonces s)) (sv_proxy s);
  nh_GetLastProcessedNonce s := GetLastProcessedNonce (sv_nonces s) |}.

Definition service_proxy (deadline : option Z) : ProxyHandler (service P) := {|
  ph_GetLatestHyperBlockNonce := onproxy (under deadline ph_GetLatestHyperBlockNonce);
  ph_GetHyperBlockByNonce n := onproxy (under deadline (ph_GetHyperBlockByNonce n));
  ph_GetDefaultTransactionArguments a c := onproxy (under deadline (ph_GetDefaultTransactionArguments a c));
  ph_GetNetworkConfig := onproxy (under deadline ph_GetNetworkConfig) |}.

Definition timed_proxy (deadline : option Z) : InteractorProxy P := {|
  px_GetNetworkConfig := under deadline px_GetNetworkConfig;
  px_GetAccount a := under deadline (px_GetAccount a);
  px_SendTransaction tx := under deadline (px_SendTransaction tx);
  px_SendTransactions txs := under deadline (px_SendTransactions txs) |}.

(** The transaction given to [AddTransaction] is a fresh object. *)
Definition service_add (tx : FrontendTransaction) (s : service P) : service P :=
  let p := fresh (dom (sv_heap s)) in
  mkService (AddTransaction (Some p) (sv_interactor s)) (<[p := tx]> (sv_heap s)) (sv_nonces s) (sv_proxy s).

(** [ApplyUserSignature] is the one of the transaction builder it embeds. *)
Definition service_interactor `{Crypto} : TransactionInteractor (service P) := {|
  tri_AddTransaction := service_add;
  tri_ApplyUserSignature h tx := signed (ApplyUserSignature h) tx |}.

Definition service_SendTransactionsAsBunch (deadline : option Z) (bunchSize : Z) : M (service P) (list string) := λ s,
  let '(r, (ti, p)) :=
    @SendTransactionsAsBunch P (timed_proxy deadline) (sv_heap s) bunchSize (sv_interactor s, sv_proxy s) in
  (r, mkService ti (sv_heap s) (sv_nonces s) p).

(** ** [main.go] *)

Section Sweep.
Context `{PubkeyConverter} `{Crypto} `{MapRange ()}.

(** Both contexts are made before anything is done; an error of the sending is
    logged. *)
Definition generateMoveBalanceTransactionsAndSendThem (tap : TrackableAddressProviderMock) :
  M (walletTracker * (moveBalanceHandler * service P)) () :=
  now ← gets (λ s, px_Now (sv_proxy s.2.2));
  let ctxSendTransactions := Some (now + timeToExecuteRequest) in
  addresses ← onfst (λ wt, let '(addresses, wt) := GetLatestTrackedAddresses wt in (Ok addresses, wt));
  let timeToGenerateTransactions := timeToExecuteRequest * Z.of_nat (length addresses) in
  let ctxGenerateMoveBalanceTransactions := Some (now + timeToGenerateTransactions) in
  onsnd (@GenerateMoveBalanceTransactions (service P) _ _ (tap_provider tap)
           (service_proxy ctxGenerateMoveBalanceTransactions) service_interactor addresses) ;;
  try (onsnd (onsnd (service_SendTransactionsAsBunch ctxSendTransactions 100))) ;;
  mret ().
End Sweep.

Definition testAddress1 : string := "erd1j84k44nsqsme8r6e5aawutx0z2cd6cyx3wprkzdh73x2cf0kqvksa3snnq".
Definition testAddress2 : string := "erd1kjjl7lssufpmml2yy4x6cklvnxdd40c4ym3dpw93vrflwchydt3q749v2z".
Definition testKey1 : string := "45f72e8b6e8d10086bacd2fc8fa1340f82a3f5d4ef31953b463ea03c606533a6".
Definition testKey2 : string := "6babe6936d8b089a1f3b464a2050376462769782239b31dca4311e379b0391f3".

(** The errors of the two decodings are dropped. *)
Definition decoded_key (s : string) : bytes := match hex_DecodeString s with Ok b => b | _ => [] end.

Definition setTestParams : M (TrackableAddressProviderMock * service P) () :=
  nonce ← onsnd (onproxy ph_GetLatestHyperBlockNonce);
  onsnd (modify (@nh_ProcessedNonce _ service_nonces nonce)) ;;
  onfst (modify (AddTrackableAddress testAddress1 (decoded_key testKey1))) ;;
  onfst (modify (AddTrackableAddress testAddress2 (decoded_key testKey2))).

Definition sampleMinimumBalance : Z := 1000000000000000.
Definition sampleReceiver : string := "erd1zptg3eu7uw0qvzhnu009lwxupcn6ntjxptj5gaxt8curhxjqr9tsqpsnht".

(** The call of a method of a fresh move balance handler. *)
Definition onmover (deadline : option Z) (mbh : moveBalanceHandler) : M (service P) moveBalanceHandler := λ s,
  let '(r, (mbh, s)) := @CacheNetworkConfigs _ (service_proxy deadline) (mbh, s) in ((λ _, mbh) <$> r, s).

(** [runApp] up to the point where its two goroutines run: the proxy is made before,
    by [NewProxy]; the network configuration is fetched under a context of one
    second. *)
Definition runApp_setup : M (TrackableAddressProviderMock * service P) (walletTracker * moveBalanceHandler) :=
  setTestParams ;;
  wt ← lift (NewWalletTracker false false false (Some sampleMinimumBalance));
  ti ← lift (NewTransactionInteractor false false);
  onsnd (modify (λ s, mkService ti (sv_heap s) (sv_nonces s) (sv_proxy s))) ;;
  mbh ← lift (NewMoveBalanceHandler false false false sampleReceiver (Some sampleMinimumBalance));
  now ← gets (λ s : TrackableAddressProviderMock * service P, px_Now (sv_proxy s.2));
  mbh ← onsnd (onmover (Some (now + timeToExecuteRequest)) mbh);
  mret (wt, mbh).
End Service.

(** ** What a sweep does *)

Section Theorems.
Context {P : Type} `{ProxyHandler P} `{InteractorProxy P} `{ProxyClock P}.
Context `{PubkeyConverter} `{CryptoLaws} `{MapRange ()}.

(** An account's default arguments do not change meanwhile, and a call for them
    takes at most [t]. *)
Class SteadyAccounts (args : address → NetworkConfig → outcome (FrontendTransaction * string)) (t : Z) := {
  args_answer a c p : (ph_GetDefaultTransactionArguments a c p).1 = args a c;
  args_time a c p : px_Now p ≤ px_Now (ph_GetDefaultTransactionArguments a c p).2 ≤ px_Now p + t }.

Variable tap : TrackableAddressProviderMock.
Context (args : address → NetworkConfig → outcome (FrontendTransaction * string)) (t : Z) `{!SteadyAccounts args t}.

(** The signed transaction that empties an address: none for a balance below the
    minimum, an error where a step fails. *)
Definition emptied (mbh : moveBalanceHandler) (a : string) : outcome (option FrontendTransaction) :=
  addr ← NewAddressFromBech32String a;
  c ← of_option (ErrText "nil cached configs") (cachedNetConfigs mbh);
  '(tx, s) ← args addr c;
  balance ← of_option ErrInvalidAvailableBalanceValue (bigint_SetString s);
  if balance <? mb_minimumBalance mbh then Ok None
  else
    holder ← NewCryptoComponentsHolder (PrivateKeyOfBech32Address tap a);
    signed ← signed (ApplyUserSignature holder) (moved mbh c tx balance);
    Ok (Some signed).

Definition emptied_txs (mbh : moveBalanceHandler) (a : string) : list FrontendTransaction :=
  match emptied mbh a with Ok (Some tx) => [tx] | _ => [] end.

(** The transactions that wait in the interactor; its pointers are allocated. *)
Definition pending (s : service P) : list FrontendTransaction := heap_tx (sv_heap s) <$> txAccumulator (sv_interactor s).
Definition heap_ok (s : service P) : Prop := ∀ p, p ∈ txAccumulator (sv_interactor s) → p ∈ dom (sv_heap s).

(** What a call of the mover leaves as it was, and how long it may have taken. *)
Record swept (txs : list FrontendTransaction) (n : Z) (s s' : service P) : Prop := {
  sw_pending : pending s' = pending s ++ txs;
  sw_heap : heap_ok s';
  sw_time : px_Now (sv_proxy s) ≤ px_Now (sv_proxy s') ≤ px_Now (sv_proxy s) + n;
  sw_between : timeBetweenBunches (sv_interactor s') = timeBetweenBunches (sv_interactor s);
  sw_nonces : sv_nonces s' = sv_nonces s }.

Lemma service_add_pending tx s : heap_ok s → pending (service_add tx s) = pending s ++ [tx] ∧ heap_ok (service_add tx s).
Proof.
  intros Hok. unfold pending, heap_ok, service_add, AddTransaction. cbn.
  set (p := fresh (dom (sv_heap s))). assert (Hp : p ∉ dom (sv_heap s)) by apply is_fresh. split.
  - rewrite fmap_app. f_equal; [|cbn; unfold heap_tx; by rewrite lookup_insert_eq].
    apply list_fmap_ext. intros i q Hq. unfold heap_tx. rewrite lookup_insert_ne; [done|].
    intros <-. apply Hp, Hok. by eapply list_elem_of_lookup_2.
  - intros q Hq. rewrite dom_insert. apply elem_of_app in Hq as [Hq| ->%list_elem_of_singleton]; set_solver.
Qed.

Lemma swept_app txs1 txs2 n1 n2 s1 s2 s3 : swept txs1 n1 s1 s2 → swept txs2 n2 s2 s3 → swept (txs1 ++ txs2) (n1 + n2) s1 s3.
Proof.
  intros [P1 H1' T1 B1 N1] [P2 H2' T2 B2 N2]. split; [by rewrite P2, P1, app_assoc|done|lia|congruence..].
Qed.

Lemma t_nonneg (s : service P) : 0 ≤ t.
Proof. pose proof (args_time (mkAddress []) (simpleConfig "" 0 0 0 0 0) (sv_proxy s)). lia. Qed.

Lemma swept_nil s : heap_ok s → swept [] t s s.
Proof. intros Hok. pose proof (t_nonneg s). split; [by rewrite app_nil_r|done|lia|done..]. Qed.

Lemma generate_one d mbh a s :
  heap_ok s → px_Now (sv_proxy s) < d → emptied mbh a ≠ Panic →
  ∃ s', @generateTransactionAndHandleErrors (service P) _ _ (tap_provider tap) (service_proxy (Some d)) service_interactor a (mbh, s)
          = (Ok (), (mbh, s')) ∧ swept (emptied_txs mbh a) t s s'.
Proof.
  intros Hok Hd Hp. unfold generateTransactionAndHandleErrors, generateTransaction, emptied_txs, emptied in *.
  unfold mbind, M_bind, lift, try, gets, onsnd, outcome_bind, throw, mret, M_ret, of_option in *.
  destruct (NewAddressFromBech32String a) as [addr|e|]; [|by eexists; split; [reflexivity|apply swept_nil]|done].
  cbn [fst] in *. destruct (cachedNetConfigs mbh) as [c|]; [|by eexists; split; [reflexivity|apply swept_nil]].
  pose proof (args_answer addr c (sv_proxy s)) as Ha. pose proof (args_time addr c (sv_proxy s)) as Ht.
  unfold service_proxy at 1. cbn [ph_GetDefaultTransactionArguments]. unfold onproxy, under.
  destruct (Z.leb_spec d (px_Now (sv_proxy s))); [lia|].
  destruct (ph_GetDefaultTransactionArguments addr c (sv_proxy s)) as [r p1]. cbn [fst snd] in *. subst r.
  set (s1 := mkService (sv_interactor s) (sv_heap s) (sv_nonces s) p1).
  assert (Hsw : swept [] t s s1) by (split; [by rewrite app_nil_r|done|exact Ht|done..]).
  destruct (args addr c) as [[tx bal]|e|]; [|by exists s1|done].
  destruct (bigint_SetString bal) as [balance|]; [|by exists s1].
  destruct (balance <? mb_minimumBalance mbh); [by exists s1|]. fold (moved mbh c tx balance).
  cbn [tap_PrivateKeyOfBech32Address tap_provider].
  destruct (NewCryptoComponentsHolder (PrivateKeyOfBech32Address tap a)) as [h|e|]; [|by exists s1|done].
  cbn [tri_ApplyUserSignature service_interactor].
  destruct (signed (ApplyUserSignature h) (moved mbh c tx balance)) as [tx'|e|]; [|by exists s1|done].
  exists (service_add tx' s1). split; [done|]. destruct (service_add_pending tx' s1 Hok) as [Ep Hok'].
  split; [exact Ep|exact Hok'|exact Ht|done..].
Qed.

Lemma generate_all d mbh addresses s :
  heap_ok s → addresses = [] ∨ px_Now (sv_proxy s) + t * Z.of_nat (length addresses) < d →
  (∀ a, a ∈ addresses → emptied mbh a ≠ Panic) →
  ∃ s', @GenerateMoveBalanceTransactions (service P) _ _ (tap_provider tap) (service_proxy (Some d)) service_interactor addresses (mbh, s)
          = (Ok (), (mbh, s')) ∧ swept (concat (map (emptied_txs mbh) addresses)) (t * Z.of_nat (length addresses)) s s'.
Proof.
  unfold GenerateMoveBalanceTransactions. revert s. induction addresses as [|a l IH]; intros s Hok Hd Hp; cbn [mfor map concat length].
  - exists s. split; [done|]. rewrite Z.mul_0_r. split; [by rewrite app_nil_r|done|lia|done..].
  - cbn [length] in Hd. pose proof (t_nonneg s) as Ht. unfold mbind, M_bind.
    destruct Hd as [|Hd]; [done|]. destruct (generate_one d mbh a s) as (s1 & -> & Hs1); [done|nia|apply Hp; set_solver|].
    destruct (IH s1) as (s2 & E & Hs2); [apply Hs1|right; pose proof (sw_time _ _ _ _ Hs1); nia|intros b Hb; apply Hp; set_solver|].
    exists s2. split; [exact E|]. replace (t * Z.of_nat (S (length l))) with (t + t * Z.of_nat (length l)) by lia.
    by eapply swept_app.
Qed.

(** A transaction that leaves nothing on the account of [a]. *)
Definition empties (mbh : moveBalanceHandler) (a : string) (tx : FrontendTransaction) : Prop :=
  ∃ addr c tx0 bal balance value holder signature,
    NewAddressFromBech32String a = Ok addr ∧ cachedNetConfigs mbh = Some c ∧ args addr c = Ok (tx0, bal) ∧
    bigint_SetString bal = Some balance ∧ mb_minimumBalance mbh ≤ balance ∧
    NewCryptoComponentsHolder (PrivateKeyOfBech32Address tap a) = Ok holder ∧
    bigint_SetString (tx_Value tx) = Some value ∧ value + computeTxFee c tx = balance ∧
    tx_Nonce tx = tx_Nonce tx0 ∧ tx_Receiver tx = receiverAddress mbh ∧ tx_Data tx = [] ∧
    hex_DecodeString (tx_Signature tx) = Ok signature ∧ verifies tx (GetPublicKey holder) signature = Ok ().

Lemma emptied_empties mbh a tx : tx ∈ emptied_txs mbh a → empties mbh a tx.
Proof.
  unfold emptied_txs. destruct (emptied mbh a) as [[tx'|]|e|] eqn:E; try by intros ?%not_elem_of_nil.
  intros ->%list_elem_of_singleton. unfold emptied in E. apply bind_Ok in E as (addr & Ea & E).
  apply bind_Ok in E as (c & Ec & E). apply bind_Ok in E as ([tx0 bal] & Eargs & E). apply bind_Ok in E as (balance & Eb & E).
  destruct (Z.ltb_spec balance (mb_minimumBalance mbh)); [done|].
  apply bind_Ok in E as (h & Eh & E). apply bind_Ok in E as (tx & Es%signed_Ok & E). injection E as <-.
  destruct (ApplyUserSignature_run h _ _ (NewCryptoComponentsHolder_ok _ _ Eh) Es) as (signature & Ed & Ev & Etx).
  destruct (cachedNetConfigs mbh) as [c'|] eqn:Ec'; [|done]. injection Ec as ->.
  destruct (bigint_SetString bal) as [b'|] eqn:Ebal; [|done]. injection Eb as ->.
  exists addr, c, tx0, bal, balance, (balance - computeTxFee c (moved mbh c tx0 balance)), h, signature.
  split_and!; try done; try (rewrite Etx; cbn; by rewrite ?bigint_SetString_itoa).
  rewrite Etx. unfold computeTxFee, moved. cbn. lia.
Qed.

(** C23: a sweep that is quick enough sends what it took, on accounts whose default
    arguments do not change meanwhile: the addresses it pops are those the tracker has
    accumulated, each once; they
    give, in their order, the signed transactions that empty them, which
    join what the interactor holds and are sent in bunches of at most 100 as one
    sequence, each once; afterwards the accumulator of the tracker and the interactor
    are both empty, whatever the network answered, and the rest of the tracker is as it
    was.  So an address whose transaction could not be made or sent is in neither any
    more.  Quick enough is: no call for the default arguments takes longer than [t], and
    together they stay below the second that the context of the sending lasts. *)
Theorem sweep_sends wt mbh (s : service P) :
  let addresses := (GetLatestTrackedAddresses wt).1 in
  heap_ok s → (∀ a, a ∈ addresses → emptied mbh a ≠ Panic) →
  t * Z.of_nat (length addresses) < timeToExecuteRequest →
  NoDup addresses ∧ (∀ a, a ∈ addresses ↔ is_Some (addressesMap (accumulator wt) !! a)) ∧
  ∃ s1 (bs : list (list ptr)),
    concat (map (map (heap_tx (sv_heap s1))) bs) = pending s ++ concat (map (emptied_txs mbh) addresses) ∧
    (∀ b, b ∈ bs → (1 ≤ length b ≤ 100)%nat) ∧
    (∀ a tx, a ∈ addresses → tx ∈ emptied_txs mbh a → empties mbh a tx) ∧
    px_Now (sv_proxy s) ≤ px_Now (sv_proxy s1) < px_Now (sv_proxy s) + timeToExecuteRequest ∧
    generateMoveBalanceTransactionsAndSendThem tap (wt, (mbh, s)) =
      let '(r, p) := mcollect bs (λ b, @px_SendTransactions _ (timed_proxy (Some (px_Now (sv_proxy s) + timeToExecuteRequest)))
                                          (map (heap_tx (sv_heap s1)) b)) (sv_proxy s1) in
      (match r with Panic => Panic | _ => Ok () end,
       (mkTracker (mkAccumulator ∅) (minimumBalance wt) (handlerNewDepositTransaction wt) (deposits wt),
        (mbh, mkService (mkTransactionInteractor (timeBetweenBunches (sv_interactor s)) []) (sv_heap s1) (sv_nonces s) p))).
Proof.
  intros addresses Hok Hp Ht. pose proof (t_nonneg s) as Ht0. destruct (popped_once wt) as (Hnd & Hin & Ewt).
  split; [exact Hnd|]. split; [exact Hin|].
  destruct (generate_all (px_Now (sv_proxy s) + timeToExecuteRequest * Z.of_nat (length addresses)) mbh addresses s)
    as (s1 & Eg & Hs1); [done| |done|].
  { destruct addresses as [|a l]; [by left|right]. cbn [length] in *. unfold timeToExecuteRequest in *. lia. }
  destruct (@SendTransactionsAsBunch_run P (timed_proxy (Some (px_Now (sv_proxy s) + timeToExecuteRequest))) (sv_heap s1) 100
    (sv_interactor s1) (sv_proxy s1)) as (bs & Hbs & Hc & Es); [done|].
  exists s1, bs. split_and!.
  - rewrite <-(sw_pending _ _ _ _ Hs1). unfold pending. rewrite <-Hc. symmetry. apply concat_map.
  - by apply (bunches_length 100 (txAccumulator (sv_interactor s1))); [lia|].
  - intros a tx _. apply emptied_empties.
  - apply Hs1.
  - pose proof (sw_time _ _ _ _ Hs1). lia.
  - unfold generateMoveBalanceTransactionsAndSendThem, mbind, M_bind, gets, onfst, onsnd, try. cbn [snd].
    fold addresses. destruct (GetLatestTrackedAddresses wt) as [addresses' wt'] eqn:Ew. cbn in addresses. subst addresses.
    cbn in Ewt. subst wt'. rewrite Eg. unfold service_SendTransactionsAsBunch. rewrite Es.
    destruct (mcollect bs _ (sv_proxy s1)) as [r p]. rewrite (sw_between _ _ _ _ Hs1), (sw_nonces _ _ _ _ Hs1).
    by destruct r.
Qed.
End Theorems.

(** The tracker of the service meets what [TrackerFlow] asks: its nonce store is no
    part of the proxy. *)
Section Laws.
Context {P : Type} `{ProxyHandler P} `{ProxyClock P} (blk : Z → HyperBlock).
Hypothesis block_chain : ∀ n p o p', ph_GetHyperBlockByNonce n p = (Ok o, p') → o = Some (blk n).
Hypothesis block_no_panic : ∀ n, no_panic (ph_GetHyperBlockByNonce (W := P) n).

Lemma service_tracker_laws : @TrackerLaws (service P) (service_proxy None) service_nonces blk.
Proof.
  split; try (intros; cbn; unfold onproxy, under; by repeat case_match).
  - intros n s o s'. cbn. unfold onproxy, under.
    destruct (ph_GetHyperBlockByNonce n (sv_proxy s)) as [r p] eqn:E. intros [= -> _]. by eapply block_chain.
  - intros n s. cbn. unfold onproxy, under. pose proof (block_no_panic n (sv_proxy s)).
    by destruct (ph_GetHyperBlockByNonce n (sv_proxy s)) as [r p].
Qed.
End Laws.

(** ** Concrete runs *)

Module WalletFlowRun.
#[local] Existing Instances toyCrypto hexConverter toyCrypto_laws.
#[local] Instance range_unit : MapRange () := map_to_list_range ().

(** A proxy with a clock, whose calls take 400 ms, and a log of what was sent. *)
Record slow := mkSlow { slow_now : Z; slow_sent : list FrontendTransaction }.
Definition spend {A} (m : slow → A * list FrontendTransaction) : M slow A := λ p,
  let '(a, sent) := m p in (Ok a, mkSlow (slow_now p + 400000000) (slow_sent p ++ sent)).
Definition slow_args (a : address) (c : NetworkConfig) : outcome (FrontendTransaction * string) :=
  Ok (tx_setGasPrice (nc_MinGasPrice c) (tx_setNonce 3 emptyTx), "90000000").
#[local] Instance slow_proxy : ProxyHandler slow := {|
  ph_GetLatestHyperBlockNonce := spend (λ _, (7, []));
  ph_GetHyperBlockByNonce n := spend (λ _, (Some (WorkflowsRun.chain n), []));
  ph_GetDefaultTransactionArguments a c := x ← spend (λ _, (slow_args a c, [])); lift x;
  ph_GetNetworkConfig := spend (λ _, (Some (simpleConfig "T" 1500 50000 1000 1 3), [])) |}.
#[local] Instance slow_interactor : InteractorProxy slow := {|
  px_GetNetworkConfig := spend (λ _, (Some (simpleConfig "T" 1500 50000 1000 1 3), []));
  px_GetAccount _ := spend (λ _, (None, []));
  px_SendTransaction tx := spend (λ _, ("", [tx]));
  px_SendTransactions txs := spend (λ _, (map (λ tx, itoa (tx_Nonce tx)) txs, txs)) |}.
#[local] Instance slow_clock : ProxyClock slow := {| px_Now := slow_now |}.
#[local] Instance slow_steady : SteadyAccounts slow_args 400000000.
Proof. split; [done|]. intros a c p. cbn. unfold mbind, M_bind, lift, spend. cbn. lia. Qed.

Definition key (b : byte) : bytes := replicate 32 b.
Definition bech (b : byte) : string := hex_EncodeToString (key b).
Definition tap : TrackableAddressProviderMock :=
  foldl (λ tap b, AddTrackableAddress (bech b) (key b) tap) NewTrackableAddressProviderMock [x01; x02; x03].
Definition mbh : moveBalanceHandler := mkMoveBalance (Some (simpleConfig "T" 1500 50000 1000 1 3)) "hot" 60000000.
Definition sv0 : service slow := mkService (mkTransactionInteractor 0 []) ∅ (mkNonceTracker 0) (mkSlow 0 []).
Definition tracked (bs : list byte) : walletTracker :=
  mkTracker (foldl (λ aa b, push (bech b) aa) newAddressesAccumulator bs) 1000 false [].

Definition sweep (bs : list byte) := generateMoveBalanceTransactionsAndSendThem tap (tracked bs, (mbh, sv0)).

Lemma sweep_no_panic :
  forallb (λ a, match emptied tap slow_args mbh a with Panic => false | _ => true end)
    (GetLatestTrackedAddresses (tracked [x02; x01])).1 = true.
Proof. vm_compute. reflexivity. Qed.

Lemma sweep_sends_witness :
  let wt := tracked [x02; x01] in
  let addresses := (GetLatestTrackedAddresses wt).1 in
  (NoDup addresses ∧ (∀ a, a ∈ addresses ↔ is_Some (addressesMap (accumulator wt) !! a)) ∧
   ∃ s1 (bs : list (list ptr)),
    concat (map (map (heap_tx (sv_heap s1))) bs) = pending sv0 ++ concat (map (emptied_txs tap slow_args mbh) addresses) ∧
    (∀ b, b ∈ bs → (1 ≤ length b ≤ 100)%nat) ∧
    (∀ a tx, a ∈ addresses → tx ∈ emptied_txs tap slow_args mbh a → empties tap slow_args mbh a tx) ∧
    px_Now (sv_proxy sv0) ≤ px_Now (sv_proxy s1) < px_Now (sv_proxy sv0) + timeToExecuteRequest ∧
    generateMoveBalanceTransactionsAndSendThem tap (wt, (mbh, sv0)) =
      let '(r, p) := mcollect bs (λ b, @px_SendTransactions _ (timed_proxy (Some (px_Now (sv_proxy sv0) + timeToExecuteRequest)))
                                          (map (heap_tx (sv_heap s1)) b)) (sv_proxy s1) in
      (match r with Panic => Panic | _ => Ok () end,
       (mkTracker (mkAccumulator ∅) 1000 false [],
        (mbh, mkService (mkTransactionInteractor (timeBetweenBunches (sv_interactor sv0)) []) (sv_heap s1) (sv_nonces sv0) p)))) ∧
  map tx_Sender (slow_sent (sv_proxy (sweep [x02; x01]).2.2.2)) = addresses ∧
  map tx_Value (slow_sent (sv_proxy (sweep [x02; x01]).2.2.2)) = ["40000000"; "40000000"].
Proof.
  split; [|vm_compute; auto].
  apply (sweep_sends tap slow_args 400000000 (tracked [x02; x01]) mbh sv0).
  - intros p Hp. by apply not_elem_of_nil in Hp.
  - intros a Ha%list_elem_of_In. pose proof sweep_no_panic as Hp. rewrite forallb_forall in Hp.
    specialize (Hp a Ha). by destruct (emptied _ _ _ a).
  - vm_compute. reflexivity.
Defined.

(** The context of the sending is made before the transactions are generated: with
    three accounts at 400 ms each it has expired when they are to be sent.  Nothing is
    sent, and the addresses and their transactions are gone. *)
Theorem slow_sweep_loses :
  let '(r, (wt, (_, s))) := sweep [x01; x02; x03] in
  r = Ok () ∧ addressesMap (accumulator wt) = ∅ ∧ pending s = [] ∧ slow_sent (sv_proxy s) = [] ∧
  (∀ b, b ∈ [x01; x02; x03] → emptied_txs tap slow_args mbh (bech b) ≠ []).
Proof.
  assert (Hp : Forall (λ b, emptied_txs tap slow_args mbh (bech b) ≠ []) [x01; x02; x03]).
  { repeat constructor; vm_compute; discriminate. }
  rewrite Forall_forall in Hp.
  assert (E : let '(r, (wt, (_, s))) := sweep [x01; x02; x03] in
    r = Ok () ∧ addressesMap (accumulator wt) = ∅ ∧ pending s = [] ∧ slow_sent (sv_proxy s) = []) by (vm_compute; auto).
  destruct (sweep [x01; x02; x03]) as [r [wt [m s]]]. destruct E as (? & ? & ? & ?). by split_and!.
Qed.

(** The setup starts at the latest block and tracks the two addresses. *)
Example setup_runs :
  let '(r, (tap, s)) := runApp_setup (NewTrackableAddressProviderMock, sv0) in
  is_ok r = true ∧ GetLastProcessedNonce (sv_nonces s) = 7 ∧ IsTrackableAddresses tap testAddress1 = true ∧
  IsTrackableAddresses tap testAddress2 = true ∧ IsTrackableAddresses tap "erd1" = false ∧
  length (PrivateKeyOfBech32Address tap testAddress1) = 32%nat.
Proof. vm_compute. auto 10. Qed.
End WalletFlowRun.
