(* ===== verification/WalletApp.v ===== *)
(** * The wallet tracker program ([examples/examplesFlowWalletTracker/main.go])

    [WalletFlow] has the setup and the sweep as functions.  Here the program runs: the
    goroutine of the tracker ([TrackerFlow]), the goroutine that a timer wakes to sweep,
    and [runApp] itself, which waits for the interrupt, closes the tracker, cancels the
    context and returns.  A sweep is cut into steps - the pop, one address at a time, the
    sending - between which the other goroutines run.  A context that is cancelled is
    modelled as one whose deadline has passed. *)

From S2P Require Export WalletFlow.

(** The goroutine of the timer: in its [select]; in a sweep, with the addresses still to
    move and the two deadlines; before the sending; returned. *)
Inductive timer_pc :=
  | TimerSelect
  | Moving (rest : list string) (ctxGenerate ctxSend : Z)
  | Sending (ctxSend : Z)
  | TimerReturned.

(** [runApp] after the setup: waiting for the interrupt, after [wt.Close], after
    [cancel], after its [time.Sleep] and the return that ends the program. *)
Inductive main_pc := WaitingForInterrupt | TrackerClosed | ContextCancelled | Exited.

Record app (P : Type) := mkApp {
  a_flow : flow (service P);
  a_mbh : moveBalanceHandler;
  a_timer : timer_pc;
  a_main : main_pc;
  a_moved : list (list string)  (* the lists of addresses given to the mover, sweep by sweep *) }.
Arguments mkApp {P}. Arguments a_flow {P}. Arguments a_mbh {P}. Arguments a_timer {P}. Arguments a_main {P}. Arguments a_moved {P}.

(** [ctxDone.Done()] *)
Definition ctx_done (m : main_pc) : bool := match m with ContextCancelled | Exited => true | _ => false end.

Section App.
Context {P : Type} `{ProxyHandler P} `{InteractorProxy P} `{ProxyClock P}.
Context `{PubkeyConverter} `{Crypto} `{MapRange ()} (tap : TrackableAddressProviderMock).

Definition deadline_of (m : main_pc) (d : Z) (s : service P) : option Z :=
  Some (if ctx_done m then px_Now (sv_proxy s) else d).

#[local] Instance app_tap : TrackableAddressesProvider := tap_provider tap.
#[local] Instance app_proxy : ProxyHandler (service P) := service_proxy None.
#[local] Instance app_nonces : LastProcessedNonceHandler (service P) := service_nonces.

(** One address of the sweep. *)
Definition move_address (d : option Z) (a : string) : M (moveBalanceHandler * service P) () :=
  @generateTransactionAndHandleErrors (service P) _ _ (tap_provider tap) (service_proxy d) service_interactor a.

Inductive app_move : app P → app P → Prop :=
  | p_tracker f f' mbh t m mv : goroutine_step f f' → app_move (mkApp f mbh t m mv) (mkApp f' mbh t m mv)
  | p_fire pc wt s c ps mbh m mv :
      let addresses := (GetLatestTrackedAddresses wt).1 in
      app_move (mkApp (mkFlow pc wt s c ps) mbh TimerSelect m mv)
        (mkApp (mkFlow pc (GetLatestTrackedAddresses wt).2 s c (ps ++ [addresses])) mbh
           (Moving addresses (px_Now (sv_proxy s) + timeToExecuteRequest * Z.of_nat (length addresses))
              (px_Now (sv_proxy s) + timeToExecuteRequest)) m (mv ++ [[]]))
  | p_address pc wt s c ps mbh m mv l a rest dg ds mbh' s' :
      move_address (deadline_of m dg s) a (mbh, s) = (Ok (), (mbh', s')) →
      app_move (mkApp (mkFlow pc wt s c ps) mbh (Moving (a :: rest) dg ds) m (mv ++ [l]))
        (mkApp (mkFlow pc wt s' c ps) mbh' (Moving rest dg ds) m (mv ++ [l ++ [a]]))
  | p_generated f mbh m mv dg ds :
      app_move (mkApp f mbh (Moving [] dg ds) m mv) (mkApp f mbh (Sending ds) m mv)
  | p_send pc wt s c ps mbh m mv ds r s' :
      try (service_SendTransactionsAsBunch (deadline_of m ds s) 100) s = (Ok r, s') →
      app_move (mkApp (mkFlow pc wt s c ps) mbh (Sending ds) m mv) (mkApp (mkFlow pc wt s' c ps) mbh TimerSelect m mv)
  | p_timer_done f mbh m mv :
      ctx_done m = true → app_move (mkApp f mbh TimerSelect m mv) (mkApp f mbh TimerReturned m mv)
  | p_close pc wt s c ps mbh t mv :
      app_move (mkApp (mkFlow pc wt s c ps) mbh t WaitingForInterrupt mv) (mkApp (mkFlow pc wt s true ps) mbh t TrackerClosed mv)
  | p_cancel f mbh t mv : app_move (mkApp f mbh t TrackerClosed mv) (mkApp f mbh t ContextCancelled mv)
  | p_exit f mbh t mv : app_move (mkApp f mbh t ContextCancelled mv) (mkApp f mbh t Exited mv)
  | p_clock pc wt s c ps mbh t m mv p' :
      app_move (mkApp (mkFlow pc wt s c ps) mbh t m mv)
        (mkApp (mkFlow pc wt (mkService (sv_interactor s) (sv_heap s) (sv_nonces s) p') c ps) mbh t m mv).

(** Nothing runs any more when the program has returned. *)
Definition app_step (s s' : app P) : Prop := a_main s ≠ Exited ∧ app_move s s'.

(** After the setup. *)
Definition started_app (mbh : moveBalanceHandler) (s : service P) : app P :=
  mkApp (started_flow sampleMinimumBalance s) mbh TimerSelect WaitingForInterrupt [].

(** *** The steps of the program are steps of the tracker's world *)

Lemma move_address_nonces d a mbh s : sv_nonces (move_address d a (mbh, s)).2.2 = sv_nonces s.
Proof.
  unfold move_address, generateTransactionAndHandleErrors, generateTransaction.
  unfold mbind, M_bind, lift, try, gets, onsnd, modify, throw, mret, M_ret. cbn [fst snd].
  destruct (NewAddressFromBech32String a) as [addr|e|]; [|done..]. cbn [fst].
  destruct (cachedNetConfigs mbh) as [c|]; [|done].
  unfold service_proxy at 1. cbn [ph_GetDefaultTransactionArguments]. unfold onproxy.
  destruct (under d _ (sv_proxy s)) as [r p]. cbn [fst snd].
  destruct r as [[tx bal]|e|]; [|done..]. destruct (bigint_SetString bal) as [balance|]; [|done].
  destruct (balance <? _); [done|]. destruct (NewCryptoComponentsHolder _) as [h|e|]; [|done..].
  by destruct (tri_ApplyUserSignature _ _) as [tx'|e|].
Qed.

Lemma send_nonces d n s r s' : try (service_SendTransactionsAsBunch d n) s = (r, s') → sv_nonces s' = sv_nonces s.
Proof.
  unfold try, service_SendTransactionsAsBunch. destruct (SendTransactionsAsBunch _ _ _) as [[hs|e|] [ti p]]; by intros [= _ <-].
Qed.

Lemma app_step_flow s s' : app_move s s' → rtc flow_step (a_flow s) (a_flow s').
Proof.
  intros Hs. destruct Hs as [f f' mbh t m mv E|pc wt s c ps mbh m mv addresses|pc wt s c ps mbh m mv l a rest dg ds mbh' s' E| |
    pc wt s c ps mbh m mv ds r s' E| |pc wt s c ps mbh t mv| | |pc wt s c ps mbh t m mv p']; cbn; try done.
  - by apply rtc_once, fl_goroutine.
  - apply rtc_once. apply (fl_pop pc wt).
  - pose proof (move_address_nonces (deadline_of m dg s) a mbh s) as Hn. rewrite E in Hn. cbn in Hn.
    apply rtc_once, fl_world. cbn. by rewrite Hn.
  - apply send_nonces in E. apply rtc_once, fl_world. cbn. by rewrite E.
  - apply rtc_once, fl_close.
  - by apply rtc_once, fl_world.
Qed.

(** *** The sweeps *)

(** Every list that was popped went to the mover, all of it but what is still to move in
    the sweep in progress; the tracker is closed before the context is cancelled. *)
Record app_ok (s : app P) : Prop := {
  ao_moved : match a_timer s with
             | Moving rest _ _ => ∃ mv l, a_moved s = mv ++ [l] ∧ f_popped (a_flow s) = mv ++ [l ++ rest]
             | _ => f_popped (a_flow s) = a_moved s
             end;
  ao_closed : a_main s ≠ WaitingForInterrupt → f_cancelled (a_flow s) = true;
  ao_timer : a_timer s = TimerReturned → ctx_done (a_main s) = true }.

Lemma goroutine_keeps (f f' : flow (service P)) :
  goroutine_step f f' → f_popped f' = f_popped f ∧ f_cancelled f' = f_cancelled f.
Proof. by intros []. Qed.

Lemma app_step_ok s s' : app_move s s' → app_ok s → app_ok s'.
Proof.
  intros Hs [Hm Hc Ht]. destruct Hs as [f f' mbh t m mv E|pc wt s c ps mbh m mv addresses|pc wt s c ps mbh m mv l a rest dg ds mbh' s' E|
    f mbh m mv dg ds|pc wt s c ps mbh m mv ds r s' E|f mbh m mv E|pc wt s c ps mbh t mv|f mbh t mv|f mbh t mv|pc wt s c ps mbh t m mv p'];
    cbn in *; try (split; cbn; by auto).
  - apply goroutine_keeps in E as [E1 E2]. split; cbn; [by rewrite E1|by rewrite E2|done].
  - split; cbn; [|done|done]. exists mv, []. by rewrite Hm.
  - split; cbn; [|done|done]. destruct Hm as (mv0 & l0 & E1%app_inj_tail & E2). destruct E1 as [-> ->].
    exists mv0, (l0 ++ [a]). by rewrite E2, <-!app_assoc.
  - split; cbn; [|done|done]. destruct Hm as (mv0 & l0 & E1 & E2). by rewrite E1, E2, app_nil_r.
Qed.

Lemma app_reachable mbh s0 s :
  rtc app_step (started_app mbh s0) s →
  app_ok s ∧ rtc flow_step (started_flow sampleMinimumBalance s0) (a_flow s).
Proof.
  revert s. refine (rtc_ind_r (λ s, app_ok s ∧ rtc flow_step (started_flow sampleMinimumBalance s0) (a_flow s)) _ _ _).
  - split; [by split|done].
  - intros s s' _ [_ Hm] [Hok Hr]. split; [by eapply app_step_ok|]. etrans; [exact Hr|by apply app_step_flow].
Qed.

(** What the sweeps have of the tracker: the lists whose addresses went to the mover, and
    of the sweep in progress the whole list. *)
Definition to_sweep (s : app P) : list (list string) :=
  match a_timer s with
  | Moving rest _ _ => match reverse (a_moved s) with l :: mv => reverse mv ++ [l ++ rest] | [] => [] end
  | _ => a_moved s
  end.

Lemma to_sweep_popped s : app_ok s → f_popped (a_flow s) = to_sweep s.
Proof.
  intros [Hm _ _]. unfold to_sweep. destruct (a_timer s); try done. destruct Hm as (mv & l & E1 & E2).
  rewrite E1, reverse_snoc, reverse_involutive. done.
Qed.

Section Chain.
Context (blk : Z → HyperBlock) `{!BelowMaxNonce (service P)}.
Hypothesis block_chain : ∀ n p o p', ph_GetHyperBlockByNonce (W := P) n p = (Ok o, p') → o = Some (blk n).
Hypothesis block_no_panic : ∀ n, no_panic (ph_GetHyperBlockByNonce (W := P) n).

(** C11: every deposit is swept once: in every state of the program, the deposits of the
    blocks the tracker has taken since the start, in the order of the chain, are cut into
    consecutive pieces: one per sweep, whose addresses - all of them, once each - are
    those that went to the mover or, in the sweep in progress, are next; then the piece
    behind the addresses that wait in the tracker, and what is still unread of a block.
    When the program returns the tracker is closed, and what waits is dropped. *)
Theorem every_deposit_is_swept mbh s0 s :
  0 ≤ nh_GetLastProcessedNonce s0 < 2 ^ 64 - 1 → rtc app_step (started_app mbh s0) s →
  let n0 := nh_GetLastProcessedNonce s0 in
  (∃ segs cur,
    concat segs ++ cur ++ unread (a_flow s) =
      deposits_between (blk := blk) sampleMinimumBalance (n0 + 1) (taken (a_flow s) - n0) ∧
    Forall2 receivers_of (to_sweep s) segs ∧
    (∀ a, is_Some (addressesMap (accumulator (f_tracker (a_flow s))) !! a) ↔ a ∈ map ton_Receiver cur)) ∧
  (a_main s = Exited → f_cancelled (a_flow s) = true ∧ ∀ s', ¬ app_step s s').
Proof.
  intros Hw [Hok Hr]%app_reachable n0. split.
  - pose proof (service_tracker_laws blk block_chain block_no_panic) as Hl.
    destruct (accounted_reachable (blk := blk) _ _ _ Hw Hr) as (m & [_ _ _ (segs & cur & E1 & E2 & E3 & _)]).
    exists segs, cur. split_and!; [exact E1| |exact E3]. by rewrite <-to_sweep_popped.
  - intros E. split; [apply (ao_closed _ Hok); by rewrite E|]. by intros s' [Hne _].
Qed.
End Chain.
End App.

(** ** The setup and the main function *)

Section Setup.
Context {P : Type} `{ProxyHandler P} `{InteractorProxy P} `{ProxyClock P}.

(** The setup ends in a [started_app]: with a tracker that has seen nothing, the latest
    block of the proxy as the last processed one, the two addresses of the sample and
    the configuration of the network. *)
Lemma setup_starts (ti : transactionInteractor) hp m (p : P) wt mbh tap s :
  runApp_setup (NewTrackableAddressProviderMock, mkService ti hp m p) = (Ok (wt, mbh), (tap, s)) →
  mkApp (mkFlow Selecting wt s false []) mbh TimerSelect WaitingForInterrupt [] = started_app mbh s ∧
  (ph_GetLatestHyperBlockNonce p).1 = Ok (GetLastProcessedNonce (sv_nonces s)) ∧
  (∀ a, IsTrackableAddresses tap a = true ↔ a = testAddress1 ∨ a = testAddress2) ∧
  sv_heap s = hp ∧ pending s = [] ∧ ∃ q, (ph_GetNetworkConfig q).1 = Ok (cachedNetConfigs mbh).
Proof.
  unfold runApp_setup, setTestParams, onmover, CacheNetworkConfigs, onsnd, onfst, onproxy, gets, modify, mbind, M_bind, lift, mret, M_ret.
  cbn [fst snd NewWalletTracker NewTransactionInteractor NewMoveBalanceHandler sv_interactor sv_heap sv_nonces sv_proxy].
  destruct (ph_GetLatestHyperBlockNonce p) as [[n|e|] p1]; cbn; [|done..].
  unfold onproxy, under. cbn. match goal with |- context [if ?b then (Fail _, _) else _] => destruct b end; cbn; [done|].
  destruct (ph_GetNetworkConfig p1) as [[c|e|] p2] eqn:Ec; cbn; [|done..].
  intros [= <- <- <- <-]. split_and!; [done|done| |done|done|exists p1; by rewrite Ec].
  intros a. unfold IsTrackableAddresses. cbn. rewrite bool_decide_eq_true, !lookup_insert_is_Some'.
  rewrite lookup_empty. split; [intros [|[|[]]]; eauto; done|intros [|]; eauto].
Qed.
End Setup.

(** [NewProxy] over a client of the gateway, the setup, and the state in which [runApp]
    waits for the interrupt.  The clock of the world is that of the proxy. *)
Section Main.
Context {W : Type} `{Clock W} `{ApiJson} `{PubkeyConverter} `{ShardingCoordinator} `{MapRangeZ string}.

#[local] Instance world_clock : ProxyClock (baseProxy * W) := {| px_Now s := t_sec (time_Now s.2) * 10 ^ 9 + t_nsec (time_Now s.2) |}.

Definition walletTracker_main (client : HttpClientWrapper W) : M W (TrackableAddressProviderMock * app (baseProxy * W)) :=
  with_proxy client sampleArgs (λ provider finality ep s,
    let '(r, (tap, sv)) :=
      @runApp_setup _ (@proxy_ProxyHandler W client _ provider _ finality _ _ ep)
        world_clock (NewTrackableAddressProviderMock, mkService (mkTransactionInteractor 0 []) ∅ (mkNonceTracker 0) s) in
    ((λ x, (tap, mkApp (mkFlow Selecting x.1 sv false []) x.2 TimerSelect WaitingForInterrupt [])) <$> r, sv_proxy sv)).
End Main.

(** ** A run: one deposit is found, popped and moved *)

Module WalletAppRun.
Import WalletFlowRun.
#[local] Existing Instances toyCrypto hexConverter range_unit slow_interactor slow_clock.
#[local] Existing Instances wordsJson ClientRun.one_shard ClientRun.range_strings ClientRun.log_clock.

Definition paying (n : Z) : HyperBlock := simpleHyperBlock n "" [simpleTon (itoa n) "2000000000000000" "a" (bech x01)].
#[local] Instance paying_proxy : ProxyHandler slow := {|
  ph_GetLatestHyperBlockNonce := mret 7;
  ph_GetHyperBlockByNonce n := mret (Some (paying n));
  ph_GetDefaultTransactionArguments a c := lift (slow_args a c);
  ph_GetNetworkConfig := mret (Some (simpleConfig "T" 1500 50000 1000 1 3)) |}.

#[local] Instance paying_bound : @BelowMaxNonce (service slow) (service_proxy None).
Proof. split. intros s N s'. cbn. by intros [= <- _]. Qed.

Definition at_six : service slow := mkService (mkTransactionInteractor 0 []) ∅ (mkNonceTracker 6) (mkSlow 0 []).
Definition at_seven : service slow := mkService (mkTransactionInteractor 0 []) ∅ (mkNonceTracker 7) (mkSlow 0 []).
Definition no_deposits : walletTracker := mkTracker newAddressesAccumulator sampleMinimumBalance false [].
Definition emptied_tracker : walletTracker := (GetLatestTrackedAddresses (processTransaction (H := tap_provider tap)
  (simpleTon "7" "2000000000000000" "a" (bech x01)) no_deposits).2).2.
Definition moved_one := move_address tap (Some 1000000000) (bech x01) (mbh, at_seven).

(** The sweep has moved its only address and is about to send. *)
Definition about_to_send : app slow :=
  mkApp (mkFlow Selecting emptied_tracker moved_one.2.2 false [[bech x01]]) moved_one.2.1
    (Sending 1000000000) WaitingForInterrupt [[bech x01]].

Lemma about_to_send_reachable : rtc (app_step tap) (started_app mbh at_six) about_to_send.
Proof.
  eapply rtc_l; [split; [done|apply p_tracker, t_tick]|].
  eapply rtc_l; [split; [done|apply p_tracker, t_latest; reflexivity]|].
  eapply rtc_l; [split; [done|apply p_tracker; eapply t_block; [|reflexivity]; by vm_compute]|].
  eapply rtc_l; [split; [done|apply p_tracker, t_transaction]|].
  eapply rtc_l; [split; [done|apply p_tracker, t_processed]|].
  eapply rtc_l; [split; [done|apply p_tracker, t_end; by vm_compute]|].
  eapply rtc_l; [split; [done|apply p_fire]|].
  eapply rtc_l; [split; [done|]|].
  { apply (p_address tap _ _ _ _ _ _ _ [] [] (bech x01) [] 1000000000 1000000000 moved_one.2.1 moved_one.2.2).
    vm_compute. reflexivity. }
  apply rtc_once. split; [done|]. match goal with |- app_move _ ?a ?b => assert (∃ c, a = c ∧ app_move tap c b) as (c & -> & Hc); [|exact Hc] end.
  eexists. split; [|apply p_generated]. vm_compute. reflexivity.
Qed.

Lemma every_deposit_is_swept_witness :
  ((∃ segs cur,
    concat segs ++ cur ++ unread (H := tap_provider tap) (a_flow about_to_send) =
      deposits_between (blk := paying) (H := tap_provider tap) sampleMinimumBalance 7 1 ∧
    Forall2 receivers_of [[bech x01]] segs ∧
    (∀ a, is_Some (addressesMap (accumulator (f_tracker (a_flow about_to_send))) !! a) ↔ a ∈ map ton_Receiver cur)) ∧
  (a_main about_to_send = Exited → f_cancelled (a_flow about_to_send) = true ∧ ∀ s', ¬ app_step tap about_to_send s')) ∧
  length (pending moved_one.2.2) = 1%nat.
Proof.
  split; [|vm_compute; reflexivity].
  refine (every_deposit_is_swept tap paying _ _ mbh at_six about_to_send _ about_to_send_reachable);
    [intros n p o p'; cbn; by intros [= <- _]|done|by vm_compute].
Defined.

(** The program itself, over the client wrapper: it asks for the latest block and the
    configuration, and waits with an empty tracker. *)
Example main_starts :
  let '(r, requests) := walletTracker_main (clientWrapper (λ _, None) ClientRun.log_Do TestnetGateway) [] in
  map req_URL requests = [TestnetGateway +:+ "/network/status/4294967295"; TestnetGateway +:+ "/network/config"] ∧
  match r with
  | Ok (tap, s) => sv_nonces (f_world (a_flow s)) = mkNonceTracker 7 ∧ a_main s = WaitingForInterrupt ∧
                   deposits (f_tracker (a_flow s)) = [] ∧ IsTrackableAddresses tap testAddress1 = true
  | _ => False
  end.
Proof. vm_compute. by split_and!. Qed.
End WalletAppRun.
