(* ===== verification/HeaderFactory.v ===== *)
(** * Building the header check ([headerCheck/headerCheckFactory.go],
    [headerCheck/factory/])

    [NewHeaderCheckHandler] asks the network for its configuration, builds the
    components of a node from it and joins them to the verifier of
    [HeaderCheck].  The constructors of mx-chain-go, mx-chain-core-go and
    mx-chain-crypto-go are the class [NodeLibrary], with what the code hands them as
    their arguments; the stubs of disabled/ that fill the rest of the argument
    structures are left out. *)

From S2P Require Export ProxyClient.
From S2P Require Export HeaderCheck.

(** A pointer that is dereferenced. *)
Definition pointed {A} (p : option A) : outcome A := match p with Some a => Ok a | None => Panic end.

Definition marshalizerType : string := "gogo protobuf".
Definition hasherType : string := "blake2b".
Definition validatorHexPubKeyLength : Z := 96.

(** [rating.RatingsDataArg] *)
Record RatingsDataArg := mkRatingsDataArg {
  ra_Config : NodeRatingsConfig;
  ra_ShardConsensusSize : Z;
  ra_MetaConsensusSize : Z;
  ra_ShardMinNodes : Z;
  ra_MetaMinNodes : Z;
  ra_RoundDurationMiliseconds : Z }.

(** [crypto.MultiSigArgs] beside the key generator. *)
Record MultiSigArgs := mkMultiSigArgs {
  msa_MultiSigHasherType : string;
  msa_ConsensusType : string;
  msa_ImportModeNoSigCheck : bool }.

(** [config.MultiSignerConfig] *)
Record MultiSignerConfig := mkMultiSigner { msc_EnableEpoch : Z; msc_Type : string }.

(** [nodesCoordinator.ArgNodesCoordinator], over the types of the components. *)
Record ArgNodesCoordinator (Marshalizer Hasher Shuffler Validator EnableEpochsHandler : Type) := mkArgNodesCoordinator {
  anc_ShardConsensusGroupSize : Z;
  anc_MetaConsensusGroupSize : Z;
  anc_Marshalizer : Marshalizer;
  anc_Hasher : Hasher;
  anc_Shuffler : Shuffler;
  anc_ShardIDAsObserver : Z;
  anc_NbShards : Z;
  anc_EligibleNodes : gmap Z (list Validator);
  anc_WaitingNodes : gmap Z (list Validator);
  anc_SelfPublicKey : bytes;
  anc_Epoch : Z;
  anc_StartEpoch : Z;
  anc_IsFullArchive : bool;
  anc_EnableEpochsHandler : EnableEpochsHandler }.
Arguments mkArgNodesCoordinator {_ _ _ _ _}.
Arguments anc_EligibleNodes {_ _ _ _ _}. Arguments anc_WaitingNodes {_ _ _ _ _}. Arguments anc_NbShards {_ _ _ _ _}.
Arguments anc_ShardConsensusGroupSize {_ _ _ _ _}. Arguments anc_MetaConsensusGroupSize {_ _ _ _ _}.
Arguments anc_Epoch {_ _ _ _ _}. Arguments anc_Marshalizer {_ _ _ _ _}. Arguments anc_Hasher {_ _ _ _ _}.
Arguments anc_SelfPublicKey {_ _ _ _ _}.

(** ** The node's libraries

    [C] is the state of the nodes coordinator, which the signature verifier shares;
    a key pair is drawn from the world. *)
Class NodeLibrary `{ApiJson} (W C : Type) := {
  Marshalizer : Type; Hasher : Type; RatingsData : Type; Rater : Type; EnableEpochsHandler : Type;
  KeyGenerator : Type; NodePublicKey : Type; MultiSigner : Type; MultiSigContainer : Type;
  Shuffler : Type; Validator : Type; BaseCoordinator : Type;
  (** the fields of [config.EnableEpochs] that the code reads itself *)
  eec_BLSMultiSignerEnableEpoch : EnableEpochsConfig → list MultiSignerConfig;
  eec_MaxNodesChangeEnableEpoch : EnableEpochsConfig → list MaxNodesChangeConfig;
  NewMarshalizer : string → outcome Marshalizer;
  NewHasher : string → outcome Hasher;
  NewRatingsData : RatingsDataArg → outcome RatingsData;
  NewBlockSigningRater : RatingsData → outcome Rater;
  NewHexPubkeyConverter : Z → outcome PubkeyConverter;
  NewEnableEpochsHandler : EnableEpochsConfig → outcome EnableEpochsHandler;
  NewKeyGenerator : KeyGenerator;
  NewBlake2bWithSize : outcome Hasher;
  GeneratePair : KeyGenerator → M W NodePublicKey;
  NewBLSMultisig : Hasher → KeyGenerator → outcome MultiSigner;
  node_ToByteArray : NodePublicKey → outcome bytes;
  NewMultiSignerContainer : MultiSigArgs → KeyGenerator → list MultiSignerConfig → outcome MultiSigContainer;
  NewHashValidatorsShuffler : NodesShufflerArgs → EnableEpochsHandler → outcome Shuffler;
  NewValidator : bytes → Z → Z → outcome Validator;
  NewIndexHashedNodesCoordinator :
    ArgNodesCoordinator Marshalizer Hasher Shuffler Validator EnableEpochsHandler → outcome BaseCoordinator;
  NewIndexHashedNodesCoordinatorWithRater : BaseCoordinator → Rater → outcome C;
  NewHeaderSigVerifier : Marshalizer → Hasher → C → MultiSigContainer → KeyGenerator → outcome () }.

(** The calls of the proxy interface the factory makes. *)
Class HeaderConfigProxy (W : Type) := {
  hc_GetNetworkConfig : M W (option NetworkConfig);
  hc_GetRatingsConfig : M W (option RatingsConfig);
  hc_GetGenesisNodesPubKeys : M W (option GenesisNodes) }.

Section Factory.
Context `{ApiJson} {W C : Type} `{!NodeLibrary W C} `{HeaderConfigProxy W} `{MapRangeZ (list string)}.

(** ** [factory/coreComponents.go] *)

Record coreComponents := mkCoreComponents {
  cc_Marshaller : Marshalizer;
  cc_Hasher : Hasher;
  cc_Rater : Rater;
  cc_PubKeyConverter : PubkeyConverter;
  cc_EnableEpochsHandler : EnableEpochsHandler }.

Definition createRater (rc : option RatingsConfig) (nc : option NetworkConfig) : outcome Rater :=
  rc ← pointed rc;
  let ratingsConfig := createRatingsConfig rc in
  nc ← pointed nc;
  let ratingDataArgs :=
    mkRatingsDataArg ratingsConfig (u32 (nc_ShardConsensusGroupSize nc)) (nc_MetaConsensusGroup nc)
      (nc_NumNodesInShard nc) (nc_NumMetachainNodes nc) (u64 (nc_RoundDuration nc)) in
  ratingsData ← NewRatingsData ratingDataArgs;
  NewBlockSigningRater ratingsData.

Definition CreateCoreComponents (ratingsConfig : option RatingsConfig) (networkConfig : option NetworkConfig)
    (enableEpochsConfig : option EnableEpochsConfig) : outcome coreComponents :=
  marshalizer ← NewMarshalizer marshalizerType;
  hasher ← NewHasher hasherType;
  rater ← createRater ratingsConfig networkConfig;
  converter ← NewHexPubkeyConverter validatorHexPubKeyLength;
  enableEpochsConfig ← pointed enableEpochsConfig;
  enableEpochsHandler ← NewEnableEpochsHandler enableEpochsConfig;
  Ok (mkCoreComponents marshalizer hasher rater converter enableEpochsHandler).

(** ** [factory/cryptoComponents.go] *)

(** The single signer is the disabled one. *)
Record cryptoComponents := mkCryptoComponents {
  cr_KeyGen : KeyGenerator;
  cr_MultiSig : MultiSigner;
  cr_PublicKey : NodePublicKey }.

Definition CreateCryptoComponents : M W cryptoComponents :=
  let blockSignKeyGen := NewKeyGenerator in
  multisigHasher ← lift NewBlake2bWithSize;
  publicKey ← GeneratePair blockSignKeyGen;
  multiSigner ← lift (NewBLSMultisig multisigHasher blockSignKeyGen);
  mret (mkCryptoComponents blockSignKeyGen multiSigner publicKey).

(** ** [factory/nodesCoordinator.go] *)

Definition CreateNodesCoordinator (coreComp : coreComponents) (networkConfig : option NetworkConfig)
    (enableEpochsConfig : option EnableEpochsConfig) (publicKey : NodePublicKey) (genesisNodesConfig : option GenesisNodes) : outcome C :=
  genesisNodesConfig ← pointed genesisNodesConfig;
  eligibleValidators ← @generateGenesisNodes _ (cc_PubKeyConverter coreComp) _ NewValidator (gn_Eligible genesisNodesConfig);
  waitingValidators ← @generateGenesisNodes _ (cc_PubKeyConverter coreComp) _ NewValidator (gn_Waiting genesisNodesConfig);
  enableEpochsConfig ← pointed enableEpochsConfig;
  networkConfig ← pointed networkConfig;
  let argsNodesShuffler := createArgsNodesShuffler (eec_MaxNodesChangeEnableEpoch enableEpochsConfig) networkConfig in
  nodeShuffler ← NewHashValidatorsShuffler argsNodesShuffler (cc_EnableEpochsHandler coreComp);
  publicKeyBytes ← node_ToByteArray publicKey;
  let initialEpoch := 0 in
  let arguments :=
    mkArgNodesCoordinator (i64 (nc_ShardConsensusGroupSize networkConfig)) (nc_MetaConsensusGroup networkConfig)
      (cc_Marshaller coreComp) (cc_Hasher coreComp) nodeShuffler 0 (nc_NumShardsWithoutMeta networkConfig)
      eligibleValidators waitingValidators publicKeyBytes initialEpoch 0 false (cc_EnableEpochsHandler coreComp) in
  baseNodesCoordinator ← NewIndexHashedNodesCoordinator arguments;
  NewIndexHashedNodesCoordinatorWithRater baseNodesCoordinator (cc_Rater coreComp).

(** ** [headerCheckFactory.go]

    The header verifier that is returned is the nodes coordinator's state. *)
Definition NewHeaderCheckHandler (proxy_nil : bool) (enableEpochsConfig : option EnableEpochsConfig) : M W C :=
  if proxy_nil then throw ErrNilProxy
  else
    networkConfig ← hc_GetNetworkConfig;
    ratingsConfig ← hc_GetRatingsConfig;
    coreComp ← lift (CreateCoreComponents ratingsConfig networkConfig enableEpochsConfig);
    cryptoComp ← CreateCryptoComponents;
    let args := mkMultiSigArgs "blake2b" "bls" false in
    epochs ← deref enableEpochsConfig;
    multiSignerContainer ← lift (NewMultiSignerContainer args (cr_KeyGen cryptoComp) (eec_BLSMultiSignerEnableEpoch epochs));
    genesisNodesConfig ← hc_GetGenesisNodesPubKeys;
    nodesCoordinator ← lift (CreateNodesCoordinator coreComp networkConfig enableEpochsConfig (cr_PublicKey cryptoComp) genesisNodesConfig);
    lift (NewHeaderSigVerifier (cc_Marshaller coreComp) (cc_Hasher coreComp) nodesCoordinator multiSignerContainer (cr_KeyGen cryptoComp)) ;;
    lift (NewRawHeaderHandler false false) ;;
    lift (NewHeaderVerifier false false false) ;;
    mret nodesCoordinator.
End Factory.

(** ** What is built *)

Lemma pointed_Ok {A} (p : option A) a : pointed p = Ok a → p = Some a.
Proof. destruct p; cbn; congruence. Qed.

(** Take a successful run apart, through the pointers too. *)
Ltac built :=
  repeat (run_ok; match goal with E : pointed _ = Ok _ |- _ => apply pointed_Ok in E; simplify_eq end); run_ok; simplify_eq.

Section Built.
Context `{ApiJson} {W C : Type} `{!NodeLibrary W C} `{HeaderConfigProxy W} `{MapRangeZ (list string)}.

(** A map of validators holds those of the configured keys, shard by shard. *)
Definition genesis_of (converter : PubkeyConverter) (keys : gmap Z (list string)) (m : gmap Z (list Validator)) : Prop :=
  (∀ s, m !! s = None ↔ keys !! s = None) ∧
  ∀ s ks vs, keys !! s = Some ks → m !! s = Some vs → @validators_of _ converter NewValidator ks vs.

(** The nodes coordinator a network's answers give. *)
Record coordinator_of (nc : NetworkConfig) (rc : RatingsConfig) (gn : GenesisNodes) (ec : EnableEpochsConfig) (c : C) : Prop := {
  co_args : ∃ converter shuffler handler args base ratings rater,
    NewHexPubkeyConverter validatorHexPubKeyLength = Ok converter ∧
    NewEnableEpochsHandler ec = Ok handler ∧
    NewHashValidatorsShuffler (createArgsNodesShuffler (eec_MaxNodesChangeEnableEpoch ec) nc) handler = Ok shuffler ∧
    NewRatingsData (mkRatingsDataArg (createRatingsConfig rc) (u32 (nc_ShardConsensusGroupSize nc)) (nc_MetaConsensusGroup nc)
      (nc_NumNodesInShard nc) (nc_NumMetachainNodes nc) (u64 (nc_RoundDuration nc))) = Ok ratings ∧
    NewBlockSigningRater ratings = Ok rater ∧
    NewIndexHashedNodesCoordinator args = Ok base ∧
    NewIndexHashedNodesCoordinatorWithRater base rater = Ok c ∧
    anc_Shuffler _ _ _ _ _ args = shuffler ∧ anc_NbShards args = nc_NumShardsWithoutMeta nc ∧ anc_Epoch args = 0 ∧
    anc_ShardConsensusGroupSize args = i64 (nc_ShardConsensusGroupSize nc) ∧
    anc_MetaConsensusGroupSize args = nc_MetaConsensusGroup nc ∧
    genesis_of converter (gn_Eligible gn) (anc_EligibleNodes args) ∧
    genesis_of converter (gn_Waiting gn) (anc_WaitingNodes args) }.

Lemma generateGenesisNodes_of converter keys m :
  @generateGenesisNodes _ converter _ NewValidator keys = Ok m → genesis_of converter keys m.
Proof. apply (@generateGenesisNodes_spec _ converter). Qed.

Lemma CreateNodesCoordinator_of rc nc ec cc pk gn c :
  CreateCoreComponents rc nc ec = Ok cc → CreateNodesCoordinator cc nc ec pk gn = Ok c →
  ∃ nc' rc' gn' ec', nc = Some nc' ∧ rc = Some rc' ∧ gn = Some gn' ∧ ec = Some ec' ∧ coordinator_of nc' rc' gn' ec' c.
Proof.
  unfold CreateCoreComponents, createRater, CreateNodesCoordinator. intros Ecc Ec. built.
  eexists _, _, _, _. split_and!; [done..|]. split. cbn [cc_PubKeyConverter cc_EnableEpochsHandler cc_Rater] in *.
  eexists _, _, _, _, _, _, _. split_and!; try eassumption; try done; by apply generateGenesisNodes_of.
Qed.

Lemma NewHeaderCheckHandler_run ec (w w' : W) c :
  NewHeaderCheckHandler false ec w = (Ok c, w') →
  ∃ nc rc gn ec' pk w1 w2 w3, ec = Some ec' ∧
    hc_GetNetworkConfig w = (Ok (Some nc), w1) ∧ hc_GetRatingsConfig w1 = (Ok (Some rc), w2) ∧
    GeneratePair NewKeyGenerator w2 = (Ok pk, w3) ∧ hc_GetGenesisNodesPubKeys w3 = (Ok (Some gn), w') ∧
    coordinator_of nc rc gn ec' c.
Proof.
  unfold NewHeaderCheckHandler, CreateCryptoComponents. intros E.
  apply M_bind_Ok in E as (nc & w1 & E1 & E). apply M_bind_Ok in E as (rc & w2 & E2 & E).
  apply M_bind_Ok in E as (cc & s & E3%lift_Ok & E). destruct E3 as [E3 ->].
  apply M_bind_Ok in E as (cr & w3 & E4 & E). run_ok.
  match goal with E : CreateNodesCoordinator _ _ _ _ _ = Ok _ |- _ =>
    destruct (CreateNodesCoordinator_of _ _ _ _ _ _ _ E3 E) as (nc' & rc' & gn' & ec' & -> & -> & -> & Hec & Hc) end.
  simplify_eq. eauto 20.
Qed.
End Built.

(** ** Over the blockchain proxy *)

Section Real.
Context {W C : Type} `{HttpLog W url} `{Clock W} `{EndpointProvider} `{ApiJson} `{MapRangeZ (list string)}.
Abbreviation St := (baseProxy * W)%type.

#[local] Instance base_configs : HeaderConfigProxy St := {|
  hc_GetNetworkConfig := BaseProxy.GetNetworkConfig;
  hc_GetRatingsConfig := onsnd Proxy.GetRatingsConfig;
  hc_GetGenesisNodesPubKeys := onsnd Proxy.GetGenesisNodesPubKeys |}.
#[local] Instance base_headers : HeaderProxy ShardValidatorInfo St := {|
  hp_GetRawBlockByHash shard hash := onsnd (Proxy.GetRawBlockByHash shard hash);
  hp_GetRawStartOfEpochMetaBlock epoch := onsnd (Proxy.GetRawStartOfEpochMetaBlock epoch);
  hp_GetValidatorsInfoByEpoch epoch := onsnd (Proxy.GetValidatorsInfoByEpoch epoch) |}.

Context `{!NodeLibrary St C} `{Headers} `{EpochsConfigUpdateHandler ShardValidatorInfo C} `{!HeaderSigVerifierHandler C}.

(** Drawing a key makes no request, and a coordinator knows the epoch it was made
    for. *)
Class NodeLibraryLaws := {
  pair_quiet kg s : wire (GeneratePair kg s).2.2 = wire s.2;
  coordinator_epoch args base rater c :
    NewIndexHashedNodesCoordinator args = Ok base → NewIndexHashedNodesCoordinatorWithRater base rater = Ok c →
    nc_IsEpochInConfig (Info := ShardValidatorInfo) (anc_Epoch args) c = true }.
Context `{!NodeLibraryLaws}.

Lemma onsnd_Ok {A} (m : M W A) (bp : baseProxy) w a s' :
  onsnd m (bp, w) = (Ok a, s') → ∃ w', m w = (Ok a, w') ∧ s' = (bp, w').
Proof. unfold onsnd. destruct (m w) as [r w']. intros [= -> <-]. by exists w'. Qed.

(** ** [examples/examplesHeaderCheck/main.go]

    [examplesHeaderCheck] starts where [NewProxy] has answered; [setMultiSigners] writes the field
    [EnableEpochs.BLSMultiSignerEnableEpoch] of the node's configuration. *)
Definition sampleHeaderHash : string := "e0b29ef07f76b75ea9608eed37c588440113724077f57cda3bac84ea0de378ab".
Definition sampleMultiSigners : list MultiSignerConfig := [mkMultiSigner 0 "no-KOSK"; mkMultiSigner 1000000 "KOSK"].

Definition examplesHeaderCheck (setMultiSigners : list MultiSignerConfig → EnableEpochsConfig → EnableEpochsConfig) : M St bool :=
  enableEpochsConfig ← onsnd Proxy.GetEnableEpochsConfig;
  epochs ← deref enableEpochsConfig;
  let epochs := match eec_BLSMultiSignerEnableEpoch epochs with [] => setMultiSigners sampleMultiSigners epochs | _ => epochs end in
  headerVerifier ← NewHeaderCheckHandler false (Some epochs);
  (λ s, let '(r, (_, s)) := VerifyHeaderSignatureByHash (Info := ShardValidatorInfo) 2 sampleHeaderHash (headerVerifier, s) in (r, s)) : M St bool.

(** A raw header is one request. *)
Lemma fetchHeader_on_wire shard hash bp w header s' :
  fetchHeaderByHashAndShard shard hash (bp, w) = (Ok header, s') →
  wire s'.2 = wire w ++ [get_request url (ep_GetRawBlockByHash shard hash)].
Proof.
  intros E. destruct (fetch_run _ _ _ _ _ E) as (b & Eb & _). cbn in Eb. apply onsnd_Ok in Eb as (w1 & Eb & ->).
  by eapply getResponse_on_wire.
Qed.

(** C34: the handler that is built, and the requests it costs: a successful construction
    over a fresh proxy asked the network for its configuration, the ratings and the
    genesis nodes, each once and in this order, and got an answer that is not null each
    time; from these three answers its nodes coordinator was made: for epoch 0, with the
    shard count and the consensus sizes of the first, the rater of the second and, shard
    by shard, one validator per eligible and one per waiting key of the third, in the
    order of the keys.  A header of epoch 0
    is then verified against these validators with one more request, for the header
    itself: no validators are asked for. *)
Theorem header_check_from_genesis ec bp w c bp' w' shard hash header s2 :
  fetchedConfigs bp = None →
  NewHeaderCheckHandler false ec (bp, w) = (Ok c, (bp', w')) →
  fetchHeaderByHashAndShard shard hash (bp', w') = (Ok header, s2) → GetEpoch header = 0 →
  (∃ nc rc gn ec' pk b1 w1 w2 b3 w3, ec = Some ec' ∧
     getResponse json_NetworkConfigResponse ep_GetNetworkConfig w = (Ok (Some nc), w1) ∧
     getResponse json_RatingsConfigResponse ep_GetRatingsConfig w1 = (Ok (Some rc), w2) ∧
     GeneratePair NewKeyGenerator (b1, w2) = (Ok pk, (b3, w3)) ∧
     getResponse json_GenesisNodesResponse ep_GetGenesisNodesConfig w3 = (Ok (Some gn), w') ∧
     coordinator_of nc rc gn ec' c) ∧
  wire w' = wire w ++ map (get_request url) [ep_GetNetworkConfig; ep_GetRatingsConfig; ep_GetGenesisNodesConfig] ∧
  VerifyHeaderSignatureByHash (Info := ShardValidatorInfo) shard hash (c, (bp', w')) =
    ((λ _, true) <$> hv_VerifySignature header c, (c, s2)) ∧
  wire s2.2 = wire w' ++ [get_request url (ep_GetRawBlockByHash shard hash)].
Proof.
  intros Hb E Ef He.
  destruct (NewHeaderCheckHandler_run _ _ _ _ E) as (nc & rc & gn & ec' & pk & [b1 w1] & s1 & [b3 w3] & -> & E1 & E2 & E3 & E4 & Hc).
  cbn in E1, E2, E4. apply onsnd_Ok in E2 as (w2 & E2 & ->). apply onsnd_Ok in E4 as (w4 & E4 & E5). injection E5 as -> ->.
  apply GetNetworkConfig_on_wire in E1 as [E1 Hw1]; [|done]. pose proof (getResponse_on_wire _ _ _ _ _ E2) as Hw2.
  pose proof (getResponse_on_wire _ _ _ _ _ E4) as Hw4.
  pose proof (pair_quiet NewKeyGenerator (b1, w2)) as Hq. rewrite E3 in Hq. cbn in Hq.
  split; [by exists nc, rc, gn, ec', pk, b1, w1, w2, b3, w3|]. split.
  { rewrite Hw4, Hq, Hw2, Hw1. by rewrite <-!app_assoc. }
  split; [|by eapply fetchHeader_on_wire].
  destruct Hc as [ (conv & sh & hd & args & base & ratings & rater & _ & _ & _ & _ & _ & Eb & Er & _ & _ & Hep & _) ].
  pose proof (coordinator_epoch _ _ _ _ Eb Er) as Hin. rewrite Hep, <-He in Hin.
  unfold VerifyHeaderSignatureByHash, mbind, M_bind, onsnd, gets, lift, mret, M_ret. rewrite Ef. cbn [fst]. rewrite Hin.
  cbn [fst]. by destruct (hv_VerifySignature header c) as [[]|e|].
Qed.
End Real.

(** The sample from its [NewProxy] on; the node's libraries see the base proxy that
    [NewProxy] answers. *)
Section Main.
Context {W C : Type} `{Clock W} `{ApiJson} `{MapRangeZ (list string)}.
Context `{!NodeLibrary (baseProxy * W) C} `{Headers} `{EpochsConfigUpdateHandler ShardValidatorInfo C} `{!HeaderSigVerifierHandler C}.

Definition headerCheck_main (client : HttpClientWrapper W)
    (setMultiSigners : list MultiSignerConfig → EnableEpochsConfig → EnableEpochsConfig) : M W bool :=
  with_proxy client sampleArgs (λ provider finality ep, examplesHeaderCheck setMultiSigners).
End Main.

(** only the proxy is checked for nil: with a nil [enableEpochsConfig], or a null in
    one of the three answers of the network, the construction never succeeds, and it
    panics when the libraries accept what comes before. *)
Theorem nil_configs_panic `{ApiJson} {W C : Type} `{!NodeLibrary W C} `{HeaderConfigProxy W} `{MapRangeZ (list string)}
    ec (w : W) nc rc m h w1 w2 :
  hc_GetNetworkConfig w = (Ok nc, w1) → hc_GetRatingsConfig w1 = (Ok rc, w2) →
  NewMarshalizer marshalizerType = Ok m → NewHasher hasherType = Ok h →
  (ec = None ∨ nc = None ∨ rc = None → ∀ c w', NewHeaderCheckHandler false ec w ≠ (Ok c, w')) ∧
  (rc = None ∨ nc = None → NewHeaderCheckHandler false ec w = (Panic, w2)) ∧
  (∀ rater conv, createRater rc nc = Ok rater → NewHexPubkeyConverter validatorHexPubKeyLength = Ok conv → ec = None →
     NewHeaderCheckHandler false ec w = (Panic, w2)).
Proof.
  intros E1 E2 Em Eh. split; [|split].
  - intros Hn c w' E. destruct (NewHeaderCheckHandler_run _ _ _ _ E) as (nc' & rc' & gn & ec' & pk & ? & ? & ? & -> & E1' & E2' & _).
    rewrite E1 in E1'. simplify_eq. rewrite E2 in E2'. simplify_eq. by destruct Hn as [?|[?|?]].
  - intros Hn. unfold NewHeaderCheckHandler, CreateCoreComponents, createRater, lift, mbind, M_bind, outcome_bind.
    rewrite E1, E2, Em, Eh. destruct rc as [rc|]; [|done]. by destruct Hn as [ | ->].
  - intros rater conv Er Ec ->. unfold NewHeaderCheckHandler, CreateCoreComponents, lift, mbind, M_bind, outcome_bind.
    by rewrite E1, E2, Em, Eh, Er, Ec.
Qed.

(** ** A concrete run *)

Module FactoryRun.
Import HeaderRun.
#[local] Existing Instances hexConverter toy_headers.

(** Every answer is taken as the configuration of a network of two shards. *)
Definition ratings0 : RatingsConfig := mkRatingsConfig 100 1 0 50 [mkSelectionChances 5 0] 0 0 0 0 0 0 0 0 0 0 0 0 0 0 0 0.
Definition genesis0 : GenesisNodes := mkGenesisNodes {[ 0 := ["0a"; "0b"]; 1 := ["0c"] ]} ∅.
#[local] Instance run_json : ApiJson :=
  wordsJsonOver (λ _, Fail (ErrText "json")) (λ _, Fail (ErrText "json"))
    (λ _, Ok (mkResp (Some ratings0) "" "successful")) (λ _, Ok (mkResp (Some genesis0) "" "successful")).

Abbreviation log := (list request).
Definition answer (r : request) : bytes := if String.prefix "gateway/network" (req_URL r) then bytes_of_string "2" else [x00; x02].
Definition log_Do (r : request) (w : log) : (error + Http.response) * log := (inr (Http.mkResponse 200 (answer r, None)), w ++ [r]).
#[local] Instance log_client : HttpClientWrapper log := clientWrapper (λ _, None) log_Do "gateway".
#[local] Instance log_wire : HttpLog log "gateway" := clientWrapper_log (λ _, None) log_Do id (λ _ _, eq_refl) "gateway".
#[local] Instance log_clock : Clock log := {| time_Now _ := time_Unix 0 |}.
#[local] Existing Instance proxyEndpointProvider.
#[local] Instance range_keys : MapRangeZ (list string) := map_to_list_rangeZ (list string).

Definition hex_keys : PubkeyConverter := {| pkc_Decode := hex_DecodeString; pkc_Encode b := Ok (hex_EncodeToString b) |}.

(** A coordinator holds the validators of shard 0, per epoch; a header is signed when
    its second byte is their number. *)
Definition epochs : Type := gmap Z (list bytes).
#[local] Instance toy_node : NodeLibrary (baseProxy * log) epochs := {|
  Marshalizer := string; Hasher := string; RatingsData := RatingsDataArg; Rater := RatingsDataArg; EnableEpochsHandler := ();
  KeyGenerator := (); NodePublicKey := bytes; MultiSigner := (); MultiSigContainer := ();
  Shuffler := NodesShufflerArgs; Validator := bytes; BaseCoordinator := Z * list bytes;
  eec_BLSMultiSignerEnableEpoch _ := []; eec_MaxNodesChangeEnableEpoch _ := [];
  NewMarshalizer := Ok; NewHasher := Ok; NewRatingsData := Ok; NewBlockSigningRater := Ok;
  NewHexPubkeyConverter _ := Ok hex_keys; NewEnableEpochsHandler _ := Ok (); NewKeyGenerator := ();
  NewBlake2bWithSize := Ok "blake2b"; GeneratePair _ := mret [x01]; NewBLSMultisig _ _ := Ok (); node_ToByteArray := Ok;
  NewMultiSignerContainer _ _ _ := Ok (); NewHashValidatorsShuffler a _ := Ok a; NewValidator b _ _ := Ok b;
  NewIndexHashedNodesCoordinator args := Ok (anc_Epoch args, default [] (anc_EligibleNodes args !! 0));
  NewIndexHashedNodesCoordinatorWithRater base _ := Ok ({[ base.1 := base.2 ]} : epochs);
  NewHeaderSigVerifier _ _ _ _ _ := Ok () |}.
#[local] Instance toy_updates : EpochsConfigUpdateHandler ShardValidatorInfo epochs := {|
  nc_IsEpochInConfig e c := bool_decide (is_Some (c !! e)); nc_SetNodesConfigFromValidatorsInfo e _ _ := mret () |}.
#[local] Instance toy_signatures : HeaderSigVerifierHandler epochs := {|
  hv_VerifySignature h c :=
    let '(e, s) := match h with HMeta b | HShard b => (first b, second b) end in
    if Z.of_nat (length (default [] (c !! e))) =? s then Ok () else Fail (ErrText "wrong signature") |}.
#[local] Instance toy_node_laws : NodeLibraryLaws.
Proof.
  split; [done|]. intros args base rater c [= <-] [= <-]. apply bool_decide_true. exists (default [] (anc_EligibleNodes args !! 0)). apply (lookup_singleton_eq (M := gmap Z)).
Qed.
#[local] Existing Instances base_configs base_headers.

Definition fresh_proxy : baseProxy := mkBaseProxy None (mkTime 0 0) (10 * 10 ^ 9).
Definition built_proxy : baseProxy := mkBaseProxy (Some (simpleConfig "T" 1500 50000 1000 1 2)) (time_Unix 0) (10 * 10 ^ 9).
Definition asked : log :=
  map (get_request "gateway") ["network/config"; "network/ratings"; "network/genesis-nodes"].
Definition epochs_config : option EnableEpochsConfig := Some tt.
Definition header0 : HeaderHandler := @HShard toy_headers [x00; x02].
Definition coordinator : epochs := {[ 0 := [[x0a]; [x0b]] ]}.

Lemma header_check_from_genesis_witness :
  let w2 := asked ++ [get_request "gateway" (ep_GetRawBlockByHash 1 "ab")] in
  ((∃ nc rc gn ec' pk b1 w1 w2 b3 w3, epochs_config = Some ec' ∧
     getResponse (W := log) json_NetworkConfigResponse ep_GetNetworkConfig [] = (Ok (Some nc), w1) ∧
     getResponse json_RatingsConfigResponse ep_GetRatingsConfig w1 = (Ok (Some rc), w2) ∧
     GeneratePair NewKeyGenerator (b1, w2) = (Ok pk, (b3, w3)) ∧
     getResponse json_GenesisNodesResponse ep_GetGenesisNodesConfig w3 = (Ok (Some gn), asked) ∧
     coordinator_of (W := baseProxy * log) nc rc gn ec' coordinator) ∧
   asked = [] ++ map (get_request "gateway") [ep_GetNetworkConfig; ep_GetRatingsConfig; ep_GetGenesisNodesConfig] ∧
   VerifyHeaderSignatureByHash (Info := ShardValidatorInfo) 1 "ab" (coordinator, (built_proxy, asked)) =
     ((λ _, true) <$> hv_VerifySignature header0 coordinator, (coordinator, (built_proxy, w2))) ∧
   w2 = asked ++ [get_request "gateway" (ep_GetRawBlockByHash 1 "ab")]) ∧
  hv_VerifySignature header0 coordinator = Ok ().
Proof.
  intros w2. split; [|vm_compute; reflexivity].
  destruct (header_check_from_genesis (url := "gateway") epochs_config fresh_proxy [] coordinator built_proxy asked 1 "ab"
           header0 (built_proxy, w2)) as (A & B & D & E); [vm_compute; reflexivity..|].
  by split_and!.
Defined.

(** The sample asks for the enable epochs, builds the verifier and checks one header. *)
Example sample_matches :
  examplesHeaderCheck (C := epochs) (λ _ ec, ec) (fresh_proxy, []) =
  (Ok true, (built_proxy, map (get_request "gateway")
    ["network/enable-epochs"; "network/config"; "network/ratings"; "network/genesis-nodes"; ep_GetRawBlockByHash 2 sampleHeaderHash])).
Proof. vm_compute. reflexivity. Qed.

Lemma nil_configs_panic_witness :
  NewHeaderCheckHandler (C := epochs) false None (fresh_proxy, []) = (Panic, (built_proxy, take 2 asked)).
Proof.
  destruct (nil_configs_panic (NodeLibrary0 := toy_node) None (fresh_proxy, []) (Some (simpleConfig "T" 1500 50000 1000 1 2))
    (Some ratings0) "gogo protobuf" "blake2b" (built_proxy, take 1 asked) (built_proxy, take 2 asked)) as (_ & _ & Hn);
    [vm_compute; reflexivity..|].
  apply (Hn (mkRatingsDataArg (createRatingsConfig ratings0) 0 0 0 0 0) hex_keys); reflexivity.
Defined.
End FactoryRun.
