(* ===== verification/Oracle.v ===== *)
(** * The price oracle ([examples/examplesPriceAggregator/main.go])

    The sample program that puts the aggregator together: the fetchers of all the
    exchanges, one of which needs a native authentication client, the aggregator
    over them, the notifier over the aggregator, and the polling handler that runs
    it.  The pairs are added to the fetchers after the aggregator was made: the
    aggregator holds the same objects, so its fetchers are those of the final
    list.  The map of the exchanges is walked in the order [names].  The notifee,
    which prints, is any [PriceNotifee]. *)

From S2P Require Export Polling Auth ProxyClient.
From S2P Require Export Aggregator Fetchers.

Definition oracleBase : string := "ETH".
Definition oracleQuote : string := "USD".
Definition oraclePercent : Z := 1.
Definition oracleDecimals : Z := 2.
Definition oracleMinResults : Z := 3.
(** Two and ten seconds. *)
Definition pollInterval : Z := 2000000000.
Definition oracleAutoSend : Z := 10000000000.
Definition networkAddress : string := "https://testnet-gateway.multiversx.com".

Definition createXExchangeMap : gmap string XExchangeTokensPair :=
  {[ "ETH-USD" := mkTokensPair "WETH-b4ca29" "USDC-c76f1f" ]}.

Definition ethusd : ArgsPair := mkArgsPair oracleBase oracleQuote oraclePercent oracleDecimals ImplementedFetchers.

(** ** The pairs of the fetchers *)

Definition addPairToFetchers (p : ArgsPair) (fs : list priceFetcher) : list priceFetcher :=
  map (λ f, if bool_decide (fetcher_Name f ∈ Exchanges p) then AddPair (Base p) (Quote p) f else f) fs.

Definition addPairsToFetchers (pairs : list ArgsPair) (fs : list priceFetcher) : list priceFetcher :=
  foldl (λ fs p, addPairToFetchers p fs) fs pairs.

(** ** The fetchers and the authentication client *)

Section Setup.
Context `{Primitives} `{Crypto} `{PubkeyConverter}.

(** The error of the crypto holder is dropped: the holder is then nil. *)
Definition createAuthClient {W} `{ApiJson} (hw : HttpClientWrapper W) : outcome Client.authClient :=
  privateKeyBytes ← LoadPrivateKeyFromPemData (bytes_of_string AlicePemContents);
  NewProxy hw (mkArgsProxy false false false 1 1000000000 Proxy) ;;
  let holder := match NewCryptoComponentsHolder privateKeyBytes with Ok h => Some h | _ => None end in
  Client.NewNativeAuthClient true true true holder (60 * 60 * 24) "oracle".

Definition createGraphqlResponseGetter {W} `{ApiJson} (hw : HttpClientWrapper W) : outcome () :=
  createAuthClient hw ;;
  GraphqlResponseGetter.NewGraphqlResponseGetter false.

(** The loop over the names, in the order of the map. *)
Fixpoint fetchers_of (names : list string) : outcome (list priceFetcher) :=
  match names with
  | [] => Ok []
  | exchangeName :: names =>
    f ← NewPriceFetcher false false exchangeName (Some createXExchangeMap) (mkEvmConfig "" "");
    fs ← fetchers_of names;
    Ok (f :: fs)
  end.

Definition createPriceFetchers {W} `{ApiJson} (hw : HttpClientWrapper W) (names : list string) : outcome (list priceFetcher) :=
  createGraphqlResponseGetter hw ;;
  fetchers_of names.

(** ** [runApp], up to the running loop *)

Record oracle := mkOracle {
  o_fetchers : list priceFetcher;
  o_minResults : Z;
  o_notifier : priceNotifier;
  o_polling : pollingHandler }.

Definition runApp {W} `{ApiJson} (hw : HttpClientWrapper W) (names : list string) (now : gtime) : outcome oracle :=
  priceFetchers ← createPriceFetchers hw names;
  aggregatorInstance ← NewPriceAggregator (map (λ f, Some (mkFetcher (fetcher_Name f) (λ _ _, Panic))) priceFetchers) oracleMinResults;
  notifier ← NewPriceNotifier [Some ethusd] false false oracleAutoSend now;
  let priceFetchers := addPairsToFetchers [ethusd] priceFetchers in
  handler ← NewPollingHandler (mkArgsPolling false pollInterval pollInterval false);
  let '(started, handler) := StartProcessingLoop handler in
  started ;;
  Ok (mkOracle priceFetchers (pa_minResultsNum aggregatorInstance) notifier handler).
End Setup.

(** The calls of the aggregator, over the objects it was given: [order] is the order
    in which its goroutines take the mutex. *)
Definition oracle_aggregator {W} `{ResponseGetter W} `{GraphqlGetter W} `{FetcherJson} `{MapRange krakenPricePair}
    (sprintf_star : string → string) (order : list nat) (o : oracle) : PriceAggregator W := {|
  agg_FetchPrice b q := λ w,
    (FetchPrice order (mkAggregator (map (λ f, Some (as_fetcher sprintf_star w f)) (o_fetchers o)) (o_minResults o)) b q, w) |}.

(** ** The setup *)

(** A fetcher of one of the exchanges, that serves ETH-USD only. *)
Definition serves_ethusd (f : priceFetcher) : Prop :=
  is_exchange f ∧ fetcher_Name f ∈ ImplementedFetchers ∧ known_pairs f = {[ getPairKey oracleBase oracleQuote ]} ∧
  (∀ b tokens, f = XExchange b tokens →
     fetchXExchangeTokensPair tokens oracleBase oracleQuote = Some (mkTokensPair "WETH-b4ca29" "USDC-c76f1f")).

Definition exchange_names : list string :=
  [BinanceName; BitfinexName; CryptocomName; GeminiName; HitbtcName; HuobiName; KrakenName; OkxName; XExchangeName].

Lemma exchange_names_elem name : name ∈ ImplementedFetchers ↔ name ∈ exchange_names.
Proof. unfold ImplementedFetchers. by rewrite elem_of_list_to_set. Qed.

(** One fetcher, made and then given the pair. *)
Lemma one_fetcher name : name ∈ exchange_names →
  ∃ f, NewPriceFetcher false false name (Some createXExchangeMap) (mkEvmConfig "" "") = Ok f ∧ fetcher_Name f = name ∧
    bool_decide (fetcher_Name f ∈ ImplementedFetchers) = true ∧ serves_ethusd (AddPair oracleBase oracleQuote f).
Proof.
  assert (Hall : Forall (λ name, ∃ f, NewPriceFetcher false false name (Some createXExchangeMap) (mkEvmConfig "" "") = Ok f ∧
    fetcher_Name f = name ∧ bool_decide (fetcher_Name f ∈ ImplementedFetchers) = true ∧
    serves_ethusd (AddPair oracleBase oracleQuote f)) exchange_names).
  { unfold exchange_names. repeat constructor;
      (eexists; split; [reflexivity|]; split; [reflexivity|]; split; [reflexivity|]; split_and!; [done| | |]);
      try (apply exchange_names_elem; unfold exchange_names; cbn; set_solver);
      try (cbn; unfold base_AddPair, newBaseFetcher; by rewrite union_empty_r_L); try done.
    by intros b tokens [= <- <-]. }
  rewrite Forall_forall in Hall. apply Hall.
Qed.

Lemma fetchers_of_run names : (∀ n, n ∈ names → n ∈ exchange_names) →
  ∃ fs, fetchers_of names = Ok fs ∧ length fs = length names ∧
    let fs' := addPairsToFetchers [ethusd] fs in
    map fetcher_Name fs' = names ∧ Forall serves_ethusd fs'.
Proof.
  induction names as [|n names IH]; intros Hn; [by exists []|].
  destruct (one_fetcher n) as (f & Ef & Hname & Eadd & Hs); [apply Hn; set_solver|].
  destruct IH as (fs & Efs & Hl & Hnames & Hall); [intros; apply Hn; set_solver|].
  exists (f :: fs). cbn [fetchers_of]. rewrite Ef. cbn [mbind outcome_bind]. rewrite Efs. split; [done|].
  split; [cbn; congruence|].
  assert (E : addPairsToFetchers [ethusd] (f :: fs) = AddPair oracleBase oracleQuote f :: addPairsToFetchers [ethusd] fs).
  { unfold addPairsToFetchers, addPairToFetchers, ethusd. cbn [foldl map Exchanges Base Quote]. by rewrite Eadd. }
  cbv zeta in *. rewrite E. split; [|by constructor]. cbn [map]. rewrite Hnames. f_equal. by destruct f.
Qed.

(** The pair of the notifier. *)
Definition ethusd_pair : pair :=
  mkPair oracleBase oracleQuote oraclePercent oracleDecimals (f64_div (f64_of_Z 1) (math_Pow10 oracleDecimals))
    (f64_trunc (math_Pow10 oracleDecimals)) ImplementedFetchers.

Lemma newPair_ethusd : newPair ethusd = Ok ethusd_pair.
Proof.
  unfold newPair, checkPairArgs.
  assert (E : size ImplementedFetchers ≠ 0%nat).
  { intros E%size_empty_inv. assert (BinanceName ∈ ImplementedFetchers) by (apply exchange_names_elem; by left). set_solver. }
  cbn [Exchanges ethusd]. rewrite (proj2 (Nat.eqb_neq _ _) E). reflexivity.
Qed.

Lemma oracle_setup_run `{Primitives} `{Crypto} `{PubkeyConverter} {W} `{ApiJson} (hw : HttpClientWrapper W) names now client :
  names ≡ₚ exchange_names → createAuthClient hw = Ok client →
  ∃ o, runApp hw names now = Ok o ∧ map fetcher_Name (o_fetchers o) = names ∧ Forall serves_ethusd (o_fetchers o) ∧
    o_minResults o = 3 ∧ o_notifier o = mkNotifier [ethusd_pair] [f64_zero] oracleAutoSend now ∧
    IsRunning (o_polling o) = true ∧ length (loops (o_polling o)) = 1%nat ∧ reachable (o_polling o).
Proof.
  intros Hn Hc. destruct (fetchers_of_run names) as (fs & Ef & Hl & Hnames & Hs).
  { intros n Hin. by rewrite <-Hn. }
  apply Permutation_length in Hn. assert (Hlen : length fs = 9%nat) by (rewrite Hl, Hn; reflexivity).
  assert (Hagg : NewPriceAggregator (map (λ f, Some (mkFetcher (fetcher_Name f) (λ _ _, Panic))) fs) oracleMinResults
    = Ok (mkAggregator (map (λ f, Some (mkFetcher (fetcher_Name f) (λ _ _, Panic))) fs) oracleMinResults)).
  { unfold NewPriceAggregator, checkArgs, guard_err. rewrite length_map, Hlen. cbn.
    assert (Hck : ∀ l : list priceFetcher, checkFetchers (map (λ f, Some (mkFetcher (fetcher_Name f) (λ _ _, Panic))) l) = Ok ())
      by (induction l; done). by rewrite Hck. }
  unfold runApp, createPriceFetchers, createGraphqlResponseGetter. rewrite Hc. cbn [mbind outcome_bind GraphqlResponseGetter.NewGraphqlResponseGetter guard_err].
  rewrite Ef. cbn [mbind outcome_bind]. rewrite Hagg. cbn [mbind outcome_bind].
  unfold NewPriceNotifier, checkArgsPriceNotifier. cbn [length Nat.ltb Nat.leb guard_err mbind outcome_bind newPairs].
  rewrite newPair_ethusd. cbn -[ethusd_pair addPairsToFetchers reachable].
  eexists. split; [reflexivity|]. cbn -[ethusd_pair addPairsToFetchers reachable]. split_and!; try done.
  exists pollInterval, pollInterval. apply rtc_once. apply (P_Start (new_handler pollInterval pollInterval)).
Qed.

(** the oracle is wired as meant, in whatever order the map of the exchanges is walked:
    when the authentication client can be made, the setup succeeds; every exchange has one
    fetcher, which knows the pair ETH-USD and no other although the pair was added after the
    aggregator was made; xExchange has its tokens for it; the notifier has that pair, not yet notified; and
    the polling handler runs one loop. *)
Theorem oracle_setup `{Primitives} `{Crypto} `{PubkeyConverter} {W} `{ApiJson} (hw : HttpClientWrapper W) names now client :
  names ≡ₚ exchange_names → createAuthClient hw = Ok client →
  ∃ o, runApp hw names now = Ok o ∧ map fetcher_Name (o_fetchers o) = names ∧ Forall serves_ethusd (o_fetchers o) ∧
    o_minResults o = 3 ∧ o_notifier o = mkNotifier [ethusd_pair] [f64_zero] oracleAutoSend now ∧
    IsRunning (o_polling o) = true ∧ length (loops (o_polling o)) = 1%nat ∧ reachable (o_polling o).
Proof. apply oracle_setup_run. Qed.

(** ** The first round *)

Section Round.
Context {W : Type} `{Clock W} `{PriceNotifee W} `{ResponseGetter W} `{GraphqlGetter W} `{FetcherJson} `{MapRange krakenPricePair}.
Variable sprintf_star : string → string.
Variable uint64_of_big : float64 → Z.

Lemma omap_length {A B} (f : A → option B) (l : list A) : (length (omap f l) ≤ length l)%nat.
Proof. induction l as [|x l IH]; [done|]. cbn. destruct (f x); cbn; lia. Qed.

(** What the aggregator hears while the world is [w]. *)
Definition oracle_answers (o : oracle) (w : W) : list float64 :=
  answers (mkAggregator (map (λ f, Some (as_fetcher sprintf_star w f)) (o_fetchers o)) (o_minResults o)) oracleBase oracleQuote.

(** The notification of a price [p] that was fetched. *)
Definition ethusd_change (p : float64) (w : W) : notifyArgs :=
  mkNotifyArgs ethusd_pair (mkPriceInfo (trim p (trimPrecision ethusd_pair)) (time_ToUnix (time_Now w))) f64_zero 0.

Lemma first_is_notified (p : float64) (w : W) due : selected due (ethusd_change p w) = true.
Proof.
  unfold selected, shouldNotify. assert (Hb : bypassPercentCheck (ethusd_change p w) = true) by (unfold bypassPercentCheck, ethusd_change; cbn [lastNotifiedPrice]; by replace (f64_lt f64_zero epsilon) with true by (vm_compute; reflexivity)).
  rewrite Hb. apply orb_true_r.
Qed.

(** C31: the oracle tells an honest price: in the first round, when no fetcher panics, at least
    three exchanges answer for ETH-USD and more than half of the answers lie between two bounds,
    the notifee is called exactly once, with one change, for ETH-USD, whose price is
    the trimmed and denominated value of an honest answer or of the half sum of two; the round ends with what the
    notifee says, and that price is remembered. *)
Theorem oracle_first_round `{Primitives} `{Crypto} `{PubkeyConverter} `{ApiJson} {V} (hw : HttpClientWrapper V) names now client o
    order (w : W) lo hi :
  names ≡ₚ exchange_names → createAuthClient hw = Ok client → runApp hw names now = Ok o →
  fetchers_return (map (λ f, Some (as_fetcher sprintf_star w f)) (o_fetchers o)) →
  order ≡ₚ seq 0 (length (o_fetchers o)) →
  (3 ≤ length (oracle_answers o w))%nat →
  (length (oracle_answers o w) < 2 * length (filter (between lo hi) (oracle_answers o w)))%nat →
  ∃ p, central lo hi (oracle_answers o w) p ∧
    let n := ethusd_change p w in
    @Execute uint64_of_big W _ (oracle_aggregator sprintf_star order o) _ (o_notifier o, w) =
    let '(r, w') := PriceChanged [argPriceChanged uint64_of_big n] w in
    (r, (mkNotifier [ethusd_pair] [priceTrimmed n] oracleAutoSend
           (if auto_due (o_notifier o) w then time_Now w else now), w')).
Proof.
  intros Hn Hc Ho Hret Hord Hmin Hmaj.
  destruct (oracle_setup_run hw names now client Hn Hc) as (o' & Ho' & _ & _ & Hm & Hpn & _). rewrite Ho in Ho'. injection Ho' as <-.
  set (fs := map (λ f, Some (as_fetcher sprintf_star w f)) (o_fetchers o)) in *.
  set (pa := mkAggregator fs (o_minResults o)).
  assert (Hpa : NewPriceAggregator fs (o_minResults o) = Ok pa).
  { unfold NewPriceAggregator, checkArgs, guard_err.
    assert (Hl : (length (oracle_answers o w) ≤ length fs)%nat) by apply omap_length.
    rewrite Hm. cbn [Z.ltb minResultsNum Z.compare Pos.compare Pos.compare_cont mbind outcome_bind].
    destruct (Z.ltb_spec (Z.of_nat (length fs)) 3); [lia|]. cbn [mbind outcome_bind].
    assert (Hck : ∀ l : list priceFetcher, checkFetchers (map (λ f, Some (as_fetcher sprintf_star w f)) l) = Ok ()) by (induction l; done).
    unfold fs. rewrite Hck. unfold pa, fs. by rewrite Hm. }
  destruct (FetchPrice_central fs (o_minResults o) pa order oracleBase oracleQuote lo hi Hpa Hret) as (p & Ep & Hp).
  { unfold schedule, pa, fs. cbn [priceFetchers]. by rewrite length_map. }
  { change (answers pa oracleBase oracleQuote) with (oracle_answers o w). lia. }
  { exact Hmaj. }
  exists p. split; [exact Hp|]. cbv zeta.
  assert (Hg : @getAllPrices W _ (oracle_aggregator sprintf_star order o) (o_notifier o) w =
    (Ok [mkPriceInfo (trim p (trimPrecision ethusd_pair)) (time_ToUnix (time_Now w))], w)).
  { rewrite Hpn. unfold getAllPrices. cbn [pairs mcollect]. unfold mbind, M_bind, wrapping, gets, mret, M_ret, agg_FetchPrice, oracle_aggregator.
    fold fs. fold pa. change (base ethusd_pair) with oracleBase. change (quote ethusd_pair) with oracleQuote. by rewrite Ep. }
  pose proof (@Execute_run W _ (oracle_aggregator sprintf_star order o) _ uint64_of_big (o_notifier o) w w _
    ltac:(rewrite Hpn; reflexivity) Hg) as Hx. cbv zeta in Hx. rewrite Hx. clear Hx Hg.
  unfold to_notify. rewrite Hpn. cbn [pairs lastNotifiedPrices candidates head tail].
  fold (ethusd_change p w). rewrite filter_cons_True by apply first_is_notified. rewrite filter_nil.
  cbn [fmap list_fmap]. destruct (PriceChanged _ w) as [r w']. by destruct (auto_due _ w).
Qed.
End Round.

(** ** A concrete run *)

Module OracleRun.
Import ClientRun.
#[local] Existing Instances toyCrypto hexConverter wordsJson pem_primitives.

(** The oracle's world: the clock, and what the notifee was told. *)
Record market := mkMarket { m_now : gtime; m_told : list (list ArgsPriceChanged) }.
#[local] Instance market_clock : Clock market := {| time_Now := m_now |}.
#[local] Instance market_printer : PriceNotifee market := {|
  PriceChanged args := λ w, (Ok (), mkMarket (m_now w) (m_told w ++ [args])) |}.

(** Gemini gives a foolish price; Kraken has no answer, Huobi a zero, xExchange its own. *)
Definition page (url : string) : string :=
  if String.prefix "https://api.gemini" url then "99999.9" else if String.prefix "https://api.binance" url then "1850.75" else "1850.5".
#[local] Instance market_json : FetcherJson := {|
  json_binance := {| json_zero := mkBinance "" ""; json_Unmarshal b := inr (mkBinance "" (string_of_bytes b)) |};
  json_bitfinex := {| json_zero := mkBitfinex ""; json_Unmarshal b := inr (mkBitfinex (string_of_bytes b)) |};
  json_cryptocom := {| json_zero := mkCryptocom (mkCryptocomData []);
                       json_Unmarshal b := inr (mkCryptocom (mkCryptocomData [mkCryptocomPair (string_of_bytes b)])) |};
  json_gemini := {| json_zero := mkGemini ""; json_Unmarshal b := inr (mkGemini (string_of_bytes b)) |};
  json_hitbtc := {| json_zero := mkHitbtc ""; json_Unmarshal b := inr (mkHitbtc (string_of_bytes b)) |};
  json_huobi := {| json_zero := mkHuobi (mkHuobiTicker f64_zero); json_Unmarshal _ := inr (mkHuobi (mkHuobiTicker f64_zero)) |};
  json_kraken := {| json_zero := mkKraken ∅; json_Unmarshal _ := inr (mkKraken ∅) |};
  json_okx := {| json_zero := mkOkx []; json_Unmarshal b := inr (mkOkx [mkOkxTicker (string_of_bytes b)]) |};
  json_gasStation := {| json_zero := mkGasStation "" "" (mkGasResult "" "" "" "" "" "");
                        json_Unmarshal b := inr (mkGasStation "1" "OK" (mkGasResult "" "" "" (string_of_bytes b) "" "")) |};
  json_graphql _ := Ok (mkGraphql [mkPriceResponse (f64_of_Z 1851) (mkTime 0 0)]);
  json_MarshalVariables b q := Ok (bytes_of_string (b +:+ q)) |}.
#[local] Instance market_getter : ResponseGetter market := {|
  rg_Get R J url := λ w, (match json_Unmarshal (bytes_of_string (page url)) with inr r => Ok r | inl e => Fail e end, w) |}.
#[local] Instance market_graphql : GraphqlGetter market := {| gq_Query _ _ _ := λ w, (Ok [], w) |}.
#[local] Instance market_range : MapRange krakenPricePair := map_to_list_range _.
Definition star (s : string) : string := s.
Definition out_of_range (x : float64) : Z := 0.

Definition client_of : HttpClientWrapper log := clientWrapper (λ _, None) log_Do networkAddress.
Definition t0 : gtime := time_Unix 1000.
Definition order : list nat := [8; 0; 1; 2; 3; 4; 5; 6; 7]%nat.
Definition w0 : market := mkMarket t0 [].

(** The fetchers that the setup leaves. *)
Definition served : baseFetcher := {[ getPairKey "ETH" "USD" ]}.
Definition all_fetchers : list priceFetcher :=
  [Binance served; Bitfinex served; Cryptocom served; Gemini served; Hitbtc served; Huobi served; Kraken served; Okx served;
   XExchange served createXExchangeMap].
Definition oracle0 : oracle :=
  mkOracle all_fetchers 3 (mkNotifier [ethusd_pair] [f64_zero] oracleAutoSend t0)
    (StartProcessingLoop (new_handler pollInterval pollInterval)).2.

Lemma client_made : ∃ client, createAuthClient client_of = Ok client.
Proof. eexists. vm_compute. reflexivity. Qed.

Lemma oracle0_made : runApp client_of exchange_names t0 = Ok oracle0.
Proof. vm_compute. reflexivity. Qed.

Lemma oracle_setup_witness :
  ∃ o, runApp client_of exchange_names t0 = Ok o ∧ map fetcher_Name (o_fetchers o) = exchange_names ∧ Forall serves_ethusd (o_fetchers o) ∧
    o_minResults o = 3 ∧ o_notifier o = mkNotifier [ethusd_pair] [f64_zero] oracleAutoSend t0 ∧
    IsRunning (o_polling o) = true ∧ length (loops (o_polling o)) = 1%nat ∧ reachable (o_polling o).
Proof. destruct client_made as [client Hc]. exact (oracle_setup client_of exchange_names t0 client (reflexivity _) Hc). Defined.

Lemma market_returns : fetchers_return (map (λ f, Some (as_fetcher star w0 f)) all_fetchers).
Proof.
  assert (Hall : Forall (λ f, ∀ b q, (fetcher_FetchPrice star f b q w0).1 ≠ Panic) all_fetchers).
  { unfold all_fetchers. repeat constructor; intros b q;
      try (apply fetch_no_panic; [intros R J url w; cbn; by destruct (json_Unmarshal _)|done]).
    - cbn. unfold kraken_FetchPrice. by destruct (negb _).
    - cbn. unfold xExchange_FetchPrice. destruct (negb _); [done|].
      destruct (fetchXExchangeTokensPair _ _ _); [|done]. vm_compute. discriminate. }
  rewrite Forall_forall in Hall. intros f b q Hin. apply list_elem_of_In, in_map_iff in Hin as (g & E & Hg).
  injection E as <-. apply Hall. by apply list_elem_of_In.
Qed.

Lemma order_runs_all : order ≡ₚ seq 0 9.
Proof. apply (Permutation_cons_append (seq 0 8) 8%nat). Qed.

Lemma oracle_first_round_witness :
  ∃ p, central (f64_of_Z 1850) (f64_of_Z 1852) (oracle_answers star oracle0 w0) p ∧
    let n := ethusd_change p w0 in
    @Execute out_of_range market _ (oracle_aggregator star order oracle0) _ (o_notifier oracle0, w0) =
    let '(r, w') := PriceChanged [argPriceChanged out_of_range n] w0 in
    (r, (mkNotifier [ethusd_pair] [priceTrimmed n] oracleAutoSend
           (if auto_due (o_notifier oracle0) w0 then time_Now w0 else t0), w')).
Proof.
  destruct client_made as [client Hc].
  apply (oracle_first_round star out_of_range client_of exchange_names t0 client oracle0 order w0
           (f64_of_Z 1850) (f64_of_Z 1852) (reflexivity _) Hc oracle0_made market_returns).
  - exact order_runs_all.
  - apply Nat.leb_le. vm_compute. reflexivity.
  - apply Nat.ltb_lt. vm_compute. reflexivity.
Defined.

(** What is told: 1850.5 at two decimals. *)
Example first_told :
  m_told (@Execute out_of_range market _ (oracle_aggregator star order oracle0) _ (o_notifier oracle0, w0)).2.2 =
  [[mkPriceChanged "ETH" "USD" 185050 2 1000]].
Proof. vm_compute. reflexivity. Qed.
End OracleRun.
