(* ===== verification/WebServer.v ===== *)
(** * The web server ([aggregator/api/gin/])

    [webServer] starts an HTTP server on its interface, with one route that streams
    the logs, and shuts it down.  [net/http]'s server is modelled by what its
    documentation says of [ListenAndServe] and [Shutdown], an address taken by one
    listener at a time; each [StartHttpServer] spawns a goroutine that calls
    [ListenAndServe] some time later.  The websocket upgrade and the log sender of
    mx-chain-go are parameters of the route's handler.  gin's own output goes through
    two writers that log it. *)

From S2P Require Export Data.

(** ** [writers.go]

    A line of the log: the key of the text, and the text; [Write] always takes all of
    its bytes. *)
Definition ginWriter_Write (p : string) : M (list (string * string)) Z := λ log,
  (Ok (Z.of_nat (String.length p)), log ++ [("message", strings_TrimSpace p)]).

Definition ginErrorWriter_Write (p : string) : M (list (string * string)) Z := λ log,
  (Ok (Z.of_nat (String.length p)), log ++ [("error", strings_TrimSpace p)]).

(** [apiErrors.ErrNilHttpServer] is the one of mx-chain-go; the repository has one
    of its own, in aggregator/api/errors/, that nothing returns. *)
Definition chain_ErrNilHttpServer : error := ErrVar "mx-chain-go/api/errors.ErrNilHttpServer".
Definition ErrNilHttpServer : error := ErrVar "api/errors.ErrNilHttpServer".
Definition ErrServerClosed : error := ErrVar "net/http.ErrServerClosed".
Definition ErrAddressInUse : error := ErrText "listen tcp: bind: address already in use".

(** ** [http.Server] *)

Inductive phase := NotStarted | Serving | Ended.
Record server := mkServer { sv_phase : phase; sv_shutdown : bool }.

(** [ListenAndServe] up to the point where it blocks ([inl]) or returns ([inr]);
    [taken]: whether another listener has the address. *)
Definition ListenAndServe (taken : bool) (s : server) : (() + error) * server :=
  if sv_shutdown s then (inr ErrServerClosed, mkServer Ended true)
  else if taken then (inr ErrAddressInUse, mkServer Ended false)
  else (inl (), mkServer Serving false).

(** [Shutdown] closes the listener first; it may then fail to see all connections
    end in time, with the error [late]. *)
Definition Shutdown (late : option error) (s : server) : option error * server :=
  (late, mkServer (match sv_phase s with Serving => Ended | p => p end) true).

(** ** [httpServer.go]

    What [Start] logs of the returned error: nothing, at debug level, or as an
    error. *)
Inductive logged := LogNothing | LogClosed | LogError (e : error).

Definition NewHttpServer (server_nil : bool) : outcome () :=
  if server_nil then Fail chain_ErrNilHttpServer else Ok ().

Definition logStart (r : () + error) : logged :=
  match r with
  | inl _ => LogNothing
  | inr e => if bool_decide (e = ErrServerClosed) then LogClosed else LogError e
  end.

Definition h_Start (taken : bool) (s : server) : logged * server :=
  let '(r, s) := ListenAndServe taken s in (logStart r, s).

Definition h_Close (late : option error) (s : server) : option error * server := Shutdown late s.

(** ** [webServer.go]

    The servers made so far, by number; [httpServer] is the one the web server
    holds. *)

Record webServer := mkWebServer { apiInterface : string; httpServer : option nat }.
Record api := mkApi { web : webServer; servers : list server; log : list (nat * logged) }.

Definition NewWebServerHandler (interface : string) : outcome webServer := Ok (mkWebServer interface None).

Definition StartHttpServer : M api () := λ a,
  if String.eqb (apiInterface (web a)) WebServerOffString then (Ok (), a)
  else
    match NewHttpServer false with
    | Ok _ => (Ok (), mkApi (mkWebServer (apiInterface (web a)) (Some (length (servers a))))
                        (servers a ++ [mkServer NotStarted false]) (log a))
    | Fail e => (Fail e, a)
    | Panic => (Panic, a)
    end.

Definition Close (late : option error) : M api () := λ a,
  match httpServer (web a) with
  | None => (Ok (), a)
  | Some i =>
    match servers a !! i with
    | None => (Panic, a)
    | Some s =>
      let '(err, s) := h_Close late s in
      (match err with None => Ok () | Some e => Fail (ErrWrap e " while closing the http server in gin/webServer") end,
       mkApi (web a) (<[i := s]> (servers a)) (log a))
    end
  end.

Definition is_serving (s : server) : bool := match sv_phase s with Serving => true | _ => false end.

(** The spawned goroutine of server [i] runs [Start]. *)
Definition run_server (i : nat) (s : server) (a : api) : api :=
  let '(l, s) := h_Start (existsb is_serving (servers a)) s in
  mkApi (web a) (<[i := s]> (servers a)) (log a ++ [(i, l)]).

(** The route of the logs: the handler of a request. *)
Section Route.
Context {W Conn Sender : Type}.
Variable upgrade : M W Conn.
Variable NewLogSender : Conn → M W Sender.
Variable StartSendingBlocking : Sender → M W ().

(** An error is logged, and the handler returns. *)
Definition registerLoggerWsRoute : list (string * string * M W ()) :=
  [("GET", "/log",
    conn ← try upgrade;
    match conn with
    | inl _ => mret ()
    | inr conn =>
      ls ← try (NewLogSender conn);
      match ls with
      | inl _ => mret ()
      | inr ls => StartSendingBlocking ls
      end
    end)].

Definition registerRoutes : list (string * string * M W ()) := registerLoggerWsRoute.
End Route.

(** ** The steps *)

Inductive api_step : api → api → Prop :=
  | a_start a : api_step a (StartHttpServer a).2
  | a_run i s a : servers a !! i = Some s → sv_phase s = NotStarted → api_step a (run_server i s a)
  | a_close late a : api_step a (Close late a).2.

Definition new_api (interface : string) : api := mkApi (mkWebServer interface None) [] [].

(** Nobody has started it, or what was started last was closed. *)
Definition stopped (a : api) : Prop :=
  match httpServer (web a) with
  | None => True
  | Some i => ∃ s, servers a !! i = Some s ∧ sv_shutdown s = true
  end.

(** The steps of a program that starts the server only when it is stopped. *)
Inductive careful_step : api → api → Prop :=
  | c_start a : stopped a → careful_step a (StartHttpServer a).2
  | c_run i s a : servers a !! i = Some s → sv_phase s = NotStarted → careful_step a (run_server i s a)
  | c_close late a : careful_step a (Close late a).2.

(** ** At most one listener *)

Record api_inv (a : api) : Prop := {
  ai_held i : httpServer (web a) = Some i → (i < length (servers a))%nat;
  ai_one i j s t : servers a !! i = Some s → servers a !! j = Some t → is_serving s = true → is_serving t = true → i = j;
  ai_shut i s : servers a !! i = Some s → sv_shutdown s = true → is_serving s = false }.

Lemma existsb_serving (l : list server) : existsb is_serving l = false → ∀ i s, l !! i = Some s → is_serving s = false.
Proof.
  intros E i s Hs. apply not_true_iff_false. intros Ht. apply not_true_iff_false in E. apply E, existsb_exists.
  exists s. split; [by eapply list_elem_of_In, list_elem_of_lookup_2|done].
Qed.

(** A server is replaced by one that serves only where the old one did, or nobody. *)
Lemma api_inv_insert a w l i s s' :
  api_inv a → servers a !! i = Some s → httpServer w = httpServer (web a) →
  (is_serving s' = true → sv_shutdown s' = false ∧ (is_serving s = true ∨ existsb is_serving (servers a) = false)) →
  api_inv (mkApi w (<[i := s']> (servers a)) l).
Proof.
  intros [Ih Io Is] Hi Hw Hs'. split; cbn.
  - intros j. rewrite Hw, length_insert. apply Ih.
  - intros j k x y Hj Hk Hx Hy.
    apply list_lookup_insert_Some in Hj as [(-> & <- & _)|(Hne & Hj)], Hk as [(<- & <- & _)|(Hne' & Hk)]; [done| | |by eapply Io].
    + destruct (Hs' Hx) as [_ [Hs|He]]; [by eapply Io|]. by rewrite (existsb_serving _ He _ _ Hk) in Hy.
    + destruct (Hs' Hy) as [_ [Hs|He]]; [by eapply Io|]. by rewrite (existsb_serving _ He _ _ Hj) in Hx.
  - intros j x Hj Hx. apply list_lookup_insert_Some in Hj as [(-> & <- & _)|(_ & Hj)]; [|by eapply Is].
    apply not_true_iff_false. intros E. destruct (Hs' E) as [E' _]. congruence.
Qed.

Lemma api_step_inv a a' : api_step a a' → api_inv a → api_inv a'.
Proof.
  intros [a0|i s a0 Hi Hp|late a0] Hinv.
  - unfold StartHttpServer. destruct (String.eqb _ _); [done|]. cbn. destruct Hinv as [Ih Io Is]. split; cbn.
    + intros i [= <-]. rewrite length_app. cbn. lia.
    + intros i j s t Hi Hj Hs Ht. apply lookup_app_Some in Hi as [Hi|[_ Hi]], Hj as [Hj|[_ Hj]];
        [by eapply Io|by apply list_lookup_singleton_Some in Hj as [_ <-]|by apply list_lookup_singleton_Some in Hi as [_ <-]..].
    + intros i s Hi Hs. apply lookup_app_Some in Hi as [Hi|[_ Hi]]; [by eapply Is|].
      by apply list_lookup_singleton_Some in Hi as [_ <-].
  - unfold run_server, h_Start, ListenAndServe. destruct (sv_shutdown s) eqn:Es; [|destruct (existsb _ _) eqn:Ee];
      cbn; (eapply api_inv_insert; [done|done|done|]); cbn; [done|done|]. intros _. by split; [|right].
  - unfold Close. destruct (httpServer (web a0)) as [i|] eqn:Eh; [|done].
    destruct (servers a0 !! i) as [s|] eqn:Ei; [|done]. cbn. eapply api_inv_insert; [done|done|done|]. cbn.
    by destruct (sv_phase s).
Qed.

Lemma api_inv_reachable interface a : rtc api_step (new_api interface) a → api_inv a.
Proof.
  intros Hr. assert (H0 : api_inv (new_api interface)).
  { split; [done|by intros i j s t|by intros i s]. }
  induction Hr; eauto using api_step_inv.
Qed.

(** ** A careful program can stop it *)

(** All servers but the one that is held have been shut down, or never served. *)
Definition others_down (a : api) : Prop :=
  ∀ i s, servers a !! i = Some s → httpServer (web a) ≠ Some i → sv_shutdown s = true.

Lemma careful_is_step a a' : careful_step a a' → api_step a a'.
Proof. intros [| |]; eauto using api_step. Qed.

Lemma careful_others_down a a' : careful_step a a' → others_down a → others_down a'.
Proof.
  intros [a0 Hst|i s a0 Hi Hp|late a0] Hd.
  - unfold StartHttpServer. destruct (String.eqb _ _); [done|]. intros j t Hj Hne. cbn in *.
    apply lookup_app_Some in Hj as [Hj|[Hge Hj]].
    + destruct (decide (httpServer (web a0) = Some j)) as [E|E]; [|by eapply Hd].
      unfold stopped in Hst. rewrite E in Hst. destruct Hst as (s & Hs & Hsh). congruence.
    + apply list_lookup_singleton_Some in Hj as [Hz _]. exfalso. apply Hne. f_equal. lia.
  - unfold run_server, h_Start, ListenAndServe. intros j t.
    assert (Hsame : ∀ s', sv_shutdown s' = sv_shutdown s → ∀ l, others_down (mkApi (web a0) (<[i := s']> (servers a0)) l)).
    { intros s' Es l k u Hk Hne. cbn in *. apply list_lookup_insert_Some in Hk as [(-> & <- & _)|(_ & Hk)]; [|by eapply Hd].
      rewrite Es. by eapply Hd. }
    destruct (sv_shutdown s) eqn:Es; [|destruct (existsb _ _)]; by apply Hsame.
  - unfold Close. destruct (httpServer (web a0)) as [i|] eqn:Eh; [|done].
    destruct (servers a0 !! i) as [s|] eqn:Ei; [|done]. intros j t Hj Hne. cbn in *.
    apply list_lookup_insert_Some in Hj as [(-> & <- & _)|(_ & Hj)]; [done|by eapply Hd].
Qed.

Lemma careful_reachable interface a : rtc careful_step (new_api interface) a → api_inv a ∧ others_down a.
Proof.
  intros Hr. assert (H0 : api_inv (new_api interface) ∧ others_down (new_api interface)).
  { split; [by apply (api_inv_reachable interface)|by intros i s]. }
  induction Hr as [|a b c Hab Hbc IH]; [done|]. destruct H0 as [Hi Hd].
  apply IH. eauto using api_step_inv, careful_is_step, careful_others_down.
Qed.

(** Once every server is shut down, none ever serves again by itself. *)
Definition all_down (a : api) : Prop := ∀ i s, servers a !! i = Some s → sv_shutdown s = true.

Lemma Close_all_down late a : api_inv a → others_down a → all_down (Close late a).2.
Proof.
  intros Hi Hd. unfold Close. destruct (httpServer (web a)) as [i|] eqn:Eh.
  - destruct (lookup_lt_is_Some_2 (servers a) i) as [s Es]; [by eapply ai_held|]. rewrite Es. cbn.
    intros j t Hj. cbn in Hj. apply list_lookup_insert_Some in Hj as [(-> & <- & _)|(Hne & Hj)]; [done|].
    eapply Hd; [exact Hj|congruence].
  - intros j t Hj. eapply Hd; [exact Hj|congruence].
Qed.

(** a program that starts the server only when it is stopped can stop it: whenever it
    calls [Close], even before the goroutine of [StartHttpServer] got to listen, no server
    listens afterwards, and none will however the goroutines that are left and further
    calls of [Close] go on; [Close] never panics, and its error, if any, is that of the
    connections that did not end in time. *)
Theorem careful_Close_stops interface a late a' :
  rtc careful_step (new_api interface) a →
  rtc (λ b b', (∃ i s, servers b !! i = Some s ∧ sv_phase s = NotStarted ∧ b' = run_server i s b) ∨ ∃ l, b' = (Close l b).2)
    (Close late a).2 a' →
  existsb is_serving (servers a') = false ∧
  (Close late a).1 = match httpServer (web a), late with
                     | Some _, Some e => Fail (ErrWrap e " while closing the http server in gin/webServer")
                     | _, _ => Ok ()
                     end.
Proof.
  intros Hr Hr'. destruct (careful_reachable _ _ Hr) as [Hi Hd]. split.
  - assert (Hdown : api_inv (Close late a).2 ∧ all_down (Close late a).2).
    { split; [|by apply Close_all_down]. eapply api_step_inv; [apply a_close|done]. }
    assert (Hfin : api_inv a' ∧ all_down a').
    { clear Hr Hi Hd. induction Hr' as [|b c d Hbc Hcd IH]; [done|]. destruct Hdown as [Hi Hd]. apply IH.
      destruct Hbc as [(i & s & Es & Hp & ->)|(l & ->)].
      - split; [eapply api_step_inv; [by apply a_run|done]|]. intros j t.
        unfold run_server, h_Start, ListenAndServe. rewrite (Hd _ _ Es). cbn. intros Hj.
        apply list_lookup_insert_Some in Hj as [(-> & <- & _)|(_ & Hj)]; [done|by eapply Hd].
      - split; [eapply api_step_inv; [by apply a_close|done]|]. apply Close_all_down; [done|]. intros j t Hj _. by eapply Hd. }
    destruct Hfin as [Hi' Hd']. apply not_true_iff_false. intros (s & Hs & Ht)%existsb_exists.
    apply list_elem_of_In, list_elem_of_lookup in Hs as [i Es].
    rewrite (ai_shut _ Hi' _ _ Es (Hd' _ _ Es)) in Ht. done.
  - unfold Close. destruct (httpServer (web a)) as [i|] eqn:Eh; [|done].
    destruct (lookup_lt_is_Some_2 (servers a) i) as [s Es]; [by eapply ai_held|]. rewrite Es. by destruct late.
Qed.

(** ** A second start cannot be undone *)

(** a server that is started twice is lost: from the moment the held server is
    not the one that listens, no further call, [StartHttpServer] or [Close], and no
    goroutine ever stops the one that does, and every server started later is refused
    the address. *)
Theorem leaked_server_stays interface a a' i s :
  rtc api_step (new_api interface) a → rtc api_step a a' →
  servers a !! i = Some s → is_serving s = true → httpServer (web a) ≠ Some i →
  ∃ s', servers a' !! i = Some s' ∧ is_serving s' = true ∧ httpServer (web a') ≠ Some i ∧
    ∀ j t, j ≠ i → servers a' !! j = Some t → is_serving t = false.
Proof.
  intros Hr Hr' Hs Hserv Hne.
  assert (Hkeep : ∀ b b' t, api_step b b' → servers b !! i = Some t → is_serving t = true → httpServer (web b) ≠ Some i →
    servers b' !! i = Some t ∧ httpServer (web b') ≠ Some i).
  { intros b b' t Hst Ht Hst' Hn. destruct Hst as [b|j u b Hj Hp|late b].
    - unfold StartHttpServer. destruct (String.eqb _ _); [done|]. cbn.
      pose proof (lookup_lt_Some _ _ _ Ht). split; [by rewrite lookup_app_l by done|]. intros [= E]. lia.
    - assert (Hji : j ≠ i) by (intros ->; rewrite Ht in Hj; injection Hj as ->; unfold is_serving in Hst'; by rewrite Hp in Hst').
      unfold run_server. destruct (h_Start _ u) as [l u']. cbn. by rewrite list_lookup_insert_ne.
    - unfold Close. destruct (httpServer (web b)) as [j|] eqn:Eh; [|cbn; split; congruence].
      destruct (servers b !! j) as [u|]; cbn; [|split; congruence]. rewrite list_lookup_insert_ne by congruence. split; congruence. }
  assert (Hend : servers a' !! i = Some s ∧ httpServer (web a') ≠ Some i).
  { clear Hr. induction Hr' as [|b c d Hbc Hcd IH]; [done|]. destruct (Hkeep b c s Hbc Hs Hserv Hne). by apply IH. }
  destruct Hend as [Hs' Hne']. exists s. split_and!; [done..|]. intros j t Hj Ht. apply not_true_iff_false. intros E.
  apply Hj. eapply (ai_one a'); [|exact Ht|exact Hs'|done..]. apply (api_inv_reachable interface). by etrans.
Qed.

(** With the interface off, nothing is ever started. *)
Theorem off_starts_nothing a : rtc api_step (new_api WebServerOffString) a → servers a = [].
Proof.
  intros Hr. assert (Hinv : apiInterface (web a) = WebServerOffString ∧ servers a = [] ∧ httpServer (web a) = None).
  { assert (H0 : apiInterface (web (new_api WebServerOffString)) = WebServerOffString ∧ servers (new_api WebServerOffString) = [] ∧
      httpServer (web (new_api WebServerOffString)) = None) by done.
    induction Hr as [|b c d Hbc Hcd IH]; [done|]. destruct H0 as (Ei & Es & Eh). apply IH.
    destruct Hbc as [b|j u b Hj|late b].
    - unfold StartHttpServer. by rewrite Ei, String.eqb_refl.
    - by rewrite Es in Hj.
    - unfold Close. by rewrite Eh. }
  apply Hinv.
Qed.

(** ** Concrete runs *)

Module WebServerRun.
Definition run (i : nat) (a : api) : api := match servers a !! i with Some s => run_server i s a | None => a end.
Definition started : api := run 0 (StartHttpServer (new_api ":8080")).2.
Definition twice : api := run 1 (StartHttpServer started).2.

Example twice_refused : log twice = [(0%nat, LogNothing); (1%nat, LogError ErrAddressInUse)].
Proof. vm_compute. reflexivity. Qed.

(** Closed before the goroutine listens: it returns at once. *)
Example close_first : log (run 0 (Close None (StartHttpServer (new_api ":8080")).2).2) = [(0%nat, LogClosed)].
Proof. vm_compute. reflexivity. Qed.

Lemma started_careful : rtc careful_step (new_api ":8080") started.
Proof.
  eapply rtc_l; [apply (c_start (new_api ":8080")); done|].
  eapply rtc_l; [apply (c_run 0 (mkServer NotStarted false)); reflexivity|]. apply reflexive_eq. reflexivity.
Qed.

Lemma twice_reachable : rtc api_step (new_api ":8080") twice.
Proof.
  eapply rtc_l; [apply (a_start (new_api ":8080"))|].
  eapply rtc_l; [apply (a_run 0 (mkServer NotStarted false)); reflexivity|].
  eapply rtc_l; [apply a_start|].
  eapply rtc_l; [apply (a_run 1 (mkServer NotStarted false)); reflexivity|]. apply reflexive_eq. reflexivity.
Qed.

Lemma careful_Close_stops_witness :
  existsb is_serving (servers started) = true ∧ existsb is_serving (servers (Close None started).2) = false ∧
  (Close None started).1 = Ok ().
Proof.
  split; [vm_compute; reflexivity|].
  apply (careful_Close_stops ":8080" started None (Close None started).2 started_careful (rtc_refl _ _)).
Defined.

Lemma leaked_server_stays_witness :
  ∃ s', servers (Close None twice).2 !! 0%nat = Some s' ∧ is_serving s' = true ∧ httpServer (web (Close None twice).2) ≠ Some 0%nat ∧
    ∀ j t, j ≠ 0%nat → servers (Close None twice).2 !! j = Some t → is_serving t = false.
Proof.
  apply (leaked_server_stays ":8080" twice (Close None twice).2 0 (mkServer Serving false) twice_reachable);
    [apply rtc_once, a_close|reflexivity..|discriminate].
Defined.

Lemma off_starts_nothing_witness : servers (StartHttpServer (new_api WebServerOffString)).2 = [].
Proof. apply off_starts_nothing. apply rtc_once, a_start. Defined.
End WebServerRun.
