(* ===== verification/Libbls.v ===== *)
(** * The signing library for other languages ([libraries/libbls/])

    [libbls.go] works on hexadecimal texts and answers an empty text or [false]
    for every error; [main.go] exports it over C strings.  The BLS key generator
    and signer of mx-chain-crypto-go are the class [Bls]. *)

From S2P Require Export GoStd.

(** ** The library below *)

Class Bls := {
  bls_PrivateKey : Type;
  bls_PublicKey : Type;
  bls_Random : Type;
  bls_GeneratePair : bls_Random → bls_PrivateKey * bls_PublicKey;
  bls_PrivateKeyFromByteArray : bytes → outcome bls_PrivateKey;
  bls_PublicKeyFromByteArray : bytes → outcome bls_PublicKey;
  bls_GeneratePublic : bls_PrivateKey → bls_PublicKey;
  bls_private_ToByteArray : bls_PrivateKey → outcome bytes;
  bls_public_ToByteArray : bls_PublicKey → outcome bytes;
  bls_Sign : bls_PrivateKey → bytes → outcome bytes;
  bls_Verify : bls_PublicKey → bytes → bytes → outcome () }.

(** Keys are found again from their bytes; a pair is a private key with its public
    key; a signature verifies under the public key of its private key. *)
Class BlsLaws `{Bls} := {
  bls_private_bytes sk b : bls_private_ToByteArray sk = Ok b → bls_PrivateKeyFromByteArray b = Ok sk;
  bls_public_bytes pk b : bls_public_ToByteArray pk = Ok b → bls_PublicKeyFromByteArray b = Ok pk;
  bls_pair r : (bls_GeneratePair r).2 = bls_GeneratePublic (bls_GeneratePair r).1;
  bls_correct sk m sig : bls_Sign sk m = Ok sig → bls_Verify (bls_GeneratePublic sk) m sig = Ok () }.

(** [if err != nil { log; return d }]: an error becomes [d], a panic goes on. *)
Definition or_answer {A} (d : A) (o : outcome A) : outcome A :=
  match o with Fail _ => Ok d | _ => o end.

(** ** [libbls.go] *)

Section Libbls.
Context `{Bls}.

Definition decodeInputParameter (parameterValueHex : string) : outcome bytes := hex_DecodeString parameterValueHex.

Definition doGeneratePrivateKeyAsHex (random : bls_Random) : outcome string :=
  let '(privateKey, _) := bls_GeneratePair random in
  or_answer "" (
    privateKeyBytes ← bls_private_ToByteArray privateKey;
    Ok (hex_EncodeToString privateKeyBytes)).

Definition doGeneratePublicKeyAsHex (privateKeyHex : string) : outcome string :=
  or_answer "" (
    privateKeyBytes ← decodeInputParameter privateKeyHex;
    privateKey ← bls_PrivateKeyFromByteArray privateKeyBytes;
    let publicKey := bls_GeneratePublic privateKey in
    publicKeyBytes ← bls_public_ToByteArray publicKey;
    Ok (hex_EncodeToString publicKeyBytes)).

Definition doComputeMessageSignatureAsHex (messageHex privateKeyHex : string) : outcome string :=
  or_answer "" (
    message ← decodeInputParameter messageHex;
    privateKeyBytes ← decodeInputParameter privateKeyHex;
    privateKey ← bls_PrivateKeyFromByteArray privateKeyBytes;
    signature ← bls_Sign privateKey message;
    Ok (hex_EncodeToString signature)).

Definition doVerifyMessageSignature (publicKeyHex messageHex signatureHex : string) : outcome bool :=
  or_answer false (
    publicKeyBytes ← decodeInputParameter publicKeyHex;
    message ← decodeInputParameter messageHex;
    signature ← decodeInputParameter signatureHex;
    publicKey ← bls_PublicKeyFromByteArray publicKeyBytes;
    _ ← bls_Verify publicKey message signature;
    Ok true).

(** ** [main.go]

    A [*C.char] is the memory from its address on: [C.GoString] reads up to the
    first zero byte, [C.CString] copies a text and ends it with one. *)

Fixpoint C_GoString (memory : string) : string :=
  match memory with
  | EmptyString => EmptyString
  | String c rest => if Ascii.eqb c "000" then EmptyString else String c (C_GoString rest)
  end.

Definition C_CString (s : string) : string := s +:+ String "000" EmptyString.

Definition generatePublicKey (privateKey : string) : outcome string :=
  let privateKeyHex := C_GoString privateKey in
  C_CString <$> doGeneratePublicKeyAsHex privateKeyHex.

Definition computeMessageSignature (message privateKey : string) : outcome string :=
  let messageHex := C_GoString message in
  let privateKeyHex := C_GoString privateKey in
  C_CString <$> doComputeMessageSignatureAsHex messageHex privateKeyHex.

Definition verifyMessageSignature (publicKey message signature : string) : outcome Z :=
  let publicKeyHex := C_GoString publicKey in
  let messageHex := C_GoString message in
  let signatureHex := C_GoString signature in
  ok ← doVerifyMessageSignature publicKeyHex messageHex signatureHex;
  Ok (if ok : bool then 1 else 0).

Definition generatePrivateKey (random : bls_Random) : outcome string :=
  C_CString <$> doGeneratePrivateKeyAsHex random.

(** ** Properties *)

Lemma or_answer_Ok {A} (d : A) o a : or_answer d o = Ok a → o = Ok a ∨ (a = d ∧ ∃ e, o = Fail e).
Proof. destruct o; cbn; intros E; simplify_eq; eauto. Qed.

(** A text of hexadecimal digits survives the way through C. *)
Lemma C_GoString_CString_hex b rest : C_GoString (hex_EncodeToString b +:+ String "000" rest) = hex_EncodeToString b.
Proof.
  pose proof (hex_Encode_chars b) as Hc. revert Hc. generalize (hex_EncodeToString b) as s. intros s.
  induction s as [|c s IH]; [done|]. cbn [string_forallb]. intros [Hc Hs]%andb_prop.
  change (String c s +:+ ?t) with (String c (s +:+ t)). cbn [C_GoString]. destruct (Ascii.eqb_spec c "000") as [->|_]; [by vm_compute in Hc|]. by rewrite IH.
Qed.

Lemma decode_hex_in_memory b rest :
  decodeInputParameter (C_GoString (C_CString (hex_EncodeToString b) +:+ rest)) = Ok b.
Proof.
  unfold C_CString. rewrite <-string_app_assoc. change (String "000" "" +:+ rest) with (String "000" rest).
  rewrite C_GoString_CString_hex. apply hex_Decode_Encode.
Qed.

(** The private key of the hexadecimal text that C memory holds. *)
Definition key_at (memory : string) : outcome bls_PrivateKey :=
  b ← decodeInputParameter (C_GoString memory); bls_PrivateKeyFromByteArray b.

Lemma generatePublicKey_inv privateKey pk :
  generatePublicKey privateKey = Ok pk → pk ≠ C_CString "" →
  ∃ sk b, key_at privateKey = Ok sk ∧ bls_public_ToByteArray (bls_GeneratePublic sk) = Ok b ∧
          pk = C_CString (hex_EncodeToString b).
Proof.
  unfold generatePublicKey, doGeneratePublicKeyAsHex, key_at. intros E Hne.
  destruct (or_answer _ _) as [s| |] eqn:Eo; cbn in E; [|done..]. injection E as <-.
  apply or_answer_Ok in Eo as [Eo|[-> _]]; [|done].
  destruct (decodeInputParameter _) as [b| |]; cbn in Eo |- *; [|done..].
  destruct (bls_PrivateKeyFromByteArray b) as [sk| |]; cbn in Eo; [|done..].
  destruct (bls_public_ToByteArray _) as [pb| |] eqn:Ep; cbn in Eo; [|done..]. injection Eo as <-. by exists sk, pb.
Qed.

Lemma computeMessageSignature_inv message privateKey sig :
  computeMessageSignature message privateKey = Ok sig → sig ≠ C_CString "" →
  ∃ m sk b, decodeInputParameter (C_GoString message) = Ok m ∧ key_at privateKey = Ok sk ∧
            bls_Sign sk m = Ok b ∧ sig = C_CString (hex_EncodeToString b).
Proof.
  unfold computeMessageSignature, doComputeMessageSignatureAsHex, key_at. intros E Hne.
  destruct (or_answer _ _) as [s| |] eqn:Eo; cbn in E; [|done..]. injection E as <-.
  apply or_answer_Ok in Eo as [Eo|[-> _]]; [|done].
  destruct (decodeInputParameter (C_GoString message)) as [m| |]; cbn in Eo |- *; [|done..].
  destruct (decodeInputParameter (C_GoString privateKey)) as [b| |]; cbn in Eo |- *; [|done..].
  destruct (bls_PrivateKeyFromByteArray b) as [sk| |]; cbn in Eo; [|done..].
  destruct (bls_Sign sk m) as [sb| |] eqn:Es; cbn in Eo; [|done..]. injection Eo as <-. by exists m, sk, sb.
Qed.

Lemma verifyMessageSignature_run publicKey message signature pb m sb pk :
  decodeInputParameter (C_GoString publicKey) = Ok pb → decodeInputParameter (C_GoString message) = Ok m →
  decodeInputParameter (C_GoString signature) = Ok sb → bls_PublicKeyFromByteArray pb = Ok pk →
  bls_Verify pk m sb = Ok () → verifyMessageSignature publicKey message signature = Ok 1.
Proof.
  intros Ep Em Es Ek Ev. unfold verifyMessageSignature, doVerifyMessageSignature.
  rewrite Ep, Em, Es. cbn. rewrite Ek. cbn. by rewrite Ev.
Qed.

(** for a signature and a public key made through the exported functions from the
    same private key (neither of them the empty text that stands for an error), the
    exported check answers 1 for the message that was signed, whatever follows the
    texts in the memory of the caller. *)
Theorem exported_signature_verifies `{!BlsLaws} privateKey message pk sig :
  generatePublicKey privateKey = Ok pk → computeMessageSignature message privateKey = Ok sig →
  pk ≠ C_CString "" → sig ≠ C_CString "" →
  ∀ after_pk after_sig, verifyMessageSignature (pk +:+ after_pk) message (sig +:+ after_sig) = Ok 1.
Proof.
  intros Ep Es Hp Hs after_pk after_sig.
  destruct (generatePublicKey_inv _ _ Ep Hp) as (sk & pb & Ek & Eb & ->).
  destruct (computeMessageSignature_inv _ _ _ Es Hs) as (m & sk' & sb & Em & Ek' & Esig & ->).
  rewrite Ek in Ek'. injection Ek' as <-. eapply verifyMessageSignature_run; [apply decode_hex_in_memory|exact Em|apply decode_hex_in_memory| |].
  - by apply bls_public_bytes.
  - by apply (bls_correct _ _ _ Esig).
Qed.

(** a generated private key is a usable one: when the three encodings succeed, the
    public key made from its text is the one of the pair. *)
Theorem generated_key_is_usable `{!BlsLaws} random b pb :
  bls_private_ToByteArray (bls_GeneratePair random).1 = Ok b →
  bls_public_ToByteArray (bls_GeneratePair random).2 = Ok pb →
  (text ← generatePrivateKey random; generatePublicKey text) = Ok (C_CString (hex_EncodeToString pb)).
Proof.
  intros Eb Ep. unfold generatePrivateKey, doGeneratePrivateKeyAsHex.
  pose proof (bls_pair random) as Hpair. destruct (bls_GeneratePair random) as [sk pk]. cbn in Eb, Ep, Hpair. subst pk.
  rewrite Eb. cbn. unfold generatePublicKey, C_CString, doGeneratePublicKeyAsHex.
  rewrite C_GoString_CString_hex. unfold decodeInputParameter. rewrite hex_Decode_Encode. cbn.
  rewrite (bls_private_bytes _ _ Eb). cbn. by rewrite Ep.
Qed.

(** the check answers 1 only for a signature that the signer accepts: texts that
    are not hexadecimal, a public key that is not one and a signature that does not
    verify are all answered 0. *)
Theorem exported_check_is_sound publicKey message signature :
  verifyMessageSignature publicKey message signature = Ok 1 →
  ∃ pb m sb pk, decodeInputParameter (C_GoString publicKey) = Ok pb ∧ decodeInputParameter (C_GoString message) = Ok m ∧
    decodeInputParameter (C_GoString signature) = Ok sb ∧ bls_PublicKeyFromByteArray pb = Ok pk ∧
    bls_Verify pk m sb = Ok ().
Proof.
  unfold verifyMessageSignature, doVerifyMessageSignature.
  destruct (decodeInputParameter (C_GoString publicKey)) as [pb| |]; cbn; [|done..].
  destruct (decodeInputParameter (C_GoString message)) as [m| |]; cbn; [|done..].
  destruct (decodeInputParameter (C_GoString signature)) as [sb| |]; cbn; [|done..].
  destruct (bls_PublicKeyFromByteArray pb) as [pk| |] eqn:Ek; cbn; [|done..].
  destruct (bls_Verify pk m sb) as [[]| |] eqn:Ev; [|done..]. intros _. by exists pb, m, sb, pk.
Qed.
End Libbls.

(** ** A run with a toy scheme: a signature is the key before the message *)

Module LibblsRun.
#[local] Instance toy_bls : Bls := {|
  bls_PrivateKey := bytes; bls_PublicKey := bytes; bls_Random := byte;
  bls_GeneratePair r := ([r; r], [r; r]);
  bls_PrivateKeyFromByteArray b := if Nat.eqb (length b) 2 then Ok b else Fail (ErrText "key");
  bls_PublicKeyFromByteArray b := if Nat.eqb (length b) 2 then Ok b else Fail (ErrText "key");
  bls_GeneratePublic sk := sk;
  bls_private_ToByteArray sk := if Nat.eqb (length sk) 2 then Ok sk else Fail (ErrText "key");
  bls_public_ToByteArray pk := if Nat.eqb (length pk) 2 then Ok pk else Fail (ErrText "key");
  bls_Sign sk m := Ok (sk ++ m);
  bls_Verify pk m sig := if bool_decide (sig = pk ++ m) then Ok () else Fail (ErrText "signature") |}.

#[local] Instance toy_bls_laws : BlsLaws.
Proof.
  split; cbn; [..|done|].
  - intros sk b. destruct (Nat.eqb (length sk) 2) eqn:E; [|done]. intros [= <-]. by rewrite E.
  - intros pk b. destruct (Nat.eqb (length pk) 2) eqn:E; [|done]. intros [= <-]. by rewrite E.
  - intros sk m sig [= <-]. by rewrite bool_decide_true.
Qed.

Definition key : string := "0a0b".
Definition message : string := C_CString "ff00" +:+ "garbage".

Lemma exported_signature_verifies_witness :
  verifyMessageSignature (C_CString "0a0b" +:+ "xyz") message (C_CString "0a0bff00" +:+ "") = Ok 1.
Proof. by apply (exported_signature_verifies (C_CString key) message). Defined.

Lemma generated_key_is_usable_witness :
  (text ← @generatePrivateKey toy_bls x7f; generatePublicKey text) = Ok (C_CString "7f7f").
Proof. apply (@generated_key_is_usable toy_bls toy_bls_laws x7f [x7f; x7f] [x7f; x7f]); reflexivity. Defined.

Lemma exported_check_is_sound_witness :
  ∃ pb m sb pk, decodeInputParameter (C_GoString "0A0B") = Ok pb ∧ decodeInputParameter (C_GoString message) = Ok m ∧
    decodeInputParameter (C_GoString "0a0bff00") = Ok sb ∧ bls_PublicKeyFromByteArray pb = Ok pk ∧
    bls_Verify pk m sb = Ok ().
Proof. by apply exported_check_is_sound. Defined.

(** An odd number of digits, and the same text in capitals. *)
Example odd_text : computeMessageSignature (C_CString "fff") (C_CString key) = Ok (C_CString "").
Proof. reflexivity. Qed.
End LibblsRun.
