(* ===== verification/Balance.v ===== *)
(** * The balance of an account as a float ([data/account.go])

    [Account.GetBalance] divides big floats: [big.Float]s of precision 53, as
    [big.NewFloat] makes them, read from text by [SetString] with all of its syntax
    and rounding.  A big float is a [spec_float] whose exponents may be any 32 bit
    integers. *)

From S2P Require Export Responses ParseFloat.

(** ** [math/big.Float], rounding to the nearest even *)

Definition big_emax : Z := 2 ^ 31 - 1.
Definition MinExp : Z := - 2 ^ 31.
Definition big_round (prec : Z) (neg : bool) (mant e : Z) : spec_float :=
  match mant with Zpos m => binary_round prec big_emax neg m e | _ => S754_zero neg end.
Definition big_Mul (prec : Z) : spec_float → spec_float → spec_float := SFmul prec big_emax.
Definition big_Quo (prec : Z) : spec_float → spec_float → spec_float := SFdiv prec big_emax.

(** [x.Float64()] *)
Definition big_Float64 (x : spec_float) : float64 :=
  match x with S754_finite s m e => binary_round 53 1024 s m e | _ => x end.

(** [pow5]: the powers up to [5^27] exactly, the others by squaring, the squares
    with 64 bits more. *)
Fixpoint pow5_loop (prec : Z) (n : BinNums.positive) (z f : spec_float) : spec_float :=
  match n with
  | xH => big_Mul prec z f
  | xO n => pow5_loop prec n z (big_Mul (prec + 64) f f)
  | xI n => pow5_loop prec n (big_Mul prec z f) (big_Mul (prec + 64) f f)
  end.
Definition pow5 (prec n : Z) : spec_float :=
  match n - 27 with
  | Zpos k => pow5_loop prec k (big_round prec false (5 ^ 27) 0) (big_round (prec + 64) false 5 0)
  | _ => big_round prec false (5 ^ n) 0
  end.

(** *** Reading the mantissa

    The digits with at most one point, underscores only after a digit or a prefix:
    the value, the number of digits, the point's place, whether the last character
    was an underscore and whether one was misplaced, and the rest. *)
Fixpoint scan_mantissa (b : Z) (s : string) (mant count : Z) (dp : option Z) (last : saw) (inval : bool) :
    Z * Z * option Z * saw * bool * string :=
  match s with
  | EmptyString => (mant, count, dp, last, inval, s)
  | String c s' =>
    if Ascii.eqb c "." && negb (bool_decide (is_Some dp))
    then scan_mantissa b s' mant count (Some count) SawOther (inval || match last with SawUnder => true | _ => false end)
    else if Ascii.eqb c "_"
    then scan_mantissa b s' mant count dp SawUnder (inval || match last with SawDigit => false | _ => true end)
    else match hex_value c with
         | Some v => if v <? b then scan_mantissa b s' (mant * b + v) (count + 1) dp SawDigit inval
                     else (mant, count, dp, last, inval, s)
         | None => (mant, count, dp, last, inval, s)
         end
  end.

(** The base prefix: its base and what follows; a zero without one is a digit. *)
Definition scan_prefix (s : string) : option (Z * string) :=
  match s with
  | String "0" (String x s') =>
    let x := to_lower x in
    if Ascii.eqb x "b" then Some (2, s') else if Ascii.eqb x "o" then Some (8, s')
    else if Ascii.eqb x "x" then Some (16, s') else None
  | _ => None
  end.

(** *** Reading the exponent: its digits, and the value with the base of the power *)
Fixpoint scan_exp_digits (s : string) (e : Z) (digits : bool) (last : saw) (inval : bool) : Z * bool * bool * string :=
  match s with
  | EmptyString => (e, digits, inval || match last with SawUnder => true | _ => false end, s)
  | String c s' =>
    if Ascii.eqb c "_"
    then scan_exp_digits s' e digits SawUnder (inval || match last with SawDigit => false | _ => true end)
    else match digit_value false c with
         | Some v => scan_exp_digits s' (e * 10 + v) true SawDigit inval
         | None => (e, digits, inval || match last with SawUnder => true | _ => false end, s)
         end
  end.

Definition scanExponent (s : string) : option (Z * Z * string) :=
  match s with
  | String c s' =>
    let base := if Ascii.eqb (to_lower c) "e" then Some 10 else if Ascii.eqb (to_lower c) "p" then Some 2 else None in
    match base with
    | None => Some (0, 10, s)
    | Some base =>
      let neg := match s' with String "-" _ => true | _ => false end in
      let '(e, digits, inval, rest) := scan_exp_digits (drop_sign s') 0 false SawOther false in
      let e := if neg then - e else e in
      if negb digits || inval || negb (bool_decide (is_i64 e)) then None else Some (e, base, rest)
    end
  | EmptyString => Some (0, 10, s)
  end.

(** [new(Float).SetPrec(53).SetString(s)]; none is a failure. *)
Definition big_SetString (s : string) : option spec_float :=
  let neg := match s with String "-" _ => true | _ => false end in
  let body := drop_sign s in
  if String.eqb body "Inf" || String.eqb body "inf" then Some (S754_infinity neg)
  else
    let '(b, body, last) := match scan_prefix body with Some (b, rest) => (b, rest, SawDigit) | None => (10, body, SawOther) end in
    let '(mant, count, dp, last, inval, rest) := scan_mantissa b body 0 0 None last false in
    if (count =? 0) || inval || match last with SawUnder => true | _ => false end then None
    else
      '(exp, ebase, rest) ← scanExponent rest;
      match rest with
      | String _ _ => None
      | EmptyString =>
        match mant with
        | Zpos m =>
          let d := match dp with Some dp => dp - count | None => 0 end in
          let '(scale2, scale5) := if b =? 10 then (d, d) else if b =? 2 then (d, 0) else if b =? 8 then (d * 3, 0) else (d * 4, 0) in
          let '(e2, exp5) := if ebase =? 10 then (scale2 + exp, scale5 + exp) else (scale2 + exp, scale5) in
          let exp2 := Zpos (digits2_pos m) + e2 in
          if (exp2 <? MinExp) || (big_emax <? exp2) then None
          else
            let z := S754_finite neg m e2 in
            Some (if exp5 =? 0 then big_round 53 neg mant e2
                  else if exp5 <? 0 then big_Quo 53 z (pow5 117 (- exp5)) else big_Mul 53 z (pow5 117 exp5))
        | _ => Some (S754_zero neg)
        end
      end.

(** ** [account.go] *)

Definition errInvalidBalance : error := ErrVar "data.errInvalidBalance".

(** [Exp] with an exponent that is not positive, and no modulus, is 1. *)
Definition denominationMultiplier (decimals : Z) : Z := if decimals <=? 0 then 1 else 10 ^ decimals.

Definition GetBalance (a : Account) (decimals : Z) : outcome float64 :=
  balance ← of_option errInvalidBalance (big_SetString (acc_Balance a));
  let floatDenomination := default f64_zero (big_SetString (itoa (denominationMultiplier decimals))) in
  Ok (big_Float64 (big_Quo 53 balance floatDenomination)).

(** *** Tests against the syntax of [math/big] *)

Definition balance_of (s : string) (decimals : Z) : outcome float64 := GetBalance (simpleAccount 0 s) decimals.
Definition float_of (s : string) : outcome float64 := strconv_ParseFloat s.

Example balance_tests :
  balance_of "1234567890123456789" 18 = float_of "1.2345678901234568" ∧
  balance_of "0" 18 = Ok f64_zero ∧ balance_of "" 18 = Fail errInvalidBalance ∧
  balance_of "10 " 18 = Fail errInvalidBalance ∧ balance_of "0x10" 0 = float_of "16" ∧
  balance_of "1_000" 1 = float_of "100" ∧ balance_of "1__0" 1 = Fail errInvalidBalance ∧
  balance_of "-2.5e1" (-3) = float_of "-25" ∧ balance_of "1p10" 0 = float_of "1024" ∧
  balance_of "012" 0 = float_of "12" ∧ balance_of "0_1" 0 = float_of "1" ∧ balance_of "_1" 0 = Fail errInvalidBalance ∧
  balance_of "1e" 0 = Fail errInvalidBalance ∧ balance_of "Inf" 18 = Ok (S754_infinity false) ∧
  balance_of "1e400" 0 = Ok (S754_infinity false).
Proof. vm_compute. repeat split; reflexivity. Qed.

(** ** Reading what the network writes: a whole number in decimal *)

(** The value of digits read after a number. *)
Fixpoint uint_val (d : Decimal.uint) (acc : Z) : Z :=
  match d with
  | Decimal.Nil => acc
  | Decimal.D0 d => uint_val d (acc * 10 + 0)
  | Decimal.D1 d => uint_val d (acc * 10 + 1)
  | Decimal.D2 d => uint_val d (acc * 10 + 2)
  | Decimal.D3 d => uint_val d (acc * 10 + 3)
  | Decimal.D4 d => uint_val d (acc * 10 + 4)
  | Decimal.D5 d => uint_val d (acc * 10 + 5)
  | Decimal.D6 d => uint_val d (acc * 10 + 6)
  | Decimal.D7 d => uint_val d (acc * 10 + 7)
  | Decimal.D8 d => uint_val d (acc * 10 + 8)
  | Decimal.D9 d => uint_val d (acc * 10 + 9)
  end.

Lemma uint_val_pos d p : uint_val d (Zpos p) = Zpos (Pos.of_uint_acc d p).
Proof. revert p. induction d; intros p; [done|..]; cbn [uint_val Pos.of_uint_acc]; rewrite <-IHd; f_equal; lia. Qed.

Lemma uint_val_of d : uint_val d 0 = Z.of_N (Pos.of_uint d).
Proof. induction d; [done|done|..]; cbn [uint_val Pos.of_uint]; apply (uint_val_pos d). Qed.

Lemma scan_uint d mant count last :
  ∃ n, scan_mantissa 10 (DecimalString.NilEmpty.string_of_uint d) mant count None last false =
       (uint_val d mant, count + Z.of_nat n, None, match n with O => last | _ => SawDigit end, false, "")
       ∧ (n = O → d = Decimal.Nil).
Proof.
  revert mant count last. induction d; intros mant count last; [exists 0%nat; cbn; by rewrite Z.add_0_r|..];
    match goal with |- context [uint_val ?D mant] =>
      let v := eval cbn [uint_val] in (uint_val D mant) in
      match v with uint_val _ ?m => destruct (IHd m (count + 1) SawDigit) as (n & E & _) end end;
    exists (S n); (split; [|done]); (etrans; [exact E|]); cbn [uint_val];
    replace (count + Z.of_nat (S n)) with (count + 1 + Z.of_nat n) by lia; by destruct n.
Qed.

Lemma uint_string_first d : d ≠ Decimal.Nil →
  ∃ c s, DecimalString.NilEmpty.string_of_uint d = String c s ∧ drop_sign (String c s) = String c s ∧
         scan_prefix (String c s) = None ∧ String.eqb (String c s) "Inf" || String.eqb (String c s) "inf" = false ∧
         match String c s with String "-" _ => true | _ => false end = false.
Proof.
  intros Hd. destruct d; [done| |by eexists _, _..]. eexists _, _. split; [done|]. split; [done|]. split; [|done].
  destruct d; reflexivity.
Qed.

(** A whole number in decimal is read as that number, rounded once. *)
Lemma big_SetString_itoa z : 0 ≤ z → Zpos (digits2_pos (Z.to_pos z)) ≤ big_emax →
  big_SetString (itoa z) = Some (big_round 53 false z 0).
Proof.
  intros Hz Hb. unfold itoa. pose proof (to_int_nonnil z) as Hn.
  assert (∃ d, Z.to_int z = Decimal.Pos d ∧ d ≠ Decimal.Nil ∧ uint_val d 0 = z) as (d & -> & Hd & Hv).
  { destruct z as [|p|p]; cbn in Hn |- *; [by exists (Decimal.D0 Decimal.Nil)| |lia]. eexists. split; [done|]. split; [done|].
    rewrite uint_val_of. cbn. by rewrite DecimalPos.Unsigned.of_to. }
  replace (DecimalString.NilZero.string_of_int (Decimal.Pos d)) with (DecimalString.NilEmpty.string_of_uint d) by by destruct d.
  destruct (scan_uint d 0 0 SawOther) as (n & Es & Hnil). destruct (uint_string_first d Hd) as (c & s & Ed & E1 & E2 & E3 & E4).
  rewrite Ed in *. unfold big_SetString. rewrite E1, E2, E3, E4, Es.
  destruct n as [|n]; [by destruct Hd, Hnil|]. rewrite Hv.
  replace (0 + Z.of_nat (S n) =? 0) with false by (symmetry; apply Z.eqb_neq; lia).
  cbn -[Z.of_nat digits2_pos big_emax MinExp]. destruct z as [|p|p]; [done| |lia].
  rewrite !Z.add_0_r. cbn [Z.to_pos] in Hb. unfold MinExp.
  destruct (Z.ltb_spec (Zpos (digits2_pos p)) (- 2 ^ 31)); [lia|].
  by destruct (Z.ltb_spec big_emax (Zpos (digits2_pos p))); [lia|].
Qed.

Lemma digits2_low p : 2 ^ (Zpos (digits2_pos p) - 1) ≤ Zpos p.
Proof.
  induction p as [p IH|p IH|]; cbn [digits2_pos]; [| |by vm_compute];
    replace (Zpos (Pos.succ (digits2_pos p)) - 1) with (Z.succ (Zpos (digits2_pos p) - 1)) by lia;
    rewrite Z.pow_succ_r by lia; lia.
Qed.

Lemma digits2_small z k : 0 ≤ z < 2 ^ k → 1 ≤ k < 2 ^ 31 → Zpos (digits2_pos (Z.to_pos z)) ≤ big_emax.
Proof.
  intros Hz Hk. unfold big_emax. destruct z as [|p|p]; [cbn; lia| |lia]. cbn [Z.to_pos].
  pose proof (digits2_low p) as Hp. assert (Zpos (digits2_pos p) - 1 < k); [|lia].
  apply (Z.pow_lt_mono_r_iff 2); lia.
Qed.

Lemma denomination_range decimals : decimals ≤ 1000 → 0 ≤ denominationMultiplier decimals < 2 ^ 3400.
Proof.
  intros Hd. unfold denominationMultiplier. destruct (Z.leb_spec decimals 0) as [_|Hpos]; [split; [lia|by vm_compute]|].
  split; [lia|]. apply Z.le_lt_trans with (10 ^ 1000); [by apply Z.pow_le_mono_r|by vm_compute].
Qed.

(** for a balance as the network writes it, a whole number in decimal digits, and up
    to 1000 decimals, [GetBalance] never fails: it is the quotient of the balance and
    the power of ten, each rounded to 53 bits, rounded to 53 bits; a number of decimals
    that is not positive counts as none. *)
Theorem GetBalance_of_whole a z decimals :
  acc_Balance a = itoa z → 0 ≤ z < 2 ^ 128 → decimals ≤ 1000 →
  GetBalance a decimals =
  Ok (big_Float64 (big_Quo 53 (big_round 53 false z 0) (big_round 53 false (denominationMultiplier decimals) 0))).
Proof.
  intros Ea Hz Hd. unfold GetBalance. pose proof (denomination_range decimals Hd).
  rewrite Ea, !big_SetString_itoa; try lia; [done|apply (digits2_small _ 128); [done|lia]|apply (digits2_small _ 3400); [done|lia]].
Qed.

Lemma GetBalance_of_whole_witness :
  GetBalance (simpleAccount 0 (itoa 1500000000000000000)) 18 =
  Ok (big_Float64 (big_Quo 53 (big_round 53 false 1500000000000000000 0) (big_round 53 false (denominationMultiplier 18) 0))).
Proof. by apply GetBalance_of_whole. Defined.
