(* ===== verification/Examples.v ===== *)
(** * The sample programs ([examples/])

    [examplesTransaction], [examplesAccount], [examplesBlock], [examplesVMQuery] and
    [examplesWallet], from the point where [NewProxy] has answered: the client wrapper,
    the routes and the finality provider are the context, the base proxy is the state.
    An error is logged and ends the program; here it is the result. *)

From S2P Require Export ProxyClient Balance.

Section Samples.
Context `{Primitives} `{Crypto} `{PubkeyConverter} {W : Type} `{HttpClientWrapper W} `{Clock W} `{EndpointProvider} `{ApiJson}
  `{FinalityProvider W} `{ShardingCoordinator} `{MapRangeZ string}.
Variable ep : proxy.

Abbreviation St := (baseProxy * W)%type.
#[local] Instance sample_InteractorProxy : InteractorProxy St := proxy_InteractorProxy ep.

(** ** [examplesTransaction/main.go]

    The variable [tx] is one cell of memory: both signatures are written into it, and
    both calls of [AddTransaction] pass its address, here the pointer 1.  [txBuilder] is
    the signer of both signatures. *)

(** [tx.Version = 2; tx.Options = 1; tx.Nonce++] *)
Definition second_arguments (tx : FrontendTransaction) : FrontendTransaction :=
  mkTx (u64 (tx_Nonce tx + 1)) (tx_Value tx) (tx_Receiver tx) (tx_Sender tx) (tx_GasPrice tx) (tx_GasLimit tx)
    (tx_Data tx) (tx_Signature tx) (tx_ChainID tx) 2 1 (tx_GuardianAddr tx) (tx_GuardianSignature tx).

Definition examplesTransaction : M St (list string) :=
  privateKey ← lift (LoadPrivateKeyFromPemData (bytes_of_string AlicePemContents));
  address ← lift (GetAddressFromPrivateKey privateKey);
  netConfigs ← BaseProxy.GetNetworkConfig;
  '(tx, _) ← Proxy.GetDefaultTransactionArguments ep (Some address) netConfigs;
  receiverAsBech32String ← lift (AddressAsBech32String address);
  let tx := tx_setValue "1000000000000000000" (tx_setReceiver receiverAsBech32String tx) in
  let holder := match NewCryptoComponentsHolder privateKey with Ok h => Some h | _ => None end in
  txBuilder ← lift (NewTxBuilder (Some signer));
  ti ← lift (NewTransactionInteractor false false);
  holder ← deref holder;
  tx ← lift (signed (ApplyUserSignature holder) tx);
  let ti := AddTransaction (Some 1%positive) ti in
  tx ← lift (signed (ApplyUserSignature holder) (second_arguments tx));
  let ti := AddTransaction (Some 1%positive) ti in
  sendBunch {[ 1%positive := tx ]} ti.

(** ** [examplesAccount/main.go]: the nonce and the balance it logs *)
Definition sampleAccount : string := "erd1adfmxhyczrl2t97yx92v5nywqyse0c7qh4xs0p4artg2utnu90pspgvqty".
Definition examplesAccount : M St (Z * float64) :=
  networkConfig ← BaseProxy.GetNetworkConfig;
  address ← lift (NewAddressFromBech32String sampleAccount);
  accountInfo ← Proxy.GetAccount ep (Some address);
  accountInfo ← deref accountInfo;
  networkConfig ← deref networkConfig;
  floatBalance ← lift (GetBalance accountInfo (nc_Denomination networkConfig));
  mret (acc_Nonce accountInfo, floatBalance).

(** ** [examplesBlock/main.go]: the block it writes *)
Definition examplesBlock : M St HyperBlock :=
  nonce ← onsnd Proxy.GetLatestHyperBlockNonce;
  onsnd (Proxy.GetHyperBlockByNonce nonce).

(** ** [examplesVMQuery/main.go]: the contract version it logs *)
Definition sampleVmRequest : VmValueRequest :=
  mkVmValueRequest "erd1qqqqqqqqqqqqqpgqp699jngundfqw07d8jzkepucvpzush6k3wvqyc44rx" "version"
    "erd1rh5ws22jxm9pe7dtvhfy6j3uttuupkepferdwtmslms5fydtrh5sx3xr8r" "" [].
Definition examplesVMQuery : M St string :=
  response ← Proxy.ExecuteVMQuery ep (Some sampleVmRequest);
  data ← deref response;
  match vmo_ReturnData data with
  | contractVersion :: _ => mret (string_of_bytes contractVersion)
  | [] => panic
  end.

(** ** [examplesWallet/main.go]: the two addresses it logs, of the keys 0 and 1 *)
Definition examplesWallet {R} `{Random R} : M R (string * string) :=
  mnemonic ← GenerateMnemonic;
  let privateKey0 := GetPrivateKeyFromMnemonic mnemonic 0 0 in
  address0 ← lift (GetAddressFromPrivateKey privateKey0);
  address0AsBech32String ← lift (AddressAsBech32String address0);
  let privateKey1 := GetPrivateKeyFromMnemonic mnemonic 0 1 in
  address1 ← lift (GetAddressFromPrivateKey privateKey1);
  address1AsBech32String ← lift (AddressAsBech32String address1);
  mret (address0AsBech32String, address1AsBech32String).

(** *** Properties *)

(** The query sample takes the first value returned without looking whether there is
    one: a query that the virtual machine refuses ends it with a panic. *)
Lemma sample_query_panics s out s' :
  Proxy.ExecuteVMQuery ep (Some sampleVmRequest) s = (Ok (Some out), s') → vmo_ReturnData out = [] →
  examplesVMQuery s = (Panic, s').
Proof. intros E Hr. unfold examplesVMQuery. mred. rewrite E. cbn. by rewrite Hr. Qed.

Context `{!CryptoLaws}.

Lemma sendBunch_two (tx : FrontendTransaction) ti s r s' :
  txAccumulator ti = [1%positive; 1%positive] → sendBunch {[ 1%positive := tx ]} ti s = (Ok r, s') →
  onsnd (Proxy.SendTransactions [tx; tx]) s = (Ok r, s').
Proof.
  intros Ha. unfold sendBunch. destruct (SendTransactionsAsBunch_run {[ 1%positive := tx ]} 100 ti s) as (bs & Hb & Hc & ->); [done|].
  rewrite Ha in Hb, Hc. inversion Hb as [|l _ _|c l bs' Hlen _ _]; subst.
  - cbn [mcollect fmap list_fmap]. change (heap_tx {[1%positive := tx]} 1%positive) with tx.
    cbn [px_SendTransactions sample_InteractorProxy proxy_InteractorProxy]. mred.
    destruct s as [b w]. destruct (Proxy.SendTransactions [tx; tx] w) as [[hs|e|] w1]; intros ?; simplify_eq/=; by rewrite ?app_nil_r.
  - match goal with E : c ++ l = _ |- _ => apply (f_equal length) in E; rewrite length_app, Hlen in E; cbn [length] in E; lia end.
Qed.

Lemma signed_run m (tx tx' : FrontendTransaction) : signed m tx = Ok tx' → m tx = (Ok (), tx').
Proof. unfold signed. destruct (m tx) as [[[]|e|] t]; by intros [= <-]. Qed.

(** C22: the transaction sample puts the address of one variable into the accumulator twice,
    and changes the variable in between: a run that succeeds makes a single call that
    sends the second transaction twice - signed, with the nonce after the account's -
    and never sends a transaction with the account's nonce. *)
Theorem sample_sends_second_twice s hashes s' :
  examplesTransaction s = (Ok hashes, s') →
  ∃ a cfg s1 tx balance s2 tx2 h signature,
    BaseProxy.GetNetworkConfig s = (Ok cfg, s1) ∧
    Proxy.GetDefaultTransactionArguments ep (Some a) cfg s1 = (Ok (tx, balance), s2) ∧
    onsnd (Proxy.SendTransactions [tx2; tx2]) s2 = (Ok hashes, s') ∧
    tx_Nonce tx2 = u64 (tx_Nonce tx + 1) ∧ tx_Nonce tx2 ≠ tx_Nonce tx ∧
    hex_DecodeString (tx_Signature tx2) = Ok signature ∧ verifies tx2 (GetPublicKey h) signature = Ok ().
Proof.
  intros E. apply M_bind_Ok in E as (sk & s0 & E0 & E). apply lift_Ok in E0 as [_ ->].
  apply M_bind_Ok in E as (a & s0 & E0 & E). apply lift_Ok in E0 as [_ ->].
  apply M_bind_Ok in E as (cfg & s1 & Ecfg & E). apply M_bind_Ok in E as ([tx balance] & s2 & Eargs & E).
  apply M_bind_Ok in E as (receiver & s0 & E0 & E). apply lift_Ok in E0 as [_ ->].
  apply M_bind_Ok in E as (b & s0 & E0 & E). apply lift_Ok in E0 as [[= <-] ->].
  apply M_bind_Ok in E as (ti & s0 & E0 & E). apply lift_Ok in E0 as [[= <-] ->].
  destruct (NewCryptoComponentsHolder sk) as [h|e|] eqn:Eh; [|done..].
  apply M_bind_Ok in E as (h' & s0 & E0 & E). apply deref_Ok in E0 as [[= <-] ->].
  apply M_bind_Ok in E as (tx1 & s0 & E0 & E). apply lift_Ok in E0 as [E1%signed_run ->].
  apply M_bind_Ok in E as (tx2 & s0 & E0 & E). apply lift_Ok in E0 as [E2%signed_run ->].
  pose proof (NewCryptoComponentsHolder_ok _ _ Eh) as Hh.
  destruct (ApplyUserSignature_run h _ _ Hh E1) as (? & _ & _ & ->).
  destruct (ApplyUserSignature_run h _ _ Hh E2) as (signature & Ed & Ev & Htx).
  exists a, cfg, s1, tx, balance, s2, tx2, h, signature.
  split_and!; [done|done|eapply sendBunch_two; [|exact E]; done|by rewrite Htx| |done|done].
  rewrite Htx. cbn. unfold u64. intros Hn. zdiv.
Qed.
End Samples.

(** ** The programs, from their [NewProxy] on *)

Section Programs.
Context `{Primitives} `{Crypto} `{PubkeyConverter} {W : Type} `{Clock W} `{ApiJson} `{ShardingCoordinator} `{MapRangeZ string}.
Context (bad_url : string → option error) (client_Do : request → W → (error + Http.response) * W).

(** A nil client is the default one of [net/http]. *)
#[local] Instance gateway_client : HttpClientWrapper W := clientWrapper bad_url client_Do TestnetGateway.

Definition transaction_main : M W (list string) :=
  with_proxy gateway_client sampleArgs (λ provider finality ep, examplesTransaction ep).
Definition account_main : M W (Z * float64) := with_proxy gateway_client sampleArgs (λ provider finality ep, examplesAccount ep).
Definition block_main : M W HyperBlock := with_proxy gateway_client sampleArgs (λ provider finality ep, examplesBlock).
Definition vmQuery_main : M W string := with_proxy gateway_client sampleArgs (λ provider finality ep, examplesVMQuery ep).
End Programs.

(** ** A run over the client wrapper *)

Module ExamplesRun.
#[local] Existing Instances toyCrypto hexConverter toyCrypto_laws wordsJson proxyEndpointProvider.
#[local] Existing Instances ClientRun.pem_primitives ClientRun.one_shard ClientRun.range_strings ClientRun.log_clock.

#[local] Instance log_client : HttpClientWrapper (list request) := clientWrapper (λ _, None) ClientRun.log_Do TestnetGateway.
#[local] Instance no_finality : FinalityProvider (list request) := {| fp_CheckShardFinalization _ _ := mret () |}.

Definition ep : proxy := mkProxy false false false 0.
Definition base : baseProxy := mkBaseProxy None (mkTime 0 0) 60000000000.
Definition ran_sample : outcome (list string) * (baseProxy * list request) := examplesTransaction ep (base, []).

Example ran_sample_hashes : ran_sample.1 = Ok ["12"; "14"].
Proof. vm_compute. reflexivity. Qed.

Lemma sample_sends_second_twice_witness :
  ∃ a cfg s1 tx balance s2 tx2 h signature,
    BaseProxy.GetNetworkConfig (base, []) = (Ok cfg, s1) ∧
    Proxy.GetDefaultTransactionArguments ep (Some a) cfg s1 = (Ok (tx, balance), s2) ∧
    onsnd (Proxy.SendTransactions [tx2; tx2]) s2 = (Ok ["12"; "14"], ran_sample.2) ∧
    tx_Nonce tx2 = u64 (tx_Nonce tx + 1) ∧ tx_Nonce tx2 ≠ tx_Nonce tx ∧
    hex_DecodeString (tx_Signature tx2) = Ok signature ∧ verifies tx2 (GetPublicKey h) signature = Ok ().
Proof. apply (sample_sends_second_twice ep (base, []) ["12"; "14"] ran_sample.2). vm_compute. reflexivity. Defined.

(** The whole program asks the gateway for its configuration and the account, and posts
    one list. *)
Example ran_main :
  (λ r, (r.1, map (λ q, (req_Method q, req_URL q)) r.2)) (transaction_main (λ _, None) ClientRun.log_Do []) =
  (Ok ["12"; "14"],
   map (λ q, (req_Method q, req_URL q))
     [get_request TestnetGateway "network/config"; get_request TestnetGateway "address/413f42575f7f26fad3317a778771212fdb80245850981e48b58a4f25e344e8f9";
      post_request TestnetGateway "transaction/send-multiple" []]).
Proof. vm_compute. reflexivity. Qed.

Example ran_query : (examplesVMQuery ep (base, [])).1 = Ok (string_of_bytes (bytes_of_string "12")).
Proof. vm_compute. reflexivity. Qed.
End ExamplesRun.
