(* ===== verification/CliFlags.v ===== *)
(** * The options of the command line tool ([cmd/cli/main.go])

    The eleven flags of [app.Flags], each with the field of [argsConfig] it is stored
    in, and [main].  The parsing of the arguments is the library's: [CliLibrary] gives
    the values it finds for the flags, and it stores each through the flag's
    [Destination]. *)

From S2P Require Export ProxyClient.

Inductive flagValue := VString (s : string) | VUint64 (z : Z) | VBool (b : bool).

(** A flag's name and its destination, by the type of the flag. *)
Inductive flag :=
  | StringFlag (Name : string) (Destination : string → cfg → cfg)
  | Uint64Flag (Name : string) (Destination : Z → cfg → cfg)
  | BoolFlag (Name : string) (Destination : bool → cfg → cfg).

Definition flagName (f : flag) : string :=
  match f with StringFlag n _ | Uint64Flag n _ | BoolFlag n _ => n end.

(** ** The fields of [argsConfig] *)

Definition set_withFunding (b : bool) (c : cfg) : cfg :=
  mkCfg b (c_send c) (c_guardianSigned c) (c_guardedTxBy c) (c_guardian c) (c_sender c) (c_receiver c) (c_dataField c) (c_value c) (c_gasLimit c) (c_proxy c).
Definition set_send (b : bool) (c : cfg) : cfg :=
  mkCfg (c_withFunding c) b (c_guardianSigned c) (c_guardedTxBy c) (c_guardian c) (c_sender c) (c_receiver c) (c_dataField c) (c_value c) (c_gasLimit c) (c_proxy c).
Definition set_guardianSigned (b : bool) (c : cfg) : cfg :=
  mkCfg (c_withFunding c) (c_send c) b (c_guardedTxBy c) (c_guardian c) (c_sender c) (c_receiver c) (c_dataField c) (c_value c) (c_gasLimit c) (c_proxy c).
Definition set_guardedTxBy (s : string) (c : cfg) : cfg :=
  mkCfg (c_withFunding c) (c_send c) (c_guardianSigned c) s (c_guardian c) (c_sender c) (c_receiver c) (c_dataField c) (c_value c) (c_gasLimit c) (c_proxy c).
Definition set_guardian (s : string) (c : cfg) : cfg :=
  mkCfg (c_withFunding c) (c_send c) (c_guardianSigned c) (c_guardedTxBy c) s (c_sender c) (c_receiver c) (c_dataField c) (c_value c) (c_gasLimit c) (c_proxy c).
Definition set_sender (s : string) (c : cfg) : cfg :=
  mkCfg (c_withFunding c) (c_send c) (c_guardianSigned c) (c_guardedTxBy c) (c_guardian c) s (c_receiver c) (c_dataField c) (c_value c) (c_gasLimit c) (c_proxy c).
Definition set_receiver (s : string) (c : cfg) : cfg :=
  mkCfg (c_withFunding c) (c_send c) (c_guardianSigned c) (c_guardedTxBy c) (c_guardian c) (c_sender c) s (c_dataField c) (c_value c) (c_gasLimit c) (c_proxy c).
Definition set_dataField (s : string) (c : cfg) : cfg :=
  mkCfg (c_withFunding c) (c_send c) (c_guardianSigned c) (c_guardedTxBy c) (c_guardian c) (c_sender c) (c_receiver c) s (c_value c) (c_gasLimit c) (c_proxy c).
Definition set_value (s : string) (c : cfg) : cfg :=
  mkCfg (c_withFunding c) (c_send c) (c_guardianSigned c) (c_guardedTxBy c) (c_guardian c) (c_sender c) (c_receiver c) (c_dataField c) s (c_gasLimit c) (c_proxy c).
Definition set_gasLimit (z : Z) (c : cfg) : cfg :=
  mkCfg (c_withFunding c) (c_send c) (c_guardianSigned c) (c_guardedTxBy c) (c_guardian c) (c_sender c) (c_receiver c) (c_dataField c) (c_value c) z (c_proxy c).
Definition set_proxy (s : string) (c : cfg) : cfg :=
  mkCfg (c_withFunding c) (c_send c) (c_guardianSigned c) (c_guardedTxBy c) (c_guardian c) (c_sender c) (c_receiver c) (c_dataField c) (c_value c) (c_gasLimit c) s.

(** ** The flags *)

Definition guardedTxBy : flag := StringFlag "guardedTxBy" set_guardedTxBy.
Definition setGuardian : flag := StringFlag "setGuardian" set_guardian.
Definition sender : flag := StringFlag "sender" set_sender.
Definition receiver : flag := StringFlag "receiver" set_receiver.
Definition dataField : flag := StringFlag "dataField" set_dataField.
Definition value : flag := StringFlag "value" set_value.
Definition gasLimit : flag := Uint64Flag "gasLimit" set_gasLimit.
Definition withFunding : flag := BoolFlag "withFunding" set_withFunding.
Definition send : flag := BoolFlag "send" set_send.
Definition guardianSigned : flag := BoolFlag "guardianSigned" set_guardianSigned.
Definition proxyURL : flag := StringFlag "proxyURL" set_proxy.

(** [app.Flags] *)
Definition app_Flags : list flag :=
  [setGuardian; guardedTxBy; sender; receiver; value; dataField; withFunding; gasLimit; send; guardianSigned; proxyURL].

(** [argsConfig = &cfg{}] *)
Definition emptyCfg : cfg := mkCfg false false false "" "" "" "" "" "" 0 "".

(** A value for the flag of its name and type, through the destination. *)
Definition assign (f : flag) (v : flagValue) (c : cfg) : cfg :=
  match f, v with
  | StringFlag _ d, VString s => d s c
  | Uint64Flag _ d, VUint64 z => d z c
  | BoolFlag _ d, VBool b => d b c
  | _, _ => c
  end.

Definition flag_named (name : string) (fs : list flag) : option flag :=
  List.find (λ f, String.eqb (flagName f) name) fs.

Definition assign_all (fs : list flag) (values : list (string * flagValue)) (c : cfg) : cfg :=
  foldr (λ '(name, v) c, match flag_named name fs with Some f => assign f v c | None => c end) c values.

(** What the library finds in the arguments: at most one value for a flag, of the
    flag's type. *)
Class CliLibrary := { cli_parse : list flag → list string → outcome (list (string * flagValue)) }.

Definition has_type (f : flag) (v : flagValue) : bool :=
  match f, v with StringFlag _ _, VString _ | Uint64Flag _ _, VUint64 _ | BoolFlag _ _, VBool _ => true | _, _ => false end.
Definition well_typed (fs : list flag) (values : list (string * flagValue)) : Prop :=
  ∀ name v, (name, v) ∈ values → ∃ f, flag_named name fs = Some f ∧ has_type f v = true.

Class CliLibraryLaws `{CliLibrary} := {
  cli_parse_once fs args values : cli_parse fs args = Ok values → NoDup values.*1;
  cli_parse_typed fs args values : cli_parse fs args = Ok values → well_typed fs values }.

Definition argsConfig `{CliLibrary} (args : list string) : outcome cfg :=
  values ← cli_parse app_Flags args;
  Ok (assign_all app_Flags values emptyCfg).

Section Main.
Context `{Primitives} `{Crypto} `{PubkeyConverter} `{ShardingCoordinator} `{ApiJson} `{MapRangeZ string} `{CliLibrary}.
Context {W : Type} `{Clock W} `{Files W}.
Variable bad_url : string → option error.
Variable client_Do : request → W → (error + Http.response) * W.
Variable HasOptionGuardianSet : Transaction → bool.
Variable homePath : string.

(** The error of [app.Run] is dropped; [process]'s is its only other one. *)
Definition main (args : list string) : M W report :=
  c ← lift (argsConfig args);
  process_over_http bad_url client_Do HasOptionGuardianSet homePath c.
End Main.

(** ** Every option reaches the field its description is about *)

(** The documented meaning of an option: the part of the configuration it is. *)
Definition option_value (name : string) (c : cfg) : option flagValue :=
  if String.eqb name "guardedTxBy" then Some (VString (c_guardedTxBy c))
  else if String.eqb name "setGuardian" then Some (VString (c_guardian c))
  else if String.eqb name "sender" then Some (VString (c_sender c))
  else if String.eqb name "receiver" then Some (VString (c_receiver c))
  else if String.eqb name "dataField" then Some (VString (c_dataField c))
  else if String.eqb name "value" then Some (VString (c_value c))
  else if String.eqb name "gasLimit" then Some (VUint64 (c_gasLimit c))
  else if String.eqb name "withFunding" then Some (VBool (c_withFunding c))
  else if String.eqb name "send" then Some (VBool (c_send c))
  else if String.eqb name "guardianSigned" then Some (VBool (c_guardianSigned c))
  else if String.eqb name "proxyURL" then Some (VString (c_proxy c))
  else None.

Definition option_names : list string :=
  ["setGuardian"; "guardedTxBy"; "sender"; "receiver"; "value"; "dataField"; "withFunding"; "gasLimit"; "send";
   "guardianSigned"; "proxyURL"].

Lemma flag_names : map flagName app_Flags = option_names.
Proof. reflexivity. Qed.

Lemma flag_named_In name f : flag_named name app_Flags = Some f → f ∈ app_Flags ∧ flagName f = name.
Proof. intros [Hin Hn%String.eqb_eq]%List.find_some. split; [by apply list_elem_of_In|done]. Qed.

Lemma assign_value f v c name :
  f ∈ app_Flags → has_type f v = true → name ∈ option_names →
  option_value name (assign f v c) = if String.eqb name (flagName f) then Some v else option_value name c.
Proof.
  intros Hf Ht Hn. unfold option_names, app_Flags in *. rewrite !elem_of_cons, elem_of_nil in Hf. rewrite !elem_of_cons, elem_of_nil in Hn.
  destruct_or? Hf; subst; try done; (destruct v; try done); destruct_or? Hn; subst; try done.
Qed.

Lemma options_assigned values c name :
  NoDup values.*1 → well_typed app_Flags values → name ∈ option_names →
  option_value name (assign_all app_Flags values c) =
  match list_to_map (M := gmap string flagValue) values !! name with Some v => Some v | None => option_value name c end.
Proof.
  intros Hnd Ht Hn. induction values as [|[n v] values IH]; [done|].
  cbn in Hnd. apply NoDup_cons in Hnd as [Hni Hnd]. cbn [assign_all foldr list_to_map fst snd].
  destruct (Ht n v) as (f & Ef & Hty); [by left|]. rewrite Ef.
  destruct (flag_named_In _ _ Ef) as [Hin <-]. rewrite (assign_value f v _ name) by done.
  change (foldr _ c values) with (assign_all app_Flags values c).
  cbn [foldr uncurry]. unfold list_to_map in *. cbn.
  destruct (String.eqb_spec name (flagName f)) as [->|Hne]; [by rewrite lookup_insert_eq|].
  rewrite lookup_insert_ne by done. apply IH; [done|]. intros m u Hm. apply Ht. by right.
Qed.

(** the configuration that [process] runs with has, for every option of the tool, the
    value given on the command line, in the field that the option's description is
    about, and the zero value when the option is not given, in whatever order the
    options come. *)
Theorem options_reach_their_fields `{CliLibraryLaws} args c :
  argsConfig args = Ok c →
  ∃ values, cli_parse app_Flags args = Ok values ∧
    ∀ name, name ∈ option_names →
      option_value name c =
      match list_to_map (M := gmap string flagValue) values !! name with
      | Some v => Some v
      | None => option_value name emptyCfg
      end.
Proof.
  unfold argsConfig. destruct (cli_parse app_Flags args) as [values| |] eqn:Ep; cbn; [|done..]. intros [= <-].
  exists values. split; [done|]. intros name Hn.
  apply options_assigned; [by eapply cli_parse_once|by eapply cli_parse_typed|done].
Qed.

(** ** A parser of names and values in turn *)

Module CliFlagsRun.
Definition read_value (f : flag) (v : string) : flagValue :=
  match f with
  | StringFlag _ _ => VString v
  | Uint64Flag _ _ => VUint64 (default 0 (bigint_SetString v))
  | BoolFlag _ _ => VBool (String.eqb v "true")
  end.

Fixpoint read_pairs (fs : list flag) (args : list string) : list (string * flagValue) :=
  match args with
  | n :: v :: args =>
    match flag_named n fs with Some f => (n, read_value f v) :: read_pairs fs args | None => read_pairs fs args end
  | _ => []
  end.

#[local] Instance pairs_library : CliLibrary :=
  {| cli_parse fs args := Ok (map_to_list (list_to_map (M := gmap string flagValue) (read_pairs fs args))) |}.

Lemma read_pairs_typed fs args name v :
  (name, v) ∈ read_pairs fs args → ∃ f, flag_named name fs = Some f ∧ has_type f v = true.
Proof.
  induction args as [args IH] using (induction_ltof1 _ length). unfold ltof in IH.
  destruct args as [|n [|u args]]; [by intros ?%elem_of_nil..|]. cbn [read_pairs].
  destruct (flag_named n fs) as [f|] eqn:Ef; [|apply IH; cbn; lia].
  intros [[= -> ->]|Hin]%elem_of_cons; [|by apply (IH args); [cbn; lia|]]. exists f. split; [done|]. by destruct f.
Qed.

#[local] Instance pairs_library_laws : CliLibraryLaws.
Proof.
  split; cbn; intros fs args values [= <-].
  - apply NoDup_fst_map_to_list.
  - intros name v Hin%elem_of_map_to_list%elem_of_list_to_map_2. by eapply read_pairs_typed.
Qed.

Definition args : list string := ["receiver"; "eve"; "gasLimit"; "70000"; "send"; "true"; "sender"; "bob"].
Definition parsed : cfg := mkCfg false true false "" "" "bob" "eve" "" "" 70000 "".

Lemma options_reach_their_fields_witness :
  ∃ values, cli_parse app_Flags args = Ok values ∧
    ∀ name, name ∈ option_names →
      option_value name parsed =
      match list_to_map (M := gmap string flagValue) values !! name with
      | Some v => Some v
      | None => option_value name emptyCfg
      end.
Proof. apply (options_reach_their_fields args). vm_compute. reflexivity. Defined.
End CliFlagsRun.
