(* ===== verification/Disabled.v ===== *)
(** * The disabled components ([disabled/])

    The implementations that do nothing, which the repository hands to the node's
    constructors ([blockchain/addressGenerator.go], [headerCheck/headerCheckFactory.go]
    and its factory).  They have no state: a method is the value it answers, whatever it
    is asked.  A nil pointer or interface is [None], a nil or empty
    slice [[]], a nil or empty map [∅]; the types of the node are arguments.  A method
    without a result is [()]. *)

From S2P Require Export GoStd.

(** ** [accounts.go] *)

Definition Accounts_SetSyncer {AccountsDBSyncer : Type} (_ : AccountsDBSyncer) : outcome () := Ok ().
Definition Accounts_StartSnapshotIfNeeded : outcome () := Ok ().
Definition Accounts_RecreateTrieFromEpoch {RootHashHolder : Type} (_ : RootHashHolder) : outcome () := Ok ().
Definition Accounts_GetStackDebugFirstEntry : bytes := [].
Definition Accounts_SnapshotState (_ : bytes) (_ : Z) : () := ().
Definition Accounts_GetTrie {Trie : Type} (_ : bytes) : outcome (option Trie) := Ok None.
Definition Accounts_Close : outcome () := Ok ().
Definition Accounts_GetCode (_ : bytes) : bytes := [].
Definition Accounts_RecreateAllTries {Trie : Type} (_ : bytes) : outcome (gmap string Trie) := Ok ∅.
Definition Accounts_LoadAccount {AccountHandler : Type} (_ : bytes) : outcome (option AccountHandler) := Ok None.
Definition Accounts_SaveAccount {AccountHandler : Type} (_ : AccountHandler) : outcome () := Ok ().
Definition Accounts_GetAllLeaves {Context : Type} {TrieIteratorChannels : Type} {TrieLeafParser : Type}
    (_ : TrieIteratorChannels) (_ : Context) (_ : bytes) (_ : TrieLeafParser) :
    outcome () := Ok ().
Definition Accounts_Commit : outcome bytes := Ok [].
Definition Accounts_CommitInEpoch (_ : Z) (_ : Z) : outcome bytes := Ok [].
Definition Accounts_GetExistingAccount {AccountHandler : Type} (_ : bytes) : outcome (option AccountHandler) := Ok None.
Definition Accounts_JournalLen : Z := 0.
Definition Accounts_RemoveAccount (_ : bytes) : outcome () := Ok ().
Definition Accounts_RevertToSnapshot (_ : Z) : outcome () := Ok ().
Definition Accounts_RootHash : outcome bytes := Ok [].
Definition Accounts_RecreateTrie {RootHashHolder : Type} (_ : RootHashHolder) : outcome () := Ok ().
Definition Accounts_PruneTrie {PruningHandler : Type} {TriePruningIdentifier : Type}
    (_ : bytes) (_ : TriePruningIdentifier) (_ : PruningHandler) :
    () := ().
Definition Accounts_CancelPrune {TriePruningIdentifier : Type} (_ : bytes) (_ : TriePruningIdentifier) : () := ().
Definition Accounts_SetStateCheckpoint (_ : bytes) : () := ().
Definition Accounts_IsPruningEnabled : bool := false.
Definition Accounts_GetNumCheckpoints : Z := 0.
Definition Accounts_GetAccountFromBytes {AccountHandler : Type} (_ : bytes) (_ : bytes) :
    outcome (option AccountHandler) := Ok None.

(** ** [blockchain.go] *)

Definition Blockchain_GetFinalBlockInfo : Z * bytes * bytes := (0, [], []).
Definition Blockchain_SetFinalBlockInfo (_ : Z) (_ : bytes) (_ : bytes) : () := ().
Definition Blockchain_GetGenesisHeader {HeaderHandler : Type} : option HeaderHandler := None.
Definition Blockchain_SetGenesisHeader {HeaderHandler : Type} (_ : HeaderHandler) : outcome () := Ok ().
Definition Blockchain_GetGenesisHeaderHash : bytes := [].
Definition Blockchain_SetGenesisHeaderHash (_ : bytes) : () := ().
Definition Blockchain_GetCurrentBlockHeader {HeaderHandler : Type} : option HeaderHandler := None.
Definition Blockchain_SetCurrentBlockHeader {HeaderHandler : Type} (_ : HeaderHandler) : outcome () := Ok ().
Definition Blockchain_GetCurrentBlockHeaderHash : bytes := [].
Definition Blockchain_SetCurrentBlockHeaderHash (_ : bytes) : () := ().
Definition Blockchain_CreateNewHeader {HeaderHandler : Type} : option HeaderHandler := None.
Definition Blockchain_GetCurrentBlockRootHash : bytes := [].
Definition Blockchain_SetCurrentBlockHeaderAndRootHash {HeaderHandler : Type} (_ : HeaderHandler) (_ : bytes) :
    outcome () := Ok ().

(** ** [blockchainHookCounter.go] *)

Definition BlockChainHookCounter_ProcessCrtNumberOfTrieReadsCounter : outcome () := Ok ().
Definition BlockChainHookCounter_ProcessMaxBuiltInCounters {ContractCallInput : Type} (_ : ContractCallInput) :
    outcome () := Ok ().
Definition BlockChainHookCounter_ResetCounters : () := ().
Definition BlockChainHookCounter_SetMaximumValues (_ : gmap string Z) : () := ().
Definition BlockChainHookCounter_GetCounterValues : gmap string Z := ∅.

(** ** [builtInFunctionContainer.go] *)

Definition errNotImplemented : error := ErrVar "disabled.errNotImplemented".

Definition BuiltInFunctionContainer_Get {BuiltinFunction : Type} (_ : string) :
    outcome (option BuiltinFunction) := Fail errNotImplemented.
Definition BuiltInFunctionContainer_Add {BuiltinFunction : Type} (_ : string) (_ : BuiltinFunction) : outcome () := Ok ().
Definition BuiltInFunctionContainer_Replace {BuiltinFunction : Type} (_ : string) (_ : BuiltinFunction) :
    outcome () := Ok ().
Definition BuiltInFunctionContainer_Remove (_ : string) : () := ().
Definition BuiltInFunctionContainer_Len : Z := 0.
Definition BuiltInFunctionContainer_Keys : gset string := ∅.

(** ** [cache.go] *)

Definition Cache_Clear : () := ().
Definition Cache_Put {Value : Type} (_ : bytes) (_ : Value) (_ : Z) : bool := false.
Definition Cache_Get {Value : Type} (_ : bytes) : option Value * bool := (None, false).

(** ** [datapool.go] *)

Definition DataPool_PeerAuthentications {Cacher : Type} : option Cacher := None.
Definition DataPool_Heartbeats {Cacher : Type} : option Cacher := None.
Definition DataPool_Close : outcome () := Ok ().
Definition DataPool_TrieNodesChunks {Cacher : Type} : option Cacher := None.
Definition DataPool_Transactions {ShardedDataCacherNotifier : Type} : option ShardedDataCacherNotifier := None.
Definition DataPool_UnsignedTransactions {ShardedDataCacherNotifier : Type} : option ShardedDataCacherNotifier := None.
Definition DataPool_RewardTransactions {ShardedDataCacherNotifier : Type} : option ShardedDataCacherNotifier := None.
Definition DataPool_Headers {HeadersPool : Type} : option HeadersPool := None.
Definition DataPool_MiniBlocks {Cacher : Type} : option Cacher := None.
Definition DataPool_PeerChangesBlocks {Cacher : Type} : option Cacher := None.
Definition DataPool_TrieNodes {Cacher : Type} : option Cacher := None.
Definition DataPool_SmartContracts {Cacher : Type} : option Cacher := None.
Definition DataPool_CurrentBlockTxs {TransactionCacher : Type} : option TransactionCacher := None.
Definition DataPool_CurrentEpochValidatorInfo {ValidatorInfoCacher : Type} : option ValidatorInfoCacher := None.
Definition DataPool_ValidatorsInfo {ShardedDataCacherNotifier : Type} : option ShardedDataCacherNotifier := None.

(** ** [enableEpochsHandler.go] *)

Definition EnableEpochsHandler_GetCurrentEpoch : Z := 0.
Definition EnableEpochsHandler_IsFlagDefined (_ : string) : bool := true.
Definition EnableEpochsHandler_IsFlagEnabled (_ : string) : bool := true.
Definition EnableEpochsHandler_IsFlagEnabledInEpoch (_ : string) (_ : Z) : bool := true.
Definition EnableEpochsHandler_GetActivationEpoch (_ : string) : Z := 0.

(** ** [epochNotifier.go] *)

Definition EpochNotifier_RegisterNotifyHandler {EpochSubscriberHandler : Type} (_ : EpochSubscriberHandler) : () := ().
Definition EpochNotifier_CurrentEpoch : Z := 0.
Definition EpochNotifier_CheckEpoch {HeaderHandler : Type} (_ : HeaderHandler) : () := ().

(** ** [epochStartNotifier.go] *)

Definition EpochStartNotifier_RegisterHandler {ActionHandler : Type} (_ : ActionHandler) : () := ().
Definition EpochStartNotifier_UnregisterHandler {ActionHandler : Type} (_ : ActionHandler) : () := ().

(** ** [fallbackHeaderValidator.go] *)

Definition FallBackHeaderValidator_ShouldApplyFallbackValidation {HeaderHandler : Type} (_ : HeaderHandler) : bool := false.

(** ** [gasScheduleNotifier.go] *)

Definition GasScheduleNotifier_RegisterNotifyHandler {GasScheduleSubscribeHandler : Type} (_ : GasScheduleSubscribeHandler) :
    () := ().
Definition GasScheduleNotifier_LatestGasSchedule : gmap string (gmap string Z) := ∅.
Definition GasScheduleNotifier_UnRegisterAll : () := ().
Definition GasScheduleNotifier_ChangeGasSchedule (_ : gmap string (gmap string Z)) : () := ().

(** ** [globalSettingsHandler.go] *)

Definition GlobalSettingsHandler_IsPaused (_ : bytes) : bool := false.
Definition GlobalSettingsHandler_IsLimitedTransfer (_ : bytes) : bool := false.

(** ** [missingTrieNodesNotifier.go] *)

Definition MissingTrieNodesNotifier_RegisterHandler {StateSyncNotifierSubscriber : Type} (_ : StateSyncNotifierSubscriber) :
    outcome () := Ok ().
Definition MissingTrieNodesNotifier_AsyncNotifyMissingTrieNode (_ : bytes) : () := ().

(** ** [nodeTypeProvider.go] *)

Definition NodeTypeProvider_SetType (_ : string) : () := ().
Definition NodeTypeProvider_GetType : string := "".

(** ** [shardCoordinator.go] *)

Definition ShardCoordinator_NumberOfShards : Z := 0.
Definition ShardCoordinator_ComputeId (_ : bytes) : Z := 0.
Definition ShardCoordinator_SelfId : Z := 0.
Definition ShardCoordinator_SameShard (_ : bytes) (_ : bytes) : bool := false.
Definition ShardCoordinator_CommunicationIdentifier (_ : Z) : string := "".

(** ** [shuffleOutHandler.go] *)

Definition ShuffledOutHandler_Process (_ : Z) : outcome () := Ok ().
Definition ShuffledOutHandler_RegisterHandler (_ : Z → ()) : () := ().
Definition ShuffledOutHandler_CurrentShardID : Z := 0.

(** ** [simpleESDTNFTStorageHandler.go] *)

Definition SimpleESDTNFTStorageHandler_SaveNFTMetaData {TransactionHandler : Type} (_ : TransactionHandler) :
    outcome () := Ok ().
Definition SimpleESDTNFTStorageHandler_GetESDTNFTTokenOnDestination {ESDigitalToken : Type} {UserAccountHandler : Type}
    (_ : UserAccountHandler) (_ : bytes) (_ : Z) :
    outcome (option ESDigitalToken * bool) := Ok (None, false).
Definition SimpleESDTNFTStorageHandler_SaveNFTMetaDataToSystemAccount {TransactionHandler : Type} (_ : TransactionHandler) :
    outcome () := Ok ().

(** ** [storageService.go] *)

Definition StorageService_GetAllStorers {Storer : Type} : gmap Z Storer := ∅.
Definition StorageService_GetStorer {Storer : Type} (_ : Z) : outcome (option Storer) := Ok None.
Definition StorageService_AddStorer {Storer : Type} (_ : Z) (_ : Storer) : () := ().
Definition StorageService_Has (_ : Z) (_ : bytes) : outcome () := Ok ().
Definition StorageService_Get (_ : Z) (_ : bytes) : outcome bytes := Ok [].
Definition StorageService_Put (_ : Z) (_ : bytes) (_ : bytes) : outcome () := Ok ().
Definition StorageService_SetEpochForPutOperation (_ : Z) : () := ().
Definition StorageService_GetAll (_ : Z) (_ : list bytes) : outcome (gmap string bytes) := Ok ∅.
Definition StorageService_Destroy : outcome () := Ok ().
Definition StorageService_CloseAll : outcome () := Ok ().

(** ** [storer.go] *)

Definition Storer_RemoveFromCurrentEpoch (_ : bytes) : outcome () := Ok ().
Definition Storer_Put (_ : bytes) (_ : bytes) : outcome () := Ok ().
Definition Storer_PutInEpoch (_ : bytes) (_ : bytes) (_ : Z) : outcome () := Ok ().
Definition Storer_Get (_ : bytes) : outcome bytes := Ok [].
Definition Storer_GetFromEpoch (_ : bytes) (_ : Z) : outcome bytes := Ok [].
Definition Storer_GetBulkFromEpoch {KeyValuePair : Type} (_ : list bytes) (_ : Z) : outcome (list KeyValuePair) := Ok [].
Definition Storer_Has (_ : bytes) : outcome () := Ok ().
Definition Storer_SearchFirst (_ : bytes) : outcome bytes := Ok [].
Definition Storer_Remove (_ : bytes) : outcome () := Ok ().
Definition Storer_ClearCache : () := ().
Definition Storer_DestroyUnit : outcome () := Ok ().
Definition Storer_GetOldestEpoch : outcome Z := Ok 0.
Definition Storer_Close : outcome () := Ok ().
Definition Storer_RangeKeys (_ : bytes → bytes → bool) : () := ().
